(** * A shallow embedding of the "friendly game" scoring and race engines

    The repository holds two Python engines:
    - [board_A/board_A_python/game.py]: a score race (variant A);
    - [board_B/board_B_python/game.py]: the same scoring rules plus a
      50-cell yut race (variant B).

    Python values are embedded as follows.
    - [int] is [Z] (unbounded), [//] on integers is [Z.div] (floor).  An
      [int] is printed in full: the interpreter's limit on the digits of
      an [int] it converts to text ([sys.get_int_max_str_digits()], 4300
      unless set otherwise), beyond which an f-string or [json.dumps]
      raises [ValueError], is not modelled.
    - [str] is [string], read as the UTF-8 encoding of the Python string;
      the byte-wise order of [String.ltb] is then the code-point order
      Python uses to compare strings.
    - a [dict] with string keys is a [gmap string _]; subscripting a key
      that is absent raises [KeyError].
    - the list of [Team] objects is a [list Team]; a reference to a team
      is its index in that list.
    - the clock, the random generator and the storage file are explicit:
      every operation receives the values it reads from the clock and the
      generator, and the file is a component of the state; writing the
      file succeeds.
    - a method either returns, with its result and the state it leaves,
      or raises; the state a method leaves when it raises is not kept. *)

From stdpp Require Import gmap strings list fin_maps pretty sorting.
From Stdlib Require Import Ascii ZArith QArith Lia.

Open Scope Z_scope.

(** ** Python primitives *)

Module Py.

(** Exceptions that can escape an engine method. *)
Inductive exception :=
| KeyError (key : string)
| TypeError
| AttributeError.

(** The outcome of evaluating a Python expression or call. *)
Inductive exc (A : Type) :=
| Ok (a : A)
| Raise (e : exception).
Arguments Ok {A} a.
Arguments Raise {A} e.

Definition bind {A B} (m : exc A) (k : A -> exc B) : exc B :=
  match m with
  | Ok a => k a
  | Raise e => Raise e
  end.

#[global] Instance exc_ret : MRet exc := fun _ a => Ok a.
#[global] Instance exc_bind : MBind exc := fun _ _ k m => bind m k.

(** [d[k]] on a dict. *)
Definition getitem {V} (d : gmap string V) (k : string) : exc V :=
  match d !! k with
  | Some v => Ok v
  | None => Raise (KeyError k)
  end.

(** [k in l] on a list of strings. *)
Definition contains (l : list string) (k : string) : bool :=
  bool_decide (k ∈ l).

(** Truth value of a [str]: the empty string is false. *)
Definition truthy (s : string) : bool :=
  negb (String.eqb s "").

(** Truth value of an [Optional[str]]: [None] and the empty string are false. *)
Definition truthy_opt (o : option string) : bool :=
  match o with
  | Some s => truthy s
  | None => false
  end.

(** *** [str.strip]

    [str.strip()] removes the leading and trailing characters for which
    [str.isspace] holds.  On the UTF-8 encoding these are the encodings of
    the following code points. *)
Definition whitespace_code_points : list N :=
  [9; 10; 11; 12; 13; 28; 29; 30; 31; 32; 133; 160; 5760;
   8192; 8193; 8194; 8195; 8196; 8197; 8198; 8199; 8200; 8201; 8202;
   8232; 8233; 8239; 8287; 12288]%N.

Definition byte (n : N) : ascii := ascii_of_N n.

(** UTF-8 encoding of a code point below 0x10000. *)
Definition utf8 (cp : N) : string :=
  if (cp <? 128)%N then String (byte cp) ""
  else if (cp <? 2048)%N then
    String (byte (192 + cp / 64)) (String (byte (128 + cp mod 64)) "")
  else
    String (byte (224 + cp / 4096))
      (String (byte (128 + (cp / 64) mod 64))
         (String (byte (128 + cp mod 64)) "")).

Definition whitespace : list string := utf8 <$> whitespace_code_points.

(** [drop_prefix p s] is the rest of [s] after its prefix [p], if any. *)
Fixpoint drop_prefix (p s : string) : option string :=
  match p, s with
  | EmptyString, _ => Some s
  | String a p', String b s' =>
      if Ascii.eqb a b then drop_prefix p' s' else None
  | String _ _, EmptyString => None
  end.

(** The rest of [s] after one leading element of [ps], if [s] starts with one. *)
Fixpoint drop_one (ps : list string) (s : string) : option string :=
  match ps with
  | [] => None
  | p :: ps' =>
      match drop_prefix p s with
      | Some s' => Some s'
      | None => drop_one ps' s
      end
  end.

Fixpoint drop_leading (fuel : nat) (ps : list string) (s : string) : string :=
  match fuel with
  | O => s
  | S fuel' =>
      match drop_one ps s with
      | Some s' => drop_leading fuel' ps s'
      | None => s
      end
  end.

Definition lstrip (s : string) : string :=
  drop_leading (String.length s) whitespace s.

Definition rstrip (s : string) : string :=
  String.rev (drop_leading (String.length s) (String.rev <$> whitespace) (String.rev s)).

Definition strip (s : string) : string := rstrip (lstrip s).

(** *** [datetime.now().isoformat(timespec="seconds")] *)
Record datetime := mkDatetime {
  year : nat; month : nat; day : nat;
  hour : nat; minute : nat; second : nat
}.

Definition pad2 (n : nat) : string :=
  if (n <? 10)%nat then "0" +:+ pretty n else pretty n.

Definition pad4 (n : nat) : string :=
  if (n <? 10)%nat then "000" +:+ pretty n
  else if (n <? 100)%nat then "00" +:+ pretty n
  else if (n <? 1000)%nat then "0" +:+ pretty n
  else pretty n.

Definition isoformat (d : datetime) : string :=
  pad4 (year d) +:+ "-" +:+ pad2 (month d) +:+ "-" +:+ pad2 (day d) +:+ "T"
  +:+ pad2 (hour d) +:+ ":" +:+ pad2 (minute d) +:+ ":" +:+ pad2 (second d).

(** *** Values read back by [json.loads]

    A float is kept without its value: no engine code depends on it. *)
Inductive value :=
| VNone
| VBool (b : bool)
| VInt (z : Z)
| VFloat
| VStr (s : string)
| VList (l : list value)
| VDict (d : list (string * value)).

(** [d.get(k, default)] on a parsed object: JSON objects are read into
    dicts, so a key occurs once. *)
Fixpoint assoc (d : list (string * value)) (k : string) : option value :=
  match d with
  | [] => None
  | (k', v) :: d' => if String.eqb k' k then Some v else assoc d' k
  end.

(** Iterating over a value, as [for x in v] and [list(v)] do: a list gives
    its elements, a dict its keys, a string its characters; other values
    are not iterable. *)
Definition is_continuation (a : ascii) : bool :=
  let n := N_of_ascii a in (128 <=? n)%N && (n <? 192)%N.

Fixpoint chars_go (cur : string) (s : string) : list string :=
  match s with
  | EmptyString => [String.rev cur]
  | String a s' =>
      if is_continuation a then chars_go (String a cur) s'
      else String.rev cur :: chars_go (String a "") s'
  end.

Definition chars (s : string) : list string :=
  match s with
  | EmptyString => []
  | String a s' => chars_go (String a "") s'
  end.

Definition iterate (v : value) : exc (list value) :=
  match v with
  | VList l => Ok l
  | VDict d => Ok (VStr ∘ fst <$> d)
  | VStr s => Ok (VStr <$> chars s)
  | _ => Raise TypeError
  end.

(** [isinstance(v, int)]: [bool] is a subclass of [int]. *)
Definition is_int (v : value) : bool :=
  match v with
  | VInt _ | VBool _ => true
  | _ => false
  end.

(** [v // n] for an integer [n] other than zero. *)
Definition floordiv (v : value) (n : Z) : exc value :=
  match v with
  | VInt z => Ok (VInt (z `div` n))
  | VBool b => Ok (VInt ((if b then 1 else 0) `div` n))
  | VFloat => Ok VFloat
  | _ => Raise TypeError
  end.

(** The storage file: absent, present with text [json.loads] rejects, or
    present with text that parses to a value. *)
Inductive file :=
| Absent
| Unparsable
| Parsed (v : value).

(** *** [sorted(l, key=...)]

    [sorted] is stable: elements with equal keys keep their order.  The
    result of a stable sort by a total order on keys is unique, so it is
    given here by insertion from the right; [lt] is [<] on keys. *)
Section sorted.
Context {A K : Type} (lt : K -> K -> bool) (key : A -> K).

Fixpoint insert (x : A) (l : list A) : list A :=
  match l with
  | [] => [x]
  | y :: l' => if lt (key y) (key x) then y :: insert x l' else x :: l
  end.

Definition sorted (l : list A) : list A := foldr insert [] l.
End sorted.

(** [l.index(x)] when [x in l], as an [int]. *)
Definition index (l : list string) (x : string) : option Z :=
  (Z.of_nat ∘ fst) <$> list_find (λ y, y = x) l.

End Py.

Import Py.

(** ** Constants

    Both [game.py] files define these with the same values. *)

Definition BASE_POINTS : Z := 10.
Definition DIFFICULTY_POINTS : gmap string Z :=
  list_to_map [("easy", 10); ("medium", 20); ("hard", 30)].
Definition DIFFICULTY_LABELS : gmap string string :=
  list_to_map [("easy", "쉬움"); ("medium", "보통"); ("hard", "어려움")].
Definition TEAM_MEMBER_BONUS_POINTS : Z := 20.
Definition TEAM_MEMBER_BONUS_START : Z := 3.

Definition SET_BONUS_POINTS : Z := 40.
Definition LINE_BONUS_POINTS : Z := 25.
Definition LINE_THRESHOLD : Z := 3.
Definition CATEGORIES : list string := ["talk"; "teamplay"; "help"; "challenge"].
Definition CATEGORY_LABELS : gmap string string :=
  list_to_map [("talk", "대화"); ("teamplay", "협동"); ("help", "도움"); ("challenge", "도전")].

(** [{c: 0 for c in CATEGORIES}] *)
Definition zero_counts : gmap string Z :=
  list_to_map ((λ c, (c, 0)) <$> CATEGORIES).

(** [k in d] on a dict. *)
Definition has_key {V} (d : gmap string V) (k : string) : bool :=
  bool_decide (is_Some (d !! k)).

(** [all(d[c] > 0 for c in cs)]: the generator stops at the first count
    that is not positive. *)
Fixpoint all_positive (d : gmap string Z) (cs : list string) : exc bool :=
  match cs with
  | [] => Ok true
  | c :: cs' =>
      n ← getitem d c;
      if 0 <? n then all_positive d cs' else Ok false
  end.

(** A [for] loop whose body may raise. *)
Fixpoint for_each {A S} (body : A -> S -> exc S) (l : list A) (s : S) : exc S :=
  match l with
  | [] => Ok s
  | x :: l' => s' ← body x s; for_each body l' s'
  end.

(** A dict of counts as the JSON object [asdict] and [json.dumps] write;
    the order of the keys of an object carries no meaning. *)
Definition counts_value (d : gmap string Z) : value :=
  VDict (prod_map (λ k, k) VInt <$> map_to_list d).

(** ** Variant B: scoring and the yut race *)

Module BoardB.

Definition FINISH_POS : Z := 50.
Definition CHECKPOINT_INTERVAL : Z := 10.
Definition SCORE_PER_THROW : Z := 40.

Record Outcome := mkOutcome {
  key : string; label : string; step : Z; weight : Z; extra_throw : Z
}.

Definition YUT_OUTCOMES : list Outcome :=
  [ mkOutcome "do" "도" 1 34 0;
    mkOutcome "gae" "개" 2 26 0;
    mkOutcome "geol" "걸" 3 17 0;
    mkOutcome "yut" "윷" 4 11 1;
    mkOutcome "mo" "모" 5 8 1;
    mkOutcome "backdo" "빽도" (-1) 4 0 ].

Record Team := mkTeam {
  id : string;
  name : string;
  score : Z;
  mission_count : Z;
  throw_chance : Z;
  throw_granted_by_score : Z;
  position : Z;
  finished_at : option string;
  category_count : gmap string Z;
  set_bonus_taken : Z;
  line_bonus_taken : gmap string Z
}.

(** [Team(id=..., name=...)]: the defaults and [__post_init__]. *)
Definition new_team (team_id team_name : string) : Team :=
  mkTeam team_id team_name 0 0 0 0 0 None zero_counts 0 zero_counts.

(** Assignments to one attribute of a team. *)
Definition set_score (t : Team) (v : Z) : Team :=
  mkTeam (id t) (name t) v (mission_count t) (throw_chance t)
    (throw_granted_by_score t) (position t) (finished_at t)
    (category_count t) (set_bonus_taken t) (line_bonus_taken t).
Definition set_mission_count (t : Team) (v : Z) : Team :=
  mkTeam (id t) (name t) (score t) v (throw_chance t)
    (throw_granted_by_score t) (position t) (finished_at t)
    (category_count t) (set_bonus_taken t) (line_bonus_taken t).
Definition set_throw_chance (t : Team) (v : Z) : Team :=
  mkTeam (id t) (name t) (score t) (mission_count t) v
    (throw_granted_by_score t) (position t) (finished_at t)
    (category_count t) (set_bonus_taken t) (line_bonus_taken t).
Definition set_throw_granted_by_score (t : Team) (v : Z) : Team :=
  mkTeam (id t) (name t) (score t) (mission_count t) (throw_chance t)
    v (position t) (finished_at t)
    (category_count t) (set_bonus_taken t) (line_bonus_taken t).
Definition set_position (t : Team) (v : Z) : Team :=
  mkTeam (id t) (name t) (score t) (mission_count t) (throw_chance t)
    (throw_granted_by_score t) v (finished_at t)
    (category_count t) (set_bonus_taken t) (line_bonus_taken t).
Definition set_finished_at (t : Team) (v : option string) : Team :=
  mkTeam (id t) (name t) (score t) (mission_count t) (throw_chance t)
    (throw_granted_by_score t) (position t) v
    (category_count t) (set_bonus_taken t) (line_bonus_taken t).
Definition set_category_count (t : Team) (v : gmap string Z) : Team :=
  mkTeam (id t) (name t) (score t) (mission_count t) (throw_chance t)
    (throw_granted_by_score t) (position t) (finished_at t)
    v (set_bonus_taken t) (line_bonus_taken t).
Definition set_set_bonus_taken (t : Team) (v : Z) : Team :=
  mkTeam (id t) (name t) (score t) (mission_count t) (throw_chance t)
    (throw_granted_by_score t) (position t) (finished_at t)
    (category_count t) v (line_bonus_taken t).
Definition set_line_bonus_taken (t : Team) (v : gmap string Z) : Team :=
  mkTeam (id t) (name t) (score t) (mission_count t) (throw_chance t)
    (throw_granted_by_score t) (position t) (finished_at t)
    (category_count t) (set_bonus_taken t) v.

Record LogEntry := mkLogEntry { at_ : string; text : string }.

(** The attributes of a [Game] object. *)
Record Game := mkGame {
  teams : list Team;
  logs : list LogEntry;
  finish_order : list string
}.

(** [Game()] *)
Definition new_game : Game := mkGame [] [] [].

Definition set_teams (g : Game) (v : list Team) : Game :=
  mkGame v (logs g) (finish_order g).
Definition set_logs (g : Game) (v : list LogEntry) : Game :=
  mkGame (teams g) v (finish_order g).
Definition set_finish_order (g : Game) (v : list string) : Game :=
  mkGame (teams g) (logs g) v.

(** The game object together with the content of [STORAGE_FILE]. *)
Record World := mkWorld { game : Game; STORAGE_FILE : file }.

(** A method body runs on the game and the number of times it has read
    the clock so far: the [n]-th call of [datetime.now()] within one
    method call returns [clock n]. *)
Definition Run : Type := Game * nat.

Definition asdict_team (t : Team) : value :=
  VDict [ ("id", VStr (id t)); ("name", VStr (name t)); ("score", VInt (score t));
          ("mission_count", VInt (mission_count t));
          ("throw_chance", VInt (throw_chance t));
          ("throw_granted_by_score", VInt (throw_granted_by_score t));
          ("position", VInt (position t));
          ("finished_at", match finished_at t with Some s => VStr s | None => VNone end);
          ("category_count", counts_value (category_count t));
          ("set_bonus_taken", VInt (set_bonus_taken t));
          ("line_bonus_taken", counts_value (line_bonus_taken t)) ].

Definition asdict_log (l : LogEntry) : value :=
  VDict [ ("at", VStr (at_ l)); ("text", VStr (text l)) ].

Definition payload (g : Game) : value :=
  VDict [ ("teams", VList (asdict_team <$> teams g));
          ("logs", VList (asdict_log <$> logs g));
          ("finish_order", VList (VStr <$> finish_order g)) ].

Definition save (g : Game) : World := mkWorld g (Parsed (payload g)).

Definition add_log (clock : nat -> datetime) (msg : string) (r : Run) : Run :=
  let '(g, n) := r in
  (set_logs g (take 150 (mkLogEntry (isoformat (clock n)) msg :: logs g)), S n).

(** [_new_id]: [millis] is the clock in milliseconds, [rand] the draw of
    [random.randint(1000, 9999)]. *)
Definition _new_id (millis rand : Z) : string :=
  "team_" +:+ pretty millis +:+ "_" +:+ pretty rand.

Definition add_team (millis rand : Z) (clock : nat -> datetime)
    (name0 : string) (w : World) : (bool * string) * World :=
  let g := game w in
  let name := strip name0 in
  if negb (truthy name) then
    ((false, "팀 이름을 입력해주세요."), w)
  else if existsb (λ t, String.eqb (BoardB.name t) name) (teams g) then
    ((false, "이미 같은 팀 이름이 있습니다."), w)
  else
    let g := set_teams g (teams g ++ [new_team (_new_id millis rand) name]) in
    let '(g, _) := add_log clock ("팀 등록: " +:+ name) (g, O) in
    ((true, "팀이 추가되었습니다: " +:+ name), save g).

(** [find_team]: the first team with the id, with its index in [teams]. *)
Definition find_team (g : Game) (team_id : string) : option (nat * Team) :=
  list_find (λ t, id t = team_id) (teams g).

Definition line_bonus (c : string) (acc : Z * Team) : exc (Z * Team) :=
  let '(bonus, team) := acc in
  n ← getitem (category_count team) c;
  let ready := n `div` LINE_THRESHOLD in
  taken ← getitem (line_bonus_taken team) c;
  if taken <? ready then
    let gained := ready - taken in
    Ok (bonus + gained * LINE_BONUS_POINTS,
        set_line_bonus_taken team (<[c := ready]> (line_bonus_taken team)))
  else Ok (bonus, team).

Definition compute_bonus (team : Team) : exc (Z * Team) :=
  let bonus := 0 in
  done_all ← all_positive (category_count team) CATEGORIES;
  let '(bonus, team) :=
    if done_all && (set_bonus_taken team =? 0)
    then (bonus + SET_BONUS_POINTS, set_set_bonus_taken team 1)
    else (bonus, team) in
  for_each line_bonus CATEGORIES (bonus, team).

Definition apply_score_throw_milestone (team : Team) : Z * Team :=
  let eligible := score team `div` SCORE_PER_THROW in
  if eligible <=? throw_granted_by_score team then (0, team)
  else
    let gained := eligible - throw_granted_by_score team in
    let team := set_throw_granted_by_score team eligible in
    let team := set_throw_chance team (throw_chance team + gained) in
    (gained, team).

Definition record_activity (clock : nat -> datetime)
    (team_id difficulty category : string) (participant_count : Z)
    (title : string) (w : World) : exc ((bool * string) * World) :=
  let g := game w in
  match find_team g team_id with
  | None => Ok ((false, "유효하지 않은 팀입니다."), w)
  | Some (i, team) =>
    if negb (has_key DIFFICULTY_POINTS difficulty) then
      Ok ((false, "유효하지 않은 난이도입니다."), w)
    else if negb (contains CATEGORIES category) then
      Ok ((false, "유효하지 않은 카테고리입니다."), w)
    else if participant_count <? 1 then
      Ok ((false, "참여 인원은 1명 이상이어야 합니다."), w)
    else
      let extra_members := Z.max 0 (participant_count - (TEAM_MEMBER_BONUS_START - 1)) in
      let member_bonus := extra_members * TEAM_MEMBER_BONUS_POINTS in
      points ← getitem DIFFICULTY_POINTS difficulty;
      let earned := BASE_POINTS + points + member_bonus in

      let team := set_score team (score team + earned) in
      let team := set_mission_count team (mission_count team + 1) in
      count ← getitem (category_count team) category;
      let team := set_category_count team (<[category := count + 1]> (category_count team)) in

      '(bonus, team) ← compute_bonus team;
      let team := if 0 <? bonus then set_score team (score team + bonus) else team in

      let '(throws, team) := apply_score_throw_milestone team in

      let detail := if truthy (strip title) then " [" +:+ strip title +:+ "]" else "" in
      let bonus_text := if 0 <? bonus then ", 보너스 +" +:+ pretty bonus +:+ "점" else "" in
      let throw_text := if 0 <? throws then ", 던지기 +" +:+ pretty throws +:+ "회" else "" in
      difficulty_label ← getitem DIFFICULTY_LABELS difficulty;
      category_label ← getitem CATEGORY_LABELS category;

      let g := set_teams g (<[i := team]> (teams g)) in
      let '(g, _) :=
        add_log clock
          (name team +:+ detail +:+ ": 활동 +" +:+ pretty earned +:+ "점 (난이도:"
           +:+ difficulty_label +:+ ", 카테고리:" +:+ category_label +:+ ", 참여:"
           +:+ pretty participant_count +:+ "명)" +:+ bonus_text +:+ throw_text)
          (g, O) in
      Ok ((true, "활동이 반영되었습니다."), save g)
  end.

(** [draw_yut]: [r] is the draw of [random.uniform(0, total_weight)]; a
    finite float is a rational number, and the running sum of the integer
    weights is exact. *)
Fixpoint draw_from (r : Q) (acc : Z) (outcomes : list Outcome) : option Outcome :=
  match outcomes with
  | [] => None
  | outcome :: rest =>
      let acc := acc + weight outcome in
      if Qle_bool r (inject_Z acc) then Some outcome else draw_from r acc rest
  end.

Definition draw_yut (r : Q) : Outcome :=
  match draw_from r 0 YUT_OUTCOMES with
  | Some outcome => outcome
  | None => mkOutcome "do" "도" 1 34 0
  end.

Definition ensure_finish (clock : nat -> datetime) (i : nat) (r : Run) : Run :=
  let '(g, n) := r in
  match teams g !! i with
  | None => r
  | Some team =>
    if (FINISH_POS <=? position team) && negb (truthy_opt (finished_at team)) then
      let team := set_position team FINISH_POS in
      let team := set_finished_at team (Some (isoformat (clock n))) in
      let g := set_finish_order g (finish_order g ++ [id team]) in
      let team := set_score team (score team + 50) in
      let '(throws, team) := apply_score_throw_milestone team in
      let throw_text := if 0 <? throws then ", 던지기 +" +:+ pretty throws +:+ "회" else "" in
      add_log clock (name team +:+ " 완주! +50점" +:+ throw_text)
        (set_teams g (<[i := team]> (teams g)), S n)
    else r
  end.

(** The condition of the list comprehension in [capture_opponents]. *)
Definition is_captured (actor t : Team) : bool :=
  negb (String.eqb (id t) (id actor))
  && negb (truthy_opt (finished_at t))
  && (position t =? position actor).

(** The teams the comprehension selects, as indices into [teams], the
    first of which is [j]. *)
Fixpoint captured_from (actor : Team) (j : nat) (ts : list Team) : list nat :=
  match ts with
  | [] => []
  | t :: ts' =>
      if is_captured actor t then j :: captured_from actor (S j) ts'
      else captured_from actor (S j) ts'
  end.

(** The body of [for enemy in captured]. *)
Definition send_back (clock : nat -> datetime) (actor : Team) (r : Run) (j : nat) : Run :=
  let '(g, n) := r in
  match teams g !! j with
  | None => r
  | Some enemy =>
    let checkpoint := (position enemy `div` CHECKPOINT_INTERVAL) * CHECKPOINT_INTERVAL in
    let enemy' := set_position enemy checkpoint in
    add_log clock
      (name actor +:+ "이(가) " +:+ name enemy' +:+ "을(를) 잡았습니다. " +:+ name enemy'
       +:+ "은(는) " +:+ pretty checkpoint +:+ "칸 체크포인트로 복귀합니다.")
      (set_teams g (<[j := enemy']> (teams g)), n)
  end.

Definition capture_opponents (clock : nat -> datetime) (i : nat) (r : Run) : Run :=
  let '(g, n) := r in
  match teams g !! i with
  | None => r
  | Some actor =>
    if (position actor <=? 0) || (FINISH_POS <=? position actor) then r
    else
      let captured := captured_from actor O (teams g) in
      if bool_decide (captured = []) then r
      else
        let '(g, n) := foldl (send_back clock actor) (g, n) captured in
        match teams g !! i with
        | None => (g, n)
        | Some actor =>
          let gain := 30 * Z.of_nat (length captured) in
          let actor := set_score actor (score actor + gain) in
          let actor := set_throw_chance actor (throw_chance actor + Z.of_nat (length captured)) in
          let '(milestone_throws, actor) := apply_score_throw_milestone actor in
          let extra_milestone :=
            if 0 <? milestone_throws
            then ", 점수 마일스톤 던지기 +" +:+ pretty milestone_throws +:+ "회" else "" in
          add_log clock
            (name actor +:+ ": 잡기 보너스 +" +:+ pretty gain +:+ "점, 던지기 +"
             +:+ pretty (length captured) +:+ "회" +:+ extra_milestone)
            (set_teams g (<[i := actor]> (teams g)), n)
        end
  end.

(** [throw_yut]: [r] is the draw [draw_yut] makes. *)
Definition throw_yut (clock : nat -> datetime) (r : Q) (team_id : string)
    (w : World) : (bool * string) * World :=
  let g := game w in
  match find_team g team_id with
  | None => ((false, "유효하지 않은 팀입니다."), w)
  | Some (i, team) =>
    if truthy_opt (finished_at team) then
      ((false, "이미 완주한 팀입니다."), w)
    else if throw_chance team <=? 0 then
      ((false, "던지기 기회가 없습니다. 활동으로 점수를 쌓아 40점 단위를 달성해주세요."), w)
    else
      let yut := draw_yut r in
      let team := set_throw_chance team (throw_chance team - 1) in
      let team := set_position team (Z.max 0 (position team + step yut)) in
      let run := (set_teams g (<[i := team]> (teams g)), O) in
      let run := ensure_finish clock i run in

      let run :=
        match teams run.1 !! i with
        | Some team =>
            if negb (truthy_opt (finished_at team))
            then capture_opponents clock i run else run
        | None => run
        end in

      let run :=
        if 0 <? extra_throw yut then
          match teams run.1 !! i with
          | Some team =>
              (set_teams run.1
                 (<[i := set_throw_chance team (throw_chance team + extra_throw yut)]>
                    (teams run.1)), run.2)
          | None => run
          end
        else run in

      let step_text := if 0 <? step yut then "+" +:+ pretty (step yut) else pretty (step yut) in
      let extra_text :=
        if 0 <? extra_throw yut
        then ", 추가 던지기 +" +:+ pretty (extra_throw yut) +:+ "회" else "" in
      let msg := name team +:+ ": " +:+ label yut +:+ " (" +:+ step_text +:+ "칸)" +:+ extra_text in

      let '(g, _) := add_log clock msg run in
      ((true, msg), save g)
  end.

Definition reset (w : World) : World := save new_game.

(** [<] on the 4-tuples of integers [sort_key] builds. *)
Definition key_lt (a b : Z * Z * Z * Z) : bool :=
  let '(a1, a2, a3, a4) := a in
  let '(b1, b2, b3, b4) := b in
  if negb (a1 =? b1) then a1 <? b1
  else if negb (a2 =? b2) then a2 <? b2
  else if negb (a3 =? b3) then a3 <? b3
  else a4 <? b4.

Definition finish_rank (g : Game) (team : Team) : Z :=
  match index (finish_order g) (id team) with
  | Some k => k
  | None => 10 ^ 9
  end.

Definition sort_key (g : Game) (team : Team) : Z * Z * Z * Z :=
  (finish_rank g team, - score team, - position team, - mission_count team).

Definition sorted_teams (g : Game) : list Team :=
  sorted key_lt (sort_key g) (teams g).

(** *** [Game.load]

    The constructor calls [Team] and [LogEntry] with the keywords of a
    parsed object do not check the types of the
    values they are given: the objects [load] builds hold whatever the
    file holds.  [Loaded.Team] is a [Team] object whose attributes are
    arbitrary values. *)
Module Loaded.
Record Team := mkTeam {
  id : value;
  name : value;
  score : value;
  mission_count : value;
  throw_chance : value;
  throw_granted_by_score : value;
  position : value;
  finished_at : value;
  category_count : value;
  set_bonus_taken : value;
  line_bonus_taken : value
}.

Definition set_throw_granted_by_score (t : Team) (v : value) : Team :=
  mkTeam (id t) (name t) (score t) (mission_count t) (throw_chance t)
    v (position t) (finished_at t)
    (category_count t) (set_bonus_taken t) (line_bonus_taken t).

Record LogEntry := mkLogEntry { at_ : value; text : value }.

Record Game := mkGame {
  teams : list Team;
  logs : list LogEntry;
  finish_order : list value
}.

Definition new_game : Game := mkGame [] [] [].
End Loaded.

Definition Team_fields : list string :=
  ["id"; "name"; "score"; "mission_count"; "throw_chance";
   "throw_granted_by_score"; "position"; "finished_at"; "category_count";
   "set_bonus_taken"; "line_bonus_taken"].

(** The value of a keyword argument, or the default of the field. *)
Definition field (d : list (string * value)) (k : string) (default : value) : value :=
  match assoc d k with
  | Some v => v
  | None => default
  end.

(** [__post_init__] replaces [None] by a new dict of zero counts. *)
Definition post_init (v : value) : value :=
  match v with
  | VNone => VDict ((λ c, (c, VInt 0)) <$> CATEGORIES)
  | _ => v
  end.

(** [Team] called with the keywords of [raw]: [raw] must be a mapping, every key must name a field,
    and [id] and [name], which have no default, must be given. *)
Definition Team_init (raw : value) : exc Loaded.Team :=
  match raw with
  | VDict d =>
    if forallb (λ kv, contains Team_fields kv.1) d then
      match assoc d "id", assoc d "name" with
      | Some i, Some n =>
          Ok (Loaded.mkTeam i n
                (field d "score" (VInt 0))
                (field d "mission_count" (VInt 0))
                (field d "throw_chance" (VInt 0))
                (field d "throw_granted_by_score" (VInt 0))
                (field d "position" (VInt 0))
                (field d "finished_at" VNone)
                (post_init (field d "category_count" VNone))
                (field d "set_bonus_taken" (VInt 0))
                (post_init (field d "line_bonus_taken" VNone)))
      | _, _ => Raise TypeError
      end
    else Raise TypeError
  | _ => Raise TypeError
  end.

(** [LogEntry] called with the keywords of [l]: both fields are required. *)
Definition LogEntry_init (l : value) : exc Loaded.LogEntry :=
  match l with
  | VDict d =>
    if forallb (λ kv, contains ["at"; "text"] kv.1) d then
      match assoc d "at", assoc d "text" with
      | Some a, Some t => Ok (Loaded.mkLogEntry a t)
      | _, _ => Raise TypeError
      end
    else Raise TypeError
  | _ => Raise TypeError
  end.

(** [payload.get(k, default)] *)
Definition get (payload : value) (k : string) (default : value) : exc value :=
  match payload with
  | VDict d => Ok (field d k default)
  | _ => Raise AttributeError
  end.

(** The body of [for raw in payload.get("teams", [])]. *)
Definition load_team (raw : value) : exc Loaded.Team :=
  team ← Team_init raw;
  if negb (is_int (Loaded.throw_granted_by_score team)) then
    granted ← floordiv (Loaded.score team) SCORE_PER_THROW;
    Ok (Loaded.set_throw_granted_by_score team granted)
  else Ok team.

Fixpoint map_exc {A B} (f : A -> exc B) (l : list A) : exc (list B) :=
  match l with
  | [] => Ok []
  | x :: l' => y ← f x; ys ← map_exc f l'; Ok (y :: ys)
  end.

(** The [try] block of [load]. *)
Definition load_payload (payload : value) : exc Loaded.Game :=
  raws ← get payload "teams" (VList []);
  raws ← iterate raws;
  teams ← map_exc load_team raws;
  ls ← get payload "logs" (VList []);
  ls ← iterate ls;
  logs ← map_exc LogEntry_init ls;
  order ← get payload "finish_order" (VList []);
  order ← iterate order;
  Ok (Loaded.mkGame teams logs order).

Definition load (f : file) : Loaded.Game :=
  match f with
  | Absent => Loaded.new_game
  | Unparsable => Loaded.new_game
  | Parsed payload =>
      match load_payload payload with
      | Ok g => g
      | Raise _ => Loaded.new_game
      end
  end.

(** *** Runs of the engine

    The public methods that change the game, with the values each call
    reads from its environment. *)
Inductive call :=
| AddTeam (millis rand : Z) (clock : nat -> datetime) (name : string)
| RecordActivity (clock : nat -> datetime) (team_id difficulty category : string)
    (participant_count : Z) (title : string)
| ThrowYut (clock : nat -> datetime) (r : Q) (team_id : string)
| Reset.

(** The result of a call ([None] for [reset], which returns nothing) and
    the state it leaves, when the call returns. *)
Definition exec (c : call) (w : World) : exc (option (bool * string) * World) :=
  match c with
  | AddTeam millis rand clock name =>
      let '(res, w') := add_team millis rand clock name w in Ok (Some res, w')
  | RecordActivity clock team_id difficulty category participant_count title =>
      '(res, w') ← record_activity clock team_id difficulty category participant_count title w;
      Ok (Some res, w')
  | ThrowYut clock r team_id =>
      let '(res, w') := throw_yut clock r team_id w in Ok (Some res, w')
  | Reset => Ok (None, reset w)
  end.

Definition transition (w w' : World) : Prop :=
  ∃ c res, exec c w = Ok (res, w').

(** The states a run of calls reaches from [Game()], whatever the file holds. *)
Definition reachable (w : World) : Prop :=
  ∃ f, rtc transition (mkWorld new_game f) w.

End BoardB.

(** ** Variant A: the score race *)

Module BoardA.

Record Team := mkTeam {
  id : string;
  name : string;
  score : Z;
  mission_count : Z;
  category_count : gmap string Z;
  set_bonus_taken : Z;
  line_bonus_taken : gmap string Z
}.

Definition new_team (team_id team_name : string) : Team :=
  mkTeam team_id team_name 0 0 zero_counts 0 zero_counts.

Definition set_score (t : Team) (v : Z) : Team :=
  mkTeam (id t) (name t) v (mission_count t)
    (category_count t) (set_bonus_taken t) (line_bonus_taken t).
Definition set_mission_count (t : Team) (v : Z) : Team :=
  mkTeam (id t) (name t) (score t) v
    (category_count t) (set_bonus_taken t) (line_bonus_taken t).
Definition set_category_count (t : Team) (v : gmap string Z) : Team :=
  mkTeam (id t) (name t) (score t) (mission_count t)
    v (set_bonus_taken t) (line_bonus_taken t).
Definition set_set_bonus_taken (t : Team) (v : Z) : Team :=
  mkTeam (id t) (name t) (score t) (mission_count t)
    (category_count t) v (line_bonus_taken t).
Definition set_line_bonus_taken (t : Team) (v : gmap string Z) : Team :=
  mkTeam (id t) (name t) (score t) (mission_count t)
    (category_count t) (set_bonus_taken t) v.

Record LogEntry := mkLogEntry { at_ : string; text : string }.

Record Game := mkGame {
  teams : list Team;
  logs : list LogEntry
}.

Definition new_game : Game := mkGame [] [].

Definition set_teams (g : Game) (v : list Team) : Game := mkGame v (logs g).
Definition set_logs (g : Game) (v : list LogEntry) : Game := mkGame (teams g) v.

Record World := mkWorld { game : Game; STORAGE_FILE : file }.

Definition Run : Type := Game * nat.

Definition asdict_team (t : Team) : value :=
  VDict [ ("id", VStr (id t)); ("name", VStr (name t)); ("score", VInt (score t));
          ("mission_count", VInt (mission_count t));
          ("category_count", counts_value (category_count t));
          ("set_bonus_taken", VInt (set_bonus_taken t));
          ("line_bonus_taken", counts_value (line_bonus_taken t)) ].

Definition asdict_log (l : LogEntry) : value :=
  VDict [ ("at", VStr (at_ l)); ("text", VStr (text l)) ].

Definition payload (g : Game) : value :=
  VDict [ ("teams", VList (asdict_team <$> teams g));
          ("logs", VList (asdict_log <$> logs g)) ].

Definition save (g : Game) : World := mkWorld g (Parsed (payload g)).

Definition _new_id (millis rand : Z) : string :=
  "team_" +:+ pretty millis +:+ "_" +:+ pretty rand.

Definition add_log (clock : nat -> datetime) (msg : string) (r : Run) : Run :=
  let '(g, n) := r in
  let now := isoformat (clock n) in
  (set_logs g (take 120 (mkLogEntry now msg :: logs g)), S n).

Definition add_team (millis rand : Z) (clock : nat -> datetime)
    (name0 : string) (w : World) : (bool * string) * World :=
  let g := game w in
  let name := strip name0 in
  if negb (truthy name) then
    ((false, "팀 이름을 입력해주세요."), w)
  else if existsb (λ t, String.eqb (BoardA.name t) name) (teams g) then
    ((false, "이미 같은 팀 이름이 있습니다."), w)
  else
    let g := set_teams g (teams g ++ [new_team (_new_id millis rand) name]) in
    let '(g, _) := add_log clock ("팀 등록: " +:+ name) (g, O) in
    ((true, "팀이 추가되었습니다: " +:+ name), save g).

Definition find_team (g : Game) (team_id : string) : option (nat * Team) :=
  list_find (λ t, id t = team_id) (teams g).

Definition line_bonus (cat : string) (acc : Z * Team) : exc (Z * Team) :=
  let '(bonus, team) := acc in
  n ← getitem (category_count team) cat;
  let ready := n `div` LINE_THRESHOLD in
  taken ← getitem (line_bonus_taken team) cat;
  if taken <? ready then
    let gained := ready - taken in
    Ok (bonus + gained * LINE_BONUS_POINTS,
        set_line_bonus_taken team (<[cat := ready]> (line_bonus_taken team)))
  else Ok (bonus, team).

Definition compute_bonus (team : Team) : exc (Z * Team) :=
  let bonus := 0 in
  done_all ← all_positive (category_count team) CATEGORIES;
  let '(bonus, team) :=
    if done_all && (set_bonus_taken team =? 0)
    then (bonus + SET_BONUS_POINTS, set_set_bonus_taken team 1)
    else (bonus, team) in
  for_each line_bonus CATEGORIES (bonus, team).

Definition record_activity (clock : nat -> datetime)
    (team_id difficulty category : string) (participant_count : Z)
    (title : string) (w : World) : exc ((bool * string) * World) :=
  let g := game w in
  match find_team g team_id with
  | None => Ok ((false, "유효하지 않은 팀입니다."), w)
  | Some (i, team) =>
    if negb (has_key DIFFICULTY_POINTS difficulty) then
      Ok ((false, "유효하지 않은 난이도입니다."), w)
    else if negb (contains CATEGORIES category) then
      Ok ((false, "유효하지 않은 카테고리입니다."), w)
    else if participant_count <? 1 then
      Ok ((false, "참여 인원은 1명 이상이어야 합니다."), w)
    else
      let extra_members := Z.max 0 (participant_count - (TEAM_MEMBER_BONUS_START - 1)) in
      let member_bonus := extra_members * TEAM_MEMBER_BONUS_POINTS in

      points ← getitem DIFFICULTY_POINTS difficulty;
      let earned := BASE_POINTS + points + member_bonus in
      let team := set_score team (score team + earned) in
      let team := set_mission_count team (mission_count team + 1) in
      count ← getitem (category_count team) category;
      let team := set_category_count team (<[category := count + 1]> (category_count team)) in

      '(bonus, team) ← compute_bonus team;
      let team := if 0 <? bonus then set_score team (score team + bonus) else team in

      let detail := if truthy (strip title) then " [" +:+ strip title +:+ "]" else "" in
      difficulty_label ← getitem DIFFICULTY_LABELS difficulty;
      category_label ← getitem CATEGORY_LABELS category;
      let msg :=
        name team +:+ detail +:+ ": 활동 +" +:+ pretty earned +:+ "점 (난이도:"
        +:+ difficulty_label +:+ ", 카테고리:" +:+ category_label +:+ ", 참여:"
        +:+ pretty participant_count +:+ "명)" in
      let msg := if 0 <? bonus then msg +:+ " + 보너스 " +:+ pretty bonus +:+ "점" else msg in

      let g := set_teams g (<[i := team]> (teams g)) in
      let '(g, _) := add_log clock msg (g, O) in
      Ok ((true, "활동이 반영되었습니다."), save g)
  end.

Definition reset (w : World) : World := save new_game.

(** [<] on the tuples [(int, int, str)] the sort key builds. *)
Definition key_lt (a b : Z * Z * string) : bool :=
  let '(a1, a2, a3) := a in
  let '(b1, b2, b3) := b in
  if negb (a1 =? b1) then a1 <? b1
  else if negb (a2 =? b2) then a2 <? b2
  else String.ltb a3 b3.

Definition sort_key (t : Team) : Z * Z * string :=
  (- score t, - mission_count t, name t).

Definition sorted_teams (g : Game) : list Team :=
  sorted key_lt sort_key (teams g).

(** *** [Game.load]

    As in variant B, the objects [load] builds hold the values of the
    file, whatever their types; no field is derived from another. *)
Module Loaded.
Record Team := mkTeam {
  id : value;
  name : value;
  score : value;
  mission_count : value;
  category_count : value;
  set_bonus_taken : value;
  line_bonus_taken : value
}.

Record LogEntry := mkLogEntry { at_ : value; text : value }.

Record Game := mkGame {
  teams : list Team;
  logs : list LogEntry
}.

Definition new_game : Game := mkGame [] [].
End Loaded.

Definition Team_fields : list string :=
  ["id"; "name"; "score"; "mission_count"; "category_count";
   "set_bonus_taken"; "line_bonus_taken"].

Definition field (d : list (string * value)) (k : string) (default : value) : value :=
  match assoc d k with
  | Some v => v
  | None => default
  end.

Definition post_init (v : value) : value :=
  match v with
  | VNone => VDict ((λ c, (c, VInt 0)) <$> CATEGORIES)
  | _ => v
  end.

(** [Team] called with the keywords of [item]. *)
Definition Team_init (item : value) : exc Loaded.Team :=
  match item with
  | VDict d =>
    if forallb (λ kv, contains Team_fields kv.1) d then
      match assoc d "id", assoc d "name" with
      | Some i, Some n =>
          Ok (Loaded.mkTeam i n
                (field d "score" (VInt 0))
                (field d "mission_count" (VInt 0))
                (post_init (field d "category_count" VNone))
                (field d "set_bonus_taken" (VInt 0))
                (post_init (field d "line_bonus_taken" VNone)))
      | _, _ => Raise TypeError
      end
    else Raise TypeError
  | _ => Raise TypeError
  end.

Definition LogEntry_init (item : value) : exc Loaded.LogEntry :=
  match item with
  | VDict d =>
    if forallb (λ kv, contains ["at"; "text"] kv.1) d then
      match assoc d "at", assoc d "text" with
      | Some a, Some t => Ok (Loaded.mkLogEntry a t)
      | _, _ => Raise TypeError
      end
    else Raise TypeError
  | _ => Raise TypeError
  end.

Definition get (payload : value) (k : string) (default : value) : exc value :=
  match payload with
  | VDict d => Ok (field d k default)
  | _ => Raise AttributeError
  end.

Fixpoint map_exc {A B} (f : A -> exc B) (l : list A) : exc (list B) :=
  match l with
  | [] => Ok []
  | x :: l' => y ← f x; ys ← map_exc f l'; Ok (y :: ys)
  end.

(** The [try] block of [load]. *)
Definition load_payload (payload : value) : exc Loaded.Game :=
  items ← get payload "teams" (VList []);
  items ← iterate items;
  teams ← map_exc Team_init items;
  ls ← get payload "logs" (VList []);
  ls ← iterate ls;
  logs ← map_exc LogEntry_init ls;
  Ok (Loaded.mkGame teams logs).

Definition load (f : file) : Loaded.Game :=
  match f with
  | Absent => Loaded.new_game
  | Unparsable => Loaded.new_game
  | Parsed payload =>
      match load_payload payload with
      | Ok g => g
      | Raise _ => Loaded.new_game
      end
  end.

(** *** Runs of the engine *)
Inductive call :=
| AddTeam (millis rand : Z) (clock : nat -> datetime) (name : string)
| RecordActivity (clock : nat -> datetime) (team_id difficulty category : string)
    (participant_count : Z) (title : string)
| Reset.

Definition exec (c : call) (w : World) : exc (option (bool * string) * World) :=
  match c with
  | AddTeam millis rand clock name =>
      let '(res, w') := add_team millis rand clock name w in Ok (Some res, w')
  | RecordActivity clock team_id difficulty category participant_count title =>
      '(res, w') ← record_activity clock team_id difficulty category participant_count title w;
      Ok (Some res, w')
  | Reset => Ok (None, reset w)
  end.

Definition transition (w w' : World) : Prop :=
  ∃ c res, exec c w = Ok (res, w').

Definition reachable (w : World) : Prop :=
  ∃ f, rtc transition (mkWorld new_game f) w.

End BoardA.

(** ** The windows

    [board_B_python/gui.py] lets the user pick a team by its name and
    looks its id up in a dict that [refresh_all] builds from the teams
    after every change. *)

Module GuiB.

(** [{t.name: t.id for t in self.game.teams}]: of two teams of the same
    name the later one stays. *)
Definition team_name_to_id (g : BoardB.Game) : gmap string string :=
  foldl (λ m t, <[BoardB.name t := BoardB.id t]> m) ∅ (BoardB.teams g).

(** [_selected_team_id], on the dict [self.team_name_to_id]. *)
Definition _selected_team_id (team_name_to_id : gmap string string) (name : string)
    : option string :=
  if negb (truthy name) then None
  else team_name_to_id !! name.

End GuiB.

(** ** The command line of variant B

    [print_status], [print_logs], [pick_team], the two flows and [main]
    of [board_B_python/game.py].  The console is explicit: [input] takes
    the next line of the lines still to be read and raises [EOFError]
    when there is none; [print] and the prompt of [input] add to what has
    been written.  The [n]-th call of an engine method reads its clock
    and its random numbers from [envs n].

    What [str.isdigit], [int] and [str.lower] do with a string depends
    on the tables of Unicode; they are parameters of the definitions
    that use them ([int] gives no number where Python raises
    [ValueError]).  [str.isascii] and [str.lower] on a string of ASCII
    characters are given in full. *)

Module Cli.

Inductive exception :=
| Engine (e : Py.exception)
| EOFError
| ValueError
| IndexError.

(** What a call reads from its environment. *)
Record Env := mkEnv {
  millis : Z;
  rand : Z;
  clock : nat -> datetime;
  draw : Q
}.

Record State := mkState {
  world : BoardB.World;
  stdin : list string;
  stdout : list string;
  calls : nat
}.

Inductive result (A : Type) :=
| Return (a : A)
| Throw (e : exception).
Arguments Return {A} a.
Arguments Throw {A} e.

Definition M (A : Type) : Type := State -> result (A * State).

#[global] Instance M_ret : MRet M := fun _ a st => Return (a, st).
#[global] Instance M_bind : MBind M := fun _ _ k m st =>
  match m st with
  | Return (a, st') => k a st'
  | Throw e => Throw e
  end.

Definition raise {A} (e : exception) : M A := fun _ => Throw e.

(** The line feed. *)
Definition nl : string := String "010" "".

Definition write (s : string) : M unit := fun st =>
  Return (tt, mkState (world st) (stdin st) (stdout st ++ [s]) (calls st)).

(** [print(s)] *)
Definition print (s : string) : M unit := write (s +:+ nl).

(** [input(prompt)] *)
Definition input (prompt : string) : M string := fun st =>
  match stdin st with
  | [] => Throw EOFError
  | line :: rest =>
      Return (line, mkState (world st) rest (stdout st ++ [prompt]) (calls st))
  end.

Definition get_game : M BoardB.Game := fun st => Return (BoardB.game (world st), st).

Fixpoint print_all (lines : list string) : M unit :=
  match lines with
  | [] => mret tt
  | line :: lines' => _ ← print line; print_all lines'
  end.

(** [enumerate(l, start=1)] *)
Definition enumerate {A} (l : list A) : list (nat * A) :=
  zip (seq 1 (length l)) l.

(** [str.isascii] *)
Fixpoint isascii (s : string) : bool :=
  match s with
  | EmptyString => true
  | String a s' => (N_of_ascii a <? 128)%N && isascii s'
  end.

(** [str.lower] on a string of ASCII characters. *)
Definition ascii_lower_char (a : ascii) : ascii :=
  let n := N_of_ascii a in
  if (65 <=? n)%N && (n <=? 90)%N then ascii_of_N (n + 32) else a.

Fixpoint ascii_lower (s : string) : string :=
  match s with
  | EmptyString => EmptyString
  | String a s' => String (ascii_lower_char a) (ascii_lower s')
  end.

(** *** The methods of the engine, as the command line calls them *)

Section calls.
Context (envs : nat -> Env).

Definition add_team (name : string) : M (bool * string) := fun st =>
  let env := envs (calls st) in
  let '(res, w) := BoardB.add_team (millis env) (rand env) (clock env) name (world st) in
  Return (res, mkState w (stdin st) (stdout st) (S (calls st))).

Definition record_activity (team_id difficulty category : string)
    (participant_count : Z) (title : string) : M (bool * string) := fun st =>
  let env := envs (calls st) in
  match BoardB.record_activity (clock env) team_id difficulty category
          participant_count title (world st) with
  | Ok (res, w) => Return (res, mkState w (stdin st) (stdout st) (S (calls st)))
  | Raise e => Throw (Engine e)
  end.

Definition throw_yut (team_id : string) : M (bool * string) := fun st =>
  let env := envs (calls st) in
  let '(res, w) := BoardB.throw_yut (clock env) (draw env) team_id (world st) in
  Return (res, mkState w (stdin st) (stdout st) (S (calls st))).

Definition reset : M unit := fun st =>
  Return (tt, mkState (BoardB.reset (world st)) (stdin st) (stdout st) (S (calls st))).

(** *** [print_status] and [print_logs] *)

Definition status_line (idx : nat) (t : BoardB.Team) : string :=
  let finished := if truthy_opt (BoardB.finished_at t) then " [완주]" else "" in
  pretty idx +:+ ". " +:+ BoardB.name t +:+ " | 점수=" +:+ pretty (BoardB.score t)
  +:+ " | 위치=" +:+ pretty (BoardB.position t) +:+ "/" +:+ pretty BoardB.FINISH_POS +:+ " | "
  +:+ "던지기=" +:+ pretty (BoardB.throw_chance t) +:+ " | 활동수="
  +:+ pretty (BoardB.mission_count t) +:+ finished.

Definition print_status : M unit :=
  g ← get_game;
  _ ← print (nl +:+ "=== 현재 상태 ===");
  match BoardB.teams g with
  | [] => print "등록된 팀이 없습니다."
  | _ =>
    _ ← print ("트랙: 0.." +:+ pretty BoardB.FINISH_POS +:+ "칸, 체크포인트 간격 "
               +:+ pretty BoardB.CHECKPOINT_INTERVAL +:+ "칸");
    _ ← print ("던지기 마일스톤: 누적 " +:+ pretty BoardB.SCORE_PER_THROW +:+ "점마다 +1회");
    _ ← print "-";
    _ ← print_all ((λ p, status_line p.1 p.2) <$> enumerate (BoardB.sorted_teams g));
    print ""
  end.

(** [l[:n]] *)
Definition slice_to {A} (l : list A) (n : Z) : list A :=
  if 0 <=? n then take (Z.to_nat n) l
  else take (Z.to_nat (Z.of_nat (length l) + n)) l.

Definition print_logs (n : Z) : M unit :=
  g ← get_game;
  _ ← print (nl +:+ "=== 최근 로그 ===");
  match BoardB.logs g with
  | [] => print ("로그가 없습니다." +:+ nl)
  | _ =>
    _ ← print_all ((λ entry, "[" +:+ BoardB.at_ entry +:+ "] " +:+ BoardB.text entry)
                   <$> slice_to (BoardB.logs g) n);
    print ""
  end.

(** *** [pick_team] and the flows *)

Context (isdigit : string -> bool) (int : string -> option Z) (lower : string -> string).

Definition pick_team (prompt : string) : M (option string) :=
  g ← get_game;
  match BoardB.teams g with
  | [] =>
    _ ← print "등록된 팀이 없습니다. 먼저 팀을 추가해주세요.";
    mret None
  | _ =>
    _ ← print (nl +:+ "팀 목록:");
    _ ← print_all ((λ p, pretty p.1 +:+ ". " +:+ BoardB.name p.2 +:+ " (id="
                         +:+ BoardB.id p.2 +:+ ")")
                   <$> enumerate (BoardB.teams g));
    line ← input (prompt +:+ " (번호): ");
    let raw := strip line in
    if negb (isdigit raw) then
      _ ← print "잘못된 입력입니다.";
      mret None
    else
      match int raw with
      | None => raise ValueError
      | Some idx =>
        if (idx <? 1) || (Z.of_nat (length (BoardB.teams g)) <? idx) then
          _ ← print "잘못된 선택입니다.";
          mret None
        else
          match BoardB.teams g !! Z.to_nat (idx - 1) with
          | Some team => mret (Some (BoardB.id team))
          | None => raise IndexError
          end
      end
  end.

Definition difficulty_alias : gmap string string :=
  list_to_map [("", "medium"); ("쉬움", "easy"); ("보통", "medium"); ("어려움", "hard");
               ("easy", "easy"); ("medium", "medium"); ("hard", "hard")].

Definition category_alias : gmap string string :=
  list_to_map [("", "talk"); ("대화", "talk"); ("협동", "teamplay"); ("도움", "help");
               ("도전", "challenge"); ("talk", "talk"); ("teamplay", "teamplay");
               ("help", "help"); ("challenge", "challenge")].

Definition record_activity_flow : M unit :=
  team_id ← pick_team "활동 팀 선택";
  if negb (truthy_opt team_id) then mret tt
  else
    line ← input "난이도 [쉬움/보통/어려움] (기본: 보통): ";
    let difficulty_raw := strip line in
    line ← input "카테고리 [대화/협동/도움/도전] (기본: 대화): ";
    let category_raw := strip line in
    line ← input "참여 인원 (기본: 2): ";
    let participant_raw := if truthy (strip line) then strip line else "2" in
    line ← input "활동명 (선택): ";
    let title := strip line in

    if negb (isdigit participant_raw) then
      print "참여 인원은 양의 정수여야 합니다."
    else
      let difficulty :=
        difficulty_alias
          !! (if isascii difficulty_raw then ascii_lower difficulty_raw else difficulty_raw) in
      let category :=
        category_alias
          !! (if isascii category_raw then ascii_lower category_raw else category_raw) in
      if negb (truthy_opt difficulty) then
        print "난이도 입력이 잘못되었습니다."
      else if negb (truthy_opt category) then
        print "카테고리 입력이 잘못되었습니다."
      else
        match team_id, difficulty, category, int participant_raw with
        | Some team_id, Some difficulty, Some category, Some participant_count =>
          '(ok, msg) ← record_activity team_id difficulty category participant_count title;
          print msg
        | _, _, _, None => raise ValueError
        | _, _, _, _ => mret tt
        end.

Definition throw_yut_flow : M unit :=
  team_id ← pick_team "던질 팀 선택";
  if negb (truthy_opt team_id) then mret tt
  else
    match team_id with
    | Some team_id =>
      '(ok, msg) ← throw_yut team_id;
      print msg
    | None => mret tt
    end.

(** *** [main] *)

Definition menu : string :=
  nl +:+ "=== 친해지길 바라 B안 (Python CLI) ===" +:+ nl
  +:+ "1) 현재 상태 보기" +:+ nl
  +:+ "2) 팀 추가" +:+ nl
  +:+ "3) 활동 기록" +:+ nl
  +:+ "4) 윷 던지기" +:+ nl
  +:+ "5) 최근 로그 보기" +:+ nl
  +:+ "6) 게임 초기화" +:+ nl
  +:+ "0) 종료" +:+ nl.

(** One round of [while True]; [true] when the loop goes on. *)
Definition round : M bool :=
  _ ← print menu;
  line ← input "선택: ";
  let choice := strip line in
  if String.eqb choice "1" then
    _ ← print_status; mret true
  else if String.eqb choice "2" then
    line ← input "팀 이름: ";
    let name := strip line in
    '(_, msg) ← add_team name;
    _ ← print msg; mret true
  else if String.eqb choice "3" then
    _ ← record_activity_flow; mret true
  else if String.eqb choice "4" then
    _ ← throw_yut_flow; mret true
  else if String.eqb choice "5" then
    _ ← print_logs 15; mret true
  else if String.eqb choice "6" then
    line ← input "모든 데이터를 초기화할까요? [y/N]: ";
    let confirm := lower (strip line) in
    if String.eqb confirm "y" then
      _ ← reset;
      _ ← print "게임 초기화가 완료되었습니다."; mret true
    else
      _ ← print "취소되었습니다."; mret true
  else if String.eqb choice "0" then
    _ ← print "종료합니다."; mret false
  else
    _ ← print "잘못된 메뉴입니다."; mret true.

(** The loop of [main], for at most [rounds] rounds: [None] when it has
    not ended by then.  [main] enters it with the game [load] returns;
    here it is entered with a game of the engine's, as [load] returns one
    when the file is missing or was written by [save]. *)
Fixpoint loop (rounds : nat) : State -> option (result (unit * State)) :=
  fun st =>
  match rounds with
  | O => None
  | S rounds' =>
      match round st with
      | Return (true, st') => loop rounds' st'
      | Return (false, st') => Some (Return (tt, st'))
      | Throw e => Some (Throw e)
      end
  end.

End calls.

End Cli.

(** ** The handlers of the window of variant B

    [FriendlyRaceGUI] of [board_B_python/gui.py]: the game, the text
    variables behind the entries and the boxes, the dict of the names,
    and the handlers of the buttons.  The widgets themselves are left
    out: [refresh_ranking], [refresh_logs] and [draw_race_board] only
    write to them.  What [messagebox.showwarning] is called with is
    kept in [shown]; the answer of [messagebox.askyesno], the clock and
    the random numbers a handler reads come with the event.  A handler
    either returns, with the window it leaves, or raises; the window a
    handler leaves when it raises is not kept. *)

Module FriendlyRaceGUI.

Record Window := mkWindow {
  game : BoardB.World;
  last_result_var : string;
  team_add_var : string;
  activity_team_var : string;
  difficulty_var : string;
  category_var : string;
  participants_var : string;
  activity_title_var : string;
  throw_team_var : string;
  team_name_to_id : gmap string string;
  shown : list (string * string)
}.

Definition set_game (w : Window) (v : BoardB.World) : Window :=
  mkWindow v (last_result_var w) (team_add_var w) (activity_team_var w) (difficulty_var w)
    (category_var w) (participants_var w) (activity_title_var w) (throw_team_var w)
    (team_name_to_id w) (shown w).
Definition set_last_result_var (w : Window) (v : string) : Window :=
  mkWindow (game w) v (team_add_var w) (activity_team_var w) (difficulty_var w)
    (category_var w) (participants_var w) (activity_title_var w) (throw_team_var w)
    (team_name_to_id w) (shown w).
Definition set_team_add_var (w : Window) (v : string) : Window :=
  mkWindow (game w) (last_result_var w) v (activity_team_var w) (difficulty_var w)
    (category_var w) (participants_var w) (activity_title_var w) (throw_team_var w)
    (team_name_to_id w) (shown w).
Definition set_activity_team_var (w : Window) (v : string) : Window :=
  mkWindow (game w) (last_result_var w) (team_add_var w) v (difficulty_var w)
    (category_var w) (participants_var w) (activity_title_var w) (throw_team_var w)
    (team_name_to_id w) (shown w).
Definition set_activity_title_var (w : Window) (v : string) : Window :=
  mkWindow (game w) (last_result_var w) (team_add_var w) (activity_team_var w) (difficulty_var w)
    (category_var w) (participants_var w) v (throw_team_var w)
    (team_name_to_id w) (shown w).
Definition set_throw_team_var (w : Window) (v : string) : Window :=
  mkWindow (game w) (last_result_var w) (team_add_var w) (activity_team_var w) (difficulty_var w)
    (category_var w) (participants_var w) (activity_title_var w) v
    (team_name_to_id w) (shown w).
Definition set_team_name_to_id (w : Window) (v : gmap string string) : Window :=
  mkWindow (game w) (last_result_var w) (team_add_var w) (activity_team_var w) (difficulty_var w)
    (category_var w) (participants_var w) (activity_title_var w) (throw_team_var w)
    v (shown w).

(** [messagebox.showwarning(title, message)] *)
Definition showwarning (title message : string) (w : Window) : Window :=
  mkWindow (game w) (last_result_var w) (team_add_var w) (activity_team_var w) (difficulty_var w)
    (category_var w) (participants_var w) (activity_title_var w) (throw_team_var w)
    (team_name_to_id w) (shown w ++ [(title, message)]).

(** [{v: k for k, v in d.items()}], on the items of [d] in their order. *)
Definition label_to_key (items : list (string * string)) : gmap string string :=
  foldl (λ m kv, <[kv.2 := kv.1]> m) ∅ items.

Definition difficulty_label_to_key : gmap string string :=
  label_to_key [("easy", "쉬움"); ("medium", "보통"); ("hard", "어려움")].

Definition category_label_to_key : gmap string string :=
  label_to_key [("talk", "대화"); ("teamplay", "협동"); ("help", "도움"); ("challenge", "도전")].

(** [refresh_all], as far as the variables and the dict go. *)
Definition refresh_all (w : Window) : Window :=
  let team_names := BoardB.name <$> BoardB.teams (BoardB.game (game w)) in
  let w := set_team_name_to_id w (GuiB.team_name_to_id (BoardB.game (game w))) in
  match team_names with
  | first :: _ =>
      let w := if negb (contains team_names (activity_team_var w))
               then set_activity_team_var w first else w in
      if negb (contains team_names (throw_team_var w))
      then set_throw_team_var w first else w
  | [] => set_throw_team_var (set_activity_team_var w "") ""
  end.

(** [__init__], with the game [load] has returned. *)
Definition init (world : BoardB.World) : Window :=
  refresh_all
    (mkWindow world "아직 윷을 던지지 않았습니다." "" "" "보통" "대화" "2" "" "" ∅ []).

Definition on_add_team (millis rand : Z) (clock : nat -> datetime) (w : Window)
    : Cli.result Window :=
  let name := strip (team_add_var w) in
  let '((ok, msg), world) := BoardB.add_team millis rand clock name (game w) in
  let w := set_game w world in
  if negb ok then Cli.Return (showwarning "팀 등록" msg w)
  else Cli.Return (refresh_all (set_team_add_var w "")).

Section handlers.
Context (isdigit : string -> bool) (int : string -> option Z).

Definition on_record_activity (clock : nat -> datetime) (w : Window) : Cli.result Window :=
  let team_id := GuiB._selected_team_id (team_name_to_id w) (activity_team_var w) in
  if negb (truthy_opt team_id) then
    Cli.Return (showwarning "활동 기록" "먼저 팀을 선택해주세요." w)
  else
    let participant_raw := strip (participants_var w) in
    if negb (isdigit participant_raw) then
      Cli.Return (showwarning "활동 기록" "참여 인원은 1 이상의 정수여야 합니다." w)
    else
      match int participant_raw with
      | None => Cli.Throw Cli.ValueError
      | Some participant_count =>
        if participant_count <? 1 then
          Cli.Return (showwarning "활동 기록" "참여 인원은 1 이상의 정수여야 합니다." w)
        else
          let difficulty_key := difficulty_label_to_key !! strip (difficulty_var w) in
          let category_key := category_label_to_key !! strip (category_var w) in
          if negb (truthy_opt difficulty_key) || negb (truthy_opt category_key) then
            Cli.Return (showwarning "활동 기록" "난이도/카테고리를 다시 선택해주세요." w)
          else
            match team_id, difficulty_key, category_key with
            | Some team_id, Some difficulty_key, Some category_key =>
              match BoardB.record_activity clock team_id difficulty_key category_key
                      participant_count (activity_title_var w) (game w) with
              | Raise e => Cli.Throw (Cli.Engine e)
              | Ok ((ok, msg), world) =>
                let w := set_game w world in
                if negb ok then Cli.Return (showwarning "활동 기록" msg w)
                else Cli.Return (refresh_all (set_activity_title_var w ""))
              end
            | _, _, _ => Cli.Return w
            end
      end.

Definition on_throw (clock : nat -> datetime) (r : Q) (w : Window) : Cli.result Window :=
  let team_id := GuiB._selected_team_id (team_name_to_id w) (throw_team_var w) in
  if negb (truthy_opt team_id) then
    Cli.Return (showwarning "윷 던지기" "먼저 팀을 선택해주세요." w)
  else
    match team_id with
    | Some team_id =>
      let '((ok, msg), world) := BoardB.throw_yut clock r team_id (game w) in
      let w := set_game w world in
      if negb ok then Cli.Return (showwarning "윷 던지기" msg w)
      else Cli.Return (refresh_all (set_last_result_var w msg))
    | None => Cli.Return w
    end.

(** [confirm] is the answer to [messagebox.askyesno]. *)
Definition on_reset (confirm : bool) (w : Window) : Cli.result Window :=
  if negb confirm then Cli.Return w
  else
    let w := set_game w (BoardB.reset (game w)) in
    Cli.Return (refresh_all (set_last_result_var w "아직 윷을 던지지 않았습니다.")).

(** What happens in the window: a button is pressed, or the user
    changes what the entries and the boxes hold. *)
Inductive event :=
| AddTeam (millis rand : Z) (clock : nat -> datetime)
| RecordActivity (clock : nat -> datetime)
| ThrowYut (clock : nat -> datetime) (r : Q)
| Refresh
| ResetGame (confirm : bool)
| Edit (team_add activity_team difficulty category participants activity_title
        throw_team : string).

Definition handle (ev : event) (w : Window) : Cli.result Window :=
  match ev with
  | AddTeam millis rand clock => on_add_team millis rand clock w
  | RecordActivity clock => on_record_activity clock w
  | ThrowYut clock r => on_throw clock r w
  | Refresh => Cli.Return (refresh_all w)
  | ResetGame confirm => on_reset confirm w
  | Edit team_add activity_team difficulty category participants activity_title throw_team =>
      Cli.Return
        (mkWindow (game w) (last_result_var w) team_add activity_team difficulty category
           participants activity_title throw_team (team_name_to_id w) (shown w))
  end.

(** An event whose handler returns, and the windows a run of such
    events leads to that began with the game [world]. *)
Definition step (w w' : Window) : Prop := ∃ ev, handle ev w = Cli.Return w'.

Definition opened (world : BoardB.World) (w : Window) : Prop := rtc step (init world) w.

End handlers.

End FriendlyRaceGUI.

(** ** The handlers of the window of variant A

    [FriendlyScoreRaceGUI] of [board_A_python/gui.py], in the same way. *)

Module FriendlyScoreRaceGUI.

Record Window := mkWindow {
  game : BoardA.World;
  team_name_var : string;
  activity_team_var : string;
  difficulty_var : string;
  category_var : string;
  participant_var : string;
  activity_title_var : string;
  team_name_to_id : gmap string string;
  shown : list (string * string)
}.

Definition set_game (w : Window) (v : BoardA.World) : Window :=
  mkWindow v (team_name_var w) (activity_team_var w) (difficulty_var w) (category_var w)
    (participant_var w) (activity_title_var w) (team_name_to_id w) (shown w).
Definition set_team_name_var (w : Window) (v : string) : Window :=
  mkWindow (game w) v (activity_team_var w) (difficulty_var w) (category_var w)
    (participant_var w) (activity_title_var w) (team_name_to_id w) (shown w).
Definition set_activity_team_var (w : Window) (v : string) : Window :=
  mkWindow (game w) (team_name_var w) v (difficulty_var w) (category_var w)
    (participant_var w) (activity_title_var w) (team_name_to_id w) (shown w).
Definition set_activity_title_var (w : Window) (v : string) : Window :=
  mkWindow (game w) (team_name_var w) (activity_team_var w) (difficulty_var w) (category_var w)
    (participant_var w) v (team_name_to_id w) (shown w).
Definition set_team_name_to_id (w : Window) (v : gmap string string) : Window :=
  mkWindow (game w) (team_name_var w) (activity_team_var w) (difficulty_var w) (category_var w)
    (participant_var w) (activity_title_var w) v (shown w).

(** [messagebox.showwarning(title, message)] *)
Definition showwarning (title message : string) (w : Window) : Window :=
  mkWindow (game w) (team_name_var w) (activity_team_var w) (difficulty_var w) (category_var w)
    (participant_var w) (activity_title_var w) (team_name_to_id w)
    (shown w ++ [(title, message)]).

(** [{t.name: t.id for t in self.game.teams}] *)
Definition names_to_ids (g : BoardA.Game) : gmap string string :=
  foldl (λ m t, <[BoardA.name t := BoardA.id t]> m) ∅ (BoardA.teams g).

Definition difficulty_label_to_key : gmap string string :=
  FriendlyRaceGUI.label_to_key [("easy", "쉬움"); ("medium", "보통"); ("hard", "어려움")].

Definition category_label_to_key : gmap string string :=
  FriendlyRaceGUI.label_to_key
    [("talk", "대화"); ("teamplay", "협동"); ("help", "도움"); ("challenge", "도전")].

(** [refresh_all], as far as the variables and the dict go. *)
Definition refresh_all (w : Window) : Window :=
  let names := BoardA.name <$> BoardA.teams (BoardA.game (game w)) in
  let w := set_team_name_to_id w (names_to_ids (BoardA.game (game w))) in
  match names with
  | first :: _ =>
      if negb (contains names (activity_team_var w))
      then set_activity_team_var w first else w
  | [] => set_activity_team_var w ""
  end.

(** [__init__], with the game [load] has returned. *)
Definition init (world : BoardA.World) : Window :=
  refresh_all (mkWindow world "" "" "보통" "대화" "2" "" ∅ []).

Definition on_add_team (millis rand : Z) (clock : nat -> datetime) (w : Window)
    : Cli.result Window :=
  let '((ok, msg), world) := BoardA.add_team millis rand clock (team_name_var w) (game w) in
  let w := set_game w world in
  if negb ok then Cli.Return (showwarning "팀 등록" msg w)
  else Cli.Return (refresh_all (set_team_name_var w "")).

Section handlers.
Context (isdigit : string -> bool) (int : string -> option Z).

Definition on_record_activity (clock : nat -> datetime) (w : Window) : Cli.result Window :=
  let team_name := strip (activity_team_var w) in
  let team_id := team_name_to_id w !! team_name in
  if negb (truthy_opt team_id) then
    Cli.Return (showwarning "활동 기록" "활동 팀을 선택해주세요." w)
  else
    let participant_raw := strip (participant_var w) in
    if negb (isdigit participant_raw) then
      Cli.Return (showwarning "활동 기록" "참여 인원은 1 이상의 정수여야 합니다." w)
    else
      match int participant_raw with
      | None => Cli.Throw Cli.ValueError
      | Some participant_count =>
        if participant_count <? 1 then
          Cli.Return (showwarning "활동 기록" "참여 인원은 1 이상의 정수여야 합니다." w)
        else
          let difficulty_key := difficulty_label_to_key !! strip (difficulty_var w) in
          let category_key := category_label_to_key !! strip (category_var w) in
          if negb (truthy_opt difficulty_key) || negb (truthy_opt category_key) then
            Cli.Return (showwarning "활동 기록" "난이도/카테고리를 다시 선택해주세요." w)
          else
            match team_id, difficulty_key, category_key with
            | Some team_id, Some difficulty_key, Some category_key =>
              match BoardA.record_activity clock team_id difficulty_key category_key
                      participant_count (activity_title_var w) (game w) with
              | Raise e => Cli.Throw (Cli.Engine e)
              | Ok ((ok, msg), world) =>
                let w := set_game w world in
                if negb ok then Cli.Return (showwarning "활동 기록" msg w)
                else Cli.Return (refresh_all (set_activity_title_var w ""))
              end
            | _, _, _ => Cli.Return w
            end
      end.

(** [confirm] is the answer to [messagebox.askyesno]. *)
Definition on_reset (confirm : bool) (w : Window) : Cli.result Window :=
  if negb confirm then Cli.Return w
  else Cli.Return (refresh_all (set_game w (BoardA.reset (game w)))).

Inductive event :=
| AddTeam (millis rand : Z) (clock : nat -> datetime)
| RecordActivity (clock : nat -> datetime)
| Refresh
| ResetGame (confirm : bool)
| Edit (team_name activity_team difficulty category participant activity_title : string).

Definition handle (ev : event) (w : Window) : Cli.result Window :=
  match ev with
  | AddTeam millis rand clock => on_add_team millis rand clock w
  | RecordActivity clock => on_record_activity clock w
  | Refresh => Cli.Return (refresh_all w)
  | ResetGame confirm => on_reset confirm w
  | Edit team_name activity_team difficulty category participant activity_title =>
      Cli.Return
        (mkWindow (game w) team_name activity_team difficulty category participant
           activity_title (team_name_to_id w) (shown w))
  end.

(** An event whose handler returns, and the windows a run of such
    events leads to. *)
Definition step (w w' : Window) : Prop := ∃ ev, handle ev w = Cli.Return w'.

Definition opened (world : BoardA.World) (w : Window) : Prop := rtc step (init world) w.

End handlers.

End FriendlyScoreRaceGUI.

(** * Specification

    The notions the statements below are written with. *)

(** ** Bonus evaluation *)

(** The count a dict holds for a category (0 for a key it lacks). *)
Definition count_of (m : gmap string Z) (c : string) : Z :=
  match m !! c with
  | Some n => n
  | None => 0
  end.

Definition tier (counts : gmap string Z) (c : string) : Z :=
  count_of counts c `div` 3.

(** The set bonus is due: every category has a positive count and the
    latch is open. *)
Definition set_due (counts : gmap string Z) (taken : Z) : bool :=
  forallb (λ c, 0 <? count_of counts c) CATEGORIES && (taken =? 0).

Definition set_gain (counts : gmap string Z) (taken : Z) : Z :=
  if set_due counts taken then 40 else 0.

Definition line_gain (counts granted : gmap string Z) (c : string) : Z :=
  if count_of granted c <? tier counts c
  then (tier counts c - count_of granted c) * 25
  else 0.

Definition line_granted (counts granted : gmap string Z) (c : string) : Z :=
  if count_of granted c <? tier counts c then tier counts c else count_of granted c.

Fixpoint line_gains (counts granted : gmap string Z) (cs : list string) : Z :=
  match cs with
  | [] => 0
  | c :: cs' => line_gain counts granted c + line_gains counts granted cs'
  end.

(** What bonus evaluation returns and leaves in the team, from the counts
    [counts], the latch [taken] and the tiers [granted] it finds. *)
Definition bonus_spec (counts : gmap string Z) (taken : Z) (granted : gmap string Z)
    (bonus taken' : Z) (granted' : gmap string Z) : Prop :=
  bonus = set_gain counts taken + line_gains counts granted CATEGORIES
  ∧ taken' = (if set_due counts taken then 1 else taken)
  ∧ (∀ c, c ∈ CATEGORIES → granted' !! c = Some (line_granted counts granted c))
  ∧ (∀ c, c ∉ CATEGORIES → granted' !! c = granted !! c).

(** A dict holds a count for each of the four categories, as the dicts
    [__post_init__] builds do. *)
Definition has_categories (m : gmap string Z) : Prop :=
  ∀ c, c ∈ CATEGORIES → is_Some (m !! c).

#[global] Instance has_categories_dec m : Decision (has_categories m).
Proof.
  refine (cast_if (decide (Forall (λ c, is_Some (m !! c)) CATEGORIES)));
    unfold has_categories; by rewrite <- Forall_forall.
Defined.

Definition witness_teamA : BoardA.Team :=
  BoardA.mkTeam "team_1772366400001_1000" "A" 100 6
    (list_to_map [("talk", 3); ("teamplay", 1); ("help", 1); ("challenge", 1)])
    0 zero_counts.

Definition witness_teamB : BoardB.Team :=
  BoardB.mkTeam "team_1772366400001_1000" "B" 100 6 2 2 0 None
    (list_to_map [("talk", 3); ("teamplay", 1); ("help", 1); ("challenge", 1)])
    0 zero_counts.

(** ** Recording an activity *)

(** The points an activity earns before bonuses. *)
Definition earned_points (points participant_count : Z) : Z :=
  10 + points + Z.max 0 (participant_count - 2) * 20.

(** The arguments pass the checks of [record_activity], and the dicts of
    the team hold the four categories. *)
Definition valid_activity (counts granted : gmap string Z)
    (difficulty category : string) (participant_count points : Z) : Prop :=
  DIFFICULTY_POINTS !! difficulty = Some points
  ∧ category ∈ CATEGORIES
  ∧ 1 ≤ participant_count
  ∧ has_categories counts
  ∧ has_categories granted.

(** The counts of a team after one more activity in [category]. *)
Definition counted (counts : gmap string Z) (category : string) : gmap string Z :=
  <[category := count_of counts category + 1]> counts.

(** The team variant A leaves after an activity that earned [earned]
    with bonus [bonus]. *)
Definition A_after_activity (team : BoardA.Team) (category : string)
    (earned bonus taken' : Z) (granted' : gmap string Z) : BoardA.Team :=
  BoardA.mkTeam (BoardA.id team) (BoardA.name team)
    (BoardA.score team + earned + bonus) (BoardA.mission_count team + 1)
    (counted (BoardA.category_count team) category) taken' granted'.

(** The team variant B leaves: the same, and then the score milestone. *)
Definition B_scored (team : BoardB.Team) (category : string)
    (earned bonus taken' : Z) (granted' : gmap string Z) : BoardB.Team :=
  BoardB.mkTeam (BoardB.id team) (BoardB.name team)
    (BoardB.score team + earned + bonus) (BoardB.mission_count team + 1)
    (BoardB.throw_chance team) (BoardB.throw_granted_by_score team)
    (BoardB.position team) (BoardB.finished_at team)
    (counted (BoardB.category_count team) category) taken' granted'.

Definition B_after_activity (team : BoardB.Team) (category : string)
    (earned bonus taken' : Z) (granted' : gmap string Z) : BoardB.Team :=
  (BoardB.apply_score_throw_milestone
     (B_scored team category earned bonus taken' granted')).2.

(** A clock for the examples. *)
Definition example_clock (n : nat) : datetime := mkDatetime 2026 3 1 12 0 n.

(** A team of variant A and one of variant B after two "talk" activities. *)
Definition example_worldA : BoardA.World :=
  BoardA.mkWorld
    (BoardA.mkGame
       [BoardA.mkTeam "team_1772366400001_1000" "A" 40 2 (<["talk" := 2]> zero_counts) 0 zero_counts]
       [])
    Absent.

Definition example_worldB : BoardB.World :=
  BoardB.mkWorld
    (BoardB.mkGame
       [BoardB.mkTeam "team_1772366400001_1000" "B" 40 2 1 1 0 None
          (<["talk" := 2]> zero_counts) 0 zero_counts]
       [] [])
    Absent.

(** ** Validation *)

(** The cases in which each method of variant B refuses a call. *)
Definition add_team_invalid (g : BoardB.Game) (name : string) : Prop :=
  strip name = "" ∨ ∃ t, t ∈ BoardB.teams g ∧ BoardB.name t = strip name.

Definition record_activity_invalid (g : BoardB.Game)
    (team_id difficulty category : string) (participant_count : Z) : Prop :=
  BoardB.find_team g team_id = None
  ∨ DIFFICULTY_POINTS !! difficulty = None
  ∨ category ∉ CATEGORIES
  ∨ participant_count < 1.

Definition throw_yut_invalid (g : BoardB.Game) (team_id : string) : Prop :=
  match BoardB.find_team g team_id with
  | None => True
  | Some (_, team) =>
      truthy_opt (BoardB.finished_at team) = true ∨ BoardB.throw_chance team ≤ 0
  end.

(** ** A throw *)

(** The team that throws, once the chance is spent and the piece moved. *)
Definition moved (team : BoardB.Team) (yut : BoardB.Outcome) : BoardB.Team :=
  BoardB.set_position
    (BoardB.set_throw_chance team (BoardB.throw_chance team - 1))
    (Z.max 0 (BoardB.position team + BoardB.step yut)).

(** The team that reaches the finish at time [now]. *)
Definition finishing (now : string) (team : BoardB.Team) : BoardB.Team :=
  BoardB.set_score
    (BoardB.set_finished_at (BoardB.set_position team 50) (Some now))
    (BoardB.score team + 50).

(** The extra throw of yut and mo. *)
Definition with_extra (yut : BoardB.Outcome) (team : BoardB.Team) : BoardB.Team :=
  if 0 <? BoardB.extra_throw yut
  then BoardB.set_throw_chance team (BoardB.throw_chance team + BoardB.extra_throw yut)
  else team.

(** The checkpoint at or before a cell. *)
Definition checkpoint (p : Z) : Z := (p `div` 10) * 10.

(** The teams after the ones [actor] lands on are sent back. *)
Definition sent_back (actor : BoardB.Team) (ts : list BoardB.Team) : list BoardB.Team :=
  (λ t, if BoardB.is_captured actor t
        then BoardB.set_position t (checkpoint (BoardB.position t)) else t) <$> ts.

(** The team that captured [n] teams, before the milestone. *)
Definition rewarded (n : Z) (actor : BoardB.Team) : BoardB.Team :=
  BoardB.set_throw_chance
    (BoardB.set_score actor (BoardB.score actor + 30 * n))
    (BoardB.throw_chance actor + n).

(** The number of teams [actor] lands on. *)
Definition captured_count (actor : BoardB.Team) (ts : list BoardB.Team) : Z :=
  Z.of_nat (length (filter (λ t, BoardB.is_captured actor t = true) ts)).

(** A race: X at cell 48, Y and Z at cell 13, W finished. *)
Definition example_race : BoardB.World :=
  BoardB.mkWorld
    (BoardB.mkGame
       [ BoardB.mkTeam "team_1772366400001_1000" "X" 40 2 1 1 48 None zero_counts 0 zero_counts;
         BoardB.mkTeam "team_1772366400002_1000" "Y" 45 2 1 1 13 None zero_counts 0 zero_counts;
         BoardB.mkTeam "team_1772366400003_1000" "Z" 80 4 1 2 10 None zero_counts 0 zero_counts;
         BoardB.mkTeam "team_1772366400004_1000" "W" 170 4 2 4 50 (Some "2026-03-01T11:00:00")
           zero_counts 0 zero_counts ]
       [] ["team_1772366400004_1000"])
    Absent.

(** ** Invariants of the runs of variant B *)

(** What holds of every team of a game with finish order [order]. *)
Definition team_ok (order : list string) (t : BoardB.Team) : Prop :=
  has_categories (BoardB.category_count t)
  ∧ has_categories (BoardB.line_bonus_taken t)
  ∧ BoardB.throw_granted_by_score t = BoardB.score t `div` 40
  ∧ 0 ≤ BoardB.position t ≤ 50
  ∧ (is_Some (BoardB.finished_at t) → truthy_opt (BoardB.finished_at t) = true)
  ∧ (truthy_opt (BoardB.finished_at t) = true ↔ BoardB.position t = 50)
  ∧ (truthy_opt (BoardB.finished_at t) = true → BoardB.id t ∈ order).

(** Every team is in order, no id is twice in [finish_order], and an id
    in [finish_order] is the id of a team, the first of which is finished. *)
Definition game_ok (g : BoardB.Game) : Prop :=
  Forall (team_ok (BoardB.finish_order g)) (BoardB.teams g)
  ∧ NoDup (BoardB.finish_order g)
  ∧ (∀ x, x ∈ BoardB.finish_order g →
       ∃ i t, BoardB.find_team g x = Some (i, t)
              ∧ truthy_opt (BoardB.finished_at t) = true).

(** The ids of the teams, in the order of [teams]. *)
Definition ids (g : BoardB.Game) : list string := BoardB.id <$> BoardB.teams g.

(** The race invariant of a game: positions are on the track, and for
    every team "finished_at is set", "position is 50" and "the id is in
    finish_order" are the same; no id is twice in finish_order. *)
Definition race_invariant (g : BoardB.Game) : Prop :=
  NoDup (BoardB.finish_order g)
  ∧ ∀ team, team ∈ BoardB.teams g →
      0 ≤ BoardB.position team ≤ 50
      ∧ (is_Some (BoardB.finished_at team) ↔ BoardB.position team = 50)
      ∧ (BoardB.position team = 50 ↔ BoardB.id team ∈ BoardB.finish_order g)
      ∧ (is_Some (BoardB.finished_at team) ↔ BoardB.id team ∈ BoardB.finish_order g).

(** Running a list of calls; a call that raises stops the run. *)
Fixpoint run (calls : list BoardB.call) (w : BoardB.World) : BoardB.World :=
  match calls with
  | [] => w
  | c :: calls' =>
      match BoardB.exec c w with
      | Ok (_, w') => run calls' w'
      | Raise _ => w
      end
  end.

(** Two teams are added, the second with the clock at [millis] and the
    same random draw as the first; the first earns a throw with one
    activity and then throws mo ten times, which takes it to the finish. *)
Definition example_calls (millis : Z) : list BoardB.call :=
  [ BoardB.AddTeam 1772366400001 1000 example_clock "A";
    BoardB.AddTeam millis 1000 example_clock "B";
    BoardB.RecordActivity example_clock "team_1772366400001_1000" "hard" "talk" 3 "" ]
  ++ replicate 10 (BoardB.ThrowYut example_clock 90%Q "team_1772366400001_1000").

Definition fresh_world : BoardB.World := BoardB.mkWorld BoardB.new_game Absent.

(** The second team is given another id than the first. *)
Definition example_finished : BoardB.World := run (example_calls 1772366400002) fresh_world.

(** The second team is given the id of the first: the clock shows the
    same millisecond and the random draw is the same. *)
Definition example_twins : BoardB.World := run (example_calls 1772366400001) fresh_world.

(** The first team at the end of both runs. *)
Definition example_finisher : BoardB.Team :=
  BoardB.mkTeam "team_1772366400001_1000" "A" 110 1 2 2 50 (Some "2026-03-01T12:00:00")
    (<["talk" := 1]> zero_counts) 0 zero_counts.

(** ** A finished team *)

(** A call, other than [reset], that returns. *)
Definition transition_keeping (w w' : BoardB.World) : Prop :=
  ∃ c res, c ≠ BoardB.Reset ∧ BoardB.exec c w = Ok (res, w').

(** ** The ranked view *)

(** Variant A: a higher score first, then more missions first, then the
    lesser name first. *)
Definition A_before (a b : BoardA.Team) : Prop :=
  BoardA.score b < BoardA.score a
  ∨ (BoardA.score a = BoardA.score b
     ∧ (BoardA.mission_count b < BoardA.mission_count a
        ∨ (BoardA.mission_count a = BoardA.mission_count b
           ∧ String.le (BoardA.name a) (BoardA.name b)))).

(** Variant B: the lower finish rank first, then a higher score, then a
    cell further on, then more missions. *)
Definition B_before (g : BoardB.Game) (a b : BoardB.Team) : Prop :=
  BoardB.finish_rank g a < BoardB.finish_rank g b
  ∨ (BoardB.finish_rank g a = BoardB.finish_rank g b
     ∧ (BoardB.score b < BoardB.score a
        ∨ (BoardB.score a = BoardB.score b
           ∧ (BoardB.position b < BoardB.position a
              ∨ (BoardB.position a = BoardB.position b
                 ∧ BoardB.mission_count b ≤ BoardB.mission_count a))))).

(** Two teams of variant A with the same score and mission count. *)
Definition example_tie : BoardA.Game :=
  BoardA.mkGame
    [ BoardA.mkTeam "team_1772366400001_1000" "beta" 40 2 zero_counts 0 zero_counts;
      BoardA.mkTeam "team_1772366400002_1000" "alpha" 40 2 zero_counts 0 zero_counts;
      BoardA.mkTeam "team_1772366400003_1000" "gamma" 60 1 zero_counts 0 zero_counts ]
    [].

(** A game of variant B in which R finished first and Q second, with
    lower scores than P and S, which are still racing. *)
Definition example_ranking : BoardB.Game :=
  BoardB.mkGame
    [ BoardB.mkTeam "team_1772366400001_1000" "P" 200 5 0 5 30 None zero_counts 0 zero_counts;
      BoardB.mkTeam "team_1772366400002_1000" "Q" 90 1 0 2 50 (Some "2026-03-01T12:30:00")
        zero_counts 0 zero_counts;
      BoardB.mkTeam "team_1772366400003_1000" "R" 50 1 0 1 50 (Some "2026-03-01T12:10:00")
        zero_counts 0 zero_counts;
      BoardB.mkTeam "team_1772366400004_1000" "S" 200 5 0 5 40 None zero_counts 0 zero_counts ]
    [] ["team_1772366400003_1000"; "team_1772366400002_1000"].

(** ** Loading a snapshot *)

(** The snapshot of one team with 100 points that does not give
    [throw_granted_by_score], as a version of the game without the field
    would have written it. *)
Definition snapshot_without_field : value :=
  VDict [ ("teams",
           VList [ VDict [ ("id", VStr "team_1772366400001_1000"); ("name", VStr "A");
                           ("score", VInt 100) ] ]) ].

(** The same team, with [null] in the field. *)
Definition snapshot_with_null : value :=
  VDict [ ("teams",
           VList [ VDict [ ("id", VStr "team_1772366400001_1000"); ("name", VStr "A");
                           ("score", VInt 100);
                           ("throw_granted_by_score", VNone) ] ]) ].

(** ** The dicts of the teams of a run *)

(** Both dicts of a team hold the four categories. *)
Definition A_counts_ok (t : BoardA.Team) : Prop :=
  has_categories (BoardA.category_count t) ∧ has_categories (BoardA.line_bonus_taken t).

(** The objects [load] builds from the snapshot of a game: the game
    itself, every attribute with the value [save] wrote for it. *)
Definition loaded_team (t : BoardB.Team) : BoardB.Loaded.Team :=
  BoardB.Loaded.mkTeam (VStr (BoardB.id t)) (VStr (BoardB.name t))
    (VInt (BoardB.score t)) (VInt (BoardB.mission_count t))
    (VInt (BoardB.throw_chance t)) (VInt (BoardB.throw_granted_by_score t))
    (VInt (BoardB.position t))
    (match BoardB.finished_at t with Some s => VStr s | None => VNone end)
    (counts_value (BoardB.category_count t))
    (VInt (BoardB.set_bonus_taken t))
    (counts_value (BoardB.line_bonus_taken t)).

Definition loaded_log (l : BoardB.LogEntry) : BoardB.Loaded.LogEntry :=
  BoardB.Loaded.mkLogEntry (VStr (BoardB.at_ l)) (VStr (BoardB.text l)).

Definition loaded_game (g : BoardB.Game) : BoardB.Loaded.Game :=
  BoardB.Loaded.mkGame (loaded_team <$> BoardB.teams g) (loaded_log <$> BoardB.logs g)
    (VStr <$> BoardB.finish_order g).

(** ** Two teams with one id *)

(** Team C is added, then A and B in one millisecond and with the same
    random draw, so that B gets the id of A.  A earns a throw with one
    activity and throws mo ten times, which takes it to the finish; then
    C does the same.  B never plays and stays at the start. *)
Definition example_twin_calls : list BoardB.call :=
  [ BoardB.AddTeam 1772366400000 1000 example_clock "C";
    BoardB.AddTeam 1772366400001 1000 example_clock "A";
    BoardB.AddTeam 1772366400001 1000 example_clock "B";
    BoardB.RecordActivity example_clock "team_1772366400001_1000" "hard" "talk" 3 "" ]
  ++ replicate 10 (BoardB.ThrowYut example_clock 90%Q "team_1772366400001_1000")
  ++ [ BoardB.RecordActivity example_clock "team_1772366400000_1000" "hard" "talk" 3 "" ]
  ++ replicate 10 (BoardB.ThrowYut example_clock 90%Q "team_1772366400000_1000").

Definition example_twin_ranking : BoardB.World := run example_twin_calls fresh_world.

(** * Further properties: the notions they are stated with *)

(** ** The names of the teams *)

(** No name is empty, none has white space around it, no two are the
    same. *)
Definition names_ok (names : list string) : Prop :=
  NoDup names ∧ Forall (λ n, n ≠ "" ∧ strip n = n) names.

(** ** What a throw may do to a team *)

(** The team keeps its id, its name and what its activities earned it;
    its score and the throws its score granted do not go down, its throw
    chances do not become negative, and a team that has finished keeps
    the time it finished at. *)
Definition thrown (t t' : BoardB.Team) : Prop :=
  BoardB.id t' = BoardB.id t
  ∧ BoardB.name t' = BoardB.name t
  ∧ BoardB.score t ≤ BoardB.score t'
  ∧ BoardB.mission_count t' = BoardB.mission_count t
  ∧ BoardB.category_count t' = BoardB.category_count t
  ∧ BoardB.set_bonus_taken t' = BoardB.set_bonus_taken t
  ∧ BoardB.line_bonus_taken t' = BoardB.line_bonus_taken t
  ∧ (0 ≤ BoardB.throw_chance t → 0 ≤ BoardB.throw_chance t')
  ∧ BoardB.throw_granted_by_score t ≤ BoardB.throw_granted_by_score t'
  ∧ (truthy_opt (BoardB.finished_at t) = true → BoardB.finished_at t' = BoardB.finished_at t).

(** ** The books of a team *)

(** The activities the counts add up to, and the tiers they reach. *)
Definition counts_total (counts : gmap string Z) : Z :=
  foldr (λ c acc, count_of counts c + acc) 0 CATEGORIES.

Definition tiers_total (counts : gmap string Z) : Z :=
  foldr (λ c acc, tier counts c + acc) 0 CATEGORIES.

(** Every category has been played. *)
Definition all_done (counts : gmap string Z) : bool :=
  forallb (λ c, 0 <? count_of counts c) CATEGORIES.

(** The two dicts hold the four categories and no other key; no count is
    negative; [mission_count] is the sum of the counts; the tier granted
    in a category is a third of its count, rounded down; the latch of the
    set bonus is 1 when every category has been played and 0 before. *)
Definition books_ok (missions : Z) (counts : gmap string Z) (taken : Z)
    (granted : gmap string Z) : Prop :=
  (∀ c, c ∈ CATEGORIES →
     ∃ n, counts !! c = Some n ∧ 0 ≤ n ∧ granted !! c = Some (n `div` 3))
  ∧ (∀ c, c ∉ CATEGORIES → counts !! c = None ∧ granted !! c = None)
  ∧ missions = counts_total counts
  ∧ taken = (if all_done counts then 1 else 0).

(** The points the books account for: 20 for an activity at least, 40
    for the set bonus, 25 for a tier. *)
Definition credit (missions : Z) (counts : gmap string Z) (taken : Z) : Z :=
  20 * missions + 40 * taken + 25 * tiers_total counts.

(** The books of a team of variant A, and its score against them. *)
Definition A_team_books (t : BoardA.Team) : Prop :=
  books_ok (BoardA.mission_count t) (BoardA.category_count t)
    (BoardA.set_bonus_taken t) (BoardA.line_bonus_taken t)
  ∧ credit (BoardA.mission_count t) (BoardA.category_count t) (BoardA.set_bonus_taken t)
    ≤ BoardA.score t.

(** The same for variant B, where a team also holds throw chances. *)
Definition B_team_books (t : BoardB.Team) : Prop :=
  books_ok (BoardB.mission_count t) (BoardB.category_count t)
    (BoardB.set_bonus_taken t) (BoardB.line_bonus_taken t)
  ∧ credit (BoardB.mission_count t) (BoardB.category_count t) (BoardB.set_bonus_taken t)
    ≤ BoardB.score t
  ∧ 0 ≤ BoardB.throw_chance t.

(** ** What a run without [reset] keeps *)

Definition A_transition_keeping (w w' : BoardA.World) : Prop :=
  ∃ c res, c ≠ BoardA.Reset ∧ BoardA.exec c w = Ok (res, w').

(** A team later in a run of variant A: the same id and name, and no
    less of anything it had. *)
Definition A_team_grows (t t' : BoardA.Team) : Prop :=
  BoardA.id t' = BoardA.id t
  ∧ BoardA.name t' = BoardA.name t
  ∧ BoardA.score t ≤ BoardA.score t'
  ∧ BoardA.mission_count t ≤ BoardA.mission_count t'
  ∧ (∀ c, count_of (BoardA.category_count t) c ≤ count_of (BoardA.category_count t') c).

(** Every team is still there, in its place. *)
Definition A_grows (g g' : BoardA.Game) : Prop :=
  ∀ j t, BoardA.teams g !! j = Some t →
    ∃ t', BoardA.teams g' !! j = Some t' ∧ A_team_grows t t'.

(** The same for variant B; a team that has finished keeps the time it
    finished at. *)
Definition B_team_grows (t t' : BoardB.Team) : Prop :=
  BoardB.id t' = BoardB.id t
  ∧ BoardB.name t' = BoardB.name t
  ∧ BoardB.score t ≤ BoardB.score t'
  ∧ BoardB.mission_count t ≤ BoardB.mission_count t'
  ∧ (∀ c, count_of (BoardB.category_count t) c ≤ count_of (BoardB.category_count t') c)
  ∧ BoardB.throw_granted_by_score t ≤ BoardB.throw_granted_by_score t'
  ∧ (truthy_opt (BoardB.finished_at t) = true → BoardB.finished_at t' = BoardB.finished_at t).

(** Every team is still there, in its place, and the finish order has
    only been added to at its end. *)
Definition B_grows (g g' : BoardB.Game) : Prop :=
  BoardB.finish_order g `prefix_of` BoardB.finish_order g'
  ∧ ∀ j t, BoardB.teams g !! j = Some t →
      ∃ t', BoardB.teams g' !! j = Some t' ∧ B_team_grows t t'.

(** ** The log *)

(** A log after entries were added to it with room for [cap] entries: it
    is as it was, or it holds the entries added, the newest first, and
    behind them the entries it held, as far as there is room. *)
Definition logged {L} (cap : nat) (l l' : list L) : Prop :=
  l' = l ∨ ∃ added, l' = take cap (added ++ l).

(** ** Ids *)

(** [c in s] for a character [c]. *)
Fixpoint has_char (c : ascii) (s : string) : bool :=
  match s with
  | EmptyString => false
  | String a s' => Ascii.eqb a c || has_char c s'
  end.

(** The clock and the random draw of the calls of [add_team] in a list
    of calls. *)
Definition drawn (calls : list BoardB.call) : list (Z * Z) :=
  omap (λ c, match c with
             | BoardB.AddTeam millis rand _ _ => Some (millis, rand)
             | _ => None
             end) calls.

(** ** Validation in variant A *)

(** The cases in which each method of variant A refuses a call. *)
Definition A_add_team_invalid (g : BoardA.Game) (name : string) : Prop :=
  strip name = "" ∨ ∃ t, t ∈ BoardA.teams g ∧ BoardA.name t = strip name.

Definition A_record_activity_invalid (g : BoardA.Game)
    (team_id difficulty category : string) (participant_count : Z) : Prop :=
  BoardA.find_team g team_id = None
  ∨ DIFFICULTY_POINTS !! difficulty = None
  ∨ category ∉ CATEGORIES
  ∨ participant_count < 1.

(** ** The two variants side by side *)

(** What variant A knows of a team of variant B. *)
Definition forget (t : BoardB.Team) : BoardA.Team :=
  BoardA.mkTeam (BoardB.id t) (BoardB.name t) (BoardB.score t) (BoardB.mission_count t)
    (BoardB.category_count t) (BoardB.set_bonus_taken t) (BoardB.line_bonus_taken t).

(** The teams of a game of variant A are those of a game of variant B,
    without the race. *)
Definition same_scores (wA : BoardA.World) (wB : BoardB.World) : Prop :=
  BoardA.teams (BoardA.game wA) = forget <$> BoardB.teams (BoardB.game wB).

(** The outcome of a call in variant A against its outcome in variant B:
    the same result and the same teams, or the same exception. *)
Definition same_outcome (a : exc ((bool * string) * BoardA.World))
    (b : exc ((bool * string) * BoardB.World)) : Prop :=
  match a, b with
  | Ok (resA, wA'), Ok (resB, wB') => resA = resB ∧ same_scores wA' wB'
  | Raise eA, Raise eB => eA = eB
  | _, _ => False
  end.

(** Running a list of calls of variant A; a call that raises stops the
    run. *)
Fixpoint A_run (calls : list BoardA.call) (w : BoardA.World) : BoardA.World :=
  match calls with
  | [] => w
  | c :: calls' =>
      match BoardA.exec c w with
      | Ok (_, w') => A_run calls' w'
      | Raise _ => w
      end
  end.

(** The call of variant B that a call of variant A stands for. *)
Definition B_call (c : BoardA.call) : BoardB.call :=
  match c with
  | BoardA.AddTeam millis rand clock name => BoardB.AddTeam millis rand clock name
  | BoardA.RecordActivity clock team_id difficulty category participant_count title =>
      BoardB.RecordActivity clock team_id difficulty category participant_count title
  | BoardA.Reset => BoardB.Reset
  end.

Definition A_fresh_world : BoardA.World := BoardA.mkWorld BoardA.new_game Absent.

(** Three teams; the first plays "talk" three times and then every other
    category, the second once with four participants. *)
Definition A_example_calls : list BoardA.call :=
  [ BoardA.AddTeam 1772366400001 1000 example_clock " koala ";
    BoardA.AddTeam 1772366400002 1000 example_clock "wombat";
    BoardA.AddTeam 1772366400003 1000 example_clock "emu";
    BoardA.RecordActivity example_clock "team_1772366400001_1000" "easy" "talk" 2 "";
    BoardA.RecordActivity example_clock "team_1772366400001_1000" "easy" "talk" 2 "";
    BoardA.RecordActivity example_clock "team_1772366400001_1000" "hard" "talk" 3 "quiz";
    BoardA.RecordActivity example_clock "team_1772366400001_1000" "medium" "teamplay" 2 "";
    BoardA.RecordActivity example_clock "team_1772366400001_1000" "medium" "help" 2 "";
    BoardA.RecordActivity example_clock "team_1772366400001_1000" "medium" "challenge" 2 "";
    BoardA.RecordActivity example_clock "team_1772366400002_1000" "hard" "help" 4 "" ].

Definition A_example_world : BoardA.World := A_run A_example_calls A_fresh_world.

(** The same calls in variant B. *)
Definition B_example_world : BoardB.World := run (B_call <$> A_example_calls) fresh_world.

(** ** Snapshots of variant A *)

Definition A_loaded_team (t : BoardA.Team) : BoardA.Loaded.Team :=
  BoardA.Loaded.mkTeam (VStr (BoardA.id t)) (VStr (BoardA.name t))
    (VInt (BoardA.score t)) (VInt (BoardA.mission_count t))
    (counts_value (BoardA.category_count t))
    (VInt (BoardA.set_bonus_taken t))
    (counts_value (BoardA.line_bonus_taken t)).

Definition A_loaded_log (l : BoardA.LogEntry) : BoardA.Loaded.LogEntry :=
  BoardA.Loaded.mkLogEntry (VStr (BoardA.at_ l)) (VStr (BoardA.text l)).

Definition A_loaded_game (g : BoardA.Game) : BoardA.Loaded.Game :=
  BoardA.Loaded.mkGame (A_loaded_team <$> BoardA.teams g) (A_loaded_log <$> BoardA.logs g).

(** A file with two teams, the second without a name. *)
Definition snapshot_nameless : value :=
  VDict [ ("teams",
           VList [ VDict [ ("id", VStr "team_1772366400001_1000"); ("name", VStr "A");
                           ("score", VInt 100) ];
                   VDict [ ("id", VStr "team_1772366400002_1000") ] ]);
          ("logs", VList []) ].

(** The teams of [example_tie], registered in another order. *)
Definition example_tie_shuffled : BoardA.Game :=
  BoardA.mkGame
    [ BoardA.mkTeam "team_1772366400003_1000" "gamma" 60 1 zero_counts 0 zero_counts;
      BoardA.mkTeam "team_1772366400002_1000" "alpha" 40 2 zero_counts 0 zero_counts;
      BoardA.mkTeam "team_1772366400001_1000" "beta" 40 2 zero_counts 0 zero_counts ]
    [].

(** A game as a file written by hand could give it: the only team lacks
    three of the four categories. *)
Definition example_incomplete : BoardB.World :=
  BoardB.mkWorld
    (BoardB.mkGame
       [BoardB.mkTeam "team_1772366400001_1000" "A" 0 0 0 0 0 None
          (<["talk" := 0]> ∅) 0 zero_counts]
       [] [])
    Absent.
(** * The command line: the notions its properties are stated with *)

(** The state once [out] has been written. *)
Definition with_out (st : Cli.State) (out : list string) : Cli.State :=
  Cli.mkState (Cli.world st) (Cli.stdin st) (Cli.stdout st ++ out) (Cli.calls st).

(** The line [pick_team] prints for the team it lists under a number. *)
Definition listed (number : nat) (team : BoardB.Team) : string :=
  pretty number +:+ ". " +:+ BoardB.name team +:+ " (id=" +:+ BoardB.id team +:+ ")" +:+ Cli.nl.

(** What a session makes of the world: a world the calls of the engine
    lead to, which is the world as it was or is in the file. *)
Definition session_keeps (w w' : BoardB.World) : Prop :=
  rtc BoardB.transition w w' ∧ (w' = w ∨ w' = BoardB.save (BoardB.game w')).

(** What [record_activity_flow] has done between [st] and [st'] when it
    has returned: nothing to the game, or one call of [record_activity]
    for a team of the game, with a difficulty and a category the engine
    knows, refused exactly for fewer than one participant, whose message
    it printed last. *)
Definition activity_flow_checked (envs : nat -> Cli.Env) (st st' : Cli.State) : Prop :=
  (Cli.world st' = Cli.world st ∧ Cli.calls st' = Cli.calls st)
  ∨ ∃ team difficulty category participant_count title ok msg,
      team ∈ BoardB.teams (BoardB.game (Cli.world st))
      ∧ is_Some (DIFFICULTY_POINTS !! difficulty)
      ∧ category ∈ CATEGORIES
      ∧ BoardB.record_activity (Cli.clock (envs (Cli.calls st))) (BoardB.id team)
          difficulty category participant_count title (Cli.world st)
        = Ok ((ok, msg), Cli.world st')
      ∧ (ok = false ↔ participant_count < 1)
      ∧ Cli.calls st' = S (Cli.calls st)
      ∧ last (Cli.stdout st') = Some (msg +:+ Cli.nl).

(** What [throw_yut_flow] has done when it has returned: nothing to the
    game, or one call of [throw_yut] for a team of the game, which
    [find_team] finds, whose message it printed last. *)
Definition throw_flow_checked (envs : nat -> Cli.Env) (st st' : Cli.State) : Prop :=
  (Cli.world st' = Cli.world st ∧ Cli.calls st' = Cli.calls st)
  ∨ ∃ team ok msg,
      team ∈ BoardB.teams (BoardB.game (Cli.world st))
      ∧ BoardB.find_team (BoardB.game (Cli.world st)) (BoardB.id team) ≠ None
      ∧ BoardB.throw_yut (Cli.clock (envs (Cli.calls st))) (Cli.draw (envs (Cli.calls st)))
          (BoardB.id team) (Cli.world st)
        = ((ok, msg), Cli.world st')
      ∧ Cli.calls st' = S (Cli.calls st)
      ∧ last (Cli.stdout st') = Some (msg +:+ Cli.nl).

(** An [isdigit] and an [int] for the examples: the strings of the
    digits 0 to 9, read in base ten. *)
Fixpoint example_all_digits (s : string) : bool :=
  match s with
  | EmptyString => true
  | String a s' =>
      ((48 <=? N_of_ascii a)%N && (N_of_ascii a <=? 57)%N) && example_all_digits s'
  end.

Definition example_isdigit (s : string) : bool := truthy s && example_all_digits s.

Fixpoint example_int_go (acc : Z) (s : string) : Z :=
  match s with
  | EmptyString => acc
  | String a s' => example_int_go (10 * acc + Z.of_N (N_of_ascii a) - 48) s'
  end.

Definition example_int (s : string) : option Z :=
  if example_isdigit s then Some (example_int_go 0 s) else None.

Definition example_envs (n : nat) : Cli.Env :=
  Cli.mkEnv 1772366400001 (1000 + Z.of_nat n) example_clock 50.

(** A session: a team is added, an activity of two recorded for it, a
    throw asked for, and the program left. *)
Definition example_session : Cli.State :=
  Cli.mkState fresh_world
    ["2"; "  koala "; "3"; "1"; "EASY"; "협동"; ""; " walk "; "4"; "1"; " 0 "] [] 0.

(** Two teams, and the answers of a user who picks the second. *)
Definition example_picking : Cli.State :=
  Cli.mkState
    (run [BoardB.AddTeam 1772366400001 1000 example_clock "koala";
          BoardB.AddTeam 1772366400002 1001 example_clock "emu"] fresh_world)
    [" 2 "; "hard"; "talk"; "0"; ""] [] 0.

(** The same teams, and the one line a throw asks for. *)
Definition example_throwing : Cli.State :=
  Cli.mkState (Cli.world example_picking) ["1"] [] 0.

(** * The window: the notions its properties are stated with *)

(** The dict of the names is the one [refresh_all] builds from the
    teams the game holds now. *)
Definition in_sync (w : FriendlyRaceGUI.Window) : Prop :=
  FriendlyRaceGUI.team_name_to_id w
  = GuiB.team_name_to_id (BoardB.game (FriendlyRaceGUI.game w)).

(** The warnings [on_record_activity] words itself. *)
Definition activity_warnings : list string :=
  ["먼저 팀을 선택해주세요."; "참여 인원은 1 이상의 정수여야 합니다.";
   "난이도/카테고리를 다시 선택해주세요."].

(** A window on two teams in which the user has chosen the second, a
    hard challenge of four, and a title. *)
Definition example_events : list FriendlyRaceGUI.event :=
  [FriendlyRaceGUI.Edit "  koala " "" "보통" "대화" "2" "" "";
   FriendlyRaceGUI.AddTeam 1772366400001 1000 example_clock;
   FriendlyRaceGUI.Edit "emu" "koala" "보통" "대화" "2" "" "koala";
   FriendlyRaceGUI.AddTeam 1772366400002 1001 example_clock;
   FriendlyRaceGUI.Edit "" "emu" "어려움" "도전" " 4 " "relay" "koala"].

Fixpoint handle_all (evs : list FriendlyRaceGUI.event) (w : FriendlyRaceGUI.Window)
    : FriendlyRaceGUI.Window :=
  match evs with
  | [] => w
  | ev :: evs' =>
      match FriendlyRaceGUI.handle example_isdigit example_int ev w with
      | Cli.Return w' => handle_all evs' w'
      | Cli.Throw _ => handle_all evs' w
      end
  end.

Definition example_window : FriendlyRaceGUI.Window :=
  handle_all example_events (FriendlyRaceGUI.init fresh_world).

(** The same for the window of variant A. *)
Definition A_session_keeps (w w' : BoardA.World) : Prop :=
  rtc BoardA.transition w w' ∧ (w' = w ∨ w' = BoardA.save (BoardA.game w')).

Definition A_in_sync (w : FriendlyScoreRaceGUI.Window) : Prop :=
  FriendlyScoreRaceGUI.team_name_to_id w
  = FriendlyScoreRaceGUI.names_to_ids (BoardA.game (FriendlyScoreRaceGUI.game w)).

Definition A_activity_warnings : list string :=
  ["활동 팀을 선택해주세요."; "참여 인원은 1 이상의 정수여야 합니다.";
   "난이도/카테고리를 다시 선택해주세요."].

Definition A_example_events : list FriendlyScoreRaceGUI.event :=
  [FriendlyScoreRaceGUI.Edit "  koala " "" "보통" "대화" "2" "";
   FriendlyScoreRaceGUI.AddTeam 1772366400001 1000 example_clock;
   FriendlyScoreRaceGUI.Edit "emu" "koala" "보통" "대화" "2" "";
   FriendlyScoreRaceGUI.AddTeam 1772366400002 1001 example_clock;
   FriendlyScoreRaceGUI.Edit "" " emu " "어려움" "도전" " 4 " "relay"].

Fixpoint A_handle_all (evs : list FriendlyScoreRaceGUI.event) (w : FriendlyScoreRaceGUI.Window)
    : FriendlyScoreRaceGUI.Window :=
  match evs with
  | [] => w
  | ev :: evs' =>
      match FriendlyScoreRaceGUI.handle example_isdigit example_int ev w with
      | Cli.Return w' => A_handle_all evs' w'
      | Cli.Throw _ => A_handle_all evs' w
      end
  end.

Definition A_example_window : FriendlyScoreRaceGUI.Window :=
  A_handle_all A_example_events (FriendlyScoreRaceGUI.init A_fresh_world).

(** * Proofs *)

(** ** Bonus evaluation *)

Lemma NoDup_CATEGORIES : NoDup CATEGORIES.
Proof. compute_done. Qed.

Lemma has_categories_zero_counts : has_categories zero_counts.
Proof.
  intros c Hc. unfold CATEGORIES in Hc.
  repeat (apply elem_of_cons in Hc as [-> | Hc]); try (eexists; reflexivity).
  by apply elem_of_nil in Hc.
Qed.

Lemma has_categories_insert m c n :
  has_categories m → has_categories (<[c := n]> m).
Proof.
  intros H c' Hc'. destruct (decide (c = c')) as [-> | Hne].
  - rewrite lookup_insert_eq. eauto.
  - rewrite lookup_insert_ne; auto.
Qed.

Lemma getitem_Some {V} (m : gmap string V) k v :
  m !! k = Some v → getitem m k = Ok v.
Proof. unfold getitem. by intros ->. Qed.

Lemma all_positive_spec counts cs :
  (∀ c, c ∈ cs → is_Some (counts !! c)) →
  all_positive counts cs = Ok (forallb (λ c, 0 <? count_of counts c) cs).
Proof.
  induction cs as [| c cs IH]; intros Hin; [done |].
  destruct (Hin c) as [n Hn]; [left |].
  cbn [all_positive forallb]. rewrite (getitem_Some _ _ _ Hn).
  unfold count_of at 1. rewrite Hn. cbn.
  destruct (0 <? n); [| done].
  apply IH. intros c' Hc'. apply Hin. by right.
Qed.

Lemma line_gains_ext counts granted granted' cs :
  (∀ c, c ∈ cs → granted' !! c = granted !! c) →
  line_gains counts granted' cs = line_gains counts granted cs.
Proof.
  induction cs as [| c cs IH]; intros H; [done |].
  cbn [line_gains]. rewrite IH by (intros; apply H; by right).
  unfold line_gain, count_of. rewrite (H c) by left. done.
Qed.

(** The loop [for c in CATEGORIES] of [compute_bonus], over any record
    that holds the two dicts. *)
Section line_loop.
Context {T : Type}.
Context (counts_of granted_of : T -> gmap string Z).
Context (set_granted : T -> gmap string Z -> T).
Context (body : string -> Z * T -> exc (Z * T)).

Hypothesis body_unfold : ∀ c bonus team,
  body c (bonus, team) =
    (n ← getitem (counts_of team) c;
     taken ← getitem (granted_of team) c;
     if taken <? n `div` LINE_THRESHOLD then
       Ok (bonus + (n `div` LINE_THRESHOLD - taken) * LINE_BONUS_POINTS,
           set_granted team (<[c := n `div` LINE_THRESHOLD]> (granted_of team)))
     else Ok (bonus, team)).
Hypothesis granted_set : ∀ t m, granted_of (set_granted t m) = m.
Hypothesis counts_set : ∀ t m, counts_of (set_granted t m) = counts_of t.
Hypothesis set_set : ∀ t m m', set_granted (set_granted t m) m' = set_granted t m'.
Hypothesis set_same : ∀ t, set_granted t (granted_of t) = t.

Lemma line_loop_spec cs : NoDup cs →
  ∀ bonus team,
  (∀ c, c ∈ cs → is_Some (counts_of team !! c) ∧ is_Some (granted_of team !! c)) →
  ∃ granted',
    for_each body cs (bonus, team)
      = Ok (bonus + line_gains (counts_of team) (granted_of team) cs,
            set_granted team granted')
    ∧ (∀ c, c ∈ cs →
         granted' !! c = Some (line_granted (counts_of team) (granted_of team) c))
    ∧ (∀ c, c ∉ cs → granted' !! c = granted_of team !! c).
Proof using body_unfold granted_set counts_set set_set set_same.
  induction cs as [| c cs IH]; intros Hnd bonus team Hin.
  { exists (granted_of team). cbn. rewrite set_same, Z.add_0_r.
    split; [done | split; [| done]].
    intros c Hc. by apply elem_of_nil in Hc. }
  apply NoDup_cons in Hnd as [Hc Hnd].
  destruct (Hin c) as [[n Hn] [k Hk]]; [left |].
  cbn [for_each]. rewrite body_unfold.
  rewrite (getitem_Some _ _ _ Hn). cbn. rewrite (getitem_Some _ _ _ Hk). cbn.
  assert (Hg : line_gain (counts_of team) (granted_of team) c
               = if k <? n `div` 3 then (n `div` 3 - k) * 25 else 0).
  { unfold line_gain, tier, count_of. by rewrite Hn, Hk. }
  assert (Hl : line_granted (counts_of team) (granted_of team) c
               = if k <? n `div` 3 then n `div` 3 else k).
  { unfold line_granted, tier, count_of. by rewrite Hn, Hk. }
  change LINE_THRESHOLD with 3. change LINE_BONUS_POINTS with 25.
  destruct (k <? n `div` 3) eqn:Hlt.
  - set (team1 := set_granted team (<[c := n `div` 3]> (granted_of team))).
    destruct (IH Hnd (bonus + (n `div` 3 - k) * 25) team1) as (g' & Hrun & Hin' & Hout').
    { intros c' Hc'. unfold team1. rewrite counts_set, granted_set.
      rewrite lookup_insert_ne by (intros ->; done). apply Hin. by right. }
    exists g'. unfold team1 in *.
    rewrite counts_set, granted_set, set_set in *.
    cbn. rewrite Hrun. split; [| split].
    + f_equal. f_equal. cbn [line_gains]. rewrite Hg.
      rewrite (line_gains_ext _ (granted_of team) (<[c:=n `div` 3]> (granted_of team))).
      * lia.
      * intros c' Hc'. rewrite lookup_insert_ne by (intros ->; done). done.
    + intros c' [-> | Hc']%elem_of_cons.
      * rewrite Hout' by done. rewrite lookup_insert_eq. by rewrite Hl.
      * rewrite Hin' by done. f_equal.
        unfold line_granted, count_of.
        rewrite lookup_insert_ne by (intros ->; done). done.
    + intros c' Hc'. apply not_elem_of_cons in Hc' as [Hne Hc'].
      rewrite Hout' by done. by rewrite lookup_insert_ne.
  - destruct (IH Hnd bonus team) as (g' & Hrun & Hin' & Hout').
    { intros c' Hc'. apply Hin. by right. }
    exists g'. cbn. rewrite Hrun. split; [| split].
    + f_equal. f_equal. cbn [line_gains]. rewrite Hg. lia.
    + intros c' [-> | Hc']%elem_of_cons.
      * rewrite Hout' by done. by rewrite Hl, Hk.
      * by apply Hin'.
    + intros c' Hc'. apply not_elem_of_cons in Hc' as [Hne Hc']. by apply Hout'.
Qed.
End line_loop.

Lemma line_gains_zero counts granted cs :
  (∀ c, c ∈ cs → line_gain counts granted c = 0) →
  line_gains counts granted cs = 0.
Proof.
  induction cs as [| c cs IH]; intros H; [done |].
  cbn [line_gains]. rewrite H by left. rewrite IH; [done |].
  intros c' Hc'. apply H. by right.
Qed.

(** Evaluating the bonus a second time, with nothing recorded in between,
    grants nothing and changes nothing. *)
Lemma bonus_spec_again counts taken granted bonus taken' granted' bonus2 taken2 granted2 :
  bonus_spec counts taken granted bonus taken' granted' →
  bonus_spec counts taken' granted' bonus2 taken2 granted2 →
  bonus2 = 0 ∧ taken2 = taken' ∧ granted2 = granted'.
Proof.
  intros (_ & Ht & Hin & Hout) (Hb2 & Ht2 & Hin2 & Hout2).
  assert (Hdue : set_due counts taken' = false).
  { subst taken'. unfold set_due.
    destruct (forallb _ CATEGORIES); [| done]. cbn.
    destruct (taken =? 0) eqn:E; [done | by rewrite E]. }
  assert (Hstay : ∀ c, c ∈ CATEGORIES →
            (count_of granted' c <? tier counts c) = false).
  { intros c Hc. unfold count_of at 1. rewrite (Hin c Hc).
    unfold line_granted. destruct (count_of granted c <? tier counts c) eqn:E; lia. }
  split; [| split].
  - rewrite Hb2. unfold set_gain. rewrite Hdue.
    rewrite line_gains_zero; [done |].
    intros c Hc. unfold line_gain. by rewrite Hstay.
  - by rewrite Ht2, Hdue.
  - apply map_eq. intros c. destruct (decide (c ∈ CATEGORIES)) as [Hc | Hc].
    + rewrite (Hin2 c Hc). unfold line_granted. rewrite (Hstay c Hc).
      unfold count_of. by rewrite (Hin c Hc).
    + by apply Hout2.
Qed.

(** Once [set_bonus_taken] is not 0 the set bonus is not granted and the
    latch stays. *)
Lemma bonus_spec_latched counts taken granted bonus taken' granted' :
  bonus_spec counts taken granted bonus taken' granted' →
  taken ≠ 0 →
  taken' = taken ∧ bonus = line_gains counts granted CATEGORIES.
Proof.
  intros (Hb & Ht & _) Hne.
  assert (Hdue : set_due counts taken = false).
  { unfold set_due. apply Z.eqb_neq in Hne. rewrite Hne. apply andb_false_r. }
  unfold set_gain in Hb. rewrite Hdue in Hb, Ht. split; [done | lia].
Qed.

(** The tier of a category moves when its count reaches a multiple of 3. *)
Lemma line_gain_nth counts granted c n :
  line_gain (<[c := n]> counts) (<[c := (n - 1) `div` 3]> granted) c
  = if n `mod` 3 =? 0 then 25 else 0.
Proof.
  unfold line_gain, tier, count_of. rewrite !lookup_insert_eq.
  destruct (n `mod` 3 =? 0) eqn:E.
  - assert ((n - 1) `div` 3 = n `div` 3 - 1) as ->
      by (apply Z.eqb_eq in E; Z.div_mod_to_equations; lia).
    destruct (n `div` 3 - 1 <? n `div` 3) eqn:E'; lia.
  - assert ((n - 1) `div` 3 = n `div` 3) as ->
      by (apply Z.eqb_neq in E; Z.div_mod_to_equations; lia).
    by rewrite Z.ltb_irrefl.
Qed.

Lemma B_compute_bonus_spec (team : BoardB.Team) :
  has_categories (BoardB.category_count team) →
  has_categories (BoardB.line_bonus_taken team) →
  ∃ bonus taken' granted',
    BoardB.compute_bonus team
      = Ok (bonus, BoardB.set_line_bonus_taken
                     (BoardB.set_set_bonus_taken team taken') granted')
    ∧ bonus_spec (BoardB.category_count team) (BoardB.set_bonus_taken team)
        (BoardB.line_bonus_taken team) bonus taken' granted'.
Proof.
  intros Hc Hg. unfold BoardB.compute_bonus.
  rewrite (all_positive_spec _ _ Hc). cbn [mbind exc_bind bind].
  fold (set_due (BoardB.category_count team) (BoardB.set_bonus_taken team)).
  pose proof (line_loop_spec BoardB.category_count BoardB.line_bonus_taken
                BoardB.set_line_bonus_taken BoardB.line_bonus
                ltac:(done) ltac:(done) ltac:(done) ltac:(done) ltac:(by intros [])
                CATEGORIES NoDup_CATEGORIES) as Hloop.
  unfold bonus_spec, set_gain.
  destruct (set_due _ _).
  - destruct (Hloop (0 + SET_BONUS_POINTS) (BoardB.set_set_bonus_taken team 1))
      as (granted' & Hrun & Hin & Hout).
    { intros c Hcat. split; [by apply Hc | by apply Hg]. }
    eexists _, 1, granted'. split; [exact Hrun | done].
  - destruct (Hloop 0 team) as (granted' & Hrun & Hin & Hout).
    { intros c Hcat. split; [by apply Hc | by apply Hg]. }
    eexists _, (BoardB.set_bonus_taken team), granted'. split; [| done].
    rewrite Hrun. by destruct team.
Qed.

Lemma A_compute_bonus_spec (team : BoardA.Team) :
  has_categories (BoardA.category_count team) →
  has_categories (BoardA.line_bonus_taken team) →
  ∃ bonus taken' granted',
    BoardA.compute_bonus team
      = Ok (bonus, BoardA.set_line_bonus_taken
                     (BoardA.set_set_bonus_taken team taken') granted')
    ∧ bonus_spec (BoardA.category_count team) (BoardA.set_bonus_taken team)
        (BoardA.line_bonus_taken team) bonus taken' granted'.
Proof.
  intros Hc Hg. unfold BoardA.compute_bonus.
  rewrite (all_positive_spec _ _ Hc). cbn [mbind exc_bind bind].
  fold (set_due (BoardA.category_count team) (BoardA.set_bonus_taken team)).
  pose proof (line_loop_spec BoardA.category_count BoardA.line_bonus_taken
                BoardA.set_line_bonus_taken BoardA.line_bonus
                ltac:(done) ltac:(done) ltac:(done) ltac:(done) ltac:(by intros [])
                CATEGORIES NoDup_CATEGORIES) as Hloop.
  unfold bonus_spec, set_gain.
  destruct (set_due _ _).
  - destruct (Hloop (0 + SET_BONUS_POINTS) (BoardA.set_set_bonus_taken team 1))
      as (granted' & Hrun & Hin & Hout).
    { intros c Hcat. split; [by apply Hc | by apply Hg]. }
    eexists _, 1, granted'. split; [exact Hrun | done].
  - destruct (Hloop 0 team) as (granted' & Hrun & Hin & Hout).
    { intros c Hcat. split; [by apply Hc | by apply Hg]. }
    eexists _, (BoardA.set_bonus_taken team), granted'. split; [| done].
    rewrite Hrun. by destruct team.
Qed.

(** C2.  Bonus evaluation ([compute_bonus], both variants), on a team
    whose two dicts hold the four categories: the bonus returned is the
    set bonus of 40, due when every category count is positive and
    [set_bonus_taken] is 0, plus, for each category on its own,
    [(tier - line_bonus_taken[c]) * 25] when [tier = count // 3] exceeds
    [line_bonus_taken[c]]; [set_bonus_taken] becomes 1 when the set bonus
    is granted and [line_bonus_taken[c]] becomes the tier when it was
    exceeded; nothing else in the team changes, and evaluating the bonus
    again at once grants nothing (each bonus is granted once); with
    [set_bonus_taken] other than 0 the set bonus is not granted and
    [set_bonus_taken] stays as it is.  With the
    tier granted so far at [(n - 1) // 3], the [n]-th activity of a
    category grants 25 exactly when [n] is a multiple of 3: the 3rd and
    6th do, the 4th and 5th do not. *)
Theorem compute_bonus_correct (teamA : BoardA.Team) (teamB : BoardB.Team)
    (HA : has_categories (BoardA.category_count teamA)
          ∧ has_categories (BoardA.line_bonus_taken teamA))
    (HB : has_categories (BoardB.category_count teamB)
          ∧ has_categories (BoardB.line_bonus_taken teamB)) :
  (∃ bonus taken' granted',
     let teamA' := BoardA.set_line_bonus_taken
                     (BoardA.set_set_bonus_taken teamA taken') granted' in
     BoardA.compute_bonus teamA = Ok (bonus, teamA')
     ∧ bonus_spec (BoardA.category_count teamA) (BoardA.set_bonus_taken teamA)
         (BoardA.line_bonus_taken teamA) bonus taken' granted'
     ∧ BoardA.compute_bonus teamA' = Ok (0, teamA')
     ∧ (BoardA.set_bonus_taken teamA ≠ 0 →
          taken' = BoardA.set_bonus_taken teamA
          ∧ bonus = line_gains (BoardA.category_count teamA)
                      (BoardA.line_bonus_taken teamA) CATEGORIES))
  ∧ (∃ bonus taken' granted',
     let teamB' := BoardB.set_line_bonus_taken
                     (BoardB.set_set_bonus_taken teamB taken') granted' in
     BoardB.compute_bonus teamB = Ok (bonus, teamB')
     ∧ bonus_spec (BoardB.category_count teamB) (BoardB.set_bonus_taken teamB)
         (BoardB.line_bonus_taken teamB) bonus taken' granted'
     ∧ BoardB.compute_bonus teamB' = Ok (0, teamB')
     ∧ (BoardB.set_bonus_taken teamB ≠ 0 →
          taken' = BoardB.set_bonus_taken teamB
          ∧ bonus = line_gains (BoardB.category_count teamB)
                      (BoardB.line_bonus_taken teamB) CATEGORIES))
  ∧ (∀ counts granted c n,
       line_gain (<[c := n]> counts) (<[c := (n - 1) `div` 3]> granted) c
       = if n `mod` 3 =? 0 then 25 else 0)
  ∧ (∀ counts granted c,
       line_gain (<[c := 3]> counts) (<[c := 0]> granted) c = 25
       ∧ line_gain (<[c := 4]> counts) (<[c := 1]> granted) c = 0
       ∧ line_gain (<[c := 5]> counts) (<[c := 1]> granted) c = 0
       ∧ line_gain (<[c := 6]> counts) (<[c := 1]> granted) c = 25).
Proof.
  destruct HA as [HA1 HA2], HB as [HB1 HB2].
  split; [| split; [| split]].
  - destruct (A_compute_bonus_spec teamA HA1 HA2) as (bonus & taken' & granted' & Hrun & Hspec).
    exists bonus, taken', granted'. cbn zeta. split; [done | split; [done |]].
    split; [| by apply (bonus_spec_latched _ _ _ _ _ _ Hspec)].
    set (teamA' := BoardA.set_line_bonus_taken _ _).
    assert (Hg' : has_categories granted').
    { intros c Hc. destruct Hspec as (_ & _ & Hin & _). rewrite (Hin c Hc). eauto. }
    destruct (A_compute_bonus_spec teamA' HA1 Hg') as (b2 & t2 & g2 & Hrun2 & Hspec2).
    destruct (bonus_spec_again _ _ _ _ _ _ _ _ _ Hspec Hspec2) as (-> & -> & ->).
    rewrite Hrun2. done.
  - destruct (B_compute_bonus_spec teamB HB1 HB2) as (bonus & taken' & granted' & Hrun & Hspec).
    exists bonus, taken', granted'. cbn zeta. split; [done | split; [done |]].
    split; [| by apply (bonus_spec_latched _ _ _ _ _ _ Hspec)].
    set (teamB' := BoardB.set_line_bonus_taken _ _).
    assert (Hg' : has_categories granted').
    { intros c Hc. destruct Hspec as (_ & _ & Hin & _). rewrite (Hin c Hc). eauto. }
    destruct (B_compute_bonus_spec teamB' HB1 Hg') as (b2 & t2 & g2 & Hrun2 & Hspec2).
    destruct (bonus_spec_again _ _ _ _ _ _ _ _ _ Hspec Hspec2) as (-> & -> & ->).
    rewrite Hrun2. done.
  - apply line_gain_nth.
  - intros counts granted c.
    pose proof (line_gain_nth counts granted c 3) as H3.
    pose proof (line_gain_nth counts granted c 4) as H4.
    pose proof (line_gain_nth counts granted c 5) as H5.
    pose proof (line_gain_nth counts granted c 6) as H6.
    done.
Qed.

Lemma compute_bonus_correct_witness :
  (has_categories (BoardA.category_count witness_teamA)
   ∧ has_categories (BoardA.line_bonus_taken witness_teamA))
  ∧ (has_categories (BoardB.category_count witness_teamB)
     ∧ has_categories (BoardB.line_bonus_taken witness_teamB))
  ∧ ∃ bonus taken' granted',
      BoardB.compute_bonus witness_teamB
      = Ok (bonus, BoardB.set_line_bonus_taken
                     (BoardB.set_set_bonus_taken witness_teamB taken') granted').
Proof.
  assert (HA : has_categories (BoardA.category_count witness_teamA)
               ∧ has_categories (BoardA.line_bonus_taken witness_teamA))
    by (split; apply (bool_decide_unpack _); vm_compute; exact I).
  assert (HB : has_categories (BoardB.category_count witness_teamB)
               ∧ has_categories (BoardB.line_bonus_taken witness_teamB))
    by (split; apply (bool_decide_unpack _); vm_compute; exact I).
  split; [exact HA | split; [exact HB |]].
  destruct (compute_bonus_correct witness_teamA witness_teamB HA HB)
    as (_ & (bonus & taken' & granted' & Hrun & _) & _).
  exists bonus, taken', granted'. exact Hrun.
Defined.

Example compute_bonus_example :
  BoardB.compute_bonus witness_teamB
  = Ok (65, BoardB.set_line_bonus_taken (BoardB.set_set_bonus_taken witness_teamB 1)
              (<["talk" := 1]> zero_counts)).
Proof. vm_compute. reflexivity. Qed.


(** ** Recording an activity *)

Lemma bonus_spec_nonneg counts taken granted bonus taken' granted' :
  bonus_spec counts taken granted bonus taken' granted' → 0 ≤ bonus.
Proof.
  intros (-> & _).
  assert (0 ≤ set_gain counts taken) by (unfold set_gain; destruct (set_due _ _); lia).
  assert (∀ cs, 0 ≤ line_gains counts granted cs).
  { induction cs as [| c cs IH]; cbn [line_gains]; [lia |].
    assert (0 ≤ line_gain counts granted c); [| lia].
    unfold line_gain. destruct (_ <? _) eqn:E; lia. }
  specialize (H0 CATEGORIES). lia.
Qed.

Lemma difficulty_label d points :
  DIFFICULTY_POINTS !! d = Some points → ∃ l, DIFFICULTY_LABELS !! d = Some l.
Proof.
  intros H. apply elem_of_list_to_map_2 in H.
  repeat (apply elem_of_cons in H as [[= -> ->] | H]); try (eexists; reflexivity).
  by apply elem_of_nil in H.
Qed.

Lemma category_label c :
  c ∈ CATEGORIES → ∃ l, CATEGORY_LABELS !! c = Some l.
Proof.
  intros H. unfold CATEGORIES in H.
  repeat (apply elem_of_cons in H as [-> | H]); try (eexists; reflexivity).
  by apply elem_of_nil in H.
Qed.

Ltac B_setters :=
  cbv [BoardB.set_score BoardB.set_mission_count BoardB.set_throw_chance
       BoardB.set_throw_granted_by_score BoardB.set_position BoardB.set_finished_at
       BoardB.set_category_count BoardB.set_set_bonus_taken BoardB.set_line_bonus_taken
       BoardB.id BoardB.name BoardB.score BoardB.mission_count BoardB.throw_chance
       BoardB.throw_granted_by_score BoardB.position BoardB.finished_at
       BoardB.category_count BoardB.set_bonus_taken BoardB.line_bonus_taken].

Lemma B_record_activity_spec clock w team_id difficulty category participant_count title i team points :
  BoardB.find_team (BoardB.game w) team_id = Some (i, team) →
  valid_activity (BoardB.category_count team) (BoardB.line_bonus_taken team)
    difficulty category participant_count points →
  ∃ bonus taken' granted' msg,
    bonus_spec (counted (BoardB.category_count team) category)
      (BoardB.set_bonus_taken team) (BoardB.line_bonus_taken team) bonus taken' granted'
    ∧ BoardB.record_activity clock team_id difficulty category participant_count title w
      = Ok ((true, "활동이 반영되었습니다."),
            BoardB.save
              (BoardB.mkGame
                 (<[i := B_after_activity team category
                           (earned_points points participant_count) bonus taken' granted']>
                    (BoardB.teams (BoardB.game w)))
                 (take 150 (BoardB.mkLogEntry (isoformat (clock O)) msg
                              :: BoardB.logs (BoardB.game w)))
                 (BoardB.finish_order (BoardB.game w)))).
Proof.
  intros Hfind (Hpoints & Hcat & Hcount & Hc & Hg).
  destruct (Hc category Hcat) as [n Hn].
  destruct (difficulty_label _ _ Hpoints) as [dl Hdl].
  destruct (category_label _ Hcat) as [cl Hcl].
  unfold BoardB.record_activity. rewrite Hfind.
  assert (has_key DIFFICULTY_POINTS difficulty = true) as ->.
  { unfold has_key. apply bool_decide_eq_true. eauto. }
  assert (contains CATEGORIES category = true) as ->.
  { unfold contains. by apply bool_decide_eq_true. }
  assert ((participant_count <? 1) = false) as -> by lia.
  cbn [negb]. rewrite (getitem_Some _ _ _ Hpoints). cbn [mbind exc_bind bind].
  cbn [BoardB.category_count BoardB.set_mission_count BoardB.set_score].
  rewrite (getitem_Some _ _ _ Hn). cbn [mbind exc_bind bind].
  set (earned := BASE_POINTS + points + _).
  set (team1 := BoardB.set_category_count _ _).
  destruct (B_compute_bonus_spec team1) as (bonus & taken' & granted' & Hrun & Hspec).
  { by apply has_categories_insert. }
  { done. }
  rewrite Hrun. cbn [mbind exc_bind bind].
  pose proof (bonus_spec_nonneg _ _ _ _ _ _ Hspec) as Hnn.
  match goal with
  | |- context [BoardB.apply_score_throw_milestone ?t] =>
      assert (Harg : t = B_scored team category
                           (earned_points points participant_count) bonus taken' granted')
  end.
  { unfold team1, earned, earned_points, B_scored, counted, count_of. rewrite Hn.
    destruct team.
    change BASE_POINTS with 10. change TEAM_MEMBER_BONUS_START with 3.
    change TEAM_MEMBER_BONUS_POINTS with 20.
    destruct (0 <? bonus) eqn:E; B_setters; f_equal; lia. }
  rewrite Harg.
  destruct (BoardB.apply_score_throw_milestone _) as [throws team2] eqn:Hms.
  rewrite (getitem_Some _ _ _ Hdl), (getitem_Some _ _ _ Hcl). cbn [mbind exc_bind bind].
  unfold BoardB.add_log.
  eexists bonus, taken', granted', _.
  split.
  { unfold counted, count_of. rewrite Hn. exact Hspec. }
  unfold B_after_activity. rewrite Hms. reflexivity.
Qed.

Ltac A_setters :=
  cbv [BoardA.set_score BoardA.set_mission_count
       BoardA.set_category_count BoardA.set_set_bonus_taken BoardA.set_line_bonus_taken
       BoardA.id BoardA.name BoardA.score BoardA.mission_count
       BoardA.category_count BoardA.set_bonus_taken BoardA.line_bonus_taken].

Lemma A_record_activity_spec clock w team_id difficulty category participant_count title i team points :
  BoardA.find_team (BoardA.game w) team_id = Some (i, team) →
  valid_activity (BoardA.category_count team) (BoardA.line_bonus_taken team)
    difficulty category participant_count points →
  ∃ bonus taken' granted' msg,
    bonus_spec (counted (BoardA.category_count team) category)
      (BoardA.set_bonus_taken team) (BoardA.line_bonus_taken team) bonus taken' granted'
    ∧ BoardA.record_activity clock team_id difficulty category participant_count title w
      = Ok ((true, "활동이 반영되었습니다."),
            BoardA.save
              (BoardA.mkGame
                 (<[i := A_after_activity team category
                           (earned_points points participant_count) bonus taken' granted']>
                    (BoardA.teams (BoardA.game w)))
                 (take 120 (BoardA.mkLogEntry (isoformat (clock O)) msg
                              :: BoardA.logs (BoardA.game w))))).
Proof.
  intros Hfind (Hpoints & Hcat & Hcount & Hc & Hg).
  destruct (Hc category Hcat) as [n Hn].
  destruct (difficulty_label _ _ Hpoints) as [dl Hdl].
  destruct (category_label _ Hcat) as [cl Hcl].
  unfold BoardA.record_activity. rewrite Hfind.
  assert (has_key DIFFICULTY_POINTS difficulty = true) as ->.
  { unfold has_key. apply bool_decide_eq_true. eauto. }
  assert (contains CATEGORIES category = true) as ->.
  { unfold contains. by apply bool_decide_eq_true. }
  assert ((participant_count <? 1) = false) as -> by lia.
  cbn [negb]. rewrite (getitem_Some _ _ _ Hpoints). cbn [mbind exc_bind bind].
  cbn [BoardA.category_count BoardA.set_mission_count BoardA.set_score].
  rewrite (getitem_Some _ _ _ Hn). cbn [mbind exc_bind bind].
  set (earned := BASE_POINTS + points + _).
  set (team1 := BoardA.set_category_count _ _).
  destruct (A_compute_bonus_spec team1) as (bonus & taken' & granted' & Hrun & Hspec).
  { by apply has_categories_insert. }
  { done. }
  rewrite Hrun. cbn [mbind exc_bind bind].
  pose proof (bonus_spec_nonneg _ _ _ _ _ _ Hspec) as Hnn.
  match goal with
  | |- context [BoardA.name ?t] =>
      assert (Harg : t = A_after_activity team category
                           (earned_points points participant_count) bonus taken' granted')
  end.
  { unfold team1, earned, earned_points, A_after_activity, counted, count_of. rewrite Hn.
    destruct team.
    change BASE_POINTS with 10. change TEAM_MEMBER_BONUS_START with 3.
    change TEAM_MEMBER_BONUS_POINTS with 20.
    destruct (0 <? bonus) eqn:E; A_setters; f_equal; lia. }
  rewrite Harg.
  rewrite (getitem_Some _ _ _ Hdl), (getitem_Some _ _ _ Hcl). cbn [mbind exc_bind bind].
  unfold BoardA.add_log.
  eexists bonus, taken', granted', _.
  split.
  { unfold counted, count_of. rewrite Hn. exact Hspec. }
  reflexivity.
Qed.

(** C1.  [record_activity], both variants, for a team the game holds,
    with a count and a tier for each category as the teams of every run
    have ([A_reachable_counts_ok], [B_reachable_counts_ok]), and
    arguments that pass the checks: the call returns success; in the team
    it adds [earned = 10 + difficulty points + max(0, participants - 2) * 20]
    and the bonus to the score, one to [mission_count] and one to
    [category_count[category]]; the bonus is evaluated on the counts that
    already include the activity, so the call that completes a set or a
    line is the call that is paid for it.  The other teams are untouched,
    one log entry is put in front and the state is saved. *)
Theorem record_activity_correct
    (clock : nat -> datetime)
    (wA : BoardA.World) (wB : BoardB.World)
    (team_id difficulty category title : string) (participant_count points : Z)
    (iA iB : nat) (teamA : BoardA.Team) (teamB : BoardB.Team)
    (HfindA : BoardA.find_team (BoardA.game wA) team_id = Some (iA, teamA))
    (HfindB : BoardB.find_team (BoardB.game wB) team_id = Some (iB, teamB))
    (HvalidA : valid_activity (BoardA.category_count teamA) (BoardA.line_bonus_taken teamA)
                 difficulty category participant_count points)
    (HvalidB : valid_activity (BoardB.category_count teamB) (BoardB.line_bonus_taken teamB)
                 difficulty category participant_count points) :
  let earned := earned_points points participant_count in
  (∃ bonus taken' granted' msg,
     let teamA' := A_after_activity teamA category earned bonus taken' granted' in
     bonus_spec (counted (BoardA.category_count teamA) category)
       (BoardA.set_bonus_taken teamA) (BoardA.line_bonus_taken teamA) bonus taken' granted'
     ∧ BoardA.record_activity clock team_id difficulty category participant_count title wA
       = Ok ((true, "활동이 반영되었습니다."),
             BoardA.save
               (BoardA.mkGame
                  (<[iA := teamA']> (BoardA.teams (BoardA.game wA)))
                  (take 120 (BoardA.mkLogEntry (isoformat (clock O)) msg
                               :: BoardA.logs (BoardA.game wA)))))
     ∧ BoardA.score teamA' = BoardA.score teamA + earned + bonus
     ∧ BoardA.mission_count teamA' = BoardA.mission_count teamA + 1
     ∧ BoardA.category_count teamA' !! category
       = Some (count_of (BoardA.category_count teamA) category + 1))
  ∧ (∃ bonus taken' granted' msg,
     let teamB' := B_after_activity teamB category earned bonus taken' granted' in
     bonus_spec (counted (BoardB.category_count teamB) category)
       (BoardB.set_bonus_taken teamB) (BoardB.line_bonus_taken teamB) bonus taken' granted'
     ∧ BoardB.record_activity clock team_id difficulty category participant_count title wB
       = Ok ((true, "활동이 반영되었습니다."),
             BoardB.save
               (BoardB.mkGame
                  (<[iB := teamB']> (BoardB.teams (BoardB.game wB)))
                  (take 150 (BoardB.mkLogEntry (isoformat (clock O)) msg
                               :: BoardB.logs (BoardB.game wB)))
                  (BoardB.finish_order (BoardB.game wB))))
     ∧ BoardB.score teamB' = BoardB.score teamB + earned + bonus
     ∧ BoardB.mission_count teamB' = BoardB.mission_count teamB + 1
     ∧ BoardB.category_count teamB' !! category
       = Some (count_of (BoardB.category_count teamB) category + 1)).
Proof.
  intros earned. split.
  - destruct (A_record_activity_spec clock wA team_id difficulty category
                participant_count title iA teamA points HfindA HvalidA)
      as (bonus & taken' & granted' & msg & Hspec & Hrun).
    exists bonus, taken', granted', msg. cbn zeta.
    split; [done | split; [done |]].
    unfold A_after_activity, counted. cbn. by rewrite lookup_insert_eq.
  - destruct (B_record_activity_spec clock wB team_id difficulty category
                participant_count title iB teamB points HfindB HvalidB)
      as (bonus & taken' & granted' & msg & Hspec & Hrun).
    exists bonus, taken', granted', msg. cbn zeta.
    split; [done | split; [done |]].
    unfold B_after_activity, BoardB.apply_score_throw_milestone.
    destruct (_ <=? _); unfold B_scored, counted; cbn; by rewrite lookup_insert_eq.
Qed.

Lemma record_activity_correct_witness :
  ∃ wA' wB',
    BoardA.record_activity example_clock "team_1772366400001_1000" "easy" "talk" 1 "" example_worldA
      = Ok ((true, "활동이 반영되었습니다."), wA')
    ∧ BoardB.record_activity example_clock "team_1772366400001_1000" "easy" "talk" 1 "" example_worldB
      = Ok ((true, "활동이 반영되었습니다."), wB').
Proof.
  assert (Hv : valid_activity (<["talk" := 2]> zero_counts) zero_counts "easy" "talk" 1 10).
  { unfold valid_activity.
    split; [reflexivity |].
    split; [apply (bool_decide_unpack _); vm_compute; exact I |].
    split; [lia |].
    split; apply (bool_decide_unpack _); vm_compute; exact I. }
  destruct (record_activity_correct example_clock example_worldA example_worldB
              "team_1772366400001_1000" "easy" "talk" "" 1 10 0 0 _ _ eq_refl eq_refl Hv Hv)
    as [(? & ? & ? & ? & _ & HA & _) (? & ? & ? & ? & _ & HB & _)].
  eexists _, _. split; [exact HA | exact HB].
Defined.

(** The third activity of a category is itself paid the line bonus: it
    earns 20, and the score goes from 40 to 85. *)
Example record_activity_third_B :
  (λ r, (BoardB.score <$> BoardB.teams (BoardB.game r.2)))
    <$> (match BoardB.record_activity example_clock "team_1772366400001_1000" "easy" "talk" 1 ""
                 example_worldB with Ok r => Some r | Raise _ => None end)
  = Some [85].
Proof. vm_compute. reflexivity. Qed.

Example record_activity_third_A :
  (λ r, (BoardA.score <$> BoardA.teams (BoardA.game r.2)))
    <$> (match BoardA.record_activity example_clock "team_1772366400001_1000" "easy" "talk" 1 ""
                 example_worldA with Ok r => Some r | Raise _ => None end)
  = Some [85].
Proof. vm_compute. reflexivity. Qed.

(** ** Validation *)

Lemma truthy_false s : truthy s = false ↔ s = "".
Proof.
  unfold truthy. rewrite negb_false_iff. apply String.eqb_eq.
Qed.

Lemma add_team_refuses millis rand clock name w :
  add_team_invalid (BoardB.game w) name →
  ∃ reason, BoardB.add_team millis rand clock name w = ((false, reason), w)
            ∧ truthy reason = true.
Proof.
  intros Hinv. unfold BoardB.add_team.
  destruct (truthy (strip name)) eqn:Ht; cbn [negb].
  - destruct Hinv as [He | (t & Hin & Hname)].
    { apply truthy_false in He. congruence. }
    assert (existsb (λ t, String.eqb (BoardB.name t) (strip name))
              (BoardB.teams (BoardB.game w)) = true) as ->.
    { apply existsb_exists. exists t. split; [by apply list_elem_of_In |].
      by apply String.eqb_eq. }
    eexists. split; reflexivity.
  - eexists. split; reflexivity.
Qed.

Lemma add_team_accepts millis rand clock name w :
  ¬ add_team_invalid (BoardB.game w) name →
  (BoardB.add_team millis rand clock name w).1.1 = true.
Proof.
  intros Hval. unfold BoardB.add_team.
  destruct (truthy (strip name)) eqn:Ht; cbn [negb].
  - destruct (existsb _ _) eqn:He; [| by destruct (BoardB.add_log _ _ _)].
    exfalso. apply Hval. right.
    apply existsb_exists in He as (t & Hin & Hname).
    exists t. split; [by apply list_elem_of_In | by apply String.eqb_eq].
  - exfalso. apply Hval. left. by apply truthy_false.
Qed.

Lemma record_activity_refuses clock team_id difficulty category participant_count title w :
  record_activity_invalid (BoardB.game w) team_id difficulty category participant_count →
  ∃ reason,
    BoardB.record_activity clock team_id difficulty category participant_count title w
    = Ok ((false, reason), w) ∧ truthy reason = true.
Proof.
  intros Hinv. unfold BoardB.record_activity, record_activity_invalid in *.
  destruct (BoardB.find_team _ _) as [[i team] |] eqn:Hfind;
    [| eexists; split; reflexivity].
  destruct Hinv as [? | Hinv]; [done |].
  destruct (has_key DIFFICULTY_POINTS difficulty) eqn:Hd; cbn [negb];
    [| eexists; split; reflexivity].
  apply bool_decide_eq_true in Hd as [p Hp].
  destruct Hinv as [? | Hinv]; [congruence |].
  destruct (contains CATEGORIES category) eqn:Hc; cbn [negb];
    [| eexists; split; reflexivity].
  apply bool_decide_eq_true in Hc.
  destruct Hinv as [? | Hinv]; [done |].
  assert ((participant_count <? 1) = true) as -> by lia.
  eexists; split; reflexivity.
Qed.

Lemma record_activity_accepts clock team_id difficulty category participant_count title w :
  ¬ record_activity_invalid (BoardB.game w) team_id difficulty category participant_count →
  ∀ reason w',
    BoardB.record_activity clock team_id difficulty category participant_count title w
    ≠ Ok ((false, reason), w').
Proof.
  intros Hval reason w'. unfold BoardB.record_activity, record_activity_invalid in *.
  destruct (BoardB.find_team _ _) as [[i team] |] eqn:Hfind; [| tauto].
  destruct (has_key DIFFICULTY_POINTS difficulty) eqn:Hd; cbn [negb].
  2: { apply bool_decide_eq_false in Hd. exfalso. apply Hval. right. left.
       by apply eq_None_not_Some. }
  destruct (contains CATEGORIES category) eqn:Hc; cbn [negb].
  2: { apply bool_decide_eq_false in Hc. tauto. }
  destruct (participant_count <? 1) eqn:Hp; [exfalso; apply Hval; lia |].
  unfold mbind, exc_bind, bind.
  repeat match goal with
         | |- context [match ?x with _ => _ end] => destruct x
         end; congruence.
Qed.

Lemma throw_yut_refuses clock r team_id w :
  throw_yut_invalid (BoardB.game w) team_id →
  ∃ reason, BoardB.throw_yut clock r team_id w = ((false, reason), w)
            ∧ truthy reason = true.
Proof.
  unfold throw_yut_invalid, BoardB.throw_yut.
  destruct (BoardB.find_team _ _) as [[i team] |]; [| eexists; split; reflexivity].
  intros [Hf | Hc].
  - rewrite Hf. eexists; split; reflexivity.
  - destruct (truthy_opt _); [eexists; split; reflexivity |].
    assert ((BoardB.throw_chance team <=? 0) = true) as -> by lia.
    eexists; split; reflexivity.
Qed.

Lemma throw_yut_accepts clock r team_id w :
  ¬ throw_yut_invalid (BoardB.game w) team_id →
  (BoardB.throw_yut clock r team_id w).1.1 = true.
Proof.
  unfold throw_yut_invalid, BoardB.throw_yut.
  destruct (BoardB.find_team _ _) as [[i team] |]; [| tauto].
  intros Hval.
  destruct (truthy_opt _); [tauto |].
  destruct (_ <=? _) eqn:E; [exfalso; apply Hval; lia |].
  by destruct (BoardB.add_log _ _ _).
Qed.

(** C6.  Validation in variant B.  [add_team] refuses a name that is
    empty once stripped or that a team already has; [record_activity]
    refuses an unknown team id, a difficulty or a category that is not
    listed, and a participant count below 1; [throw_yut] refuses an
    unknown team, a finished team and a team without a throw chance.  A
    refused call returns [False] with a reason that is not empty and
    leaves the game and the storage file as they were; a call outside
    these cases does not return [False]. *)
Theorem validation_failures
    (millis rand : Z) (clock : nat -> datetime) (r : Q)
    (name team_id difficulty category title : string) (participant_count : Z)
    (w : BoardB.World) :
  (add_team_invalid (BoardB.game w) name →
     ∃ reason, BoardB.add_team millis rand clock name w = ((false, reason), w)
               ∧ truthy reason = true)
  ∧ (¬ add_team_invalid (BoardB.game w) name →
     (BoardB.add_team millis rand clock name w).1.1 = true)
  ∧ (record_activity_invalid (BoardB.game w) team_id difficulty category participant_count →
     ∃ reason,
       BoardB.record_activity clock team_id difficulty category participant_count title w
       = Ok ((false, reason), w) ∧ truthy reason = true)
  ∧ (¬ record_activity_invalid (BoardB.game w) team_id difficulty category participant_count →
     ∀ reason w',
       BoardB.record_activity clock team_id difficulty category participant_count title w
       ≠ Ok ((false, reason), w'))
  ∧ (throw_yut_invalid (BoardB.game w) team_id →
     ∃ reason, BoardB.throw_yut clock r team_id w = ((false, reason), w)
               ∧ truthy reason = true)
  ∧ (¬ throw_yut_invalid (BoardB.game w) team_id →
     (BoardB.throw_yut clock r team_id w).1.1 = true).
Proof.
  repeat split.
  - apply add_team_refuses.
  - apply add_team_accepts.
  - apply record_activity_refuses.
  - apply record_activity_accepts.
  - apply throw_yut_refuses.
  - apply throw_yut_accepts.
Qed.

Lemma validation_failures_witness :
  (∃ reason, BoardB.add_team 1772366400003 1000 example_clock "  " example_worldB
             = ((false, reason), example_worldB))
  ∧ (∃ reason, BoardB.record_activity example_clock "team_1772366400001_1000" "easy" "talk" 0 ""
                 example_worldB
               = Ok ((false, reason), example_worldB))
  ∧ (∃ reason, BoardB.throw_yut example_clock 1%Q "team_0_0000" example_worldB
             = ((false, reason), example_worldB)).
Proof.
  destruct (validation_failures 1772366400003 1000 example_clock 1%Q "  " "team_1772366400001_1000" "easy" "talk" ""
              0 example_worldB) as (H1 & _ & H2 & _).
  destruct (validation_failures 1772366400003 1000 example_clock 1%Q "  " "team_0_0000" "easy" "talk" ""
              0 example_worldB) as (_ & _ & _ & _ & H3 & _).
  split; [| split].
  - destruct H1 as (reason & H & _); [left; vm_compute; reflexivity |]. by exists reason.
  - destruct H2 as (reason & H & _); [right; right; right; lia |]. by exists reason.
  - destruct H3 as (reason & H & _); [vm_compute; exact I |]. by exists reason.
Defined.


(** ** A throw *)

Lemma find_team_Some g team_id i team :
  BoardB.find_team g team_id = Some (i, team) →
  BoardB.teams g !! i = Some team ∧ BoardB.id team = team_id.
Proof.
  unfold BoardB.find_team. intros H. apply list_find_Some in H. tauto.
Qed.

Lemma app_nonempty s a s' : s +:+ String a s' ≠ "".
Proof. by destruct s. Qed.

Lemma truthy_isoformat d : truthy (isoformat d) = true.
Proof.
  unfold truthy. apply negb_true_iff. apply String.eqb_neq.
  unfold isoformat. apply app_nonempty.
Qed.

Lemma captured_from_length actor k ts :
  Z.of_nat (length (BoardB.captured_from actor k ts)) = captured_count actor ts.
Proof.
  unfold captured_count. revert k.
  induction ts as [| t ts IH]; intros k; [done |].
  cbn [BoardB.captured_from]. rewrite filter_cons.
  destruct (BoardB.is_captured actor t) eqn:E.
  - rewrite decide_True by done. cbn [length]. specialize (IH (S k)). lia.
  - rewrite decide_False by done. apply IH.
Qed.

Lemma send_back_loop clock actor rest :
  ∀ pre logs fo n,
  ∃ logs' n',
    foldl (BoardB.send_back clock actor) (BoardB.mkGame (pre ++ rest) logs fo, n)
      (BoardB.captured_from actor (length pre) rest)
    = (BoardB.mkGame (pre ++ sent_back actor rest) logs' fo, n').
Proof.
  induction rest as [| t rest IH]; intros pre logs fo n.
  { cbn. eauto. }
  cbn [BoardB.captured_from sent_back fmap list_fmap].
  destruct (BoardB.is_captured actor t) eqn:E.
  - cbn [foldl]. unfold BoardB.send_back at 2.
    cbn [BoardB.teams]. rewrite list_lookup_middle by done.
    unfold BoardB.add_log, BoardB.set_teams, BoardB.set_logs. cbn [BoardB.teams BoardB.logs BoardB.finish_order].
    rewrite insert_app_r_alt by done. rewrite Nat.sub_diag. cbn [insert list_insert].
    pose proof (IH (pre ++ [BoardB.set_position t (checkpoint (BoardB.position t))])) as IH'.
    rewrite length_app in IH'. cbn [length] in IH'. rewrite Nat.add_1_r in IH'.
    setoid_rewrite <- app_assoc in IH'. cbn [app] in IH'.
    apply IH'.
  - pose proof (IH (pre ++ [t])) as IH'.
    rewrite length_app in IH'. cbn [length] in IH'. rewrite Nat.add_1_r in IH'.
    setoid_rewrite <- app_assoc in IH'. cbn [app] in IH'.
    apply IH'.
Qed.

(** Only the position of a team that is sent back changes. *)
Lemma sent_back_lookup actor ts j :
  sent_back actor ts !! j
  = (λ t, if BoardB.is_captured actor t
          then BoardB.set_position t (checkpoint (BoardB.position t)) else t) <$> ts !! j.
Proof. unfold sent_back. apply list_lookup_fmap. Qed.

Lemma is_captured_self actor : BoardB.is_captured actor actor = false.
Proof. unfold BoardB.is_captured. by rewrite String.eqb_refl. Qed.

Lemma captured_from_nil actor k ts :
  BoardB.captured_from actor k ts = [] → sent_back actor ts = ts.
Proof.
  revert k. induction ts as [| t ts IH]; intros k; [done |].
  cbn [BoardB.captured_from sent_back fmap list_fmap].
  destruct (BoardB.is_captured actor t); [done |].
  intros H. f_equal. by apply (IH (S k)).
Qed.

Lemma capture_opponents_spec clock i g n actor :
  BoardB.teams g !! i = Some actor →
  let p := BoardB.position actor in
  let k := captured_count actor (BoardB.teams g) in
  ∃ logs' n',
    BoardB.capture_opponents clock i (g, n)
    = (BoardB.mkGame
         (if bool_decide (0 < p < 50 ∧ 0 < k)
          then <[i := (BoardB.apply_score_throw_milestone (rewarded k actor)).2]>
                 (sent_back actor (BoardB.teams g))
          else BoardB.teams g)
         logs' (BoardB.finish_order g), n').
Proof.
  intros Hactor p k. unfold BoardB.capture_opponents. rewrite Hactor.
  fold p. change BoardB.FINISH_POS with 50.
  destruct ((p <=? 0) || (50 <=? p)) eqn:Hp.
  { rewrite bool_decide_eq_false_2 by lia. destruct g. eauto. }
  pose proof (captured_from_length actor 0 (BoardB.teams g)) as Hlen. fold k in Hlen.
  case_bool_decide as Hnil.
  { rewrite Hnil in Hlen. cbn in Hlen.
    rewrite bool_decide_eq_false_2 by lia. destruct g. eauto. }
  assert (0 < k).
  { destruct (BoardB.captured_from actor 0 (BoardB.teams g)); [done | cbn in Hlen; lia]. }
  rewrite bool_decide_eq_true_2 by lia.
  destruct g as [ts logs fo]. cbn [BoardB.teams BoardB.finish_order] in *.
  destruct (send_back_loop clock actor ts [] logs fo n) as (logs1 & n1 & Hloop).
  cbn [app length] in Hloop. rewrite Hloop. cbn [BoardB.teams].
  rewrite sent_back_lookup, Hactor. cbn [fmap option_fmap option_map].
  rewrite is_captured_self. rewrite Hlen.
  change (BoardB.set_throw_chance _ _) with (rewarded k actor).
  destruct (BoardB.apply_score_throw_milestone (rewarded k actor)) as [throws actor'].
  unfold BoardB.add_log, BoardB.set_teams, BoardB.set_logs.
  cbn [BoardB.teams BoardB.logs BoardB.finish_order snd]. eauto.
Qed.

Lemma ensure_finish_spec clock i g n team :
  BoardB.teams g !! i = Some team →
  truthy_opt (BoardB.finished_at team) = false →
  ∃ logs' n',
    BoardB.ensure_finish clock i (g, n)
    = (if 50 <=? BoardB.position team
       then BoardB.mkGame
              (<[i := (BoardB.apply_score_throw_milestone
                         (finishing (isoformat (clock n)) team)).2]> (BoardB.teams g))
              logs' (BoardB.finish_order g ++ [BoardB.id team])
       else g, n').
Proof.
  intros Hteam Hnot. unfold BoardB.ensure_finish. rewrite Hteam, Hnot.
  change BoardB.FINISH_POS with 50.
  destruct (50 <=? BoardB.position team); cbn [andb negb]; [| by exists [], n].
  change (BoardB.set_score _ _) with (finishing (isoformat (clock n)) team).
  destruct (BoardB.apply_score_throw_milestone _) as [throws team'].
  unfold BoardB.add_log, BoardB.set_teams, BoardB.set_logs, BoardB.set_finish_order.
  cbn [BoardB.teams BoardB.logs BoardB.finish_order snd]. eauto.
Qed.


Lemma milestone_fields team :
  let team' := (BoardB.apply_score_throw_milestone team).2 in
  BoardB.id team' = BoardB.id team
  ∧ BoardB.name team' = BoardB.name team
  ∧ BoardB.score team' = BoardB.score team
  ∧ BoardB.mission_count team' = BoardB.mission_count team
  ∧ BoardB.position team' = BoardB.position team
  ∧ BoardB.finished_at team' = BoardB.finished_at team
  ∧ BoardB.category_count team' = BoardB.category_count team
  ∧ BoardB.set_bonus_taken team' = BoardB.set_bonus_taken team
  ∧ BoardB.line_bonus_taken team' = BoardB.line_bonus_taken team.
Proof.
  unfold BoardB.apply_score_throw_milestone. destruct (_ <=? _); cbn; done.
Qed.

(** What the milestone grants: the tiers of 40 points not yet converted. *)
Lemma milestone_throws team :
  let gained := Z.max 0 (BoardB.score team `div` 40 - BoardB.throw_granted_by_score team) in
  let team' := (BoardB.apply_score_throw_milestone team).2 in
  (BoardB.apply_score_throw_milestone team).1 = gained
  ∧ BoardB.throw_chance team' = BoardB.throw_chance team + gained
  ∧ BoardB.throw_granted_by_score team'
    = Z.max (BoardB.throw_granted_by_score team) (BoardB.score team `div` 40).
Proof.
  unfold BoardB.apply_score_throw_milestone. change BoardB.SCORE_PER_THROW with 40.
  destruct (_ <=? _) eqn:E; cbn; lia.
Qed.

Lemma throw_yut_spec clock r team_id w i team :
  BoardB.find_team (BoardB.game w) team_id = Some (i, team) →
  truthy_opt (BoardB.finished_at team) = false →
  0 < BoardB.throw_chance team →
  let g := BoardB.game w in
  let yut := BoardB.draw_yut r in
  let mv := moved team yut in
  let p := BoardB.position mv in
  let ts := <[i := mv]> (BoardB.teams g) in
  let k := captured_count mv ts in
  ∃ msg logs',
    BoardB.throw_yut clock r team_id w
    = ((true, msg),
       BoardB.save
         (BoardB.mkGame
            (if 50 <=? p then
               <[i := with_extra yut
                        (BoardB.apply_score_throw_milestone
                           (finishing (isoformat (clock O)) mv)).2]> (BoardB.teams g)
             else if bool_decide (0 < p ∧ 0 < k) then
               <[i := with_extra yut
                        (BoardB.apply_score_throw_milestone (rewarded k mv)).2]>
                 (sent_back mv ts)
             else <[i := with_extra yut mv]> (BoardB.teams g))
            logs'
            (if 50 <=? p then BoardB.finish_order g ++ [BoardB.id team]
             else BoardB.finish_order g))).
Proof.
  intros Hfind Hnot Hchance g yut mv p ts k.
  apply find_team_Some in Hfind as Hteam. destruct Hteam as [Hteam Hid].
  pose proof (lookup_lt_Some _ _ _ Hteam) as Hlt.
  unfold BoardB.throw_yut. rewrite Hfind, Hnot.
  assert ((BoardB.throw_chance team <=? 0) = false) as -> by lia.
  fold g yut. change (BoardB.set_position _ _) with mv. fold ts.
  assert (Hmv : BoardB.teams (BoardB.set_teams g ts) !! i = Some mv).
  { cbn. unfold ts. by rewrite list_lookup_insert_eq. }
  destruct (ensure_finish_spec clock i (BoardB.set_teams g ts) O mv Hmv Hnot)
    as (logs1 & n1 & Hfin).
  rewrite Hfin. fold p. cbn [BoardB.teams BoardB.set_teams BoardB.finish_order].
  destruct (50 <=? p) eqn:Hp.
  - cbn [fst snd BoardB.teams].
    rewrite list_lookup_insert_eq by (unfold ts; by rewrite length_insert).
    destruct (milestone_fields (finishing (isoformat (clock O)) mv)) as (_ & _ & _ & _ & _ & Hf & _).
    rewrite Hf. cbn [finishing BoardB.finished_at BoardB.set_score BoardB.set_finished_at truthy_opt].
    rewrite truthy_isoformat. cbn [negb].
    unfold with_extra.
    destruct (0 <? BoardB.extra_throw yut).
    + cbn [fst snd BoardB.teams BoardB.set_teams].
      rewrite list_lookup_insert_eq by (unfold ts; by rewrite length_insert).
      unfold BoardB.add_log. cbn [BoardB.set_logs BoardB.teams BoardB.logs BoardB.finish_order].
      eexists _, _. unfold ts. rewrite !list_insert_insert_eq. reflexivity.
    + unfold BoardB.add_log. cbn [BoardB.set_logs BoardB.teams BoardB.logs BoardB.finish_order].
      eexists _, _. unfold ts. rewrite !list_insert_insert_eq. reflexivity.
  - cbn [fst snd BoardB.teams BoardB.set_teams].
    cbn [BoardB.teams BoardB.set_teams] in Hmv. rewrite Hmv.
    change (BoardB.finished_at mv) with (BoardB.finished_at team).
    rewrite Hnot. cbn [negb].
    destruct (capture_opponents_spec clock i (BoardB.set_teams g ts) n1 mv Hmv)
      as (logs2 & n2 & Hcap).
    rewrite Hcap. cbn [BoardB.teams BoardB.set_teams BoardB.finish_order fst snd].
    fold p k.
    assert (Hp50 : p < 50) by lia.
    destruct (bool_decide (0 < p < 50 ∧ 0 < k)) eqn:Hk.
    + apply bool_decide_eq_true in Hk.
      rewrite bool_decide_eq_true_2 by lia.
      unfold with_extra.
      destruct (0 <? BoardB.extra_throw yut).
      * rewrite list_lookup_insert_eq
          by (unfold sent_back, ts; by rewrite length_fmap, length_insert).
        unfold BoardB.add_log. cbn [BoardB.set_logs BoardB.set_teams BoardB.teams BoardB.logs BoardB.finish_order fst snd].
        eexists _, _. rewrite !list_insert_insert_eq. reflexivity.
      * unfold BoardB.add_log. cbn [BoardB.set_logs BoardB.teams BoardB.logs BoardB.finish_order].
        eexists _, _. reflexivity.
    + apply bool_decide_eq_false in Hk.
      rewrite bool_decide_eq_false_2 by lia.
      unfold with_extra.
      destruct (0 <? BoardB.extra_throw yut).
      * rewrite Hmv.
        unfold BoardB.add_log. cbn [BoardB.set_logs BoardB.set_teams BoardB.teams BoardB.logs BoardB.finish_order fst snd].
        eexists _, _. unfold ts. rewrite !list_insert_insert_eq. reflexivity.
      * unfold BoardB.add_log. cbn [BoardB.set_logs BoardB.teams BoardB.logs BoardB.finish_order].
        eexists _, _. reflexivity.
Qed.

Lemma draw_yut_in r : BoardB.draw_yut r ∈ BoardB.YUT_OUTCOMES.
Proof.
  unfold BoardB.draw_yut, BoardB.YUT_OUTCOMES. cbn [BoardB.draw_from BoardB.weight].
  repeat (destruct (Qle_bool r _); [set_solver |]). set_solver.
Qed.

Lemma extra_throw_nonneg r : 0 ≤ BoardB.extra_throw (BoardB.draw_yut r) ≤ 1.
Proof.
  pose proof (draw_yut_in r) as H. unfold BoardB.YUT_OUTCOMES in H.
  repeat (apply elem_of_cons in H as [-> | H]); cbn; try lia.
  by apply elem_of_nil in H.
Qed.

Lemma step_range r : -1 ≤ BoardB.step (BoardB.draw_yut r) ≤ 5.
Proof.
  pose proof (draw_yut_in r) as H. unfold BoardB.YUT_OUTCOMES in H.
  repeat (apply elem_of_cons in H as [-> | H]); cbn; try lia.
  by apply elem_of_nil in H.
Qed.

Lemma with_extra_fields yut team :
  0 ≤ BoardB.extra_throw yut →
  let team' := with_extra yut team in
  BoardB.id team' = BoardB.id team
  ∧ BoardB.name team' = BoardB.name team
  ∧ BoardB.score team' = BoardB.score team
  ∧ BoardB.mission_count team' = BoardB.mission_count team
  ∧ BoardB.throw_chance team' = BoardB.throw_chance team + BoardB.extra_throw yut
  ∧ BoardB.throw_granted_by_score team' = BoardB.throw_granted_by_score team
  ∧ BoardB.position team' = BoardB.position team
  ∧ BoardB.finished_at team' = BoardB.finished_at team
  ∧ BoardB.category_count team' = BoardB.category_count team
  ∧ BoardB.set_bonus_taken team' = BoardB.set_bonus_taken team
  ∧ BoardB.line_bonus_taken team' = BoardB.line_bonus_taken team.
Proof.
  intros H. unfold with_extra. destruct (0 <? _) eqn:E; cbn; repeat split; lia.
Qed.

(** [find_team] looks at ids only. *)
Lemma find_team_index g team_id :
  fst <$> BoardB.find_team g team_id
  = fst <$> list_find (λ x, x = team_id) (BoardB.id <$> BoardB.teams g).
Proof.
  unfold BoardB.find_team.
  destruct (list_find _ (BoardB.teams g)) as [[j t] |] eqn:E; cbn.
  - apply list_find_Some in E as (Hj & Hid & Hbefore).
    assert (list_find (λ x, x = team_id) (BoardB.id <$> BoardB.teams g)
            = Some (j, BoardB.id t)) as ->; [| done].
    apply list_find_Some. split; [| split; [done |]].
    + by rewrite list_lookup_fmap, Hj.
    + intros j' y Hy Hlt. rewrite list_lookup_fmap in Hy.
      destruct (BoardB.teams g !! j') as [t' |] eqn:Et; [| done].
      injection Hy as <-. by apply (Hbefore j').
  - apply list_find_None in E.
    assert (list_find (λ x, x = team_id) (BoardB.id <$> BoardB.teams g) = None) as ->; [| done].
    apply list_find_None. by apply Forall_fmap.
Qed.

Lemma find_team_same_ids g g' team_id i team team' :
  BoardB.id <$> BoardB.teams g' = BoardB.id <$> BoardB.teams g →
  BoardB.find_team g team_id = Some (i, team) →
  BoardB.teams g' !! i = Some team' →
  BoardB.find_team g' team_id = Some (i, team').
Proof.
  intros Hids Hfind Hi.
  pose proof (find_team_index g team_id) as H1.
  pose proof (find_team_index g' team_id) as H2.
  rewrite Hids, <- H1, Hfind in H2. cbn in H2.
  destruct (BoardB.find_team g' team_id) as [[j t] |] eqn:E; [| done].
  cbn in H2. injection H2 as ->.
  apply find_team_Some in E as [E _]. congruence.
Qed.

Lemma ids_insert (ts : list BoardB.Team) i team team' :
  ts !! i = Some team → BoardB.id team' = BoardB.id team →
  BoardB.id <$> <[i := team']> ts = BoardB.id <$> ts.
Proof.
  intros Hi Hid. rewrite list_fmap_insert, Hid.
  apply list_insert_id. by rewrite list_lookup_fmap, Hi.
Qed.

Lemma ids_sent_back actor (ts : list BoardB.Team) :
  BoardB.id <$> sent_back actor ts = BoardB.id <$> ts.
Proof.
  unfold sent_back. rewrite <- list_fmap_compose. apply list_fmap_ext.
  intros j t _. cbn. by destruct (BoardB.is_captured actor t).
Qed.

(** C4.  A throw by a team that is racing and has a chance succeeds and
    puts the team at [max(0, position + step)], cut to 50: a backdo at
    cell 0 leaves it at 0.  When the cell reached is 50 or beyond, the
    position is exactly 50, [finished_at] is set to the time of the
    call, the id is appended to [finish_order], the score grows by 50,
    the milestone then converts the score into throws, no other team is
    touched (no capture), and the team can not throw again, so it
    finishes once.  Below 50 [finished_at] and [finish_order] stay. *)
Theorem throw_yut_finish
    (clock : nat -> datetime) (r : Q) (team_id : string) (w : BoardB.World)
    (i : nat) (team : BoardB.Team)
    (Hfind : BoardB.find_team (BoardB.game w) team_id = Some (i, team))
    (Hracing : truthy_opt (BoardB.finished_at team) = false)
    (Hchance : 0 < BoardB.throw_chance team) :
  let yut := BoardB.draw_yut r in
  let p := Z.max 0 (BoardB.position team + BoardB.step yut) in
  ∃ msg w' team',
    BoardB.throw_yut clock r team_id w = ((true, msg), w')
    ∧ BoardB.teams (BoardB.game w') !! i = Some team'
    ∧ BoardB.id team' = BoardB.id team
    ∧ BoardB.position team' = Z.min 50 p
    ∧ (BoardB.position team = 0 → BoardB.step yut = -1 → BoardB.position team' = 0)
    ∧ (p < 50 →
         BoardB.finished_at team' = BoardB.finished_at team
         ∧ BoardB.finish_order (BoardB.game w') = BoardB.finish_order (BoardB.game w))
    ∧ (50 ≤ p →
         BoardB.position team' = 50
         ∧ BoardB.finished_at team' = Some (isoformat (clock O))
         ∧ truthy_opt (BoardB.finished_at team') = true
         ∧ BoardB.finish_order (BoardB.game w')
           = BoardB.finish_order (BoardB.game w) ++ [BoardB.id team]
         ∧ BoardB.score team' = BoardB.score team + 50
         ∧ BoardB.throw_granted_by_score team'
           = Z.max (BoardB.throw_granted_by_score team) ((BoardB.score team + 50) `div` 40)
         ∧ BoardB.throw_chance team'
           = BoardB.throw_chance team - 1
             + Z.max 0 ((BoardB.score team + 50) `div` 40 - BoardB.throw_granted_by_score team)
             + BoardB.extra_throw yut
         ∧ (∀ j, j ≠ i →
              BoardB.teams (BoardB.game w') !! j = BoardB.teams (BoardB.game w) !! j)
         ∧ throw_yut_invalid (BoardB.game w') team_id).
Proof.
  intros yut p.
  destruct (throw_yut_spec clock r team_id w i team Hfind Hracing Hchance)
    as (msg & logs' & Hrun).
  cbv zeta in Hrun. fold yut in Hrun.
  change (BoardB.position (moved team yut)) with p in Hrun.
  apply find_team_Some in Hfind as Hteam. destruct Hteam as [Hteam Hid].
  pose proof (lookup_lt_Some _ _ _ Hteam) as Hlt.
  pose proof (extra_throw_nonneg r) as Hextra. fold yut in Hextra.
  destruct (50 <=? p) eqn:Hp.
  - set (fin := (BoardB.apply_score_throw_milestone
                   (finishing (isoformat (clock O)) (moved team yut))).2) in *.
    destruct (with_extra_fields yut fin) as (Ei & _ & Es & _ & Ec & Eg & Epos & Ef & _); [lia |].
    destruct (milestone_fields (finishing (isoformat (clock O)) (moved team yut)))
      as (Fi & _ & Fs & _ & Fpos & Ff & _).
    destruct (milestone_throws (finishing (isoformat (clock O)) (moved team yut)))
      as (_ & Fc & Fg).
    fold fin in Fi, Fs, Fpos, Ff, Fc, Fg.
    eexists msg, _, (with_extra yut fin). split; [exact Hrun |].
    cbn [BoardB.game BoardB.save BoardB.teams BoardB.finish_order].
    split; [by rewrite list_lookup_insert_eq |].
    split; [by rewrite Ei, Fi |].
    split; [rewrite Epos, Fpos; cbn; lia |].
    split; [intros H0 Hs; rewrite Epos, Fpos; cbn; lia |].
    split; [lia |]. intros _.
    split; [by rewrite Epos, Fpos |].
    split; [by rewrite Ef, Ff |].
    split; [rewrite Ef, Ff; cbn; apply truthy_isoformat |].
    split; [done |].
    split; [by rewrite Es, Fs |].
    split; [rewrite Eg, Fg; cbn; lia |].
    split; [rewrite Ec, Fc; cbn; lia |].
    split; [intros j Hj; by rewrite list_lookup_insert_ne |].
    unfold throw_yut_invalid.
    erewrite find_team_same_ids; [| | exact Hfind |].
    + left. rewrite Ef, Ff. cbn. apply truthy_isoformat.
    + cbn. eapply ids_insert; [done |]. by rewrite Ei, Fi.
    + cbn. by rewrite list_lookup_insert_eq.
  - assert (Hp' : p < 50) by lia.
    assert (Hpos : BoardB.position team = 0 → BoardB.step yut = -1 → p = 0) by lia.
    case_bool_decide as Hk.
    + set (k := captured_count _ _) in *.
      set (got := (BoardB.apply_score_throw_milestone (rewarded k (moved team yut))).2) in *.
      destruct (with_extra_fields yut got) as (Ei & _ & Es & _ & Ec & Eg & Epos & Ef & _); [lia |].
      destruct (milestone_fields (rewarded k (moved team yut)))
        as (Fi & _ & Fs & _ & Fpos & Ff & _).
      fold got in Fi, Fs, Fpos, Ff.
      eexists msg, _, (with_extra yut got). split; [exact Hrun |].
      cbn [BoardB.game BoardB.save BoardB.teams BoardB.finish_order].
      split.
      { rewrite list_lookup_insert_eq; [done |].
        unfold sent_back. by rewrite length_fmap, length_insert. }
      split; [by rewrite Ei, Fi |].
      split; [rewrite Epos, Fpos; cbn; lia |].
      split; [intros H0 Hs; rewrite Epos, Fpos; cbn; lia |].
      split; [| lia]. intros _. split; [by rewrite Ef, Ff | done].
    + destruct (with_extra_fields yut (moved team yut))
        as (Ei & _ & Es & _ & Ec & Eg & Epos & Ef & _); [lia |].
      eexists msg, _, (with_extra yut (moved team yut)). split; [exact Hrun |].
      cbn [BoardB.game BoardB.save BoardB.teams BoardB.finish_order].
      split; [by rewrite list_lookup_insert_eq |].
      split; [done |].
      split; [rewrite Epos; cbn; lia |].
      split; [intros H0 Hs; rewrite Epos; cbn; lia |].
      split; [| lia]. intros _. split; [by rewrite Ef | done].
Qed.

Lemma throw_yut_finish_witness :
  ∃ msg w' team',
    BoardB.throw_yut example_clock 90%Q "team_1772366400001_1000" example_race = ((true, msg), w')
    ∧ BoardB.teams (BoardB.game w') !! O = Some team'
    ∧ BoardB.position team' = 50
    ∧ BoardB.finish_order (BoardB.game w') = ["team_1772366400004_1000"; "team_1772366400001_1000"].
Proof.
  destruct (throw_yut_finish example_clock 90%Q "team_1772366400001_1000" example_race O
              (BoardB.mkTeam "team_1772366400001_1000" "X" 40 2 1 1 48 None zero_counts 0 zero_counts)
              eq_refl eq_refl eq_refl)
    as (msg & w' & team' & Hrun & Hteam & _ & _ & _ & _ & Hfin).
  destruct Hfin as (Hpos & _ & _ & Horder & _); [vm_compute; discriminate |].
  exists msg, w', team'. repeat split; assumption.
Defined.

Lemma is_captured_iff actor t :
  BoardB.is_captured actor t = true
  ↔ BoardB.id t ≠ BoardB.id actor
    ∧ truthy_opt (BoardB.finished_at t) = false
    ∧ BoardB.position t = BoardB.position actor.
Proof.
  unfold BoardB.is_captured.
  rewrite !andb_true_iff, !negb_true_iff, String.eqb_neq, Z.eqb_eq. tauto.
Qed.

Lemma captured_count_insert actor (ts : list BoardB.Team) i team :
  ts !! i = Some team → BoardB.id team = BoardB.id actor →
  captured_count actor (<[i := actor]> ts) = captured_count actor ts.
Proof.
  intros Hi Hid. unfold captured_count. f_equal.
  rewrite <- (take_drop_middle ts i team Hi) at 2.
  rewrite insert_take_drop by (by eapply lookup_lt_Some).
  rewrite !filter_app, !filter_cons.
  rewrite decide_False by (by rewrite is_captured_self).
  rewrite decide_False; [done |].
  unfold BoardB.is_captured. rewrite Hid, String.eqb_refl. done.
Qed.

Lemma captured_count_zero actor (ts : list BoardB.Team) t :
  captured_count actor ts = 0 → t ∈ ts → BoardB.is_captured actor t = false.
Proof.
  unfold captured_count. intros H Hin.
  destruct (BoardB.is_captured actor t) eqn:E; [| done].
  assert (Hf : t ∈ filter (λ t, BoardB.is_captured actor t = true) ts)
    by (by apply list_elem_of_filter).
  destruct (filter _ ts); [by apply elem_of_nil in Hf | cbn in H; lia].
Qed.

Lemma captured_count_nonneg actor ts : 0 ≤ captured_count actor ts.
Proof. unfold captured_count. lia. Qed.

(** C5.  A throw that leaves the mover at a cell [p] below 50.  When
    [0 < p], every team with another id that is not finished and stands
    exactly on [p] goes back to [floor(p / 10) * 10] and no other team
    changes; with [k] the number of teams sent back, the mover gains
    [30 * k] points and [k] throw chances, and when [k] is positive the
    milestone converts the new score; for a mover that had
    [throw_granted_by_score = score // 40], as every team of a run has,
    that is the same as converting it whatever [k] is.  When [p] is 0 no
    team is sent back.  A finished team is never sent back. *)
Theorem throw_yut_capture
    (clock : nat -> datetime) (r : Q) (team_id : string) (w : BoardB.World)
    (i : nat) (team : BoardB.Team)
    (Hfind : BoardB.find_team (BoardB.game w) team_id = Some (i, team))
    (Hracing : truthy_opt (BoardB.finished_at team) = false)
    (Hchance : 0 < BoardB.throw_chance team)
    (Hstay : Z.max 0 (BoardB.position team + BoardB.step (BoardB.draw_yut r)) < 50) :
  let yut := BoardB.draw_yut r in
  let p := Z.max 0 (BoardB.position team + BoardB.step yut) in
  let mover := moved team yut in
  let k := captured_count mover (BoardB.teams (BoardB.game w)) in
  ∃ msg w' team',
    BoardB.throw_yut clock r team_id w = ((true, msg), w')
    ∧ BoardB.finish_order (BoardB.game w') = BoardB.finish_order (BoardB.game w)
    ∧ BoardB.teams (BoardB.game w') !! i = Some team'
    ∧ BoardB.position team' = p
    ∧ (∀ t, BoardB.is_captured mover t = true
            ↔ BoardB.id t ≠ BoardB.id team
              ∧ truthy_opt (BoardB.finished_at t) = false
              ∧ BoardB.position t = p)
    ∧ (0 < p →
         (∀ j t, j ≠ i → BoardB.teams (BoardB.game w) !! j = Some t →
            BoardB.teams (BoardB.game w') !! j
            = Some (if BoardB.is_captured mover t
                    then BoardB.set_position t (checkpoint p) else t))
         ∧ BoardB.score team' = BoardB.score team + 30 * k
         ∧ (0 < k →
              BoardB.throw_granted_by_score team'
              = Z.max (BoardB.throw_granted_by_score team)
                  ((BoardB.score team + 30 * k) `div` 40)
              ∧ BoardB.throw_chance team'
                = BoardB.throw_chance team - 1 + k
                  + Z.max 0 ((BoardB.score team + 30 * k) `div` 40
                             - BoardB.throw_granted_by_score team)
                  + BoardB.extra_throw yut)
         ∧ (k = 0 →
              BoardB.throw_granted_by_score team' = BoardB.throw_granted_by_score team
              ∧ BoardB.throw_chance team'
                = BoardB.throw_chance team - 1 + BoardB.extra_throw yut)
         ∧ (BoardB.throw_granted_by_score team = BoardB.score team `div` 40 →
              BoardB.throw_granted_by_score team' = (BoardB.score team + 30 * k) `div` 40
              ∧ BoardB.throw_chance team'
                = BoardB.throw_chance team - 1 + k
                  + ((BoardB.score team + 30 * k) `div` 40 - BoardB.score team `div` 40)
                  + BoardB.extra_throw yut))
    ∧ (p = 0 →
         (∀ j, j ≠ i →
            BoardB.teams (BoardB.game w') !! j = BoardB.teams (BoardB.game w) !! j)
         ∧ BoardB.score team' = BoardB.score team
         ∧ BoardB.throw_granted_by_score team' = BoardB.throw_granted_by_score team
         ∧ BoardB.throw_chance team'
           = BoardB.throw_chance team - 1 + BoardB.extra_throw yut).
Proof.
  intros yut p mover k.
  destruct (throw_yut_spec clock r team_id w i team Hfind Hracing Hchance)
    as (msg & logs' & Hrun).
  cbv zeta in Hrun. fold yut mover in Hrun.
  change (BoardB.position (moved team yut)) with p in Hrun.
  change (BoardB.position mover) with p in Hrun.
  apply find_team_Some in Hfind as Hteam. destruct Hteam as [Hteam Hid].
  pose proof (lookup_lt_Some _ _ _ Hteam) as Hlt.
  pose proof (extra_throw_nonneg r) as Hextra. fold yut in Hextra.
  rewrite (captured_count_insert mover _ i team Hteam eq_refl) in Hrun. fold k in Hrun.
  assert ((50 <=? p) = false) as Hp by (fold yut p in Hstay; lia).
  rewrite Hp in Hrun.
  assert (Hcap : ∀ t, BoardB.is_captured mover t = true
            ↔ BoardB.id t ≠ BoardB.id team
              ∧ truthy_opt (BoardB.finished_at t) = false
              ∧ BoardB.position t = p).
  { intros t. apply is_captured_iff. }
  pose proof (captured_count_nonneg mover (BoardB.teams (BoardB.game w))) as Hk0. fold k in Hk0.
  case_bool_decide as Hk.
  - set (got := (BoardB.apply_score_throw_milestone (rewarded k mover)).2) in *.
    destruct (with_extra_fields yut got) as (Ei & _ & Es & _ & Ec & Eg & Epos & Ef & _); [lia |].
    destruct (milestone_fields (rewarded k mover)) as (Fi & _ & Fs & _ & Fpos & Ff & _).
    destruct (milestone_throws (rewarded k mover)) as (_ & Fc & Fg).
    fold got in Fi, Fs, Fpos, Ff, Fc, Fg.
    eexists msg, _, (with_extra yut got). split; [exact Hrun |].
    cbn [BoardB.game BoardB.save BoardB.teams BoardB.finish_order].
    split; [done |].
    split.
    { rewrite list_lookup_insert_eq; [done |].
      unfold sent_back. by rewrite length_fmap, length_insert. }
    split; [by rewrite Epos, Fpos |].
    split; [done |].
    split; [| lia]. intros _.
    split.
    { intros j t Hj Ht. rewrite list_lookup_insert_ne by done.
      rewrite sent_back_lookup, list_lookup_insert_ne, Ht by done. cbn.
      destruct (BoardB.is_captured mover t) eqn:E; [| done].
      apply Hcap in E as (_ & _ & ->). done. }
    split; [by rewrite Es, Fs |].
    split; [intros _; split; [rewrite Eg, Fg; cbn; lia | rewrite Ec, Fc; cbn; lia] |].
    split; [lia |].
    intros Hinv.
    assert (BoardB.score team `div` 40 ≤ (BoardB.score team + 30 * k) `div` 40)
      by (apply Z.div_le_mono; lia).
    split; [rewrite Eg, Fg; cbn; lia | rewrite Ec, Fc; cbn; lia].
  - destruct (with_extra_fields yut mover) as (Ei & _ & Es & _ & Ec & Eg & Epos & Ef & _); [lia |].
    eexists msg, _, (with_extra yut mover). split; [exact Hrun |].
    cbn [BoardB.game BoardB.save BoardB.teams BoardB.finish_order].
    split; [done |].
    split; [by rewrite list_lookup_insert_eq |].
    split; [by rewrite Epos |].
    split; [done |].
    split.
    + intros Hp0. assert (Hk' : k = 0) by lia.
      split.
      { intros j t Hj Ht. rewrite list_lookup_insert_ne by done.
        rewrite (captured_count_zero mover (BoardB.teams (BoardB.game w)) t Hk'); [done |].
        by eapply list_elem_of_lookup_2. }
      split; [rewrite Es; cbn; lia |].
      split; [lia |].
      split; [intros _; split; [by rewrite Eg | rewrite Ec; cbn; lia] |].
      intros Hinv. rewrite Hk', Z.mul_0_r, Z.add_0_r.
      split; [by rewrite Eg | rewrite Ec; cbn; lia].
    + intros Hp0.
      split; [intros j Hj; by rewrite list_lookup_insert_ne |].
      split; [by rewrite Es |].
      split; [by rewrite Eg | rewrite Ec; cbn; lia].
Qed.

Lemma throw_yut_capture_witness :
  ∃ msg w' team',
    BoardB.throw_yut example_clock 70%Q "team_1772366400003_1000" example_race = ((true, msg), w')
    ∧ BoardB.teams (BoardB.game w') !! 2%nat = Some team'
    ∧ BoardB.position team' = 13
    ∧ BoardB.score team' = 110
    ∧ BoardB.position <$> BoardB.teams (BoardB.game w') !! 1%nat = Some 10.
Proof.
  destruct (throw_yut_capture example_clock 70%Q "team_1772366400003_1000" example_race 2
              (BoardB.mkTeam "team_1772366400003_1000" "Z" 80 4 1 2 10 None zero_counts 0 zero_counts)
              eq_refl eq_refl eq_refl eq_refl)
    as (msg & w' & team' & Hrun & _ & Hteam & Hpos & _ & Hcap & _).
  destruct Hcap as (Hothers & Hscore & _); [vm_compute; reflexivity |].
  exists msg, w', team'.
  split; [exact Hrun |]. split; [exact Hteam |]. split; [exact Hpos |].
  split; [exact Hscore |].
  rewrite (Hothers 1%nat _ ltac:(lia) eq_refl). reflexivity.
Defined.


(** ** Invariants of the runs of variant B *)

Lemma team_ok_order order order' t :
  order ⊆ order' → team_ok order t → team_ok order' t.
Proof.
  intros Hsub (H1 & H2 & H3 & H4 & H5 & H6 & H7).
  repeat split; try tauto; try lia. intros Hf. apply Hsub. tauto.
Qed.

Lemma team_ok_new order team_id name : team_ok order (BoardB.new_team team_id name).
Proof.
  unfold team_ok. cbn.
  split; [apply has_categories_zero_counts |].
  split; [apply has_categories_zero_counts |].
  split; [done |]. split; [lia |].
  split; [by intros [? ?] |].
  split; [split; [done | lia] | done].
Qed.

Lemma game_ok_new : game_ok BoardB.new_game.
Proof.
  split; [constructor |]. split; [constructor |].
  intros x Hx. by apply elem_of_nil in Hx.
Qed.

Lemma find_team_app g team_id i t extra :
  BoardB.find_team g team_id = Some (i, t) →
  BoardB.find_team (BoardB.set_teams g (BoardB.teams g ++ extra)) team_id = Some (i, t).
Proof.
  unfold BoardB.find_team. cbn. intros H.
  apply list_find_app_Some. by left.
Qed.

Lemma game_ok_add_log clock msg g n :
  game_ok g → game_ok (BoardB.add_log clock msg (g, n)).1.
Proof. by destruct g. Qed.

Lemma game_ok_add_team millis rand clock name w :
  game_ok (BoardB.game w) →
  game_ok (BoardB.game (BoardB.add_team millis rand clock name w).2).
Proof.
  intros Hok. unfold BoardB.add_team.
  destruct (negb _); [done |]. destruct (existsb _ _); [done |].
  cbn. destruct Hok as (Hteams & Hnd & Hfo).
  split; [| split; [done |]].
  - cbn. apply Forall_app. split; [done |]. constructor; [| constructor].
    apply team_ok_new.
  - intros x Hx. destruct (Hfo x Hx) as (i & t & Hfind & Hfin).
    exists i, t. split; [| done].
    by apply (find_team_app (BoardB.game w)).
Qed.

Lemma game_ok_pointwise g ts' logs' :
  game_ok g →
  length ts' = length (BoardB.teams g) →
  (∀ j t, BoardB.teams g !! j = Some t →
     ∃ t', ts' !! j = Some t'
           ∧ BoardB.id t' = BoardB.id t
           ∧ BoardB.finished_at t' = BoardB.finished_at t
           ∧ team_ok (BoardB.finish_order g) t') →
  game_ok (BoardB.mkGame ts' logs' (BoardB.finish_order g)).
Proof.
  intros (Hteams & Hnd & Hfo) Hlen Hpt.
  assert (Hids : BoardB.id <$> ts' = BoardB.id <$> BoardB.teams g).
  { apply list_eq. intros j. rewrite !list_lookup_fmap.
    destruct (BoardB.teams g !! j) as [t |] eqn:Ej.
    - destruct (Hpt j t Ej) as (t' & -> & Hid & _). cbn. by rewrite Hid.
    - apply lookup_ge_None in Ej. rewrite <- Hlen in Ej.
      apply lookup_ge_None in Ej. by rewrite Ej. }
  split; [| split; [done |]].
  - cbn. apply Forall_lookup. intros j t' Hj.
    pose proof (lookup_lt_Some _ _ _ Hj) as Hlt. rewrite Hlen in Hlt.
    apply lookup_lt_is_Some in Hlt as [t Ht].
    destruct (Hpt j t Ht) as (t'' & Hj' & _ & _ & Hok). congruence.
  - intros x Hx. destruct (Hfo x Hx) as (i & t & Hfind & Hfin).
    apply find_team_Some in Hfind as Hi. destruct Hi as [Hi _].
    destruct (Hpt i t Hi) as (t' & Hi' & _ & Hf & _).
    exists i, t'. split; [| by rewrite Hf].
    by apply (find_team_same_ids g (BoardB.mkGame ts' logs' (BoardB.finish_order g)) x i t t').
Qed.

Lemma game_ok_update g i team team' logs' :
  game_ok g →
  BoardB.teams g !! i = Some team →
  BoardB.id team' = BoardB.id team →
  BoardB.finished_at team' = BoardB.finished_at team →
  team_ok (BoardB.finish_order g) team' →
  game_ok (BoardB.mkGame (<[i := team']> (BoardB.teams g)) logs' (BoardB.finish_order g)).
Proof.
  intros Hok Hi Hid Hf Hteam. apply game_ok_pointwise; [done | by rewrite length_insert |].
  intros j t Hj. destruct (decide (i = j)) as [<- | Hne].
  - exists team'. rewrite list_lookup_insert_eq by (by eapply lookup_lt_Some).
    assert (t = team) as -> by congruence. done.
  - exists t. rewrite list_lookup_insert_ne by done.
    destruct Hok as (Hteams & _). rewrite Forall_lookup in Hteams. eauto.
Qed.

Lemma difficulty_points_range d points :
  DIFFICULTY_POINTS !! d = Some points → 10 ≤ points ≤ 30.
Proof.
  intros H. apply elem_of_list_to_map_2 in H.
  repeat (apply elem_of_cons in H as [[= -> ->] | H]); try lia.
  by apply elem_of_nil in H.
Qed.

Lemma team_ok_after_activity order team category difficulty participant_count points
    bonus taken' granted' :
  team_ok order team →
  valid_activity (BoardB.category_count team) (BoardB.line_bonus_taken team)
    difficulty category participant_count points →
  bonus_spec (counted (BoardB.category_count team) category)
    (BoardB.set_bonus_taken team) (BoardB.line_bonus_taken team) bonus taken' granted' →
  team_ok order
    (B_after_activity team category (earned_points points participant_count)
       bonus taken' granted').
Proof.
  intros (H1 & H2 & H3 & H4 & H5 & H6 & H7) (Hp & Hc & Hn & _ & _) Hspec.
  pose proof (bonus_spec_nonneg _ _ _ _ _ _ Hspec) as Hb.
  pose proof (difficulty_points_range _ _ Hp) as Hpts.
  set (scored := B_scored team category (earned_points points participant_count)
                   bonus taken' granted').
  destruct (milestone_fields scored) as (Fi & _ & Fs & _ & Fpos & Ff & Fcc & _ & Flb).
  destruct (milestone_throws scored) as (_ & _ & Fg).
  unfold B_after_activity. fold scored.
  unfold team_ok. rewrite Fi, Fs, Fpos, Ff, Fcc, Flb, Fg. cbn.
  split; [by apply has_categories_insert |].
  split.
  { intros c Hcat. destruct Hspec as (_ & _ & Hin & _). rewrite (Hin c Hcat). eauto. }
  split.
  { rewrite H3. unfold earned_points.
    assert (BoardB.score team `div` 40
            ≤ (BoardB.score team + (10 + points + 0 `max` (participant_count - 2) * 20) + bonus)
                `div` 40) by (apply Z.div_le_mono; lia).
    lia. }
  done.
Qed.

Lemma game_ok_record_activity clock team_id difficulty category participant_count title w res w' :
  BoardB.record_activity clock team_id difficulty category participant_count title w
    = Ok (res, w') →
  game_ok (BoardB.game w) → game_ok (BoardB.game w').
Proof.
  intros Hrun Hok.
  destruct (BoardB.find_team (BoardB.game w) team_id) as [[i team] |] eqn:Hfind.
  2: { destruct (record_activity_refuses clock team_id difficulty category
                   participant_count title w) as (reason & Hr & _); [by left |].
       congruence. }
  destruct (DIFFICULTY_POINTS !! difficulty) as [points |] eqn:Hpoints.
  2: { destruct (record_activity_refuses clock team_id difficulty category
                   participant_count title w) as (reason & Hr & _); [right; by left |].
       congruence. }
  destruct (decide (category ∈ CATEGORIES)) as [Hcat | Hcat].
  2: { destruct (record_activity_refuses clock team_id difficulty category
                   participant_count title w) as (reason & Hr & _); [right; right; by left |].
       congruence. }
  destruct (decide (participant_count < 1)) as [Hn | Hn].
  { destruct (record_activity_refuses clock team_id difficulty category
                participant_count title w) as (reason & Hr & _); [by repeat right |].
    congruence. }
  apply find_team_Some in Hfind as Hi. destruct Hi as [Hi _].
  destruct Hok as (Hteams & Hrest).
  pose proof (proj1 (Forall_lookup _ _) Hteams i team Hi) as Hteam.
  assert (Hvalid : valid_activity (BoardB.category_count team) (BoardB.line_bonus_taken team)
                     difficulty category participant_count points).
  { destruct Hteam as (? & ? & _). repeat split; try done. lia. }
  destruct (B_record_activity_spec clock w team_id difficulty category participant_count
              title i team points Hfind Hvalid)
    as (bonus & taken' & granted' & msg & Hspec & Hrun').
  rewrite Hrun' in Hrun. injection Hrun as <- <-. cbn [BoardB.game BoardB.save].
  apply (game_ok_update (BoardB.game w) i team); [done | done | | |].
  - by destruct (milestone_fields (B_scored team category
                   (earned_points points participant_count) bonus taken' granted'))
      as (? & _).
  - by destruct (milestone_fields (B_scored team category
                   (earned_points points participant_count) bonus taken' granted'))
      as (_ & _ & _ & _ & _ & ? & _).
  - by eapply team_ok_after_activity.
Qed.

(** [team_ok] does not depend on [throw_chance], [name] or the counters. *)
Lemma team_ok_fields order t t' :
  BoardB.id t' = BoardB.id t →
  BoardB.score t' `div` 40 = BoardB.throw_granted_by_score t' →
  BoardB.position t' = BoardB.position t →
  BoardB.finished_at t' = BoardB.finished_at t →
  BoardB.category_count t' = BoardB.category_count t →
  BoardB.line_bonus_taken t' = BoardB.line_bonus_taken t →
  team_ok order t → team_ok order t'.
Proof.
  intros Hi Hg Hp Hf Hc Hl (H1 & H2 & H3 & H4 & H5 & H6 & H7).
  unfold team_ok. rewrite Hi, Hp, Hf, Hc, Hl. done.
Qed.

Lemma team_ok_with_extra order yut t :
  team_ok order t → team_ok order (with_extra yut t).
Proof.
  intros H. unfold with_extra. destruct (0 <? _); [| done].
  eapply team_ok_fields; [.. | exact H]; try done. cbn. by destruct H as (_ & _ & -> & _).
Qed.

Lemma team_ok_milestone order t :
  has_categories (BoardB.category_count t) →
  has_categories (BoardB.line_bonus_taken t) →
  BoardB.throw_granted_by_score t ≤ BoardB.score t `div` 40 →
  0 ≤ BoardB.position t ≤ 50 →
  (is_Some (BoardB.finished_at t) → truthy_opt (BoardB.finished_at t) = true) →
  (truthy_opt (BoardB.finished_at t) = true ↔ BoardB.position t = 50) →
  (truthy_opt (BoardB.finished_at t) = true → BoardB.id t ∈ order) →
  team_ok order (BoardB.apply_score_throw_milestone t).2.
Proof.
  intros H1 H2 H3 H4 H5 H6 H7.
  destruct (milestone_fields t) as (Fi & _ & Fs & _ & Fpos & Ff & Fcc & _ & Flb).
  destruct (milestone_throws t) as (_ & _ & Fg).
  unfold team_ok. rewrite Fi, Fs, Fpos, Ff, Fcc, Flb, Fg.
  repeat split; try tauto; try lia.
Qed.

Lemma checkpoint_range p : 0 ≤ p → 0 ≤ checkpoint p ≤ p.
Proof. unfold checkpoint. intros. Z.div_mod_to_equations. lia. Qed.

Lemma team_ok_sent_back order actor t :
  0 < BoardB.position actor < 50 →
  team_ok order t →
  team_ok order (if BoardB.is_captured actor t
                 then BoardB.set_position t (checkpoint (BoardB.position t)) else t).
Proof.
  intros Hp Hok. destruct (BoardB.is_captured actor t) eqn:E; [| done].
  apply is_captured_iff in E as (_ & Hnf & Hpos).
  destruct Hok as (H1 & H2 & H3 & H4 & H5 & H6 & H7).
  pose proof (checkpoint_range (BoardB.position t)) as Hc.
  unfold team_ok. cbn. rewrite Hnf in *.
  repeat split; try done; try lia.
Qed.

Lemma game_ok_finish g i team team' logs' :
  game_ok g →
  BoardB.find_team g (BoardB.id team) = Some (i, team) →
  truthy_opt (BoardB.finished_at team) = false →
  BoardB.id team' = BoardB.id team →
  truthy_opt (BoardB.finished_at team') = true →
  team_ok (BoardB.finish_order g ++ [BoardB.id team]) team' →
  game_ok (BoardB.mkGame (<[i := team']> (BoardB.teams g)) logs'
             (BoardB.finish_order g ++ [BoardB.id team])).
Proof.
  intros (Hteams & Hnd & Hfo) Hfind Hracing Hid Hfin Hok.
  apply find_team_Some in Hfind as Hi. destruct Hi as [Hi _].
  pose proof (lookup_lt_Some _ _ _ Hi) as Hlt.
  assert (Hids : BoardB.id <$> <[i := team']> (BoardB.teams g) = BoardB.id <$> BoardB.teams g)
    by (by eapply ids_insert).
  split; [| split].
  - cbn. apply Forall_lookup. intros j t Hj.
    destruct (decide (i = j)) as [<- | Hne].
    + rewrite list_lookup_insert_eq in Hj by done. by injection Hj as <-.
    + rewrite list_lookup_insert_ne in Hj by done.
      eapply team_ok_order; [| by eapply (proj1 (Forall_lookup _ _) Hteams)].
      intros x Hx. apply elem_of_app. by left.
  - cbn. apply NoDup_app. split; [done |]. split; [| apply NoDup_singleton].
    intros x Hx ->%list_elem_of_singleton.
    destruct (Hfo _ Hx) as (i' & t' & Hfind' & Hfin'). congruence.
  - cbn [BoardB.finish_order]. intros x [Hx | ->%list_elem_of_singleton]%elem_of_app.
    + destruct (Hfo _ Hx) as (i' & t' & Hfind' & Hfin').
      apply find_team_Some in Hfind' as Hi'. destruct Hi' as [Hi' _].
      assert (i ≠ i') by (intros <-; congruence).
      exists i', t'. split; [| done].
      apply (find_team_same_ids g (BoardB.mkGame _ _ _) x i' t' t'); [done | done |].
      cbn. by rewrite list_lookup_insert_ne.
    + exists i, team'. split; [| done].
      apply (find_team_same_ids g (BoardB.mkGame _ _ _) _ i team team'); [done | done |].
      cbn. by rewrite list_lookup_insert_eq.
Qed.

Lemma game_ok_throw_yut clock r team_id w :
  game_ok (BoardB.game w) →
  game_ok (BoardB.game (BoardB.throw_yut clock r team_id w).2).
Proof.
  intros Hok.
  destruct (BoardB.find_team (BoardB.game w) team_id) as [[i team] |] eqn:Hfind.
  2: { destruct (throw_yut_refuses clock r team_id w) as (reason & -> & _); [| done].
       unfold throw_yut_invalid. by rewrite Hfind. }
  destruct (truthy_opt (BoardB.finished_at team)) eqn:Hracing.
  { destruct (throw_yut_refuses clock r team_id w) as (reason & -> & _); [| done].
    unfold throw_yut_invalid. rewrite Hfind. by left. }
  destruct (decide (BoardB.throw_chance team ≤ 0)) as [Hc | Hc].
  { destruct (throw_yut_refuses clock r team_id w) as (reason & -> & _); [| done].
    unfold throw_yut_invalid. rewrite Hfind. by right. }
  destruct (throw_yut_spec clock r team_id w i team Hfind Hracing ltac:(lia))
    as (msg & logs' & ->).
  cbn [snd BoardB.game BoardB.save].
  apply find_team_Some in Hfind as Hi. destruct Hi as [Hi Hid].
  pose proof (lookup_lt_Some _ _ _ Hi) as Hlt.
  pose proof Hok as (Hteams & Hnd & Hfo).
  pose proof (proj1 (Forall_lookup _ _) Hteams i team Hi) as Hteam.
  destruct Hteam as (H1 & H2 & H3 & H4 & H5 & H6 & H7).
  pose proof (step_range r) as Hstep.
  pose proof (extra_throw_nonneg r) as Hextra.
  set (yut := BoardB.draw_yut r) in *.
  set (mv := moved team yut).
  set (p := BoardB.position mv).
  assert (Hp : p = Z.max 0 (BoardB.position team + BoardB.step yut)) by done.
  destruct (50 <=? p) eqn:Hp50.
  - apply game_ok_finish; [done | by rewrite Hid | done | | |].
    + destruct (with_extra_fields yut (BoardB.apply_score_throw_milestone
                  (finishing (isoformat (clock O)) mv)).2) as (-> & _);
        [lia |].
      by destruct (milestone_fields (finishing (isoformat (clock O)) mv)) as (-> & _).
    + destruct (with_extra_fields yut (BoardB.apply_score_throw_milestone
                  (finishing (isoformat (clock O)) mv)).2)
        as (_ & _ & _ & _ & _ & _ & _ & -> & _);
        [lia |].
      destruct (milestone_fields (finishing (isoformat (clock O)) mv))
        as (_ & _ & _ & _ & _ & -> & _).
      cbn. apply truthy_isoformat.
    + apply team_ok_with_extra. apply team_ok_milestone; cbn; try done.
      * rewrite H3. apply Z.div_le_mono; lia.
      * intros _. apply truthy_isoformat.
      * split; [done | intros _; apply truthy_isoformat].
      * intros _. apply elem_of_app. right. by apply list_elem_of_singleton.
  - assert (Hmv : team_ok (BoardB.finish_order (BoardB.game w)) mv).
    { unfold team_ok. cbn. fold p. rewrite Hracing in *.
      repeat split; try done; try lia. }
    case_bool_decide as Hk.
    + set (k := captured_count mv _) in *.
      apply game_ok_pointwise; [done | |].
      { unfold sent_back. by rewrite length_insert, length_fmap, length_insert. }
      intros j t Hj. destruct (decide (i = j)) as [<- | Hne].
      * eexists. rewrite list_lookup_insert_eq
          by (unfold sent_back; by rewrite length_fmap, length_insert).
        assert (t = team) as -> by congruence.
        split; [done |].
        destruct (with_extra_fields yut (BoardB.apply_score_throw_milestone (rewarded k mv)).2)
          as (-> & _ & _ & _ & _ & _ & _ & -> & _);
          [lia |].
        destruct (milestone_fields (rewarded k mv)) as (-> & _ & _ & _ & _ & -> & _).
        split; [done |]. split; [done |].
        apply team_ok_with_extra. apply team_ok_milestone; cbn; fold p; try done.
        -- rewrite H3. apply Z.div_le_mono; [lia |].
           pose proof (captured_count_nonneg mv (<[i:=mv]> (BoardB.teams (BoardB.game w)))).
           fold k in H. lia.
        -- rewrite <- Hp. lia.
        -- rewrite <- Hp, Hracing. split; [done | lia].
      * eexists. rewrite list_lookup_insert_ne by done.
        rewrite sent_back_lookup, list_lookup_insert_ne, Hj by done. cbn.
        split; [done |].
        split; [by destruct (BoardB.is_captured mv t) |].
        split; [by destruct (BoardB.is_captured mv t) |].
        apply team_ok_sent_back; [fold p; lia |].
        by eapply (proj1 (Forall_lookup _ _) Hteams).
    + apply (game_ok_update (BoardB.game w) i team); [done | done | | |].
      * by destruct (with_extra_fields yut mv) as (-> & _);
          [lia |].
      * by destruct (with_extra_fields yut mv) as (_ & _ & _ & _ & _ & _ & _ & -> & _);
          [lia |].
      * by apply team_ok_with_extra.
Qed.

Lemma game_ok_transition w w' :
  BoardB.transition w w' → game_ok (BoardB.game w) → game_ok (BoardB.game w').
Proof.
  intros (c & res & Hexec) Hok. destruct c; cbn in Hexec.
  - destruct (BoardB.add_team _ _ _ _ _) as [res' w''] eqn:E.
    injection Hexec as _ <-.
    pose proof (game_ok_add_team millis rand clock name w Hok) as H. by rewrite E in H.
  - destruct (BoardB.record_activity _ _ _ _ _ _ _) as [[res' w''] |] eqn:E; [| done].
    cbn in Hexec. injection Hexec as _ <-. by eapply game_ok_record_activity.
  - destruct (BoardB.throw_yut _ _ _ _) as [res' w''] eqn:E.
    injection Hexec as _ <-.
    pose proof (game_ok_throw_yut clock r team_id w Hok) as H. by rewrite E in H.
  - injection Hexec as _ <-. apply game_ok_new.
Qed.

Lemma game_ok_reachable w : BoardB.reachable w → game_ok (BoardB.game w).
Proof.
  intros [f Hrtc]. revert w Hrtc.
  apply (rtc_ind_r (λ w, game_ok (BoardB.game w))).
  - apply game_ok_new.
  - intros w1 w2 _ Hstep IH. by eapply game_ok_transition.
Qed.

Lemma run_reachable calls w : BoardB.reachable w → BoardB.reachable (run calls w).
Proof.
  revert w. induction calls as [| c calls IH]; intros w Hw; [done |].
  cbn [run]. destruct (BoardB.exec c w) as [[res w'] |] eqn:E; [| done].
  apply IH. destruct Hw as [f Hrtc]. exists f.
  eapply rtc_r; [exact Hrtc |]. by exists c, res.
Qed.

Lemma fresh_reachable : BoardB.reachable fresh_world.
Proof. exists Absent. apply rtc_refl. Qed.

Example example_finished_teams :
  BoardB.teams (BoardB.game example_finished)
  = [example_finisher; BoardB.new_team "team_1772366400002_1000" "B"]
  ∧ BoardB.finish_order (BoardB.game example_finished) = ["team_1772366400001_1000"].
Proof. split; vm_compute; reflexivity. Qed.

Example example_twins_teams :
  BoardB.teams (BoardB.game example_twins)
  = [example_finisher; BoardB.new_team "team_1772366400001_1000" "B"]
  ∧ BoardB.finish_order (BoardB.game example_twins) = ["team_1772366400001_1000"].
Proof. split; vm_compute; reflexivity. Qed.

(** C3.  In every state a run of variant B reaches from a new game, every
    team has [throw_granted_by_score = score // 40].  When the score of
    such a team has risen to [s'], [apply_score_throw_milestone] returns
    [s' // 40 - score // 40], which is not negative, adds it to
    [throw_chance] and sets [throw_granted_by_score] to [s' // 40].  On
    any team at all the milestone lowers neither [throw_chance] nor
    [throw_granted_by_score]. *)
Theorem milestone_invariant (w : BoardB.World) (team : BoardB.Team) (s' : Z)
    (Hreach : BoardB.reachable w)
    (Hteam : team ∈ BoardB.teams (BoardB.game w))
    (Hrise : BoardB.score team ≤ s') :
  BoardB.throw_granted_by_score team = BoardB.score team `div` 40
  ∧ (let gained := s' `div` 40 - BoardB.score team `div` 40 in
     let result := BoardB.apply_score_throw_milestone (BoardB.set_score team s') in
     0 ≤ gained
     ∧ result.1 = gained
     ∧ BoardB.throw_chance result.2 = BoardB.throw_chance team + gained
     ∧ BoardB.throw_granted_by_score result.2 = s' `div` 40)
  ∧ (∀ t : BoardB.Team,
       BoardB.throw_chance t ≤ BoardB.throw_chance (BoardB.apply_score_throw_milestone t).2
       ∧ BoardB.throw_granted_by_score t
         ≤ BoardB.throw_granted_by_score (BoardB.apply_score_throw_milestone t).2).
Proof.
  pose proof (game_ok_reachable w Hreach) as (Hteams & _).
  rewrite Forall_forall in Hteams.
  destruct (Hteams team Hteam) as (_ & _ & Hg & _).
  split; [done |]. split.
  - cbv zeta.
    destruct (milestone_throws (BoardB.set_score team s')) as (F1 & F2 & F3).
    rewrite F1, F2, F3. cbn. rewrite Hg.
    assert (BoardB.score team `div` 40 ≤ s' `div` 40) by (apply Z.div_le_mono; lia).
    lia.
  - intros t. destruct (milestone_throws t) as (_ & F2 & F3). rewrite F2, F3. lia.
Qed.

Lemma milestone_invariant_witness :
  BoardB.throw_granted_by_score example_finisher = 2
  ∧ (BoardB.apply_score_throw_milestone (BoardB.set_score example_finisher 175)).1 = 2.
Proof.
  destruct (milestone_invariant example_finished example_finisher 175) as (H1 & H2 & _).
  - apply run_reachable, fresh_reachable.
  - apply (list_elem_of_lookup_2 _ O). vm_compute. reflexivity.
  - vm_compute. discriminate.
  - split; [exact H1 | apply H2].
Defined.

(** From 35 to 75 points the milestone grants one throw. *)
Example milestone_35_75 :
  (BoardB.apply_score_throw_milestone
     (BoardB.mkTeam "team_1772366400001_1000" "A" 75 2 0 0 0 None zero_counts 0 zero_counts)).1 = 1.
Proof. reflexivity. Qed.

(** With ids that are all different the first team with an id is the
    only one, and the invariant of the runs is the race invariant. *)
Lemma game_ok_race_invariant g :
  game_ok g → NoDup (ids g) → race_invariant g.
Proof.
  intros (Hteams & Hnd & Hfo) Hids.
  split; [done |]. intros team Hteam.
  rewrite Forall_forall in Hteams.
  destruct (Hteams team Hteam) as (_ & _ & _ & Hpos & Hset & Hfin & Hin).
  assert (Htruthy : is_Some (BoardB.finished_at team)
                    ↔ truthy_opt (BoardB.finished_at team) = true).
  { split; [done |]. destruct (BoardB.finished_at team); [eauto | done]. }
  assert (Hback : BoardB.id team ∈ BoardB.finish_order g
                  → truthy_opt (BoardB.finished_at team) = true).
  { intros Hx. destruct (Hfo _ Hx) as (i & t & Hfind & Ht).
    apply find_team_Some in Hfind as [Hi Hid].
    apply list_elem_of_lookup_1 in Hteam as [j Hj].
    assert (i = j) as ->.
    { eapply NoDup_lookup; [exact Hids | |]; unfold ids; rewrite list_lookup_fmap.
      - rewrite Hi. cbn. by rewrite Hid.
      - by rewrite Hj. }
    congruence. }
  split; [done |]. repeat split; intros; tauto.
Qed.

(** With ids that are all different the race invariant holds: in every
    state a run of variant B reaches from a new game and in which no two
    teams have the same id, every position is between 0 and 50; for every
    team, [finished_at] is set exactly when the position is 50, and
    exactly when the id is in [finish_order]; no id is twice in
    [finish_order]. *)
Lemma race_invariant_distinct_ids (w : BoardB.World)
    (Hreach : BoardB.reachable w)
    (Hids : NoDup (ids (BoardB.game w))) :
  race_invariant (BoardB.game w).
Proof.
  apply game_ok_race_invariant; [by apply game_ok_reachable | done].
Qed.

Lemma race_invariant_distinct_ids_witness :
  race_invariant (BoardB.game example_finished).
Proof.
  apply race_invariant_distinct_ids.
  - apply run_reachable, fresh_reachable.
  - apply (bool_decide_unpack _). vm_compute. exact I.
Defined.

(** C7.  The race invariant fails in a state a run reaches.  [add_team]
    takes the id of a new team from [_new_id], the clock in milliseconds
    and a random draw, and does not compare it with the ids in use.  In
    the run [example_twins] the second team gets the id of the first;
    [find_team] returns the first team with an id, so every call goes to
    the first team, which reaches cell 50.  The second team is then at
    cell 0 with [finished_at] unset, and its id is in [finish_order].
    The other parts of the invariant hold in every state a run reaches,
    whatever the ids: every position is between 0 and 50, [finished_at]
    is set exactly when the position is 50, the id of a finished team is
    in [finish_order], and no id is twice in [finish_order]. *)
Theorem twin_ids_break_race_invariant :
  BoardB.reachable example_twins
  ∧ (λ t, (BoardB.name t, BoardB.id t, BoardB.position t, BoardB.finished_at t))
      <$> BoardB.teams (BoardB.game example_twins)
    = [("A", "team_1772366400001_1000", 50, Some "2026-03-01T12:00:00");
       ("B", "team_1772366400001_1000", 0, None)]
  ∧ BoardB.finish_order (BoardB.game example_twins) = ["team_1772366400001_1000"]
  ∧ ¬ race_invariant (BoardB.game example_twins)
  ∧ ∀ w, BoardB.reachable w →
      NoDup (BoardB.finish_order (BoardB.game w))
      ∧ ∀ team, team ∈ BoardB.teams (BoardB.game w) →
          0 ≤ BoardB.position team ≤ 50
          ∧ (is_Some (BoardB.finished_at team) ↔ BoardB.position team = 50)
          ∧ (is_Some (BoardB.finished_at team) →
             BoardB.id team ∈ BoardB.finish_order (BoardB.game w)).
Proof.
  split; [apply run_reachable, fresh_reachable |].
  split; [vm_compute; reflexivity |].
  split; [vm_compute; reflexivity |].
  split.
  - intros (_ & Hteams).
    destruct (Hteams (BoardB.new_team "team_1772366400001_1000" "B")) as (_ & _ & Hcell & _).
    { apply (list_elem_of_lookup_2 _ 1%nat). vm_compute. reflexivity. }
    assert (Hin : "team_1772366400001_1000" ∈ BoardB.finish_order (BoardB.game example_twins)).
    { replace (BoardB.finish_order (BoardB.game example_twins))
        with ["team_1772366400001_1000"] by (vm_compute; reflexivity).
      by left. }
    apply Hcell in Hin. discriminate Hin.
  - intros w Hreach.
    destruct (game_ok_reachable w Hreach) as (Hteams & Hnd & _).
    split; [exact Hnd |]. intros team Hteam.
    rewrite Forall_forall in Hteams.
    destruct (Hteams team Hteam) as (_ & _ & _ & Hpos & Hset & Hfin & Hin).
    assert (Htruthy : is_Some (BoardB.finished_at team)
                      ↔ truthy_opt (BoardB.finished_at team) = true).
    { split; [exact Hset |]. destruct (BoardB.finished_at team); [by eexists | done]. }
    split; [exact Hpos |]. split; [by rewrite Htruthy |].
    intros Hsome. apply Hin. by apply Htruthy.
Qed.


(** ** A finished team *)

Lemma line_bonus_frame c b t b' t' :
  BoardB.line_bonus c (b, t) = Ok (b', t') →
  t' = BoardB.set_line_bonus_taken t (BoardB.line_bonus_taken t').
Proof.
  unfold BoardB.line_bonus, mbind, exc_bind, bind.
  destruct (getitem _ _); [| done]. destruct (getitem _ _); [| done].
  destruct (_ <? _); intros [= <- <-]; by destruct t.
Qed.

Lemma for_each_line_bonus_frame cs b t b' t' :
  for_each BoardB.line_bonus cs (b, t) = Ok (b', t') →
  t' = BoardB.set_line_bonus_taken t (BoardB.line_bonus_taken t').
Proof.
  revert b t. induction cs as [| c cs IH]; intros b t; cbn [for_each].
  { intros [= <- <-]. by destruct t. }
  unfold mbind, exc_bind, bind.
  destruct (BoardB.line_bonus c (b, t)) as [[b1 t1] |] eqn:E; [| done].
  intros H. apply IH in H. apply line_bonus_frame in E.
  rewrite H, E. by destruct t.
Qed.

Lemma compute_bonus_frame t b t' :
  BoardB.compute_bonus t = Ok (b, t') →
  t' = BoardB.set_line_bonus_taken
         (BoardB.set_set_bonus_taken t (BoardB.set_bonus_taken t'))
         (BoardB.line_bonus_taken t').
Proof.
  unfold BoardB.compute_bonus, mbind, exc_bind, bind.
  destruct (all_positive _ _) as [done_all |]; [| done].
  destruct (done_all && _); intros H; apply for_each_line_bonus_frame in H;
    rewrite H; by destruct t.
Qed.

(** What a call of [record_activity] that returns leaves of the game:
    nothing changes but one team, which keeps its id, its position and
    [finished_at]. *)
Lemma record_activity_frame clock team_id difficulty category participant_count title w res w' :
  BoardB.record_activity clock team_id difficulty category participant_count title w
    = Ok (res, w') →
  w' = w
  ∨ ∃ i team team',
      BoardB.find_team (BoardB.game w) team_id = Some (i, team)
      ∧ BoardB.teams (BoardB.game w') = <[i := team']> (BoardB.teams (BoardB.game w))
      ∧ BoardB.finish_order (BoardB.game w') = BoardB.finish_order (BoardB.game w)
      ∧ BoardB.id team' = BoardB.id team
      ∧ BoardB.position team' = BoardB.position team
      ∧ BoardB.finished_at team' = BoardB.finished_at team.
Proof.
  unfold BoardB.record_activity.
  destruct (BoardB.find_team _ _) as [[i team] |] eqn:Hfind; [| intros [= <- <-]; by left].
  destruct (negb (has_key _ _)); [intros [= <- <-]; by left |].
  destruct (negb (contains _ _)); [intros [= <- <-]; by left |].
  destruct (_ <? 1); [intros [= <- <-]; by left |].
  unfold mbind, exc_bind, bind.
  destruct (getitem DIFFICULTY_POINTS _) as [points |]; [| done].
  destruct (getitem (BoardB.category_count _) _) as [n |]; [| done].
  destruct (BoardB.compute_bonus _) as [[bonus team1] |] eqn:Hb; [| done].
  apply compute_bonus_frame in Hb.
  destruct (BoardB.apply_score_throw_milestone _) as [throws team2] eqn:Hm.
  destruct (getitem DIFFICULTY_LABELS _); [| done].
  destruct (getitem CATEGORY_LABELS _); [| done].
  intros [= <- <-]. right. exists i, team, team2.
  split; [done |]. split; [done |]. split; [done |].
  match type of Hm with
  | BoardB.apply_score_throw_milestone ?t = _ =>
      destruct (milestone_fields t) as (Fi & _ & _ & _ & Fp & Ff & _)
  end.
  rewrite Hm in Fi, Fp, Ff. cbn [snd] in Fi, Fp, Ff. rewrite Fi, Fp, Ff.
  rewrite Hb. by destruct (0 <? bonus).
Qed.

(** A throw leaves a finished team as it is. *)
Lemma throw_yut_frame clock r team_id w i t :
  BoardB.teams (BoardB.game w) !! i = Some t →
  truthy_opt (BoardB.finished_at t) = true →
  let g' := BoardB.game (BoardB.throw_yut clock r team_id w).2 in
  BoardB.id <$> BoardB.teams g' = BoardB.id <$> BoardB.teams (BoardB.game w)
  ∧ BoardB.teams g' !! i = Some t.
Proof.
  intros Hi Hfin g'. subst g'.
  destruct (BoardB.find_team (BoardB.game w) team_id) as [[j team] |] eqn:Hfind.
  2: { destruct (throw_yut_refuses clock r team_id w) as (reason & -> & _); [| done].
       unfold throw_yut_invalid. by rewrite Hfind. }
  destruct (truthy_opt (BoardB.finished_at team)) eqn:Hracing.
  { destruct (throw_yut_refuses clock r team_id w) as (reason & -> & _); [| done].
    unfold throw_yut_invalid. rewrite Hfind. by left. }
  destruct (decide (BoardB.throw_chance team ≤ 0)) as [Hc | Hc].
  { destruct (throw_yut_refuses clock r team_id w) as (reason & -> & _); [| done].
    unfold throw_yut_invalid. rewrite Hfind. by right. }
  destruct (throw_yut_spec clock r team_id w j team Hfind Hracing ltac:(lia))
    as (msg & logs' & ->).
  cbn [snd BoardB.game BoardB.save BoardB.teams].
  apply find_team_Some in Hfind as [Hj Hid].
  assert (Hne : j ≠ i) by (intros ->; congruence).
  pose proof (extra_throw_nonneg r) as Hextra.
  set (yut := BoardB.draw_yut r) in *. set (mv := moved team yut).
  destruct (50 <=? BoardB.position mv).
  - split; [| by rewrite list_lookup_insert_ne].
    eapply ids_insert; [done |].
    destruct (with_extra_fields yut (BoardB.apply_score_throw_milestone
                (finishing (isoformat (clock O)) mv)).2) as (-> & _); [lia |].
    by destruct (milestone_fields (finishing (isoformat (clock O)) mv)) as (-> & _).
  - case_bool_decide.
    + set (k := captured_count _ _).
      split.
      * rewrite list_fmap_insert.
        destruct (with_extra_fields yut (BoardB.apply_score_throw_milestone (rewarded k mv)).2)
          as (-> & _); [lia |].
        destruct (milestone_fields (rewarded k mv)) as (-> & _).
        rewrite ids_sent_back. rewrite list_fmap_insert. cbn.
        rewrite list_insert_insert_eq. apply list_insert_id.
        by rewrite list_lookup_fmap, Hj.
      * rewrite list_lookup_insert_ne by done.
        rewrite sent_back_lookup, list_lookup_insert_ne, Hi by done. cbn.
        unfold BoardB.is_captured. rewrite Hfin. cbn. by rewrite andb_false_r.
    + split; [| by rewrite list_lookup_insert_ne].
      eapply ids_insert; [done |].
      by destruct (with_extra_fields yut mv) as (-> & _); [lia |].
Qed.

(** While the game is not reset, the team a finished id names stays the
    same team, and finished. *)
Lemma finished_stays w w' team_id i t :
  transition_keeping w w' →
  BoardB.find_team (BoardB.game w) team_id = Some (i, t) →
  truthy_opt (BoardB.finished_at t) = true →
  ∃ t', BoardB.find_team (BoardB.game w') team_id = Some (i, t')
        ∧ truthy_opt (BoardB.finished_at t') = true.
Proof.
  intros (c & res & Hc & Hexec) Hfind Hfin.
  apply find_team_Some in Hfind as Hi. destruct Hi as [Hi Hid].
  destruct c; cbn in Hexec; [| | | done].
  - unfold BoardB.add_team in Hexec.
    destruct (negb _); [injection Hexec as _ <-; eauto |].
    destruct (existsb _ _); [injection Hexec as _ <-; eauto |].
    injection Hexec as _ <-. exists t. split; [| done].
    by apply (find_team_app (BoardB.game w)).
  - destruct (BoardB.record_activity _ _ _ _ _ _ _) as [[res' w''] |] eqn:E; [| done].
    cbn in Hexec. injection Hexec as _ <-.
    apply record_activity_frame in E as [-> | (j & team & team' & Hfj & Hts & _ & Hidj & _ & Hfj')];
      [eauto |].
    apply find_team_Some in Hfj as [Hj _].
    destruct (decide (j = i)) as [-> | Hne].
    + assert (team = t) as -> by congruence.
      exists team'. split; [| by rewrite Hfj'].
      apply (find_team_same_ids (BoardB.game w) _ team_id i t team'); [| done |].
      * rewrite Hts. by eapply ids_insert.
      * rewrite Hts. apply list_lookup_insert_eq. by eapply lookup_lt_Some.
    + exists t. split; [| done].
      apply (find_team_same_ids (BoardB.game w) _ team_id i t t); [| done |].
      * rewrite Hts. by eapply ids_insert.
      * rewrite Hts. by rewrite list_lookup_insert_ne.
  - destruct (BoardB.throw_yut clock r team_id0 w) as [res' w''] eqn:E.
    injection Hexec as _ <-.
    destruct (throw_yut_frame clock r team_id0 w i t Hi Hfin) as [Hids Hi'].
    rewrite E in Hids, Hi'. cbn [snd] in Hids, Hi'.
    exists t. split; [| done].
    by apply (find_team_same_ids (BoardB.game w) _ team_id i t t).
Qed.

Lemma finished_stays_rtc w w' team_id i t :
  rtc transition_keeping w w' →
  BoardB.find_team (BoardB.game w) team_id = Some (i, t) →
  truthy_opt (BoardB.finished_at t) = true →
  ∃ t', BoardB.find_team (BoardB.game w') team_id = Some (i, t')
        ∧ truthy_opt (BoardB.finished_at t') = true.
Proof.
  intros Hrtc. revert t. induction Hrtc as [| w1 w2 w3 Hstep _ IH]; intros t Hfind Hfin.
  - eauto.
  - destruct (finished_stays _ _ _ _ _ Hstep Hfind Hfin) as (t' & Hfind' & Hfin'). eauto.
Qed.

(** C10.  In variant B [record_activity] does not look at [finished_at]:
    for a finished team and arguments that pass the checks it succeeds,
    the score grows by the points earned and the bonus, which is
    evaluated as for any team, [mission_count]
    and the category count grow by one, and the milestone adds to
    [throw_chance] the tiers of 40 points the new score has reached;
    [finished_at] stays, and as long as the game is not reset every
    [throw_yut] for the team is refused, whatever is called in between. *)
Theorem finished_team_scores
    (clock : nat -> datetime) (w : BoardB.World)
    (team_id difficulty category title : string) (participant_count points : Z)
    (i : nat) (team : BoardB.Team)
    (Hfind : BoardB.find_team (BoardB.game w) team_id = Some (i, team))
    (Hfinished : truthy_opt (BoardB.finished_at team) = true)
    (Hvalid : valid_activity (BoardB.category_count team) (BoardB.line_bonus_taken team)
                difficulty category participant_count points) :
  let earned := earned_points points participant_count in
  ∃ bonus w' team',
    BoardB.record_activity clock team_id difficulty category participant_count title w
      = Ok ((true, "활동이 반영되었습니다."), w')
    ∧ BoardB.find_team (BoardB.game w') team_id = Some (i, team')
    ∧ bonus_spec (counted (BoardB.category_count team) category)
        (BoardB.set_bonus_taken team) (BoardB.line_bonus_taken team)
        bonus (BoardB.set_bonus_taken team') (BoardB.line_bonus_taken team')
    ∧ 0 ≤ bonus
    ∧ BoardB.score team' = BoardB.score team + earned + bonus
    ∧ BoardB.score team < BoardB.score team'
    ∧ BoardB.mission_count team' = BoardB.mission_count team + 1
    ∧ BoardB.category_count team' !! category
      = Some (count_of (BoardB.category_count team) category + 1)
    ∧ BoardB.throw_chance team'
      = BoardB.throw_chance team
        + Z.max 0 (BoardB.score team' `div` 40 - BoardB.throw_granted_by_score team)
    ∧ BoardB.finished_at team' = BoardB.finished_at team
    ∧ (∀ w'', rtc transition_keeping w' w'' →
         ∀ clock' r, ∃ reason,
           BoardB.throw_yut clock' r team_id w'' = ((false, reason), w'')).
Proof.
  intros earned.
  destruct (B_record_activity_spec clock w team_id difficulty category participant_count
              title i team points Hfind Hvalid)
    as (bonus & taken' & granted' & msg & Hspec & Hrun).
  set (scored := B_scored team category earned bonus taken' granted').
  set (team' := B_after_activity team category earned bonus taken' granted') in *.
  destruct (milestone_fields scored) as (Fi & _ & Fs & Fm & _ & Ff & Fcc & Fsb & Flb).
  destruct (milestone_throws scored) as (_ & Fc & _).
  change (BoardB.apply_score_throw_milestone scored).2
    with team' in Fi, Fs, Fm, Ff, Fcc, Fc, Fsb, Flb.
  pose proof (bonus_spec_nonneg _ _ _ _ _ _ Hspec) as Hb.
  destruct Hvalid as (Hp & _ & Hn & _).
  pose proof (difficulty_points_range _ _ Hp) as Hpts.
  apply find_team_Some in Hfind as Hi. destruct Hi as [Hi Hid].
  assert (Hfind' : BoardB.find_team
            (BoardB.game (BoardB.save
               (BoardB.mkGame (<[i := team']> (BoardB.teams (BoardB.game w)))
                  (take 150 (BoardB.mkLogEntry (isoformat (clock O)) msg
                               :: BoardB.logs (BoardB.game w)))
                  (BoardB.finish_order (BoardB.game w))))) team_id = Some (i, team')).
  { apply (find_team_same_ids (BoardB.game w) _ team_id i team team'); [| done |]; cbn.
    - by eapply ids_insert.
    - apply list_lookup_insert_eq. by eapply lookup_lt_Some. }
  eexists bonus, _, team'. split; [exact Hrun |].
  split; [exact Hfind' |].
  split; [by rewrite Fsb, Flb |].
  split; [done |].
  split; [by rewrite Fs |].
  split; [rewrite Fs; cbn; unfold earned, earned_points; lia |].
  split; [by rewrite Fm |].
  split; [rewrite Fcc; cbn; unfold counted; by rewrite lookup_insert_eq |].
  split; [rewrite Fc, Fs; done |].
  split; [by rewrite Ff |].
  intros w'' Hrtc clock' r.
  destruct (finished_stays_rtc _ _ team_id i team' Hrtc Hfind') as (t'' & Hfind'' & Hfin'').
  { by rewrite Ff. }
  destruct (throw_yut_refuses clock' r team_id w'') as (reason & Hr & _).
  { unfold throw_yut_invalid. rewrite Hfind''. by left. }
  eauto.
Qed.

Lemma finished_team_scores_witness :
  ∃ w' team',
    BoardB.record_activity example_clock "team_1772366400001_1000" "hard" "talk" 3 "" example_finished
      = Ok ((true, "활동이 반영되었습니다."), w')
    ∧ BoardB.find_team (BoardB.game w') "team_1772366400001_1000" = Some (O, team')
    ∧ BoardB.score example_finisher < BoardB.score team'
    ∧ BoardB.throw_chance example_finisher < BoardB.throw_chance team'
    ∧ ∃ reason, BoardB.throw_yut example_clock 90%Q "team_1772366400001_1000" w' = ((false, reason), w').
Proof.
  assert (Hv : valid_activity (BoardB.category_count example_finisher)
                 (BoardB.line_bonus_taken example_finisher) "hard" "talk" 3 30).
  { unfold valid_activity.
    split; [reflexivity |].
    split; [apply (bool_decide_unpack _); vm_compute; exact I |].
    split; [lia |].
    split; apply (bool_decide_unpack _); vm_compute; exact I. }
  destruct (finished_team_scores example_clock example_finished "team_1772366400001_1000" "hard" "talk" ""
              3 30 O example_finisher)
    as (bonus & w' & team' & Hrun & Hfind & _ & Hb & Hs & Hlt & _ & _ & Hc & _ & Hthrow).
  - vm_compute. reflexivity.
  - reflexivity.
  - exact Hv.
  - exists w', team'.
    split; [exact Hrun |]. split; [exact Hfind |]. split; [exact Hlt |].
    split; [| apply Hthrow, rtc_refl].
    rewrite Hc, Hs. cbn.
    assert (4 ≤ (110 + earned_points 30 3 + bonus) `div` 40).
    { change 4 with (160 `div` 40). apply Z.div_le_mono; [lia |].
      unfold earned_points. lia. }
    lia.
Defined.


(** ** The ranked view *)

(** [sorted] by a key sorts, keeps the elements, and is stable. *)
Section sorted_facts.
Context {A K : Type} (lt : K -> K -> bool) (key : A -> K) (R : relation A).
Context `{!Transitive R}.
Hypothesis lt_R : ∀ a b, lt (key a) (key b) = true → R a b.
Hypothesis not_lt_R : ∀ a b, lt (key b) (key a) = false → R a b.
Hypothesis lt_irrefl : ∀ k, lt k k = false.

Lemma insert_Permutation x l : insert lt key x l ≡ₚ x :: l.
Proof.
  induction l as [| y l IH]; cbn; [done |].
  destruct (lt (key y) (key x)); [| done].
  rewrite IH. apply Permutation_swap.
Qed.

Lemma sorted_Permutation l : sorted lt key l ≡ₚ l.
Proof.
  induction l as [| x l IH]; cbn; [done |].
  fold (sorted lt key l). by rewrite insert_Permutation, IH.
Qed.

Lemma insert_StronglySorted x l :
  StronglySorted R l → StronglySorted R (insert lt key x l).
Proof using lt_R not_lt_R Transitive0.
  induction l as [| y l IH]; intros Hs; cbn.
  { repeat constructor. }
  apply StronglySorted_inv in Hs as [Hs Hy].
  destruct (lt (key y) (key x)) eqn:E.
  - constructor; [by apply IH |].
    rewrite insert_Permutation. constructor; [by apply lt_R | done].
  - constructor; [by constructor |].
    assert (Hxy : R x y) by (by apply not_lt_R).
    constructor; [done |].
    eapply Forall_impl; [exact Hy |]. intros z Hz. by trans y.
Qed.

Lemma sorted_StronglySorted l : StronglySorted R (sorted lt key l).
Proof using lt_R not_lt_R Transitive0.
  induction l as [| x l IH]; cbn; [constructor |].
  by apply insert_StronglySorted.
Qed.

Lemma insert_stable `{EqDecision K} k x l :
  filter (λ a, key a = k) (insert lt key x l) = filter (λ a, key a = k) (x :: l).
Proof using lt_irrefl.
  induction l as [| y l IH]; cbn [insert]; [done |].
  destruct (lt (key y) (key x)) eqn:E; [| done].
  rewrite filter_cons, IH, !filter_cons.
  destruct (decide (key y = k)) as [Hy | Hy]; [| done].
  destruct (decide (key x = k)) as [Hx | Hx]; [| done].
  rewrite Hy, Hx, lt_irrefl in E. done.
Qed.

Lemma sorted_stable `{EqDecision K} k l :
  filter (λ a, key a = k) (sorted lt key l) = filter (λ a, key a = k) l.
Proof using lt_irrefl.
  induction l as [| x l IH]; cbn [sorted foldr]; [done |].
  fold (sorted lt key l). rewrite insert_stable, !filter_cons, IH. done.
Qed.
End sorted_facts.

Lemma StronglySorted_lookup {A} (R : relation A) l i j a b :
  StronglySorted R l → l !! i = Some a → l !! j = Some b → (i < j)%nat → R a b.
Proof.
  intros Hs. revert i j. induction Hs as [| x l Hs IH Hx]; intros i j Hi Hj Hlt; [done |].
  destruct j as [| j]; [lia |]. cbn in Hj.
  destruct i as [| i]; cbn in Hi.
  - injection Hi as <-. rewrite Forall_forall in Hx. apply Hx.
    by eapply list_elem_of_lookup_2.
  - apply (IH i j); [done | done | lia].
Qed.

Lemma string_ltb_le a b : String.ltb a b = true → String.le a b.
Proof.
  unfold String.le, String.ltb, String.leb.
  destruct (String.compare a b); intros H; try discriminate H; exact I.
Qed.

Lemma string_not_ltb_le a b : String.ltb b a = false → String.le a b.
Proof.
  unfold String.le, String.ltb, String.leb. rewrite (String.compare_antisym b a).
  destruct (String.compare a b); intros H; try discriminate H; exact I.
Qed.

Lemma string_ltb_irrefl a : String.ltb a a = false.
Proof.
  unfold String.ltb. pose proof (String.compare_antisym a a) as H.
  destruct (String.compare a a); [done | discriminate H | done].
Qed.

#[local] Instance A_before_trans : Transitive A_before.
Proof.
  intros a b c. unfold A_before.
  intros [? | [? [? | [? Hab]]]] [? | [? [? | [? Hbc]]]]; try (left; lia);
    try (right; split; [lia |]; left; lia).
  right. split; [lia |]. right. split; [lia |]. by trans (BoardA.name b).
Qed.

#[local] Instance B_before_trans g : Transitive (B_before g).
Proof. intros a b c. unfold B_before. lia. Qed.

Lemma A_key_lt_before a b :
  BoardA.key_lt (BoardA.sort_key a) (BoardA.sort_key b) = true → A_before a b.
Proof.
  unfold BoardA.key_lt, BoardA.sort_key, A_before.
  destruct (- BoardA.score a =? - BoardA.score b) eqn:E1; cbn [negb]; [| lia].
  destruct (- BoardA.mission_count a =? - BoardA.mission_count b) eqn:E2; cbn [negb]; [| lia].
  intros H%string_ltb_le. right. split; [lia |]. right. split; [lia | done].
Qed.

Lemma A_key_not_lt_before a b :
  BoardA.key_lt (BoardA.sort_key b) (BoardA.sort_key a) = false → A_before a b.
Proof.
  unfold BoardA.key_lt, BoardA.sort_key, A_before.
  destruct (- BoardA.score b =? - BoardA.score a) eqn:E1; cbn [negb]; [| lia].
  destruct (- BoardA.mission_count b =? - BoardA.mission_count a) eqn:E2; cbn [negb]; [| lia].
  intros H%string_not_ltb_le. right. split; [lia |]. right. split; [lia | done].
Qed.

Lemma A_key_lt_irrefl k : BoardA.key_lt k k = false.
Proof.
  destruct k as [[a b] c]. unfold BoardA.key_lt. rewrite !Z.eqb_refl. cbn.
  apply string_ltb_irrefl.
Qed.

Lemma B_key_lt_before g a b :
  BoardB.key_lt (BoardB.sort_key g a) (BoardB.sort_key g b) = true → B_before g a b.
Proof.
  unfold BoardB.key_lt, BoardB.sort_key, B_before.
  destruct (BoardB.finish_rank g a =? BoardB.finish_rank g b) eqn:E1; cbn [negb]; [| lia].
  destruct (- BoardB.score a =? - BoardB.score b) eqn:E2; cbn [negb]; [| lia].
  destruct (- BoardB.position a =? - BoardB.position b) eqn:E3; cbn [negb]; lia.
Qed.

Lemma B_key_not_lt_before g a b :
  BoardB.key_lt (BoardB.sort_key g b) (BoardB.sort_key g a) = false → B_before g a b.
Proof.
  unfold BoardB.key_lt, BoardB.sort_key, B_before.
  destruct (BoardB.finish_rank g b =? BoardB.finish_rank g a) eqn:E1; cbn [negb]; [| lia].
  destruct (- BoardB.score b =? - BoardB.score a) eqn:E2; cbn [negb]; [| lia].
  destruct (- BoardB.position b =? - BoardB.position a) eqn:E3; cbn [negb]; lia.
Qed.

Lemma B_key_lt_irrefl k : BoardB.key_lt k k = false.
Proof.
  destruct k as [[[a b] c] d]. unfold BoardB.key_lt. rewrite !Z.eqb_refl. cbn. lia.
Qed.

(** The finish rank of a team is the first place of its id in
    [finish_order], and one billion when the id is not there. *)
Lemma finish_rank_in g t :
  BoardB.id t ∈ BoardB.finish_order g →
  ∃ k : nat, BoardB.finish_rank g t = Z.of_nat k
             ∧ BoardB.finish_order g !! k = Some (BoardB.id t)
             ∧ (∀ k', BoardB.finish_order g !! k' = Some (BoardB.id t) → (k ≤ k')%nat).
Proof.
  intros Hin. unfold BoardB.finish_rank, index.
  destruct (list_find_elem_of (λ y, y = BoardB.id t) _ _ Hin eq_refl) as [[k y] Hf].
  rewrite Hf. cbn. apply list_find_Some in Hf as (Hk & -> & Hfirst).
  exists k. split; [done |]. split; [done |].
  intros k' Hk'. destruct (decide (k ≤ k')%nat); [done |].
  exfalso. apply (Hfirst k' (BoardB.id t)); [done | lia | done].
Qed.

Lemma finish_rank_out g t :
  BoardB.id t ∉ BoardB.finish_order g → BoardB.finish_rank g t = 10 ^ 9.
Proof.
  intros Hout. unfold BoardB.finish_rank, index.
  destruct (list_find _ _) as [[k y] |] eqn:Hf; [| done].
  apply list_find_Some in Hf as (Hk & -> & _).
  exfalso. apply Hout. by eapply list_elem_of_lookup_2.
Qed.

(** [sorted_teams] returns the teams of the game, each as often as
    the game holds it, in the order of the sort key, teams with equal
    keys in the order of [teams].  In variant A a team comes before
    another when its score is higher, or the scores are equal and its
    mission count is higher, or both are equal and its name is not
    greater.  In variant B the first criterion is the finish rank, the
    first place of the id in [finish_order] or one billion for an id that
    is not there, then score, position and mission count, each
    descending; with no more than a billion ids in [finish_order], every
    team whose id is in [finish_order] comes before every team whose id
    is not, whatever the scores.  In a state a run reaches, with ids that
    are all different, these are the teams with [finished_at] set and
    the teams without. *)
Lemma sorted_teams_correct (gA : BoardA.Game) (wB : BoardB.World)
    (Hbound : Z.of_nat (length (BoardB.finish_order (BoardB.game wB))) ≤ 10 ^ 9) :
  let gB := BoardB.game wB in
  (BoardA.sorted_teams gA ≡ₚ BoardA.teams gA
   ∧ StronglySorted A_before (BoardA.sorted_teams gA)
   ∧ ∀ k, filter (λ t, BoardA.sort_key t = k) (BoardA.sorted_teams gA)
          = filter (λ t, BoardA.sort_key t = k) (BoardA.teams gA))
  ∧ (BoardB.sorted_teams gB ≡ₚ BoardB.teams gB
     ∧ StronglySorted (B_before gB) (BoardB.sorted_teams gB)
     ∧ ∀ k, filter (λ t, BoardB.sort_key gB t = k) (BoardB.sorted_teams gB)
            = filter (λ t, BoardB.sort_key gB t = k) (BoardB.teams gB))
  ∧ (∀ t, BoardB.id t ∈ BoardB.finish_order gB →
       ∃ k : nat, BoardB.finish_rank gB t = Z.of_nat k
                  ∧ BoardB.finish_order gB !! k = Some (BoardB.id t)
                  ∧ (∀ k', BoardB.finish_order gB !! k' = Some (BoardB.id t) → (k ≤ k')%nat))
  ∧ (∀ t, BoardB.id t ∉ BoardB.finish_order gB → BoardB.finish_rank gB t = 10 ^ 9)
  ∧ (∀ i j a b,
       BoardB.sorted_teams gB !! i = Some a →
       BoardB.sorted_teams gB !! j = Some b →
       BoardB.id a ∈ BoardB.finish_order gB →
       BoardB.id b ∉ BoardB.finish_order gB →
       (i < j)%nat)
  ∧ (BoardB.reachable wB → NoDup (ids gB) →
     ∀ i j a b,
       BoardB.sorted_teams gB !! i = Some a →
       BoardB.sorted_teams gB !! j = Some b →
       is_Some (BoardB.finished_at a) →
       BoardB.finished_at b = None →
       (i < j)%nat).
Proof.
  intros gB.
  assert (HsB : StronglySorted (B_before gB) (BoardB.sorted_teams gB)).
  { apply sorted_StronglySorted; [apply _ | apply B_key_lt_before | apply B_key_not_lt_before]. }
  assert (Hfirst : ∀ i j a b,
       BoardB.sorted_teams gB !! i = Some a →
       BoardB.sorted_teams gB !! j = Some b →
       BoardB.id a ∈ BoardB.finish_order gB →
       BoardB.id b ∉ BoardB.finish_order gB →
       (i < j)%nat).
  { intros i j a b Hi Hj Ha Hb.
    destruct (finish_rank_in gB a Ha) as (k & Hk & Hlook & _).
    apply lookup_lt_Some in Hlook.
    pose proof (finish_rank_out gB b Hb) as Hrb.
    destruct (decide (i < j)%nat) as [| Hge]; [done |]. exfalso.
    assert (j ≠ i) by (intros ->; congruence).
    assert (Hlt : (j < i)%nat) by lia.
    pose proof (StronglySorted_lookup _ _ _ _ _ _ HsB Hj Hi Hlt) as Hba.
    unfold B_before in Hba. fold gB in Hbound. lia. }
  split; [| split; [| split; [| split; [| split]]]].
  - split; [apply sorted_Permutation |]. split.
    + apply sorted_StronglySorted;
        [apply _ | apply A_key_lt_before | apply A_key_not_lt_before].
    + intros k. apply sorted_stable, A_key_lt_irrefl.
  - split; [apply sorted_Permutation |]. split; [done |].
    intros k. apply sorted_stable, B_key_lt_irrefl.
  - apply finish_rank_in.
  - apply finish_rank_out.
  - exact Hfirst.
  - intros Hreach Hids i j a b Hi Hj Ha Hb.
    destruct (game_ok_race_invariant gB (game_ok_reachable wB Hreach) Hids) as (_ & Hinv).
    assert (Hin : ∀ k t, BoardB.sorted_teams gB !! k = Some t → t ∈ BoardB.teams gB).
    { intros k t Hk. rewrite <- (sorted_Permutation BoardB.key_lt (BoardB.sort_key gB)).
      by eapply list_elem_of_lookup_2. }
    destruct (Hinv a (Hin _ _ Hi)) as (_ & _ & _ & Hfa).
    destruct (Hinv b (Hin _ _ Hj)) as (_ & _ & _ & Hfb).
    apply (Hfirst i j a b); [done | done | tauto |].
    intros Hx. apply Hfb in Hx. rewrite Hb in Hx. by destruct Hx.
Qed.

Lemma sorted_teams_correct_witness :
  StronglySorted A_before (BoardA.sorted_teams example_tie)
  ∧ StronglySorted (B_before example_ranking) (BoardB.sorted_teams example_ranking).
Proof.
  destruct (sorted_teams_correct example_tie (BoardB.mkWorld example_ranking Absent))
    as ((_ & HA & _) & (_ & HB & _) & _).
  - vm_compute. discriminate.
  - split; [exact HA | exact HB].
Defined.

(** Equal score and mission count: the names decide.  A finished team
    comes before a racing team with a higher score. *)
Example sorted_teams_examples :
  BoardA.name <$> BoardA.sorted_teams example_tie = ["gamma"; "alpha"; "beta"]
  ∧ BoardB.name <$> BoardB.sorted_teams example_ranking = ["R"; "Q"; "S"; "P"].
Proof. split; vm_compute; reflexivity. Qed.

(** C8.  In variant B a team that has not finished can outrank a team
    that has.  The sort key takes for "finished" that the id of the team
    is in [finish_order], and [add_team] does not keep the ids apart:
    it takes the id from [_new_id], the clock in milliseconds and a
    random draw, and does not compare it with the ids in use.  In the
    run [example_twin_ranking] team B gets the id of team A.  A finishes
    first and C second; B, which never played and is at cell 0 with no
    point, has the finish rank of A, and [sorted_teams] puts it above C.
    The order by the key itself is as the claim says ([sorted_teams_correct]),
    and so is "finished first" in the states in which all ids differ. *)
Theorem twin_ids_break_ranking :
  BoardB.reachable example_twin_ranking
  ∧ (λ t, (BoardB.name t, BoardB.id t, BoardB.score t, BoardB.position t, BoardB.finished_at t))
      <$> BoardB.teams (BoardB.game example_twin_ranking)
    = [("C", "team_1772366400000_1000", 110, 50, Some "2026-03-01T12:00:00");
       ("A", "team_1772366400001_1000", 110, 50, Some "2026-03-01T12:00:00");
       ("B", "team_1772366400001_1000", 0, 0, None)]
  ∧ BoardB.finish_order (BoardB.game example_twin_ranking)
    = ["team_1772366400001_1000"; "team_1772366400000_1000"]
  ∧ BoardB.name <$> BoardB.sorted_teams (BoardB.game example_twin_ranking) = ["A"; "B"; "C"]
  ∧ ¬ (∀ i j a b,
         BoardB.sorted_teams (BoardB.game example_twin_ranking) !! i = Some a →
         BoardB.sorted_teams (BoardB.game example_twin_ranking) !! j = Some b →
         is_Some (BoardB.finished_at a) →
         BoardB.finished_at b = None →
         (i < j)%nat).
Proof.
  split; [apply run_reachable, fresh_reachable |].
  split; [vm_compute; reflexivity |].
  split; [vm_compute; reflexivity |].
  split; [vm_compute; reflexivity |].
  intros H.
  assert (Hlt : (2 < 1)%nat); [| lia].
  apply (H 2%nat 1%nat
           (BoardB.mkTeam "team_1772366400000_1000" "C" 110 1 2 2 50 (Some "2026-03-01T12:00:00")
              (<["talk" := 1]> zero_counts) 0 zero_counts)
           (BoardB.new_team "team_1772366400001_1000" "B")).
  - vm_compute. reflexivity.
  - vm_compute. reflexivity.
  - by eexists.
  - reflexivity.
Qed.



(** ** Loading a snapshot *)

Lemma field_missing d k default : assoc d k = None → BoardB.field d k default = default.
Proof. unfold BoardB.field. by intros ->. Qed.

(** A snapshot that does not give [throw_granted_by_score] is loaded with
    the default of the field, 0, which is an [int]: the branch that
    derives the field from the score is not taken. *)
Lemma load_team_missing d team :
  assoc d "throw_granted_by_score" = None →
  BoardB.Team_init (VDict d) = Ok team →
  BoardB.load_team (VDict d) = Ok team
  ∧ BoardB.Loaded.throw_granted_by_score team = VInt 0.
Proof.
  intros Hmiss Hinit.
  assert (Hg : BoardB.Loaded.throw_granted_by_score team = VInt 0).
  { unfold BoardB.Team_init in Hinit.
    destruct (forallb _ d); [| done].
    destruct (assoc d "id"); [| done]. destruct (assoc d "name"); [| done].
    injection Hinit as <-. cbn. by apply field_missing. }
  split; [| done].
  unfold BoardB.load_team. rewrite Hinit. cbn. by rewrite Hg.
Qed.

(** A snapshot that gives the field a value that is not an [int] is
    loaded with the field derived from the score. *)
Lemma load_team_invalid raw team s :
  BoardB.Team_init raw = Ok team →
  is_int (BoardB.Loaded.throw_granted_by_score team) = false →
  BoardB.Loaded.score team = VInt s →
  BoardB.load_team raw
  = Ok (BoardB.Loaded.set_throw_granted_by_score team (VInt (s `div` 40))).
Proof.
  intros Hinit Hint Hscore.
  unfold BoardB.load_team. rewrite Hinit. cbn. rewrite Hint, Hscore. done.
Qed.

(** C9.  [load] returns a new, empty game when the file is absent, when
    its text does not parse, and when building the game from the parsed
    value raises.  A team whose snapshot gives [throw_granted_by_score] a
    value that is not an [int] (such as [null]) is loaded with
    [score // 40] in that field.  A team whose snapshot does not give the
    field at all is loaded with 0 in it, not with [score // 40]: the
    snapshot of a team with 100 points and no such field is loaded with
    [throw_granted_by_score = 0] where [100 // 40] is 2. *)
Theorem load_snapshot :
  BoardB.load Absent = BoardB.Loaded.new_game
  ∧ BoardB.load Unparsable = BoardB.Loaded.new_game
  ∧ (∀ payload e, BoardB.load_payload payload = Raise e →
       BoardB.load (Parsed payload) = BoardB.Loaded.new_game)
  ∧ (∀ raw team s,
       BoardB.Team_init raw = Ok team →
       is_int (BoardB.Loaded.throw_granted_by_score team) = false →
       BoardB.Loaded.score team = VInt s →
       BoardB.load_team raw
       = Ok (BoardB.Loaded.set_throw_granted_by_score team (VInt (s `div` 40))))
  ∧ (∀ d team,
       assoc d "throw_granted_by_score" = None →
       BoardB.Team_init (VDict d) = Ok team →
       BoardB.load_team (VDict d) = Ok team
       ∧ BoardB.Loaded.throw_granted_by_score team = VInt 0)
  ∧ (BoardB.Loaded.score <$> BoardB.Loaded.teams (BoardB.load (Parsed snapshot_without_field))
     = [VInt 100]
     ∧ BoardB.Loaded.throw_granted_by_score
         <$> BoardB.Loaded.teams (BoardB.load (Parsed snapshot_without_field))
       = [VInt 0]
     ∧ 100 `div` BoardB.SCORE_PER_THROW = 2)
  ∧ BoardB.Loaded.throw_granted_by_score
      <$> BoardB.Loaded.teams (BoardB.load (Parsed snapshot_with_null))
    = [VInt 2].
Proof.
  split; [done |]. split; [done |].
  split; [intros payload e H; cbn; by rewrite H |].
  split; [apply load_team_invalid |].
  split; [apply load_team_missing |].
  split; [| vm_compute; reflexivity].
  repeat split; vm_compute; reflexivity.
Qed.


(** ** The dicts of the teams of a run *)

Lemma A_line_bonus_keeps c b t b' t' :
  BoardA.line_bonus c (b, t) = Ok (b', t') →
  BoardA.category_count t' = BoardA.category_count t
  ∧ (has_categories (BoardA.line_bonus_taken t) → has_categories (BoardA.line_bonus_taken t')).
Proof.
  unfold BoardA.line_bonus, mbind, exc_bind, bind.
  destruct (getitem _ _); [| done]. destruct (getitem _ _); [| done].
  destruct (_ <? _); intros [= <- <-]; [| done].
  split; [done |]. cbn. apply has_categories_insert.
Qed.

Lemma A_for_each_line_bonus_keeps cs b t b' t' :
  for_each BoardA.line_bonus cs (b, t) = Ok (b', t') →
  BoardA.category_count t' = BoardA.category_count t
  ∧ (has_categories (BoardA.line_bonus_taken t) → has_categories (BoardA.line_bonus_taken t')).
Proof.
  revert b t. induction cs as [| c cs IH]; intros b t; cbn [for_each].
  { by intros [= <- <-]. }
  unfold mbind, exc_bind, bind.
  destruct (BoardA.line_bonus c (b, t)) as [[b1 t1] |] eqn:E; [| done].
  intros H. apply IH in H as [H1 H2]. apply A_line_bonus_keeps in E as [E1 E2].
  split; [congruence | tauto].
Qed.

Lemma A_compute_bonus_keeps t b t' :
  BoardA.compute_bonus t = Ok (b, t') →
  BoardA.category_count t' = BoardA.category_count t
  ∧ (has_categories (BoardA.line_bonus_taken t) → has_categories (BoardA.line_bonus_taken t')).
Proof.
  unfold BoardA.compute_bonus, mbind, exc_bind, bind.
  destruct (all_positive _ _) as [done_all |]; [| done].
  destruct (done_all && _); intros H; by apply A_for_each_line_bonus_keeps in H.
Qed.

Lemma A_record_activity_keeps clock team_id difficulty category participant_count title w res w' :
  BoardA.record_activity clock team_id difficulty category participant_count title w
    = Ok (res, w') →
  Forall A_counts_ok (BoardA.teams (BoardA.game w)) →
  Forall A_counts_ok (BoardA.teams (BoardA.game w')).
Proof.
  unfold BoardA.record_activity.
  destruct (BoardA.find_team _ _) as [[i team] |] eqn:Hfind; [| by intros [= <- <-]].
  destruct (negb (has_key _ _)); [by intros [= <- <-] |].
  destruct (negb (contains _ _)); [by intros [= <- <-] |].
  destruct (_ <? 1); [by intros [= <- <-] |].
  unfold mbind, exc_bind, bind.
  destruct (getitem DIFFICULTY_POINTS _) as [points |]; [| done].
  destruct (getitem (BoardA.category_count _) _) as [n |]; [| done].
  destruct (BoardA.compute_bonus _) as [[bonus team1] |] eqn:Hb; [| done].
  apply A_compute_bonus_keeps in Hb as [Hc Hl].
  destruct (getitem DIFFICULTY_LABELS _); [| done].
  destruct (getitem CATEGORY_LABELS _); [| done].
  intros [= <- <-] Hok. cbn.
  apply list_find_Some in Hfind as (Hi & _).
  pose proof (proj1 (Forall_lookup _ _) Hok i team Hi) as [H1 H2].
  apply Forall_insert; [done |].
  cbn in Hc, Hl.
  split.
  - destruct (0 <? bonus); cbn; rewrite Hc; by apply has_categories_insert.
  - destruct (0 <? bonus); cbn; by apply Hl.
Qed.

(** In a run of variant A every team keeps a count and a tier for each
    of the four categories. *)
Lemma A_reachable_counts_ok w :
  BoardA.reachable w → Forall A_counts_ok (BoardA.teams (BoardA.game w)).
Proof.
  intros [f Hrtc]. revert w Hrtc.
  apply (rtc_ind_r (λ w, Forall A_counts_ok (BoardA.teams (BoardA.game w)))).
  { constructor. }
  intros w1 w2 _ (c & res & Hexec) IH. destruct c; cbn in Hexec.
  - unfold BoardA.add_team in Hexec.
    destruct (negb _); [by injection Hexec as _ <- |].
    destruct (existsb _ _); [by injection Hexec as _ <- |].
    injection Hexec as _ <-. cbn. apply Forall_app. split; [done |].
    constructor; [| constructor].
    split; apply has_categories_zero_counts.
  - destruct (BoardA.record_activity _ _ _ _ _ _ _) as [[res' w''] |] eqn:E; [| done].
    cbn in Hexec. injection Hexec as _ <-. by eapply A_record_activity_keeps.
  - injection Hexec as _ <-. constructor.
Qed.

(** The same in a run of variant B. *)
Lemma B_reachable_counts_ok w team :
  BoardB.reachable w → team ∈ BoardB.teams (BoardB.game w) →
  has_categories (BoardB.category_count team)
  ∧ has_categories (BoardB.line_bonus_taken team).
Proof.
  intros Hreach Hteam.
  pose proof (game_ok_reachable w Hreach) as (Hteams & _).
  rewrite Forall_forall in Hteams. destruct (Hteams team Hteam) as (? & ? & _). done.
Qed.

Lemma map_exc_fmap {A B C} (f : B → exc C) (g : A → B) (h : A → C) l :
  (∀ x, f (g x) = Ok (h x)) → BoardB.map_exc f (g <$> l) = Ok (h <$> l).
Proof.
  intros H. induction l as [| x l IH]; [done |].
  cbn. rewrite H. cbn. rewrite IH. done.
Qed.

Lemma load_team_asdict t : BoardB.load_team (BoardB.asdict_team t) = Ok (loaded_team t).
Proof. reflexivity. Qed.

Lemma LogEntry_init_asdict l : BoardB.LogEntry_init (BoardB.asdict_log l) = Ok (loaded_log l).
Proof. reflexivity. Qed.

(** [load] reads back what [save] wrote. *)
Lemma load_save g : BoardB.load (BoardB.STORAGE_FILE (BoardB.save g)) = loaded_game g.
Proof.
  cbn [BoardB.save BoardB.STORAGE_FILE BoardB.load].
  unfold BoardB.load_payload, BoardB.payload. cbn [BoardB.get BoardB.field assoc String.eqb Ascii.eqb Bool.eqb].
  cbn [mbind exc_bind bind iterate].
  rewrite (map_exc_fmap _ _ loaded_team _ load_team_asdict). cbn [mbind exc_bind bind].
  rewrite (map_exc_fmap _ _ loaded_log _ LogEntry_init_asdict). cbn [mbind exc_bind bind].
  reflexivity.
Qed.

(** * Further properties *)

(** ** Strings *)

Lemma string_app_cons a s t : String a s +:+ t = String a (s +:+ t).
Proof. reflexivity. Qed.

Lemma string_app_nil_r s : s +:+ "" = s.
Proof. induction s as [| a s IH]; [done |]. by rewrite string_app_cons, IH. Qed.

Lemma string_app_assoc s1 s2 s3 : (s1 +:+ s2) +:+ s3 = s1 +:+ (s2 +:+ s3).
Proof. induction s1 as [| a s1 IH]; [done |]. by rewrite !string_app_cons, IH. Qed.

Lemma string_app_length s1 s2 :
  String.length (s1 +:+ s2) = (String.length s1 + String.length s2)%nat.
Proof.
  induction s1 as [| a s1 IH]; [done |]. rewrite string_app_cons. cbn. by rewrite IH.
Qed.

Lemma rev_app_spec s1 s2 : String.rev_app s1 s2 = String.rev s1 +:+ s2.
Proof.
  unfold String.rev. revert s2. induction s1 as [| a s1 IH]; intros s2; [done |].
  cbn. rewrite IH. rewrite (IH (String a "")). by rewrite string_app_assoc.
Qed.

Lemma rev_cons a s : String.rev (String a s) = String.rev s +:+ String a "".
Proof. unfold String.rev at 1. cbn. apply rev_app_spec. Qed.

Lemma rev_app_distr s1 s2 : String.rev (s1 +:+ s2) = String.rev s2 +:+ String.rev s1.
Proof.
  induction s1 as [| a s1 IH].
  - change ("" +:+ s2) with s2. change (String.rev "") with "". by rewrite string_app_nil_r.
  - rewrite string_app_cons, !rev_cons, IH. by rewrite string_app_assoc.
Qed.

Lemma rev_involutive s : String.rev (String.rev s) = s.
Proof.
  induction s as [| a s IH]; [done |].
  rewrite rev_cons, rev_app_distr, IH. done.
Qed.

Lemma rev_length s : String.length (String.rev s) = String.length s.
Proof.
  induction s as [| a s IH]; [done |].
  rewrite rev_cons, string_app_length, IH. cbn. lia.
Qed.

(** ** [str.strip] *)

Lemma drop_prefix_Some p s s' : drop_prefix p s = Some s' → s = p +:+ s'.
Proof.
  revert s. induction p as [| a p IH]; intros s; cbn.
  - by intros [= ->].
  - destruct s as [| b s]; [done |].
    destruct (Ascii.eqb a b) eqn:E; [| done].
    apply Ascii.eqb_eq in E as ->. intros H. by rewrite (IH _ H).
Qed.

Lemma drop_prefix_app p s s' q :
  drop_prefix p s = Some s' → drop_prefix p (s +:+ q) = Some (s' +:+ q).
Proof.
  revert s. induction p as [| a p IH]; intros s; cbn.
  - by intros [= ->].
  - destruct s as [| b s]; [done |]. rewrite string_app_cons. cbn.
    destruct (Ascii.eqb a b); [| done]. apply IH.
Qed.

Lemma drop_one_Some ps s s' :
  drop_one ps s = Some s' → ∃ p, p ∈ ps ∧ s = p +:+ s'.
Proof.
  induction ps as [| p ps IH]; cbn; [done |].
  destruct (drop_prefix p s) as [s1 |] eqn:E.
  - intros [= <-]. exists p. split; [left | by apply drop_prefix_Some].
  - intros H. destruct (IH H) as (p' & ? & ?). exists p'. split; [by right | done].
Qed.

Lemma drop_one_app ps s q :
  drop_one ps (s +:+ q) = None → drop_one ps s = None.
Proof.
  induction ps as [| p ps IH]; cbn; [done |].
  destruct (drop_prefix p s) as [s1 |] eqn:E.
  - by rewrite (drop_prefix_app _ _ _ q E).
  - destruct (drop_prefix p (s +:+ q)); [done | apply IH].
Qed.

(** With fuel for every character, nothing is left to drop. *)
Lemma drop_leading_clean n ps s :
  Forall (λ p, p ≠ "") ps → (String.length s ≤ n)%nat →
  drop_one ps (drop_leading n ps s) = None.
Proof.
  intros Hps. revert s. induction n as [| n IH]; intros s Hlen; cbn.
  - destruct s; [| cbn in Hlen; lia].
    destruct (drop_one ps "") as [s' |] eqn:E; [| done].
    apply drop_one_Some in E as (p & Hp & Heq).
    rewrite Forall_forall in Hps. specialize (Hps p Hp). by destruct p.
  - destruct (drop_one ps s) as [s' |] eqn:E; [| done].
    apply IH. apply drop_one_Some in E as (p & Hp & ->).
    rewrite Forall_forall in Hps. specialize (Hps p Hp).
    rewrite string_app_length in Hlen. destruct p; [done |]. cbn in Hlen. lia.
Qed.

Lemma drop_leading_id n ps s : drop_one ps s = None → drop_leading n ps s = s.
Proof. intros H. destruct n; [done |]. cbn. by rewrite H. Qed.

Lemma drop_leading_suffix n ps s : ∃ pre, s = pre +:+ drop_leading n ps s.
Proof.
  revert s. induction n as [| n IH]; intros s; cbn; [by exists "" |].
  destruct (drop_one ps s) as [s' |] eqn:E; [| by exists ""].
  apply drop_one_Some in E as (p & _ & ->).
  destruct (IH s') as (pre & Hpre). exists (p +:+ pre).
  rewrite string_app_assoc. by rewrite <- Hpre.
Qed.

Lemma whitespace_nonempty : Forall (λ p, p ≠ "") whitespace.
Proof.
  apply Forall_forall. intros p Hp. vm_compute in Hp.
  repeat (apply elem_of_cons in Hp as [-> | Hp]; [done |]). by apply elem_of_nil in Hp.
Qed.

Lemma rev_whitespace_nonempty : Forall (λ p, p ≠ "") (String.rev <$> whitespace).
Proof.
  apply Forall_forall. intros p Hp. vm_compute in Hp.
  repeat (apply elem_of_cons in Hp as [-> | Hp]; [done |]). by apply elem_of_nil in Hp.
Qed.

(** [strip] leaves nothing to strip. *)
Lemma strip_idemp s : strip (strip s) = strip s.
Proof.
  unfold strip.
  set (u := lstrip s).
  assert (Hu : drop_one whitespace u = None).
  { apply drop_leading_clean; [apply whitespace_nonempty | done]. }
  unfold rstrip at 2.
  set (d := drop_leading (String.length u) (String.rev <$> whitespace) (String.rev u)).
  assert (Hd : drop_one (String.rev <$> whitespace) d = None).
  { apply drop_leading_clean; [apply rev_whitespace_nonempty | by rewrite rev_length]. }
  destruct (drop_leading_suffix (String.length u) (String.rev <$> whitespace) (String.rev u))
    as (pre & Hpre). fold d in Hpre.
  assert (Hut : u = String.rev d +:+ String.rev pre).
  { rewrite <- rev_app_distr, <- Hpre. by rewrite rev_involutive. }
  assert (Hl : lstrip (String.rev d) = String.rev d).
  { apply drop_leading_id. apply (drop_one_app _ _ (String.rev pre)). by rewrite <- Hut. }
  rewrite Hl. unfold rstrip. rewrite rev_involutive.
  by rewrite drop_leading_id.
Qed.

(** ** What the calls do to the teams *)


Lemma thrown_refl t : thrown t t.
Proof. unfold thrown. repeat split; try done; lia. Qed.

Lemma milestone_thrown t :
  thrown t (BoardB.apply_score_throw_milestone t).2.
Proof.
  destruct (milestone_fields t) as (? & ? & ? & ? & ? & ? & ? & ? & ?).
  destruct (milestone_throws t) as (_ & Hc & Hg).
  unfold thrown. repeat split; try done; lia.
Qed.

Lemma thrown_trans a b c : thrown a b → thrown b c → thrown a c.
Proof.
  unfold thrown.
  intros (? & ? & ? & ? & ? & ? & ? & ? & ? & Hab) (? & ? & ? & ? & ? & ? & ? & ? & ? & Hbc).
  repeat split; try congruence; try lia; try tauto.
  intros Ha. rewrite <- (Hab Ha). apply Hbc. by rewrite (Hab Ha).
Qed.

Lemma with_extra_thrown yut t :
  0 ≤ BoardB.extra_throw yut → thrown t (with_extra yut t).
Proof.
  intros H. destruct (with_extra_fields yut t H) as (? & ? & ? & ? & ? & ? & ? & ? & ? & ? & ?).
  unfold thrown. repeat split; try done; lia.
Qed.

Lemma throw_yut_pointwise clock r team_id w :
  let g' := BoardB.game (BoardB.throw_yut clock r team_id w).2 in
  length (BoardB.teams g') = length (BoardB.teams (BoardB.game w))
  ∧ (∀ j t, BoardB.teams (BoardB.game w) !! j = Some t →
       ∃ t', BoardB.teams g' !! j = Some t' ∧ thrown t t')
  ∧ BoardB.finish_order (BoardB.game w) `prefix_of` BoardB.finish_order g'.
Proof.
  intros g'. subst g'.
  assert (Hsame : ∀ w0 : BoardB.World,
    length (BoardB.teams (BoardB.game w0)) = length (BoardB.teams (BoardB.game w0))
    ∧ (∀ j t, BoardB.teams (BoardB.game w0) !! j = Some t →
         ∃ t', BoardB.teams (BoardB.game w0) !! j = Some t' ∧ thrown t t')
    ∧ BoardB.finish_order (BoardB.game w0) `prefix_of` BoardB.finish_order (BoardB.game w0)).
  { intros w0. split; [done |]. split; [| done]. intros j t Hj. exists t. split; [done | apply thrown_refl]. }
  destruct (BoardB.find_team (BoardB.game w) team_id) as [[i team] |] eqn:Hfind.
  2: { destruct (throw_yut_refuses clock r team_id w) as (reason & -> & _); [| apply Hsame].
       unfold throw_yut_invalid. by rewrite Hfind. }
  destruct (truthy_opt (BoardB.finished_at team)) eqn:Hracing.
  { destruct (throw_yut_refuses clock r team_id w) as (reason & -> & _); [| apply Hsame].
    unfold throw_yut_invalid. rewrite Hfind. by left. }
  destruct (decide (BoardB.throw_chance team ≤ 0)) as [Hc | Hc].
  { destruct (throw_yut_refuses clock r team_id w) as (reason & -> & _); [| apply Hsame].
    unfold throw_yut_invalid. rewrite Hfind. by right. }
  destruct (throw_yut_spec clock r team_id w i team Hfind Hracing ltac:(lia))
    as (msg & logs' & ->).
  cbn [snd BoardB.game BoardB.save BoardB.teams BoardB.finish_order].
  apply find_team_Some in Hfind as [Hi Hid].
  pose proof (lookup_lt_Some _ _ _ Hi) as Hlt.
  pose proof (extra_throw_nonneg r) as Hextra.
  pose proof (step_range r) as Hstep.
  set (yut := BoardB.draw_yut r) in *. set (mv := moved team yut).
  assert (Hmv : BoardB.id mv = BoardB.id team ∧ BoardB.name mv = BoardB.name team
          ∧ BoardB.score mv = BoardB.score team
          ∧ BoardB.mission_count mv = BoardB.mission_count team
          ∧ BoardB.category_count mv = BoardB.category_count team
          ∧ BoardB.set_bonus_taken mv = BoardB.set_bonus_taken team
          ∧ BoardB.line_bonus_taken mv = BoardB.line_bonus_taken team
          ∧ BoardB.throw_chance mv = BoardB.throw_chance team - 1
          ∧ BoardB.throw_granted_by_score mv = BoardB.throw_granted_by_score team) by done.
  destruct Hmv as (M1 & M2 & M3 & M4 & M5 & M6 & M7 & M8 & M9).
  destruct (50 <=? BoardB.position mv).
  - split; [by rewrite length_insert |]. split; [| by apply prefix_app_r].
    intros j t Hj. destruct (decide (i = j)) as [<- | Hne].
    + eexists. rewrite list_lookup_insert_eq by done. split; [done |].
      assert (t = team) as -> by congruence.
      eapply thrown_trans; [| apply with_extra_thrown; lia].
      eapply thrown_trans; [| apply milestone_thrown].
      unfold thrown. cbn. repeat split; try done; try lia; intros; congruence.
    + exists t. rewrite list_lookup_insert_ne by done. split; [done | apply thrown_refl].
  - split; [| split; [| done]].
    { case_bool_decide; unfold sent_back;
        by rewrite ?length_insert, ?length_fmap, ?length_insert. }
    intros j t Hj. case_bool_decide as Hk.
    + pose proof (captured_count_nonneg mv (<[i:=mv]> (BoardB.teams (BoardB.game w)))) as Hk0.
      set (k := captured_count _ _) in *.
      destruct (decide (i = j)) as [<- | Hne].
      * eexists. rewrite list_lookup_insert_eq
          by (unfold sent_back; by rewrite length_fmap, length_insert).
        split; [done |]. assert (t = team) as -> by congruence.
        eapply thrown_trans; [| apply with_extra_thrown; lia].
        eapply thrown_trans; [| apply milestone_thrown].
        unfold thrown. cbn. repeat split; try done; try lia; intros; congruence.
      * eexists. rewrite list_lookup_insert_ne by done.
        rewrite sent_back_lookup, list_lookup_insert_ne, Hj by done. cbn.
        split; [done |]. destruct (BoardB.is_captured mv t); [| apply thrown_refl].
        unfold thrown. cbn. repeat split; try done; lia.
    + destruct (decide (i = j)) as [<- | Hne].
      * eexists. rewrite list_lookup_insert_eq by done. split; [done |].
        assert (t = team) as -> by congruence.
        eapply thrown_trans; [| apply with_extra_thrown; lia].
        unfold thrown. rewrite M1, M2, M3, M4, M5, M6, M7, M8, M9.
        repeat split; try done; try lia.
      * exists t. rewrite list_lookup_insert_ne by done. split; [done | apply thrown_refl].
Qed.

(** The loop of [compute_bonus] returns only if both dicts hold every
    category it visits. *)
Section line_loop_returns.
Context {T : Type}.
Context (counts_of granted_of : T -> gmap string Z).
Context (set_granted : T -> gmap string Z -> T).
Context (body : string -> Z * T -> exc (Z * T)).

Hypothesis body_unfold : ∀ c bonus team,
  body c (bonus, team) =
    (n ← getitem (counts_of team) c;
     taken ← getitem (granted_of team) c;
     if taken <? n `div` LINE_THRESHOLD then
       Ok (bonus + (n `div` LINE_THRESHOLD - taken) * LINE_BONUS_POINTS,
           set_granted team (<[c := n `div` LINE_THRESHOLD]> (granted_of team)))
     else Ok (bonus, team)).
Hypothesis granted_set : ∀ t m, granted_of (set_granted t m) = m.
Hypothesis counts_set : ∀ t m, counts_of (set_granted t m) = counts_of t.

Lemma line_loop_returns cs : ∀ bonus team r,
  for_each body cs (bonus, team) = Ok r →
  ∀ c, c ∈ cs → is_Some (counts_of team !! c) ∧ is_Some (granted_of team !! c).
Proof using body_unfold granted_set counts_set.
  induction cs as [| c cs IH]; intros bonus team r Hrun c' Hc'.
  { by apply elem_of_nil in Hc'. }
  cbn [for_each] in Hrun. rewrite body_unfold in Hrun.
  unfold getitem in Hrun.
  destruct (counts_of team !! c) as [n |] eqn:Hn; [| done].
  destruct (granted_of team !! c) as [k |] eqn:Hk; [| done].
  cbn in Hrun.
  apply elem_of_cons in Hc' as [-> | Hc'].
  { rewrite Hn, Hk. split; eauto. }
  destruct (k <? n `div` LINE_THRESHOLD); cbn in Hrun.
  - destruct (IH _ _ _ Hrun c' Hc') as [H1 H2].
    rewrite counts_set in H1. rewrite granted_set in H2. split; [done |].
    destruct (decide (c' = c)) as [-> | Hne]; [by rewrite Hk |].
    by rewrite lookup_insert_ne in H2.
  - by apply (IH _ _ _ Hrun).
Qed.
End line_loop_returns.

Lemma B_compute_bonus_returns team r :
  BoardB.compute_bonus team = Ok r →
  has_categories (BoardB.category_count team)
  ∧ has_categories (BoardB.line_bonus_taken team).
Proof.
  unfold BoardB.compute_bonus, mbind, exc_bind, bind.
  destruct (all_positive _ _) as [done_all |]; [| done].
  pose proof (line_loop_returns BoardB.category_count BoardB.line_bonus_taken
                BoardB.set_line_bonus_taken BoardB.line_bonus
                ltac:(done) ltac:(done) ltac:(done) CATEGORIES) as Hloop.
  destruct (done_all && _); intros Hrun;
    split; intros c Hc; by destruct (Hloop _ _ _ Hrun c Hc).
Qed.

Lemma A_compute_bonus_returns team r :
  BoardA.compute_bonus team = Ok r →
  has_categories (BoardA.category_count team)
  ∧ has_categories (BoardA.line_bonus_taken team).
Proof.
  unfold BoardA.compute_bonus, mbind, exc_bind, bind.
  destruct (all_positive _ _) as [done_all |]; [| done].
  pose proof (line_loop_returns BoardA.category_count BoardA.line_bonus_taken
                BoardA.set_line_bonus_taken BoardA.line_bonus
                ltac:(done) ltac:(done) ltac:(done) CATEGORIES) as Hloop.
  destruct (done_all && _); intros Hrun;
    split; intros c Hc; by destruct (Hloop _ _ _ Hrun c Hc).
Qed.

Lemma has_categories_uninsert m c n :
  is_Some (m !! c) → has_categories (<[c := n]> m) → has_categories m.
Proof.
  intros Hc H c' Hc'. destruct (decide (c' = c)) as [-> | Hne]; [done |].
  specialize (H c' Hc'). by rewrite lookup_insert_ne in H.
Qed.

(** What a call of [record_activity] that returns has done: nothing, with
    a refusal, or all of it. *)
Lemma B_record_activity_inv clock team_id difficulty category participant_count title w res w' :
  BoardB.record_activity clock team_id difficulty category participant_count title w
    = Ok (res, w') →
  (res.1 = false ∧ w' = w)
  ∨ ∃ i team points bonus taken' granted' msg,
      BoardB.find_team (BoardB.game w) team_id = Some (i, team)
      ∧ valid_activity (BoardB.category_count team) (BoardB.line_bonus_taken team)
          difficulty category participant_count points
      ∧ bonus_spec (counted (BoardB.category_count team) category)
          (BoardB.set_bonus_taken team) (BoardB.line_bonus_taken team) bonus taken' granted'
      ∧ res = (true, "활동이 반영되었습니다.")
      ∧ w' = BoardB.save
               (BoardB.mkGame
                  (<[i := B_after_activity team category
                            (earned_points points participant_count) bonus taken' granted']>
                     (BoardB.teams (BoardB.game w)))
                  (take 150 (BoardB.mkLogEntry (isoformat (clock O)) msg
                               :: BoardB.logs (BoardB.game w)))
                  (BoardB.finish_order (BoardB.game w))).
Proof.
  intros Hrun. pose proof Hrun as Hrun0. revert Hrun.
  unfold BoardB.record_activity.
  destruct (BoardB.find_team _ _) as [[i team] |] eqn:Hfind; [| intros [= <- <-]; by left].
  destruct (negb (has_key _ _)) eqn:Hd; [intros [= <- <-]; by left |].
  destruct (negb (contains _ _)) eqn:Hc; [intros [= <- <-]; by left |].
  destruct (_ <? 1) eqn:Hn; [intros [= <- <-]; by left |].
  unfold mbind, exc_bind, bind.
  destruct (getitem DIFFICULTY_POINTS _) as [points |] eqn:Hp; [| done].
  destruct (getitem (BoardB.category_count _) _) as [n |] eqn:Hcount; [| done].
  destruct (BoardB.compute_bonus _) as [[bonus team1] |] eqn:Hb; [| done].
  intros _. right.
  apply B_compute_bonus_returns in Hb as [Hh1 Hh2]. cbn in Hh1, Hh2, Hcount.
  unfold getitem in Hp, Hcount.
  destruct (DIFFICULTY_POINTS !! difficulty) as [points' |] eqn:Hp'; [| done].
  injection Hp as ->.
  destruct (BoardB.category_count team !! category) as [n' |] eqn:Hcount'; [| done].
  assert (Hvalid : valid_activity (BoardB.category_count team) (BoardB.line_bonus_taken team)
                     difficulty category participant_count points).
  { split; [done |]. split.
    { apply negb_false_iff in Hc. by apply bool_decide_eq_true in Hc. }
    split; [lia |]. split; [| done].
    eapply has_categories_uninsert; [| exact Hh1]. by rewrite Hcount'. }
  destruct (B_record_activity_spec clock w team_id difficulty category participant_count
              title i team points Hfind Hvalid)
    as (bonus' & taken' & granted' & msg & Hspec & Hrun').
  rewrite Hrun' in Hrun0. injection Hrun0 as <- <-.
  exists i, team, points, bonus', taken', granted', msg. done.
Qed.

Lemma A_record_activity_inv clock team_id difficulty category participant_count title w res w' :
  BoardA.record_activity clock team_id difficulty category participant_count title w
    = Ok (res, w') →
  (res.1 = false ∧ w' = w)
  ∨ ∃ i team points bonus taken' granted' msg,
      BoardA.find_team (BoardA.game w) team_id = Some (i, team)
      ∧ valid_activity (BoardA.category_count team) (BoardA.line_bonus_taken team)
          difficulty category participant_count points
      ∧ bonus_spec (counted (BoardA.category_count team) category)
          (BoardA.set_bonus_taken team) (BoardA.line_bonus_taken team) bonus taken' granted'
      ∧ res = (true, "활동이 반영되었습니다.")
      ∧ w' = BoardA.save
               (BoardA.mkGame
                  (<[i := A_after_activity team category
                            (earned_points points participant_count) bonus taken' granted']>
                     (BoardA.teams (BoardA.game w)))
                  (take 120 (BoardA.mkLogEntry (isoformat (clock O)) msg
                               :: BoardA.logs (BoardA.game w)))).
Proof.
  intros Hrun. pose proof Hrun as Hrun0. revert Hrun.
  unfold BoardA.record_activity.
  destruct (BoardA.find_team _ _) as [[i team] |] eqn:Hfind; [| intros [= <- <-]; by left].
  destruct (negb (has_key _ _)) eqn:Hd; [intros [= <- <-]; by left |].
  destruct (negb (contains _ _)) eqn:Hc; [intros [= <- <-]; by left |].
  destruct (_ <? 1) eqn:Hn; [intros [= <- <-]; by left |].
  unfold mbind, exc_bind, bind.
  destruct (getitem DIFFICULTY_POINTS _) as [points |] eqn:Hp; [| done].
  destruct (getitem (BoardA.category_count _) _) as [n |] eqn:Hcount; [| done].
  destruct (BoardA.compute_bonus _) as [[bonus team1] |] eqn:Hb; [| done].
  intros _. right.
  apply A_compute_bonus_returns in Hb as [Hh1 Hh2]. cbn in Hh1, Hh2, Hcount.
  unfold getitem in Hp, Hcount.
  destruct (DIFFICULTY_POINTS !! difficulty) as [points' |] eqn:Hp'; [| done].
  injection Hp as ->.
  destruct (BoardA.category_count team !! category) as [n' |] eqn:Hcount'; [| done].
  assert (Hvalid : valid_activity (BoardA.category_count team) (BoardA.line_bonus_taken team)
                     difficulty category participant_count points).
  { split; [done |]. split.
    { apply negb_false_iff in Hc. by apply bool_decide_eq_true in Hc. }
    split; [lia |]. split; [| done].
    eapply has_categories_uninsert; [| exact Hh1]. by rewrite Hcount'. }
  destruct (A_record_activity_spec clock w team_id difficulty category participant_count
              title i team points Hfind Hvalid)
    as (bonus' & taken' & granted' & msg & Hspec & Hrun').
  rewrite Hrun' in Hrun0. injection Hrun0 as <- <-.
  exists i, team, points, bonus', taken', granted', msg. done.
Qed.

(** What [add_team] does: nothing, with a refusal, or it appends a new
    team under the stripped name. *)
Lemma B_add_team_inv millis rand clock name w :
  let r := BoardB.add_team millis rand clock name w in
  (r.1.1 = false ∧ r.2 = w)
  ∨ (strip name ≠ ""
     ∧ (∀ t, t ∈ BoardB.teams (BoardB.game w) → BoardB.name t ≠ strip name)
     ∧ r = ((true, "팀이 추가되었습니다: " +:+ strip name),
            BoardB.save
              (BoardB.mkGame
                 (BoardB.teams (BoardB.game w)
                  ++ [BoardB.new_team (BoardB._new_id millis rand) (strip name)])
                 (take 150 (BoardB.mkLogEntry (isoformat (clock O))
                              ("팀 등록: " +:+ strip name)
                            :: BoardB.logs (BoardB.game w)))
                 (BoardB.finish_order (BoardB.game w))))).
Proof.
  cbn zeta. unfold BoardB.add_team.
  destruct (truthy (strip name)) eqn:Ht; cbn [negb]; [| by left].
  destruct (existsb _ _) eqn:He; [by left |].
  right. split.
  { intros Hs. apply truthy_false in Hs. congruence. }
  split; [| done].
  intros t Hin Hname.
  assert (existsb (λ t, String.eqb (BoardB.name t) (strip name))
            (BoardB.teams (BoardB.game w)) = true); [| congruence].
  apply existsb_exists. exists t. split; [by apply list_elem_of_In |].
  by apply String.eqb_eq.
Qed.

Lemma A_add_team_inv millis rand clock name w :
  let r := BoardA.add_team millis rand clock name w in
  (r.1.1 = false ∧ r.2 = w)
  ∨ (strip name ≠ ""
     ∧ (∀ t, t ∈ BoardA.teams (BoardA.game w) → BoardA.name t ≠ strip name)
     ∧ r = ((true, "팀이 추가되었습니다: " +:+ strip name),
            BoardA.save
              (BoardA.mkGame
                 (BoardA.teams (BoardA.game w)
                  ++ [BoardA.new_team (BoardA._new_id millis rand) (strip name)])
                 (take 120 (BoardA.mkLogEntry (isoformat (clock O))
                              ("팀 등록: " +:+ strip name)
                            :: BoardA.logs (BoardA.game w)))))).
Proof.
  cbn zeta. unfold BoardA.add_team.
  destruct (truthy (strip name)) eqn:Ht; cbn [negb]; [| by left].
  destruct (existsb _ _) eqn:He; [by left |].
  right. split.
  { intros Hs. apply truthy_false in Hs. congruence. }
  split; [| done].
  intros t Hin Hname.
  assert (existsb (λ t, String.eqb (BoardA.name t) (strip name))
            (BoardA.teams (BoardA.game w)) = true); [| congruence].
  apply existsb_exists. exists t. split; [by apply list_elem_of_In |].
  by apply String.eqb_eq.
Qed.

(** Two lists of the same length whose elements agree on [f] have the
    same image under [f]. *)
Lemma fmap_pointwise {A B} (f : A → B) (l l' : list A) :
  length l' = length l →
  (∀ j x, l !! j = Some x → ∃ x', l' !! j = Some x' ∧ f x' = f x) →
  f <$> l' = f <$> l.
Proof.
  intros Hlen Hpt. apply list_eq. intros j. rewrite !list_lookup_fmap.
  destruct (l !! j) as [x |] eqn:Ej.
  - destruct (Hpt j x Ej) as (x' & -> & Hf). cbn. by rewrite Hf.
  - apply lookup_ge_None in Ej. rewrite <- Hlen in Ej.
    apply lookup_ge_None in Ej. by rewrite Ej.
Qed.

Lemma fmap_insert_same {A B} (f : A → B) (l : list A) i x x' :
  l !! i = Some x → f x' = f x → f <$> <[i := x']> l = f <$> l.
Proof.
  intros Hi Hf. rewrite list_fmap_insert, Hf. apply list_insert_id.
  by rewrite list_lookup_fmap, Hi.
Qed.

Lemma B_after_activity_name team category earned bonus taken' granted' :
  BoardB.name (B_after_activity team category earned bonus taken' granted') = BoardB.name team
  ∧ BoardB.id (B_after_activity team category earned bonus taken' granted') = BoardB.id team.
Proof.
  unfold B_after_activity.
  destruct (milestone_fields (B_scored team category earned bonus taken' granted'))
    as (-> & -> & _). done.
Qed.

(** The names and the ids of the teams after a call of variant B: those
    before it, and after them those of the team the call added, if any. *)
Lemma B_exec_names c w res w' :
  BoardB.exec c w = Ok (res, w') → c ≠ BoardB.Reset →
  (BoardB.name <$> BoardB.teams (BoardB.game w') = BoardB.name <$> BoardB.teams (BoardB.game w)
   ∧ BoardB.id <$> BoardB.teams (BoardB.game w') = BoardB.id <$> BoardB.teams (BoardB.game w))
  ∨ ∃ millis rand clock name,
      c = BoardB.AddTeam millis rand clock name
      ∧ strip name ≠ ""
      ∧ (strip name ∉ BoardB.name <$> BoardB.teams (BoardB.game w))
      ∧ BoardB.teams (BoardB.game w')
        = BoardB.teams (BoardB.game w)
          ++ [BoardB.new_team (BoardB._new_id millis rand) (strip name)].
Proof.
  intros Hexec Hc. destruct c; cbn in Hexec; [| | | done].
  - destruct (B_add_team_inv millis rand clock name w) as [[_ Hw] | (Hne & Hfresh & Hr)].
    + left. destruct (BoardB.add_team _ _ _ _ _) as [res0 w0]. cbn in Hw.
      injection Hexec as _ <-. by rewrite Hw.
    + right. rewrite Hr in Hexec. injection Hexec as _ <-.
      exists millis, rand, clock, name. split; [done |]. split; [done |]. split; [| done].
      intros (t & Hn & Hin)%list_elem_of_fmap. by apply (Hfresh t).
  - left.
    destruct (BoardB.record_activity _ _ _ _ _ _ _) as [[res0 w0] |] eqn:E; [| done].
    cbn in Hexec. injection Hexec as _ <-.
    apply B_record_activity_inv in E
      as [[_ ->] | (i & team & points & bonus & taken' & granted' & msg & Hfind & _ & _ & _ & ->)];
      [done |].
    cbn. apply find_team_Some in Hfind as [Hi _].
    destruct (B_after_activity_name team category
                (earned_points points participant_count) bonus taken' granted') as [Hn Hid].
    split; by eapply fmap_insert_same.
  - left. destruct (BoardB.throw_yut _ _ _ _) as [res0 w0] eqn:E.
    injection Hexec as _ <-.
    destruct (throw_yut_pointwise clock r team_id w) as (Hlen & Hpt & _).
    rewrite E in Hlen, Hpt. cbn in Hlen, Hpt.
    split; apply fmap_pointwise; try done.
    + intros j t Hj. destruct (Hpt j t Hj) as (t' & ? & _ & ? & _). eauto.
    + intros j t Hj. destruct (Hpt j t Hj) as (t' & ? & ? & _). eauto.
Qed.

Lemma A_exec_names c w res w' :
  BoardA.exec c w = Ok (res, w') → c ≠ BoardA.Reset →
  (BoardA.name <$> BoardA.teams (BoardA.game w') = BoardA.name <$> BoardA.teams (BoardA.game w)
   ∧ BoardA.id <$> BoardA.teams (BoardA.game w') = BoardA.id <$> BoardA.teams (BoardA.game w))
  ∨ ∃ millis rand clock name,
      c = BoardA.AddTeam millis rand clock name
      ∧ strip name ≠ ""
      ∧ (strip name ∉ BoardA.name <$> BoardA.teams (BoardA.game w))
      ∧ BoardA.teams (BoardA.game w')
        = BoardA.teams (BoardA.game w)
          ++ [BoardA.new_team (BoardA._new_id millis rand) (strip name)].
Proof.
  intros Hexec Hc. destruct c; cbn in Hexec; [| | done].
  - destruct (A_add_team_inv millis rand clock name w) as [[_ Hw] | (Hne & Hfresh & Hr)].
    + left. destruct (BoardA.add_team _ _ _ _ _) as [res0 w0]. cbn in Hw.
      injection Hexec as _ <-. by rewrite Hw.
    + right. rewrite Hr in Hexec. injection Hexec as _ <-.
      exists millis, rand, clock, name. split; [done |]. split; [done |]. split; [| done].
      intros (t & Hn & Hin)%list_elem_of_fmap. by apply (Hfresh t).
  - left.
    destruct (BoardA.record_activity _ _ _ _ _ _ _) as [[res0 w0] |] eqn:E; [| done].
    cbn in Hexec. injection Hexec as _ <-.
    apply A_record_activity_inv in E
      as [[_ ->] | (i & team & points & bonus & taken' & granted' & msg & Hfind & _ & _ & _ & ->)];
      [done |].
    cbn. apply list_find_Some in Hfind as (Hi & _).
    split; by eapply fmap_insert_same.
Qed.

Lemma names_ok_snoc names n :
  names_ok names → n ≠ "" → strip n = n → n ∉ names → names_ok (names ++ [n]).
Proof.
  intros [Hnd Hall] Hne Hs Hfresh. split.
  - apply NoDup_app. split; [done |]. split; [| apply NoDup_singleton].
    intros x Hx ->%list_elem_of_singleton. done.
  - apply Forall_app. split; [done |]. by repeat constructor.
Qed.

Lemma B_names_ok_reachable w :
  BoardB.reachable w → names_ok (BoardB.name <$> BoardB.teams (BoardB.game w)).
Proof.
  intros [f Hrtc]. revert w Hrtc.
  apply (rtc_ind_r (λ w, names_ok (BoardB.name <$> BoardB.teams (BoardB.game w)))).
  { split; constructor. }
  intros w1 w2 _ (c & res & Hexec) IH.
  assert (c = BoardB.Reset ∨ c ≠ BoardB.Reset) as [-> | Hc]
    by (destruct c; (by left) || (by right)).
  { cbn in Hexec. injection Hexec as _ <-. split; constructor. }
  destruct (B_exec_names c w1 res w2 Hexec Hc)
    as [[-> _] | (millis & rand & clock & name & _ & Hne & Hfresh & ->)]; [done |].
  rewrite fmap_app. apply names_ok_snoc; [done | done | apply strip_idemp | done].
Qed.

Lemma A_names_ok_reachable w :
  BoardA.reachable w → names_ok (BoardA.name <$> BoardA.teams (BoardA.game w)).
Proof.
  intros [f Hrtc]. revert w Hrtc.
  apply (rtc_ind_r (λ w, names_ok (BoardA.name <$> BoardA.teams (BoardA.game w)))).
  { split; constructor. }
  intros w1 w2 _ (c & res & Hexec) IH.
  assert (c = BoardA.Reset ∨ c ≠ BoardA.Reset) as [-> | Hc]
    by (destruct c; (by left) || (by right)).
  { cbn in Hexec. injection Hexec as _ <-. split; constructor. }
  destruct (A_exec_names c w1 res w2 Hexec Hc)
    as [[-> _] | (millis & rand & clock & name & _ & Hne & Hfresh & ->)]; [done |].
  rewrite fmap_app. apply names_ok_snoc; [done | done | apply strip_idemp | done].
Qed.

(** ** The books of a team *)

Lemma count_of_counted counts category c :
  count_of (counted counts category) c
  = if decide (c = category) then count_of counts c + 1 else count_of counts c.
Proof.
  unfold counted, count_of. destruct (decide (c = category)) as [-> | Hne].
  - by rewrite lookup_insert_eq.
  - by rewrite lookup_insert_ne.
Qed.

Lemma books_ok_zero : books_ok 0 zero_counts 0 zero_counts.
Proof.
  split; [| split; [| done]].
  - intros c Hc. exists 0.
    repeat (apply elem_of_cons in Hc as [-> | Hc]; [by vm_compute |]).
    by apply elem_of_nil in Hc.
  - intros c Hc. unfold zero_counts, CATEGORIES in *. cbn.
    repeat (rewrite lookup_insert_ne by (intros <-; apply Hc; repeat constructor)).
    done.
Qed.

Lemma books_ok_count missions counts taken granted c :
  books_ok missions counts taken granted → c ∈ CATEGORIES →
  0 ≤ count_of counts c ∧ count_of granted c = count_of counts c `div` 3.
Proof.
  intros (Hin & _) Hc. destruct (Hin c Hc) as (n & Hn & H0 & Hg).
  unfold count_of. by rewrite Hn, Hg.
Qed.

(** One more activity: the books stay in order, and the bonus is what
    the latch and the tiers went up by. *)
Lemma books_ok_step missions counts taken granted category bonus taken' granted' :
  books_ok missions counts taken granted →
  category ∈ CATEGORIES →
  bonus_spec (counted counts category) taken granted bonus taken' granted' →
  books_ok (missions + 1) (counted counts category) taken' granted'
  ∧ bonus = 40 * (taken' - taken)
            + 25 * (tiers_total (counted counts category) - tiers_total counts).
Proof.
  intros Hok Hcat (Hbonus & Htaken & Hgin & Hgout).
  pose proof Hok as (Hin & Hout & Hm & Ht).
  assert (Hcnt : ∀ c, c ∈ CATEGORIES →
            0 ≤ count_of counts c ∧ count_of granted c = count_of counts c `div` 3).
  { intros c Hc. by eapply books_ok_count. }
  assert (Hlg : ∀ c, c ∈ CATEGORIES →
            line_granted (counted counts category) granted c
            = count_of (counted counts category) c `div` 3
            ∧ line_gain (counted counts category) granted c
              = (count_of (counted counts category) c `div` 3 - count_of counts c `div` 3) * 25).
  { intros c Hc. destruct (Hcnt c Hc) as [H0 Hg].
    unfold line_granted, line_gain, tier. rewrite Hg, count_of_counted.
    destruct (decide (c = category)); destruct (_ <? _) eqn:E; split; try done;
      try (apply Z.ltb_ge in E); try (apply Z.ltb_lt in E);
      Z.div_mod_to_equations; lia. }
  assert (Htalk : "talk" ∈ CATEGORIES) by repeat constructor.
  assert (Hteamplay : "teamplay" ∈ CATEGORIES) by repeat constructor.
  assert (Hhelp : "help" ∈ CATEGORIES) by repeat constructor.
  assert (Hchallenge : "challenge" ∈ CATEGORIES) by repeat constructor.
  assert (Hdone : all_done (counted counts category) = false → all_done counts = false).
  { unfold all_done, CATEGORIES. cbn [forallb]. rewrite !count_of_counted.
    destruct (Hcnt _ Htalk) as [? _]. destruct (Hcnt _ Hteamplay) as [? _].
    destruct (Hcnt _ Hhelp) as [? _]. destruct (Hcnt _ Hchallenge) as [? _].
    rewrite !andb_true_r, !andb_false_iff, !Z.ltb_ge.
    repeat case_decide; lia. }
  assert (Htaken' : taken' = (if all_done (counted counts category) then 1 else 0)
                    ∧ set_gain (counted counts category) taken = 40 * (taken' - taken)).
  { rewrite Htaken. unfold set_gain, set_due. fold (all_done (counted counts category)).
    destruct (all_done (counted counts category)) eqn:E.
    - rewrite Ht. destruct (all_done counts); cbn; split; lia.
    - rewrite Ht, (Hdone eq_refl). cbn. split; lia. }
  destruct Htaken' as [Htaken' Hset].
  split; [split; [| split; [| split]] |].
  - intros c Hc. destruct (Hin c Hc) as (n & Hn & H0 & Hg).
    destruct (Hlg c Hc) as [Hl _]. rewrite (Hgin c Hc), Hl.
    pose proof (count_of_counted counts category c) as Hcc.
    unfold count_of in Hcc at 2 3. rewrite Hn in Hcc.
    exists (count_of (counted counts category) c). split; [| split; [| done]].
    + unfold counted, count_of. destruct (decide (c = category)) as [-> | Hne].
      * by rewrite lookup_insert_eq.
      * rewrite lookup_insert_ne by done. by rewrite Hn.
    + destruct (decide (c = category)); lia.
  - intros c Hc. destruct (Hout c Hc) as [H1 H2]. split.
    + unfold counted. rewrite lookup_insert_ne by (intros <-; done). done.
    + by rewrite (Hgout c Hc).
  - rewrite Hm. unfold counts_total, CATEGORIES in *. cbn [foldr].
    rewrite !count_of_counted.
    repeat (apply elem_of_cons in Hcat as [-> | Hcat]; [repeat case_decide; try done; lia |]).
    by apply elem_of_nil in Hcat.
  - done.
  - rewrite Hbonus, Hset. f_equal.
    unfold tiers_total, tier, CATEGORIES. cbn [foldr line_gains].
    destruct (Hlg _ Htalk) as [_ ->]. destruct (Hlg _ Hteamplay) as [_ ->].
    destruct (Hlg _ Hhelp) as [_ ->]. destruct (Hlg _ Hchallenge) as [_ ->].
    lia.
Qed.

Lemma earned_points_floor d points participant_count :
  DIFFICULTY_POINTS !! d = Some points → 20 ≤ earned_points points participant_count.
Proof.
  intros H%difficulty_points_range. unfold earned_points. lia.
Qed.

Lemma A_team_books_new team_id name : A_team_books (BoardA.new_team team_id name).
Proof. split; [apply books_ok_zero | by vm_compute]. Qed.

Lemma B_team_books_new team_id name : B_team_books (BoardB.new_team team_id name).
Proof. split; [apply books_ok_zero | split; [by vm_compute | done]]. Qed.

Lemma A_team_books_after team difficulty category participant_count points
    bonus taken' granted' :
  A_team_books team →
  valid_activity (BoardA.category_count team) (BoardA.line_bonus_taken team)
    difficulty category participant_count points →
  bonus_spec (counted (BoardA.category_count team) category)
    (BoardA.set_bonus_taken team) (BoardA.line_bonus_taken team) bonus taken' granted' →
  A_team_books (A_after_activity team category (earned_points points participant_count)
                  bonus taken' granted').
Proof.
  intros [Hbooks Hcredit] (Hpoints & Hcat & _) Hspec.
  destruct (books_ok_step _ _ _ _ _ _ _ _ Hbooks Hcat Hspec) as [Hbooks' Hbonus].
  split; [exact Hbooks' |]. cbn.
  pose proof (earned_points_floor _ _ participant_count Hpoints).
  unfold credit in *. lia.
Qed.

Lemma B_team_books_after team difficulty category participant_count points
    bonus taken' granted' :
  B_team_books team →
  valid_activity (BoardB.category_count team) (BoardB.line_bonus_taken team)
    difficulty category participant_count points →
  bonus_spec (counted (BoardB.category_count team) category)
    (BoardB.set_bonus_taken team) (BoardB.line_bonus_taken team) bonus taken' granted' →
  B_team_books (B_after_activity team category (earned_points points participant_count)
                  bonus taken' granted').
Proof.
  intros (Hbooks & Hcredit & Hchance) (Hpoints & Hcat & _) Hspec.
  destruct (books_ok_step _ _ _ _ _ _ _ _ Hbooks Hcat Hspec) as [Hbooks' Hbonus].
  unfold B_after_activity, B_team_books.
  set (scored := B_scored team category (earned_points points participant_count)
                   bonus taken' granted').
  destruct (milestone_fields scored) as (_ & _ & -> & -> & _ & _ & -> & -> & ->).
  destruct (milestone_throws scored) as (_ & -> & _).
  split; [exact Hbooks' |]. cbn.
  pose proof (earned_points_floor _ _ participant_count Hpoints).
  unfold credit in *. split; lia.
Qed.

Lemma B_team_books_thrown t t' : thrown t t' → B_team_books t → B_team_books t'.
Proof.
  intros (_ & _ & Hs & Hm & Hc & Ht & Hl & Hch & _ & _) (Hbooks & Hcredit & Hchance).
  unfold B_team_books. rewrite Hm, Hc, Ht, Hl. split; [done |]. split; [lia | auto].
Qed.

Lemma A_books_reachable w :
  BoardA.reachable w → Forall A_team_books (BoardA.teams (BoardA.game w)).
Proof.
  intros [f Hrtc]. revert w Hrtc.
  apply (rtc_ind_r (λ w, Forall A_team_books (BoardA.teams (BoardA.game w)))).
  { constructor. }
  intros w1 w2 _ (c & res & Hexec) IH. destruct c; cbn in Hexec.
  - destruct (A_add_team_inv millis rand clock name w1) as [[_ Hw] | (_ & _ & Hr)].
    + destruct (BoardA.add_team _ _ _ _ _) as [res0 w0]. cbn in Hw.
      injection Hexec as _ <-. by rewrite Hw.
    + rewrite Hr in Hexec. injection Hexec as _ <-. cbn.
      apply Forall_app. split; [done |]. constructor; [| constructor].
      apply A_team_books_new.
  - destruct (BoardA.record_activity _ _ _ _ _ _ _) as [[res0 w0] |] eqn:E; [| done].
    cbn in Hexec. injection Hexec as _ <-.
    apply A_record_activity_inv in E
      as [[_ ->] | (i & team & points & bonus & taken' & granted' & msg
                    & Hfind & Hvalid & Hspec & _ & ->)]; [done |].
    cbn. apply list_find_Some in Hfind as (Hi & _).
    apply Forall_insert; [done |].
    eapply A_team_books_after; [| done | done].
    by eapply (proj1 (Forall_lookup _ _) IH).
  - injection Hexec as _ <-. constructor.
Qed.

Lemma B_books_reachable w :
  BoardB.reachable w → Forall B_team_books (BoardB.teams (BoardB.game w)).
Proof.
  intros [f Hrtc]. revert w Hrtc.
  apply (rtc_ind_r (λ w, Forall B_team_books (BoardB.teams (BoardB.game w)))).
  { constructor. }
  intros w1 w2 _ (c & res & Hexec) IH. destruct c; cbn in Hexec.
  - destruct (B_add_team_inv millis rand clock name w1) as [[_ Hw] | (_ & _ & Hr)].
    + destruct (BoardB.add_team _ _ _ _ _) as [res0 w0]. cbn in Hw.
      injection Hexec as _ <-. by rewrite Hw.
    + rewrite Hr in Hexec. injection Hexec as _ <-. cbn.
      apply Forall_app. split; [done |]. constructor; [| constructor].
      apply B_team_books_new.
  - destruct (BoardB.record_activity _ _ _ _ _ _ _) as [[res0 w0] |] eqn:E; [| done].
    cbn in Hexec. injection Hexec as _ <-.
    apply B_record_activity_inv in E
      as [[_ ->] | (i & team & points & bonus & taken' & granted' & msg
                    & Hfind & Hvalid & Hspec & _ & ->)]; [done |].
    cbn. apply find_team_Some in Hfind as [Hi _].
    apply Forall_insert; [done |].
    eapply B_team_books_after; [| done | done].
    by eapply (proj1 (Forall_lookup _ _) IH).
  - destruct (BoardB.throw_yut _ _ _ _) as [res0 w0] eqn:E.
    injection Hexec as _ <-.
    destruct (throw_yut_pointwise clock r team_id w1) as (Hlen & Hpt & _).
    rewrite E in Hlen, Hpt. cbn in Hlen, Hpt.
    apply Forall_lookup. intros j t' Hj.
    pose proof (lookup_lt_Some _ _ _ Hj) as Hlt. rewrite Hlen in Hlt.
    apply lookup_lt_is_Some in Hlt as [t Ht].
    destruct (Hpt j t Ht) as (t'' & Hj' & Hthrown).
    assert (t'' = t') as -> by congruence.
    eapply B_team_books_thrown; [done |].
    by eapply (proj1 (Forall_lookup _ _) IH).
  - injection Hexec as _ <-. constructor.
Qed.

(** ** Calls that return *)

Lemma B_record_activity_returns clock team_id difficulty category participant_count title w :
  (∀ team, team ∈ BoardB.teams (BoardB.game w) →
     has_categories (BoardB.category_count team)
     ∧ has_categories (BoardB.line_bonus_taken team)) →
  ∃ res w',
    BoardB.record_activity clock team_id difficulty category participant_count title w
    = Ok (res, w').
Proof.
  intros Hhas.
  destruct (BoardB.find_team (BoardB.game w) team_id) as [[i team] |] eqn:Hfind.
  2: { destruct (record_activity_refuses clock team_id difficulty category
                   participant_count title w) as (reason & Hr & _); [by left | eauto]. }
  destruct (DIFFICULTY_POINTS !! difficulty) as [points |] eqn:Hpoints.
  2: { destruct (record_activity_refuses clock team_id difficulty category
                   participant_count title w) as (reason & Hr & _); [right; by left | eauto]. }
  destruct (decide (category ∈ CATEGORIES)) as [Hcat | Hcat].
  2: { destruct (record_activity_refuses clock team_id difficulty category
                   participant_count title w) as (reason & Hr & _);
         [right; right; by left | eauto]. }
  destruct (decide (participant_count < 1)) as [Hn | Hn].
  { destruct (record_activity_refuses clock team_id difficulty category
                participant_count title w) as (reason & Hr & _); [by repeat right | eauto]. }
  apply find_team_Some in Hfind as Hi. destruct Hi as [Hi _].
  destruct (Hhas team) as [H1 H2]; [by eapply list_elem_of_lookup_2 |].
  destruct (B_record_activity_spec clock w team_id difficulty category participant_count
              title i team points Hfind)
    as (bonus & taken' & granted' & msg & _ & Hrun); [| eauto].
  repeat split; try done. lia.
Qed.

Lemma A_record_activity_returns clock team_id difficulty category participant_count title w :
  Forall A_counts_ok (BoardA.teams (BoardA.game w)) →
  ∃ res w',
    BoardA.record_activity clock team_id difficulty category participant_count title w
    = Ok (res, w').
Proof.
  intros Hhas.
  destruct (BoardA.find_team (BoardA.game w) team_id) as [[i team] |] eqn:Hfind.
  2: { unfold BoardA.record_activity. rewrite Hfind. eauto. }
  destruct (DIFFICULTY_POINTS !! difficulty) as [points |] eqn:Hpoints.
  2: { unfold BoardA.record_activity. rewrite Hfind.
       assert (has_key DIFFICULTY_POINTS difficulty = false) as ->; [| cbn; eauto].
       apply bool_decide_eq_false. rewrite Hpoints. by intros [? ?]. }
  destruct (decide (category ∈ CATEGORIES)) as [Hcat | Hcat].
  2: { unfold BoardA.record_activity. rewrite Hfind.
       destruct (negb (has_key _ _)); [eauto |].
       assert (contains CATEGORIES category = false) as ->; [| cbn; eauto].
       by apply bool_decide_eq_false. }
  destruct (decide (participant_count < 1)) as [Hn | Hn].
  { unfold BoardA.record_activity. rewrite Hfind.
    destruct (negb (has_key _ _)); [eauto |]. destruct (negb (contains _ _)); [eauto |].
    assert ((participant_count <? 1) = true) as -> by (by apply Z.ltb_lt). eauto. }
  pose proof Hfind as Hi. apply list_find_Some in Hi as (Hi & _).
  destruct (proj1 (Forall_lookup _ _) Hhas i team Hi) as [H1 H2].
  destruct (A_record_activity_spec clock w team_id difficulty category participant_count
              title i team points Hfind)
    as (bonus & taken' & granted' & msg & _ & Hrun); [| eauto].
  repeat split; try done. lia.
Qed.

Lemma B_exec_returns c w : BoardB.reachable w → ∃ res w', BoardB.exec c w = Ok (res, w').
Proof.
  intros Hreach. destruct c; cbn.
  - destruct (BoardB.add_team _ _ _ _ _); eauto.
  - destruct (B_record_activity_returns clock team_id difficulty category participant_count
                title w) as (res & w' & ->); [| cbn; eauto].
    intros team. by apply B_reachable_counts_ok.
  - destruct (BoardB.throw_yut _ _ _ _); eauto.
  - eauto.
Qed.

Lemma A_exec_returns c w : BoardA.reachable w → ∃ res w', BoardA.exec c w = Ok (res, w').
Proof.
  intros Hreach. destruct c; cbn.
  - destruct (BoardA.add_team _ _ _ _ _); eauto.
  - destruct (A_record_activity_returns clock team_id difficulty category participant_count
                title w) as (res & w' & ->); [| cbn; eauto].
    by apply A_reachable_counts_ok.
  - eauto.
Qed.

(** ** What a run without [reset] keeps *)

Lemma A_team_grows_refl t : A_team_grows t t.
Proof. unfold A_team_grows. repeat split; try done; try lia. Qed.

Lemma A_team_grows_trans a b c : A_team_grows a b → A_team_grows b c → A_team_grows a c.
Proof.
  intros (? & ? & ? & ? & Hab) (? & ? & ? & ? & Hbc).
  repeat split; try congruence; try lia.
  intros x. specialize (Hab x). specialize (Hbc x). lia.
Qed.

Lemma B_team_grows_refl t : B_team_grows t t.
Proof. unfold B_team_grows. repeat split; try done; try lia. Qed.

Lemma B_team_grows_trans a b c : B_team_grows a b → B_team_grows b c → B_team_grows a c.
Proof.
  intros (? & ? & ? & ? & Hab & ? & Fab) (? & ? & ? & ? & Hbc & ? & Fbc).
  repeat split; try congruence; try lia.
  - intros x. specialize (Hab x). specialize (Hbc x). lia.
  - intros Ha. rewrite <- (Fab Ha). apply Fbc. by rewrite (Fab Ha).
Qed.

Lemma A_grows_refl g : A_grows g g.
Proof. intros j t Hj. exists t. split; [done | apply A_team_grows_refl]. Qed.

Lemma A_grows_trans g1 g2 g3 : A_grows g1 g2 → A_grows g2 g3 → A_grows g1 g3.
Proof.
  intros H12 H23 j t Hj.
  destruct (H12 j t Hj) as (t2 & Hj2 & Ht2). destruct (H23 j t2 Hj2) as (t3 & Hj3 & Ht3).
  exists t3. split; [done | by eapply A_team_grows_trans].
Qed.

Lemma B_grows_refl g : B_grows g g.
Proof.
  split; [done |]. intros j t Hj. exists t. split; [done | apply B_team_grows_refl].
Qed.

Lemma B_grows_trans g1 g2 g3 : B_grows g1 g2 → B_grows g2 g3 → B_grows g1 g3.
Proof.
  intros [P12 H12] [P23 H23]. split; [by etrans |]. intros j t Hj.
  destruct (H12 j t Hj) as (t2 & Hj2 & Ht2). destruct (H23 j t2 Hj2) as (t3 & Hj3 & Ht3).
  exists t3. split; [done | by eapply B_team_grows_trans].
Qed.

Lemma thrown_grows t t' : thrown t t' → B_team_grows t t'.
Proof.
  intros (? & ? & ? & Hm & Hc & _ & _ & _ & ? & ?).
  unfold B_team_grows. rewrite Hm, Hc. repeat split; try done; lia.
Qed.

Lemma A_after_activity_grows team difficulty category participant_count points
    bonus taken' granted' :
  valid_activity (BoardA.category_count team) (BoardA.line_bonus_taken team)
    difficulty category participant_count points →
  bonus_spec (counted (BoardA.category_count team) category)
    (BoardA.set_bonus_taken team) (BoardA.line_bonus_taken team) bonus taken' granted' →
  A_team_grows team
    (A_after_activity team category (earned_points points participant_count)
       bonus taken' granted').
Proof.
  intros (Hpoints & _) Hspec.
  pose proof (bonus_spec_nonneg _ _ _ _ _ _ Hspec).
  pose proof (earned_points_floor _ _ participant_count Hpoints).
  unfold A_team_grows. cbn. repeat split; try lia.
  intros c. rewrite count_of_counted. case_decide; lia.
Qed.

Lemma B_after_activity_grows team difficulty category participant_count points
    bonus taken' granted' :
  valid_activity (BoardB.category_count team) (BoardB.line_bonus_taken team)
    difficulty category participant_count points →
  bonus_spec (counted (BoardB.category_count team) category)
    (BoardB.set_bonus_taken team) (BoardB.line_bonus_taken team) bonus taken' granted' →
  B_team_grows team
    (B_after_activity team category (earned_points points participant_count)
       bonus taken' granted').
Proof.
  intros (Hpoints & _) Hspec.
  pose proof (bonus_spec_nonneg _ _ _ _ _ _ Hspec).
  pose proof (earned_points_floor _ _ participant_count Hpoints).
  unfold B_after_activity, B_team_grows.
  set (scored := B_scored team category (earned_points points participant_count)
                   bonus taken' granted').
  destruct (milestone_fields scored) as (-> & -> & -> & -> & _ & -> & -> & _).
  destruct (milestone_throws scored) as (_ & _ & ->).
  cbn. repeat split; try lia.
  intros c. rewrite count_of_counted. case_decide; lia.
Qed.

Lemma grows_insert {A} (R : A → A → Prop) (l : list A) i x x' :
  (∀ y, R y y) → l !! i = Some x → R x x' →
  ∀ j y, l !! j = Some y → ∃ y', <[i := x']> l !! j = Some y' ∧ R y y'.
Proof.
  intros Hrefl Hi Hx j y Hj. destruct (decide (i = j)) as [<- | Hne].
  - exists x'. rewrite list_lookup_insert_eq by (by eapply lookup_lt_Some).
    assert (y = x) as -> by congruence. done.
  - exists y. by rewrite list_lookup_insert_ne.
Qed.

Lemma grows_app {A} (R : A → A → Prop) (l extra : list A) :
  (∀ y, R y y) →
  ∀ j y, l !! j = Some y → ∃ y', (l ++ extra) !! j = Some y' ∧ R y y'.
Proof.
  intros Hrefl j y Hj. exists y. split; [| done].
  rewrite lookup_app_l; [done | by eapply lookup_lt_Some].
Qed.

Lemma A_grows_step w w' : A_transition_keeping w w' → A_grows (BoardA.game w) (BoardA.game w').
Proof.
  intros (c & res & Hc & Hexec). destruct c; cbn in Hexec; [| | done].
  - destruct (A_add_team_inv millis rand clock name w) as [[_ Hw] | (_ & _ & Hr)].
    + destruct (BoardA.add_team _ _ _ _ _) as [res0 w0]. cbn in Hw.
      injection Hexec as _ <-. rewrite Hw. apply A_grows_refl.
    + rewrite Hr in Hexec. injection Hexec as _ <-.
      unfold A_grows. cbn. apply (grows_app A_team_grows), A_team_grows_refl.
  - destruct (BoardA.record_activity _ _ _ _ _ _ _) as [[res0 w0] |] eqn:E; [| done].
    cbn in Hexec. injection Hexec as _ <-.
    apply A_record_activity_inv in E
      as [[_ ->] | (i & team & points & bonus & taken' & granted' & msg
                    & Hfind & Hvalid & Hspec & _ & ->)]; [apply A_grows_refl |].
    apply list_find_Some in Hfind as (Hi & _).
    unfold A_grows. cbn.
    apply (grows_insert A_team_grows _ _ team); [apply A_team_grows_refl | done |].
    by eapply A_after_activity_grows.
Qed.

Lemma B_grows_step w w' : transition_keeping w w' → B_grows (BoardB.game w) (BoardB.game w').
Proof.
  intros (c & res & Hc & Hexec). destruct c; cbn in Hexec; [| | | done].
  - destruct (B_add_team_inv millis rand clock name w) as [[_ Hw] | (_ & _ & Hr)].
    + destruct (BoardB.add_team _ _ _ _ _) as [res0 w0]. cbn in Hw.
      injection Hexec as _ <-. rewrite Hw. apply B_grows_refl.
    + rewrite Hr in Hexec. injection Hexec as _ <-.
      split; [done |]. cbn. apply (grows_app B_team_grows), B_team_grows_refl.
  - destruct (BoardB.record_activity _ _ _ _ _ _ _) as [[res0 w0] |] eqn:E; [| done].
    cbn in Hexec. injection Hexec as _ <-.
    apply B_record_activity_inv in E
      as [[_ ->] | (i & team & points & bonus & taken' & granted' & msg
                    & Hfind & Hvalid & Hspec & _ & ->)]; [apply B_grows_refl |].
    apply find_team_Some in Hfind as [Hi _].
    split; [done |]. cbn.
    apply (grows_insert B_team_grows _ _ team); [apply B_team_grows_refl | done |].
    by eapply B_after_activity_grows.
  - destruct (BoardB.throw_yut _ _ _ _) as [res0 w0] eqn:E.
    injection Hexec as _ <-.
    destruct (throw_yut_pointwise clock r team_id w) as (_ & Hpt & Hfo).
    rewrite E in Hpt, Hfo. cbn in Hpt, Hfo.
    split; [done |]. intros j t Hj. destruct (Hpt j t Hj) as (t' & Hj' & Hthrown).
    exists t'. split; [done | by apply thrown_grows].
Qed.

Lemma A_grows_rtc w w' :
  rtc A_transition_keeping w w' → A_grows (BoardA.game w) (BoardA.game w').
Proof.
  induction 1 as [| w1 w2 w3 Hstep _ IH]; [apply A_grows_refl |].
  eapply A_grows_trans; [by apply A_grows_step | done].
Qed.

Lemma B_grows_rtc w w' :
  rtc transition_keeping w w' → B_grows (BoardB.game w) (BoardB.game w').
Proof.
  induction 1 as [| w1 w2 w3 Hstep _ IH]; [apply B_grows_refl |].
  eapply B_grows_trans; [by apply B_grows_step | done].
Qed.

(** ** The log *)

Lemma take_app_take {A} n (a l : list A) : take n (a ++ take n l) = take n (a ++ l).
Proof.
  rewrite !take_app, take_take. f_equal. f_equal. lia.
Qed.

Lemma logged_refl {L} cap (l : list L) : logged cap l l.
Proof. by left. Qed.

Lemma logged_trans {L} cap (l1 l2 l3 : list L) :
  logged cap l1 l2 → logged cap l2 l3 → logged cap l1 l3.
Proof.
  intros [-> | [a ->]] [-> | [b ->]]; [by left | right; by exists b | right; by exists a |].
  right. exists (b ++ a). by rewrite take_app_take, app_assoc.
Qed.

Lemma logged_cons {L} cap (e : L) (l l' : list L) :
  logged cap l l' → ∃ older, take cap (e :: l') = take cap (e :: older ++ l).
Proof.
  intros [-> | [a ->]]; [by exists [] |].
  exists a. apply (take_app_take cap [e]).
Qed.

Lemma B_add_log_spec clock msg g n :
  BoardB.add_log clock msg (g, n)
  = (BoardB.mkGame (BoardB.teams g)
       (take 150 (BoardB.mkLogEntry (isoformat (clock n)) msg :: BoardB.logs g))
       (BoardB.finish_order g), S n).
Proof. reflexivity. Qed.

Lemma B_add_log_logged clock msg r :
  logged 150 (BoardB.logs r.1) (BoardB.logs (BoardB.add_log clock msg r).1).
Proof.
  destruct r as [g n]. rewrite B_add_log_spec. right.
  by exists [BoardB.mkLogEntry (isoformat (clock n)) msg].
Qed.

Lemma ensure_finish_logged clock i r :
  logged 150 (BoardB.logs r.1) (BoardB.logs (BoardB.ensure_finish clock i r).1).
Proof.
  destruct r as [g n]. unfold BoardB.ensure_finish.
  destruct (BoardB.teams g !! i) as [team |]; [| apply logged_refl].
  destruct (_ && _); [| apply logged_refl].
  destruct (BoardB.apply_score_throw_milestone _) as [throws team'].
  match goal with
  | |- logged _ _ (BoardB.logs (BoardB.add_log ?c ?m ?r).1) =>
      apply (B_add_log_logged c m r)
  end.
Qed.

Lemma send_back_logged clock actor r j :
  logged 150 (BoardB.logs r.1) (BoardB.logs (BoardB.send_back clock actor r j).1).
Proof.
  destruct r as [g n]. unfold BoardB.send_back.
  destruct (BoardB.teams g !! j) as [enemy |]; [| apply logged_refl].
  match goal with
  | |- logged _ _ (BoardB.logs (BoardB.add_log ?c ?m ?r).1) =>
      apply (B_add_log_logged c m r)
  end.
Qed.

Lemma send_back_loop_logged clock actor js : ∀ r,
  logged 150 (BoardB.logs r.1) (BoardB.logs (foldl (BoardB.send_back clock actor) r js).1).
Proof.
  induction js as [| j js IH]; intros r; [apply logged_refl |].
  cbn [foldl]. eapply logged_trans; [apply send_back_logged | apply IH].
Qed.

Lemma capture_opponents_logged clock i r :
  logged 150 (BoardB.logs r.1) (BoardB.logs (BoardB.capture_opponents clock i r).1).
Proof.
  destruct r as [g n]. unfold BoardB.capture_opponents.
  destruct (BoardB.teams g !! i) as [actor |]; [| apply logged_refl].
  destruct (_ || _); [apply logged_refl |].
  case_bool_decide; [apply logged_refl |].
  pose proof (send_back_loop_logged clock actor
                (BoardB.captured_from actor 0 (BoardB.teams g)) (g, n)) as Hloop.
  destruct (foldl _ _ _) as [g1 n1]. cbn [fst] in Hloop.
  destruct (BoardB.teams g1 !! i) as [actor1 |]; [| done].
  destruct (BoardB.apply_score_throw_milestone _) as [throws actor2].
  eapply logged_trans; [exact Hloop |].
  match goal with
  | |- logged _ _ (BoardB.logs (BoardB.add_log ?c ?m ?r).1) =>
      apply (B_add_log_logged c m r)
  end.
Qed.

Lemma extra_throw_logs (b : bool) i (f : BoardB.Team → BoardB.Team) (run : BoardB.Run) :
  BoardB.logs
    (if b then
       match BoardB.teams run.1 !! i with
       | Some team => (BoardB.set_teams run.1 (<[i := f team]> (BoardB.teams run.1)), run.2)
       | None => run
       end
     else run).1
  = BoardB.logs run.1.
Proof. destruct b; [| reflexivity]. destruct (_ !! i); reflexivity. Qed.

(** A throw that is accepted ends with the entry of its message. *)
Lemma throw_yut_logs clock r team_id w ok msg w' :
  BoardB.throw_yut clock r team_id w = ((ok, msg), w') →
  (ok = false ∧ w' = w)
  ∨ (ok = true
     ∧ w' = BoardB.save (BoardB.game w')
     ∧ ∃ at_ older,
         BoardB.logs (BoardB.game w')
         = take 150 (BoardB.mkLogEntry at_ msg :: older ++ BoardB.logs (BoardB.game w))).
Proof.
  unfold BoardB.throw_yut.
  destruct (BoardB.find_team _ _) as [[i team] |]; [| intros [= <- <- <-]; by left].
  destruct (truthy_opt _); [intros [= <- <- <-]; by left |].
  destruct (_ <=? 0); [intros [= <- <- <-]; by left |].
  set (yut := BoardB.draw_yut r).
  set (run0 := (BoardB.set_teams (BoardB.game w) _, O)).
  set (run1 := BoardB.ensure_finish clock i run0).
  set (run2 := match BoardB.teams run1.1 !! i with
               | Some team0 =>
                   if negb (truthy_opt (BoardB.finished_at team0))
                   then BoardB.capture_opponents clock i run1 else run1
               | None => run1
               end).
  match goal with
  | |- context [BoardB.add_log clock ?m0 ?r3] => set (m := m0); set (run3 := r3)
  end.
  assert (H01 : logged 150 (BoardB.logs (BoardB.game w)) (BoardB.logs run1.1)).
  { apply (ensure_finish_logged clock i run0). }
  assert (H12 : logged 150 (BoardB.logs run1.1) (BoardB.logs run2.1)).
  { unfold run2. destruct (BoardB.teams run1.1 !! i) as [team0 |]; [| apply logged_refl].
    destruct (negb _); [apply capture_opponents_logged | apply logged_refl]. }
  assert (H23 : BoardB.logs run3.1 = BoardB.logs run2.1).
  { apply (extra_throw_logs _ i
             (λ team0, BoardB.set_throw_chance team0
                         (BoardB.throw_chance team0 + BoardB.extra_throw yut))). }
  pose proof (logged_trans _ _ _ _ H01 H12) as H02. rewrite <- H23 in H02.
  destruct run3 as [g3 n3]. rewrite B_add_log_spec.
  intros [= <- <- <-]. right. split; [done |]. split; [done |].
  destruct (logged_cons 150 (BoardB.mkLogEntry (isoformat (clock n3)) m) _ _ H02)
    as (older & Hold).
  exists (isoformat (clock n3)), older. exact Hold.
Qed.

(** ** The draw *)

Lemma Qle_bool_false x y : Qle_bool x y = false ↔ (y < x)%Q.
Proof.
  split.
  - intros H. apply Qnot_le_lt. intros Hle. apply Qle_bool_iff in Hle. congruence.
  - intros H. destruct (Qle_bool x y) eqn:E; [| done].
    apply Qle_bool_iff in E. by apply Qlt_not_le in H.
Qed.

Lemma draw_yut_spec r :
  BoardB.draw_yut r
  = if Qle_bool r 34 then BoardB.mkOutcome "do" "도" 1 34 0
    else if Qle_bool r 60 then BoardB.mkOutcome "gae" "개" 2 26 0
    else if Qle_bool r 77 then BoardB.mkOutcome "geol" "걸" 3 17 0
    else if Qle_bool r 88 then BoardB.mkOutcome "yut" "윷" 4 11 1
    else if Qle_bool r 96 then BoardB.mkOutcome "mo" "모" 5 8 1
    else if Qle_bool r 100 then BoardB.mkOutcome "backdo" "빽도" (-1) 4 0
    else BoardB.mkOutcome "do" "도" 1 34 0.
Proof.
  unfold BoardB.draw_yut, BoardB.YUT_OUTCOMES. cbn [BoardB.draw_from BoardB.weight Z.add].
  change (inject_Z (0 + 34)) with (34%Q). change (inject_Z (0 + 34 + 26)) with (60%Q).
  change (inject_Z (0 + 34 + 26 + 17)) with (77%Q).
  change (inject_Z (0 + 34 + 26 + 17 + 11)) with (88%Q).
  change (inject_Z (0 + 34 + 26 + 17 + 11 + 8)) with (96%Q).
  change (inject_Z (0 + 34 + 26 + 17 + 11 + 8 + 4)) with (100%Q).
  by repeat destruct (Qle_bool r _).
Qed.

(** ** Ids *)

Lemma pretty_N_char_digit x : Ascii.eqb (pretty_N_char x) "_" = false.
Proof. unfold pretty_N_char. by repeat case_match. Qed.

Lemma pretty_N_go_no_underscore x : ∀ s,
  has_char "_" s = false → has_char "_" (pretty_N_go x s) = false.
Proof.
  induction (N.lt_wf_0 x) as [x _ IH]. intros s Hs.
  destruct (decide (x = 0%N)) as [-> | Hx]; [by rewrite pretty_N_go_0 |].
  rewrite pretty_N_go_step by lia. apply IH.
  - apply N.div_lt; lia.
  - cbn. by rewrite pretty_N_char_digit.
Qed.

Lemma pretty_N_no_underscore (x : N) : has_char "_" (pretty x) = false.
Proof.
  unfold pretty, pretty_N. case_decide; [done |]. by apply pretty_N_go_no_underscore.
Qed.

Lemma pretty_Z_no_underscore (z : Z) : has_char "_" (pretty z) = false.
Proof.
  unfold pretty, pretty_Z. destruct z as [| p | p]; [done | |].
  - apply pretty_N_no_underscore.
  - rewrite string_app_cons. cbn. apply pretty_N_no_underscore.
Qed.

(** A string is split at the first place of a character in one way. *)
Lemma split_at_char c s1 t1 s2 t2 :
  has_char c s1 = false → has_char c s2 = false →
  s1 +:+ String c t1 = s2 +:+ String c t2 → s1 = s2 ∧ t1 = t2.
Proof.
  revert s2. induction s1 as [| a s1 IH]; intros [| b s2] H1 H2 Heq.
  - by injection Heq as ->.
  - rewrite string_app_cons in Heq. injection Heq as <- _.
    cbn in H2. by rewrite Ascii.eqb_refl in H2.
  - rewrite string_app_cons in Heq. injection Heq as -> _.
    cbn in H1. by rewrite Ascii.eqb_refl in H1.
  - rewrite !string_app_cons in Heq. injection Heq as -> Heq.
    cbn in H1, H2. apply orb_false_iff in H1 as [_ H1]. apply orb_false_iff in H2 as [_ H2].
    destruct (IH _ H1 H2 Heq) as [-> ->]. done.
Qed.

Lemma new_id_inj millis rand millis' rand' :
  BoardB._new_id millis rand = BoardB._new_id millis' rand' →
  millis = millis' ∧ rand = rand'.
Proof.
  unfold BoardB._new_id. intros H. apply (inj (String.app "team_")) in H.
  apply split_at_char in H as [Hm Hr]; try apply pretty_Z_no_underscore.
  split; by apply (inj pretty).
Qed.

(** The ids of a run are the ids made from the draws of some of its
    calls of [add_team], each draw used once. *)
Lemma run_ids calls : ∀ w ps,
  ids (BoardB.game w) = (λ p, BoardB._new_id p.1 p.2) <$> ps →
  NoDup (ps ++ drawn calls) →
  ∃ ps', ids (BoardB.game (run calls w)) = (λ p, BoardB._new_id p.1 p.2) <$> ps'
         ∧ NoDup ps'.
Proof.
  induction calls as [| c calls IH]; intros w ps Hids Hnd.
  { exists ps. split; [done |]. cbn in Hnd. by rewrite app_nil_r in Hnd. }
  cbn [run]. destruct (BoardB.exec c w) as [[res w'] |] eqn:Hexec.
  2: { exists ps. split; [done |]. by apply NoDup_app in Hnd as (? & _). }
  assert (c = BoardB.Reset ∨ c ≠ BoardB.Reset) as [-> | Hc]
    by (destruct c; (by left) || (by right)).
  { cbn in Hexec. injection Hexec as _ <-. apply (IH _ []); [done |].
    cbn. cbn in Hnd. by apply NoDup_app in Hnd as (_ & _ & ?). }
  destruct (B_exec_names c w res w' Hexec Hc)
    as [[_ Hsame] | (millis & rand & clock & name & -> & _ & _ & Hteams)].
  - apply (IH _ ps); [unfold ids in *; by rewrite Hsame |].
    destruct c; cbn in Hnd; try done.
    apply NoDup_app in Hnd as (H1 & H2 & H3). apply NoDup_cons in H3 as [_ H3].
    apply NoDup_app. split; [done |]. split; [| done].
    intros x Hx Hx'. apply (H2 x Hx). by right.
  - apply (IH _ (ps ++ [(millis, rand)])).
    + unfold ids in *. rewrite Hteams, !fmap_app, Hids. done.
    + cbn in Hnd. by rewrite <- app_assoc.
Qed.

Lemma run_ids_NoDup calls :
  NoDup (drawn calls) → NoDup (ids (BoardB.game (run calls fresh_world))).
Proof.
  intros Hnd. destruct (run_ids calls fresh_world []) as (ps & -> & Hps); [done | done |].
  apply NoDup_fmap_2_strong; [| done].
  intros [m r] [m' r'] _ _ H. cbn in H. by apply new_id_inj in H as [-> ->].
Qed.

(** ** The ranked view of variant A *)

(** Two teams with different names are not both before each other. *)
Lemma A_before_antisym a b :
  A_before a b → A_before b a → BoardA.name a = BoardA.name b.
Proof.
  unfold A_before.
  intros [? | [? [? | [? Hab]]]] [? | [? [? | [? Hba]]]]; try lia.
  by apply (anti_symm String.le).
Qed.

Lemma A_sorted_teams_unique g1 g2 :
  BoardA.teams g1 ≡ₚ BoardA.teams g2 →
  NoDup (BoardA.name <$> BoardA.teams g1) →
  BoardA.sorted_teams g1 = BoardA.sorted_teams g2.
Proof.
  intros Hperm Hnd.
  assert (Hs : ∀ g, StronglySorted A_before (BoardA.sorted_teams g)).
  { intros g.
    apply (@sorted_StronglySorted _ _ BoardA.key_lt BoardA.sort_key A_before
             A_before_trans A_key_lt_before A_key_not_lt_before). }
  assert (Hp : ∀ g, BoardA.sorted_teams g ≡ₚ BoardA.teams g).
  { intros g. apply sorted_Permutation. }
  apply (StronglySorted_unique_strong A_before); [| done | done |].
  - intros a b Ha Hb Hab Hba.
    rewrite Hp in Ha, Hb. rewrite <- Hperm in Hb.
    pose proof (A_before_antisym a b Hab Hba) as Hname.
    apply list_elem_of_lookup in Ha as [i Hi]. apply list_elem_of_lookup in Hb as [j Hj].
    assert (i = j) as ->; [| congruence].
    apply (NoDup_lookup _ i j (BoardA.name a) Hnd); rewrite list_lookup_fmap.
    + by rewrite Hi.
    + by rewrite Hj, Hname.
  - by rewrite !Hp.
Qed.

(** ** Validation in variant A *)

Lemma A_add_team_refuses millis rand clock name w :
  A_add_team_invalid (BoardA.game w) name →
  ∃ reason, BoardA.add_team millis rand clock name w = ((false, reason), w)
            ∧ truthy reason = true.
Proof.
  intros Hinv. unfold BoardA.add_team.
  destruct (truthy (strip name)) eqn:Ht; cbn [negb].
  - destruct Hinv as [He | (t & Hin & Hname)].
    { apply truthy_false in He. congruence. }
    assert (existsb (λ t, String.eqb (BoardA.name t) (strip name))
              (BoardA.teams (BoardA.game w)) = true) as ->.
    { apply existsb_exists. exists t. split; [by apply list_elem_of_In |].
      by apply String.eqb_eq. }
    eexists. split; reflexivity.
  - eexists. split; reflexivity.
Qed.

Lemma A_add_team_accepts millis rand clock name w :
  ¬ A_add_team_invalid (BoardA.game w) name →
  (BoardA.add_team millis rand clock name w).1.1 = true.
Proof.
  intros Hval. unfold BoardA.add_team.
  destruct (truthy (strip name)) eqn:Ht; cbn [negb].
  - destruct (existsb _ _) eqn:He; [| by destruct (BoardA.add_log _ _ _)].
    exfalso. apply Hval. right.
    apply existsb_exists in He as (t & Hin & Hname).
    exists t. split; [by apply list_elem_of_In | by apply String.eqb_eq].
  - exfalso. apply Hval. left. by apply truthy_false.
Qed.

Lemma A_record_activity_refuses clock team_id difficulty category participant_count title w :
  A_record_activity_invalid (BoardA.game w) team_id difficulty category participant_count →
  ∃ reason,
    BoardA.record_activity clock team_id difficulty category participant_count title w
    = Ok ((false, reason), w) ∧ truthy reason = true.
Proof.
  intros Hinv. unfold BoardA.record_activity, A_record_activity_invalid in *.
  destruct (BoardA.find_team _ _) as [[i team] |] eqn:Hfind;
    [| eexists; split; reflexivity].
  destruct Hinv as [? | Hinv]; [done |].
  destruct (has_key DIFFICULTY_POINTS difficulty) eqn:Hd; cbn [negb];
    [| eexists; split; reflexivity].
  apply bool_decide_eq_true in Hd as [p Hp].
  destruct Hinv as [? | Hinv]; [congruence |].
  destruct (contains CATEGORIES category) eqn:Hc; cbn [negb];
    [| eexists; split; reflexivity].
  apply bool_decide_eq_true in Hc.
  destruct Hinv as [? | Hinv]; [done |].
  assert ((participant_count <? 1) = true) as -> by lia.
  eexists; split; reflexivity.
Qed.

Lemma A_record_activity_accepts clock team_id difficulty category participant_count title w :
  ¬ A_record_activity_invalid (BoardA.game w) team_id difficulty category participant_count →
  ∀ reason w',
    BoardA.record_activity clock team_id difficulty category participant_count title w
    ≠ Ok ((false, reason), w').
Proof.
  intros Hval reason w'. unfold BoardA.record_activity, A_record_activity_invalid in *.
  destruct (BoardA.find_team _ _) as [[i team] |] eqn:Hfind; [| tauto].
  destruct (has_key DIFFICULTY_POINTS difficulty) eqn:Hd; cbn [negb].
  2: { apply bool_decide_eq_false in Hd. exfalso. apply Hval. right. left.
       by apply eq_None_not_Some. }
  destruct (contains CATEGORIES category) eqn:Hc; cbn [negb].
  2: { apply bool_decide_eq_false in Hc. tauto. }
  destruct (participant_count <? 1) eqn:Hp; [exfalso; apply Hval; lia |].
  unfold mbind, exc_bind, bind.
  repeat match goal with
         | |- context [match ?x with _ => _ end] => destruct x
         end; congruence.
Qed.


(** ** The two variants side by side *)

Lemma line_bonus_forget c b t :
  BoardA.line_bonus c (b, forget t)
  = match BoardB.line_bonus c (b, t) with
    | Ok (b', t') => Ok (b', forget t')
    | Raise e => Raise e
    end.
Proof.
  unfold BoardA.line_bonus, BoardB.line_bonus, mbind, exc_bind, bind. cbn.
  destruct (getitem (BoardB.category_count t) c) as [n |]; [| done].
  destruct (getitem (BoardB.line_bonus_taken t) c) as [k |]; [| done].
  by destruct (k <? _).
Qed.

Lemma for_each_line_bonus_forget cs : ∀ b t,
  for_each BoardA.line_bonus cs (b, forget t)
  = match for_each BoardB.line_bonus cs (b, t) with
    | Ok (b', t') => Ok (b', forget t')
    | Raise e => Raise e
    end.
Proof.
  induction cs as [| c cs IH]; intros b t; [done |].
  cbn [for_each]. rewrite line_bonus_forget. unfold mbind, exc_bind, bind.
  destruct (BoardB.line_bonus c (b, t)) as [[b1 t1] |]; [apply IH | done].
Qed.

Lemma compute_bonus_forget t :
  BoardA.compute_bonus (forget t)
  = match BoardB.compute_bonus t with
    | Ok (b', t') => Ok (b', forget t')
    | Raise e => Raise e
    end.
Proof.
  unfold BoardA.compute_bonus, BoardB.compute_bonus, mbind, exc_bind, bind.
  change (BoardA.category_count (forget t)) with (BoardB.category_count t).
  change (BoardA.set_bonus_taken (forget t)) with (BoardB.set_bonus_taken t).
  destruct (all_positive (BoardB.category_count t) CATEGORIES) as [done_all |]; [| done].
  destruct (done_all && _).
  - apply (for_each_line_bonus_forget CATEGORIES _ (BoardB.set_set_bonus_taken t 1)).
  - apply for_each_line_bonus_forget.
Qed.

Lemma find_team_forget (ts : list BoardB.Team) team_id :
  list_find (λ t, BoardA.id t = team_id) (forget <$> ts)
  = prod_map (λ i, i) forget <$> list_find (λ t, BoardB.id t = team_id) ts.
Proof.
  rewrite list_find_fmap. apply (f_equal (fmap _)). by apply list_find_ext.
Qed.

Lemma existsb_forget (ts : list BoardB.Team) name :
  existsb (λ t, String.eqb (BoardA.name t) name) (forget <$> ts)
  = existsb (λ t, String.eqb (BoardB.name t) name) ts.
Proof. induction ts as [| t ts IH]; [done |]. cbn. by rewrite IH. Qed.

Lemma add_team_same_scores millis rand clock name wA wB :
  same_scores wA wB →
  (BoardA.add_team millis rand clock name wA).1 = (BoardB.add_team millis rand clock name wB).1
  ∧ same_scores (BoardA.add_team millis rand clock name wA).2
      (BoardB.add_team millis rand clock name wB).2.
Proof.
  unfold same_scores. intros Hsame.
  unfold BoardA.add_team, BoardB.add_team. cbv zeta. rewrite Hsame, existsb_forget.
  destruct (negb _); [done |]. destruct (existsb _ _); [done |].
  cbn. split; [done |]. by rewrite fmap_app.
Qed.

Lemma record_activity_same_scores clock team_id difficulty category participant_count title
    wA wB :
  same_scores wA wB →
  same_outcome
    (BoardA.record_activity clock team_id difficulty category participant_count title wA)
    (BoardB.record_activity clock team_id difficulty category participant_count title wB).
Proof.
  unfold same_scores. intros Hsame.
  unfold BoardA.record_activity, BoardB.record_activity, BoardA.find_team, BoardB.find_team.
  cbv zeta. rewrite Hsame, find_team_forget.
  destruct (list_find _ (BoardB.teams _)) as [[i team] |]; cbn [fmap option_fmap option_map prod_map fst snd];
    [| by cbn].
  destruct (negb (has_key _ _)); [by cbn |].
  destruct (negb (contains _ _)); [by cbn |].
  destruct (_ <? 1); [by cbn |].
  unfold mbind, exc_bind, bind.
  destruct (getitem DIFFICULTY_POINTS _) as [points |]; [| by cbn].
  cbn [BoardA.category_count BoardA.set_mission_count BoardA.set_score forget
       BoardB.category_count BoardB.set_mission_count BoardB.set_score].
  destruct (getitem (BoardB.category_count team) category) as [n |]; [| by cbn].
  match goal with
  | |- context [BoardB.compute_bonus ?t] =>
      change (BoardA.compute_bonus _) with (BoardA.compute_bonus (forget t));
      rewrite (compute_bonus_forget t); destruct (BoardB.compute_bonus t) as [[bonus team1] |]
  end; [| by cbn].
  destruct (BoardB.apply_score_throw_milestone _) as [throws team2] eqn:Hm.
  destruct (getitem DIFFICULTY_LABELS _); [| by cbn].
  destruct (getitem CATEGORY_LABELS _); [| by cbn].
  cbn. split; [done |]. unfold same_scores. cbn.
  rewrite list_fmap_insert. f_equal.
  match type of Hm with
  | BoardB.apply_score_throw_milestone ?t = _ =>
      destruct (milestone_fields t) as (F1 & F2 & F3 & F4 & _ & _ & F7 & F8 & F9)
  end.
  rewrite Hm in F1, F2, F3, F4, F7, F8, F9. cbn [snd] in *.
  unfold forget. rewrite F1, F2, F3, F4, F7, F8, F9.
  by destruct (0 <? bonus).
Qed.

(** ** Snapshots *)

Lemma A_map_exc_fmap {A B C} (f : B → exc C) (g : A → B) (h : A → C) l :
  (∀ x, f (g x) = Ok (h x)) → BoardA.map_exc f (g <$> l) = Ok (h <$> l).
Proof.
  intros H. induction l as [| x l IH]; [done |].
  cbn. rewrite H. cbn. rewrite IH. done.
Qed.

Lemma A_Team_init_asdict t : BoardA.Team_init (BoardA.asdict_team t) = Ok (A_loaded_team t).
Proof. reflexivity. Qed.

Lemma A_LogEntry_init_asdict l :
  BoardA.LogEntry_init (BoardA.asdict_log l) = Ok (A_loaded_log l).
Proof. reflexivity. Qed.

Lemma A_load_save g : BoardA.load (BoardA.STORAGE_FILE (BoardA.save g)) = A_loaded_game g.
Proof.
  cbn [BoardA.save BoardA.STORAGE_FILE BoardA.load].
  unfold BoardA.load_payload, BoardA.payload.
  cbn [BoardA.get BoardA.field assoc String.eqb Ascii.eqb Bool.eqb].
  cbn [mbind exc_bind bind iterate].
  rewrite (A_map_exc_fmap _ _ A_loaded_team _ A_Team_init_asdict). cbn [mbind exc_bind bind].
  rewrite (A_map_exc_fmap _ _ A_loaded_log _ A_LogEntry_init_asdict). cbn [mbind exc_bind bind].
  reflexivity.
Qed.

(** One element that raises makes the whole list raise. *)
Lemma B_map_exc_raise {A B} (f : A → exc B) l x e :
  x ∈ l → f x = Raise e → ∃ e', BoardB.map_exc f l = Raise e'.
Proof.
  intros Hx Hf. induction l as [| y l IH]; [by apply elem_of_nil in Hx |].
  cbn. apply elem_of_cons in Hx as [<- | Hx].
  - rewrite Hf. by exists e.
  - destruct (f y); [| by eexists]. cbn.
    destruct (IH Hx) as [e' ->]. by exists e'.
Qed.

Lemma A_map_exc_raise {A B} (f : A → exc B) l x e :
  x ∈ l → f x = Raise e → ∃ e', BoardA.map_exc f l = Raise e'.
Proof.
  intros Hx Hf. induction l as [| y l IH]; [by apply elem_of_nil in Hx |].
  cbn. apply elem_of_cons in Hx as [<- | Hx].
  - rewrite Hf. by exists e.
  - destruct (f y); [| by eexists]. cbn.
    destruct (IH Hx) as [e' ->]. by exists e'.
Qed.

Lemma B_load_bad_team d raws raw e :
  assoc d "teams" = Some (VList raws) → raw ∈ raws → BoardB.load_team raw = Raise e →
  BoardB.load (Parsed (VDict d)) = BoardB.Loaded.new_game.
Proof.
  intros Hd Hraw Hbad. cbn [BoardB.load].
  unfold BoardB.load_payload, BoardB.get, BoardB.field, mbind, exc_bind, bind.
  rewrite Hd. cbn [iterate].
  destruct (B_map_exc_raise _ _ _ _ Hraw Hbad) as [e' ->]. done.
Qed.

Lemma B_load_bad_log d ls l e :
  assoc d "logs" = Some (VList ls) → l ∈ ls → BoardB.LogEntry_init l = Raise e →
  BoardB.load (Parsed (VDict d)) = BoardB.Loaded.new_game.
Proof.
  intros Hd Hl Hbad. cbn [BoardB.load].
  unfold BoardB.load_payload, BoardB.get, BoardB.field, mbind, exc_bind, bind.
  destruct (iterate _) as [raws |]; [| done].
  destruct (BoardB.map_exc BoardB.load_team raws); [| done].
  rewrite Hd. cbn [iterate].
  destruct (B_map_exc_raise _ _ _ _ Hl Hbad) as [e' ->]. done.
Qed.

Lemma A_load_bad_team d items item e :
  assoc d "teams" = Some (VList items) → item ∈ items → BoardA.Team_init item = Raise e →
  BoardA.load (Parsed (VDict d)) = BoardA.Loaded.new_game.
Proof.
  intros Hd Hitem Hbad. cbn [BoardA.load].
  unfold BoardA.load_payload, BoardA.get, BoardA.field, mbind, exc_bind, bind.
  rewrite Hd. cbn [iterate].
  destruct (A_map_exc_raise _ _ _ _ Hitem Hbad) as [e' ->]. done.
Qed.

Lemma A_load_bad_log d ls l e :
  assoc d "logs" = Some (VList ls) → l ∈ ls → BoardA.LogEntry_init l = Raise e →
  BoardA.load (Parsed (VDict d)) = BoardA.Loaded.new_game.
Proof.
  intros Hd Hl Hbad. cbn [BoardA.load].
  unfold BoardA.load_payload, BoardA.get, BoardA.field, mbind, exc_bind, bind.
  destruct (iterate _) as [items |]; [| done].
  destruct (BoardA.map_exc BoardA.Team_init items); [| done].
  rewrite Hd. cbn [iterate].
  destruct (A_map_exc_raise _ _ _ _ Hl Hbad) as [e' ->]. done.
Qed.

(** A team entry that gives no [name], or no [id], is refused. *)
Lemma B_load_team_nameless d :
  assoc d "id" = None ∨ assoc d "name" = None →
  BoardB.load_team (VDict d) = Raise TypeError.
Proof.
  intros H. unfold BoardB.load_team, BoardB.Team_init.
  destruct (forallb _ d); [| done].
  destruct H as [-> | ->]; [done |]. by destruct (assoc d "id").
Qed.

Lemma A_Team_init_nameless d :
  assoc d "id" = None ∨ assoc d "name" = None →
  BoardA.Team_init (VDict d) = Raise TypeError.
Proof.
  intros H. unfold BoardA.Team_init.
  destruct (forallb _ d); [| done].
  destruct H as [-> | ->]; [done |]. by destruct (assoc d "id").
Qed.

(** ** Picking a team by its name *)

Lemma team_name_to_id_lookup (ts : list BoardB.Team) : ∀ (m : gmap string string) name,
  foldl (λ m t, <[BoardB.name t := BoardB.id t]> m) m ts !! name
  = match list_find (λ t, BoardB.name t = name) (reverse ts) with
    | Some (_, t) => Some (BoardB.id t)
    | None => m !! name
    end.
Proof.
  induction ts as [| t ts IH]; intros m name; [done |].
  cbn [foldl]. rewrite IH, reverse_cons.
  destruct (list_find _ (reverse ts)) as [[i t'] |] eqn:E.
  - by rewrite (list_find_app_l _ _ _ _ _ E).
  - rewrite list_find_app_r by done. cbn.
    destruct (decide (BoardB.name t = name)) as [<- | Hne]; cbn.
    + by rewrite lookup_insert_eq.
    + by rewrite lookup_insert_ne.
Qed.

Lemma selected_team_id_spec g i team :
  names_ok (BoardB.name <$> BoardB.teams g) →
  BoardB.teams g !! i = Some team →
  GuiB._selected_team_id (GuiB.team_name_to_id g) (BoardB.name team) = Some (BoardB.id team).
Proof.
  intros [Hnd Hall] Hi. unfold GuiB._selected_team_id, GuiB.team_name_to_id.
  assert (Hne : BoardB.name team ≠ "").
  { rewrite Forall_fmap in Hall. by destruct (proj1 (Forall_lookup _ _) Hall i team Hi). }
  assert (truthy (BoardB.name team) = true) as ->.
  { destruct (truthy _) eqn:E; [done |]. by apply truthy_false in E. }
  cbn [negb]. rewrite team_name_to_id_lookup.
  assert (Hin : team ∈ reverse (BoardB.teams g)).
  { rewrite elem_of_reverse. by eapply list_elem_of_lookup_2. }
  destruct (list_find_elem_of (λ t, BoardB.name t = BoardB.name team) _ _ Hin eq_refl)
    as [[j t'] Hf].
  rewrite Hf. apply list_find_Some in Hf as (Hj & Hname & _). f_equal.
  assert (Ht' : t' ∈ BoardB.teams g).
  { rewrite <- elem_of_reverse. by eapply list_elem_of_lookup_2. }
  apply list_elem_of_lookup in Ht' as [k Hk].
  assert (k = i) as ->; [| congruence].
  apply (NoDup_lookup _ k i (BoardB.name team) Hnd); rewrite list_lookup_fmap.
  - by rewrite Hk, <- Hname.
  - by rewrite Hi.
Qed.

Lemma find_team_distinct g i team :
  NoDup (ids g) → BoardB.teams g !! i = Some team →
  BoardB.find_team g (BoardB.id team) = Some (i, team).
Proof.
  intros Hnd Hi. unfold BoardB.find_team.
  assert (Hin : team ∈ BoardB.teams g) by (by eapply list_elem_of_lookup_2).
  destruct (list_find_elem_of (λ t, BoardB.id t = BoardB.id team) _ _ Hin eq_refl)
    as [[j t'] Hf].
  rewrite Hf. apply list_find_Some in Hf as (Hj & Hid & _).
  assert (j = i) as ->; [| congruence].
  apply (NoDup_lookup _ j i (BoardB.id team) Hnd); unfold ids; rewrite list_lookup_fmap.
  - by rewrite Hj, <- Hid.
  - by rewrite Hi.
Qed.

(** ** Runs *)

Lemma A_run_reachable calls w : BoardA.reachable w → BoardA.reachable (A_run calls w).
Proof.
  revert w. induction calls as [| c calls IH]; intros w Hw; [done |].
  cbn [A_run]. destruct (BoardA.exec c w) as [[res w'] |] eqn:E; [| done].
  apply IH. destruct Hw as [f Hrtc]. exists f.
  eapply rtc_r; [exact Hrtc |]. by exists c, res.
Qed.

Lemma A_fresh_reachable : BoardA.reachable A_fresh_world.
Proof. exists Absent. apply rtc_refl. Qed.

Lemma exec_same_scores c wA wB :
  same_scores wA wB →
  match BoardA.exec c wA, BoardB.exec (B_call c) wB with
  | Ok (resA, wA'), Ok (resB, wB') => resA = resB ∧ same_scores wA' wB'
  | Raise eA, Raise eB => eA = eB
  | _, _ => False
  end.
Proof.
  intros Hsame. destruct c; cbn [BoardA.exec BoardB.exec B_call].
  - destruct (add_team_same_scores millis rand clock name wA wB Hsame) as [Hres Hs].
    destruct (BoardA.add_team _ _ _ _ _) as [resA wA'].
    destruct (BoardB.add_team _ _ _ _ _) as [resB wB']. cbn in *. by subst.
  - pose proof (record_activity_same_scores clock team_id difficulty category
                  participant_count title wA wB Hsame) as H.
    unfold same_outcome in H.
    destruct (BoardA.record_activity _ _ _ _ _ _ _) as [[resA wA'] |];
      destruct (BoardB.record_activity _ _ _ _ _ _ _) as [[resB wB'] |]; cbn; try done.
    destruct H as [-> H]. done.
  - done.
Qed.

Lemma run_same_scores calls : ∀ wA wB,
  same_scores wA wB → same_scores (A_run calls wA) (run (B_call <$> calls) wB).
Proof.
  induction calls as [| c calls IH]; intros wA wB Hsame; [done |].
  cbn [A_run run fmap list_fmap].
  pose proof (exec_same_scores c wA wB Hsame) as H.
  destruct (BoardA.exec c wA) as [[resA wA'] |];
    destruct (BoardB.exec (B_call c) wB) as [[resB wB'] |]; try done.
  destruct H as [_ H]. by apply IH.
Qed.

(** ** What a call leaves in the file *)

Lemma B_exec_saved c w res w' :
  BoardB.exec c w = Ok (res, w') →
  match res with
  | Some (false, _) => w' = w
  | _ => w' = BoardB.save (BoardB.game w')
  end.
Proof.
  intros Hexec. destruct c; cbn in Hexec.
  - destruct (B_add_team_inv millis rand clock name w) as [[Hf Hw] | (_ & _ & Hr)].
    + destruct (BoardB.add_team _ _ _ _ _) as [[ok msg] w0]. cbn in Hf, Hw. subst.
      by injection Hexec as <- <-.
    + rewrite Hr in Hexec. by injection Hexec as <- <-.
  - destruct (BoardB.record_activity _ _ _ _ _ _ _) as [[res0 w0] |] eqn:E; [| done].
    cbn in Hexec. injection Hexec as <- <-.
    apply B_record_activity_inv in E
      as [[Hf ->] | (i & team & points & bonus & taken' & granted' & msg & _ & _ & _ & -> & ->)].
    + destruct res0 as [ok msg]. cbn in Hf. by subst.
    + done.
  - destruct (BoardB.throw_yut _ _ _ _) as [[ok msg] w0] eqn:E.
    injection Hexec as <- <-.
    apply throw_yut_logs in E as [[-> ->] | (-> & Hw & _)]; done.
  - by injection Hexec as <- <-.
Qed.

Lemma A_exec_saved c w res w' :
  BoardA.exec c w = Ok (res, w') →
  match res with
  | Some (false, _) => w' = w
  | _ => w' = BoardA.save (BoardA.game w')
  end.
Proof.
  intros Hexec. destruct c; cbn in Hexec.
  - destruct (A_add_team_inv millis rand clock name w) as [[Hf Hw] | (_ & _ & Hr)].
    + destruct (BoardA.add_team _ _ _ _ _) as [[ok msg] w0]. cbn in Hf, Hw. subst.
      by injection Hexec as <- <-.
    + rewrite Hr in Hexec. by injection Hexec as <- <-.
  - destruct (BoardA.record_activity _ _ _ _ _ _ _) as [[res0 w0] |] eqn:E; [| done].
    cbn in Hexec. injection Hexec as <- <-.
    apply A_record_activity_inv in E
      as [[Hf ->] | (i & team & points & bonus & taken' & granted' & msg & _ & _ & _ & -> & ->)].
    + destruct res0 as [ok msg]. cbn in Hf. by subst.
    + done.
  - by injection Hexec as <- <-.
Qed.

(** ** What a call adds to the log *)

Lemma B_exec_logs c w res w' :
  BoardB.exec c w = Ok (res, w') → c ≠ BoardB.Reset →
  w' = w
  ∨ ∃ entry older,
      BoardB.logs (BoardB.game w')
      = take 150 (entry :: older ++ BoardB.logs (BoardB.game w))
      ∧ (∀ clock r team_id, c = BoardB.ThrowYut clock r team_id →
           res = Some (true, BoardB.text entry)).
Proof.
  intros Hexec Hc. destruct c; cbn in Hexec; [| | | done].
  - destruct (B_add_team_inv millis rand clock name w) as [[_ Hw] | (_ & _ & Hr)].
    + left. destruct (BoardB.add_team _ _ _ _ _) as [res0 w0]. cbn in Hw.
      by injection Hexec as _ <-.
    + right. rewrite Hr in Hexec. injection Hexec as _ <-.
      eexists _, []. split; [reflexivity | done].
  - destruct (BoardB.record_activity _ _ _ _ _ _ _) as [[res0 w0] |] eqn:E; [| done].
    cbn in Hexec. injection Hexec as _ <-.
    apply B_record_activity_inv in E
      as [[_ ->] | (i & team & points & bonus & taken' & granted' & msg & _ & _ & _ & _ & ->)];
      [by left |].
    right. eexists _, []. split; [reflexivity | done].
  - destruct (BoardB.throw_yut _ _ _ _) as [[ok msg] w0] eqn:E.
    injection Hexec as <- <-.
    apply throw_yut_logs in E as [[-> ->] | (-> & _ & at_ & older & Hlogs)]; [by left |].
    right. exists (BoardB.mkLogEntry at_ msg), older. split; [done |].
    intros clock' r' team_id' _. done.
Qed.

Lemma A_exec_logs c w res w' :
  BoardA.exec c w = Ok (res, w') → c ≠ BoardA.Reset →
  w' = w
  ∨ ∃ entry,
      BoardA.logs (BoardA.game w') = take 120 (entry :: BoardA.logs (BoardA.game w)).
Proof.
  intros Hexec Hc. destruct c; cbn in Hexec; [| | done].
  - destruct (A_add_team_inv millis rand clock name w) as [[_ Hw] | (_ & _ & Hr)].
    + left. destruct (BoardA.add_team _ _ _ _ _) as [res0 w0]. cbn in Hw.
      by injection Hexec as _ <-.
    + right. rewrite Hr in Hexec. injection Hexec as _ <-. by eexists.
  - destruct (BoardA.record_activity _ _ _ _ _ _ _) as [[res0 w0] |] eqn:E; [| done].
    cbn in Hexec. injection Hexec as _ <-.
    apply A_record_activity_inv in E
      as [[_ ->] | (i & team & points & bonus & taken' & granted' & msg & _ & _ & _ & _ & ->)];
      [by left |].
    right. by eexists.
Qed.

(** * Further properties: the theorems *)

(** ** Snapshots *)

(** X1.  [load] reads back what [save] wrote, in both variants: whatever
    the game, the game [load] builds from the file [save] has written
    holds the same teams, log entries and (in variant B) finish order,
    every attribute with the value it had. *)
Theorem save_load_roundtrip (gA : BoardA.Game) (gB : BoardB.Game) :
  BoardA.load (BoardA.STORAGE_FILE (BoardA.save gA)) = A_loaded_game gA
  ∧ BoardB.load (BoardB.STORAGE_FILE (BoardB.save gB)) = loaded_game gB.
Proof. split; [apply A_load_save | apply load_save]. Qed.

(** X2.  A call that returns either refuses (its result is [False] with
    a reason) and leaves the game and the file as they were, or leaves
    in the file the snapshot of the game it leaves, so that [load] reads
    that game back: no change of the game goes unsaved. *)
Theorem calls_are_persisted
    (cA : BoardA.call) (wA wA' : BoardA.World) (resA : option (bool * string))
    (cB : BoardB.call) (wB wB' : BoardB.World) (resB : option (bool * string))
    (HA : BoardA.exec cA wA = Ok (resA, wA'))
    (HB : BoardB.exec cB wB = Ok (resB, wB')) :
  match resA with
  | Some (false, _) => wA' = wA
  | _ => BoardA.STORAGE_FILE wA' = Parsed (BoardA.payload (BoardA.game wA'))
         ∧ BoardA.load (BoardA.STORAGE_FILE wA') = A_loaded_game (BoardA.game wA')
  end
  ∧ match resB with
    | Some (false, _) => wB' = wB
    | _ => BoardB.STORAGE_FILE wB' = Parsed (BoardB.payload (BoardB.game wB'))
           ∧ BoardB.load (BoardB.STORAGE_FILE wB') = loaded_game (BoardB.game wB')
    end.
Proof.
  apply A_exec_saved in HA. apply B_exec_saved in HB.
  assert (HsA : wA' = BoardA.save (BoardA.game wA') →
                BoardA.STORAGE_FILE wA' = Parsed (BoardA.payload (BoardA.game wA'))
                ∧ BoardA.load (BoardA.STORAGE_FILE wA') = A_loaded_game (BoardA.game wA')).
  { intros ->. split; [done | apply A_load_save]. }
  assert (HsB : wB' = BoardB.save (BoardB.game wB') →
                BoardB.STORAGE_FILE wB' = Parsed (BoardB.payload (BoardB.game wB'))
                ∧ BoardB.load (BoardB.STORAGE_FILE wB') = loaded_game (BoardB.game wB')).
  { intros ->. split; [done | apply load_save]. }
  split.
  - destruct resA as [[[|] msg] |]; auto.
  - destruct resB as [[[|] msg] |]; auto.
Qed.

Lemma calls_are_persisted_witness :
  ∃ wA' msg wB',
    BoardA.exec (BoardA.RecordActivity example_clock "team_1772366400001_1000" "easy" "talk" 1 "")
      example_worldA = Ok (Some (true, "활동이 반영되었습니다."), wA')
    ∧ BoardB.exec (BoardB.ThrowYut example_clock 90%Q "team_1772366400001_1000") example_race
      = Ok (Some (true, msg), wB')
    ∧ BoardA.load (BoardA.STORAGE_FILE wA') = A_loaded_game (BoardA.game wA')
    ∧ BoardB.load (BoardB.STORAGE_FILE wB') = loaded_game (BoardB.game wB').
Proof.
  assert (HA : ∃ wA',
    BoardA.exec (BoardA.RecordActivity example_clock "team_1772366400001_1000" "easy" "talk" 1 "")
      example_worldA = Ok (Some (true, "활동이 반영되었습니다."), wA')).
  { vm_compute. eexists. reflexivity. }
  assert (HB : ∃ msg wB',
    BoardB.exec (BoardB.ThrowYut example_clock 90%Q "team_1772366400001_1000") example_race
    = Ok (Some (true, msg), wB')).
  { vm_compute. eexists _, _. reflexivity. }
  destruct HA as [wA' HA]. destruct HB as (msg & wB' & HB).
  destruct (calls_are_persisted _ _ _ _ _ _ _ _ HA HB) as [[_ H1] [_ H2]].
  exists wA', msg, wB'. split; [exact HA |]. split; [exact HB |]. split; [exact H1 | exact H2].
Defined.

(** X14.  [load] takes a file whole or not at all, in both variants: when
    one entry of the list of teams, or of the log, cannot be made into a
    [Team] or a [LogEntry], [load] returns a new, empty game, whatever
    the other entries hold.  A team entry that gives no [id] or no [name]
    is such an entry. *)
Theorem load_all_or_nothing :
  (∀ d items item e,
     assoc d "teams" = Some (VList items) → item ∈ items →
     BoardA.Team_init item = Raise e →
     BoardA.load (Parsed (VDict d)) = BoardA.Loaded.new_game)
  ∧ (∀ d ls l e,
       assoc d "logs" = Some (VList ls) → l ∈ ls → BoardA.LogEntry_init l = Raise e →
       BoardA.load (Parsed (VDict d)) = BoardA.Loaded.new_game)
  ∧ (∀ d raws raw e,
       assoc d "teams" = Some (VList raws) → raw ∈ raws → BoardB.load_team raw = Raise e →
       BoardB.load (Parsed (VDict d)) = BoardB.Loaded.new_game)
  ∧ (∀ d ls l e,
       assoc d "logs" = Some (VList ls) → l ∈ ls → BoardB.LogEntry_init l = Raise e →
       BoardB.load (Parsed (VDict d)) = BoardB.Loaded.new_game)
  ∧ (∀ d, assoc d "id" = None ∨ assoc d "name" = None →
       BoardA.Team_init (VDict d) = Raise TypeError
       ∧ BoardB.load_team (VDict d) = Raise TypeError)
  ∧ (BoardA.load (Parsed snapshot_nameless) = BoardA.Loaded.new_game
     ∧ BoardB.load (Parsed snapshot_nameless) = BoardB.Loaded.new_game).
Proof.
  split; [apply A_load_bad_team |]. split; [apply A_load_bad_log |].
  split; [apply B_load_bad_team |]. split; [apply B_load_bad_log |].
  split; [| split; reflexivity].
  intros d H. split; [by apply A_Team_init_nameless | by apply B_load_team_nameless].
Qed.

(** ** The log *)

(** X3.  A call other than [reset] that changes the game adds to the
    log and takes nothing out of it but at its far end: the log it leaves
    is made of the entries the call wrote, the newest first, and behind
    them the entries the log held, in their order, cut off after the
    120th entry in variant A and the 150th in variant B.  Variant A
    writes one entry for a call; variant B writes one or more, and after
    a throw the newest entry is the message the call returned. *)
Theorem log_keeps_newest
    (cA : BoardA.call) (wA wA' : BoardA.World) (resA : option (bool * string))
    (cB : BoardB.call) (wB wB' : BoardB.World) (resB : option (bool * string))
    (HA : BoardA.exec cA wA = Ok (resA, wA'))
    (HcA : cA ≠ BoardA.Reset)
    (HB : BoardB.exec cB wB = Ok (resB, wB'))
    (HcB : cB ≠ BoardB.Reset) :
  (wA' = wA
   ∨ (∃ entry,
        BoardA.logs (BoardA.game wA') = take 120 (entry :: BoardA.logs (BoardA.game wA)))
     ∧ (length (BoardA.logs (BoardA.game wA')) ≤ 120)%nat)
  ∧ (wB' = wB
     ∨ (∃ entry older,
          BoardB.logs (BoardB.game wB')
          = take 150 (entry :: older ++ BoardB.logs (BoardB.game wB))
          ∧ (∀ clock r team_id, cB = BoardB.ThrowYut clock r team_id →
               resB = Some (true, BoardB.text entry)))
       ∧ (length (BoardB.logs (BoardB.game wB')) ≤ 150)%nat).
Proof.
  split.
  - destruct (A_exec_logs cA wA resA wA' HA HcA) as [-> | [entry He]]; [by left |].
    right. split; [by exists entry |]. rewrite He, length_take. lia.
  - destruct (B_exec_logs cB wB resB wB' HB HcB) as [-> | (entry & older & He & Hm)];
      [by left |].
    right. split; [by exists entry, older |]. rewrite He, length_take. lia.
Qed.

Lemma log_keeps_newest_witness :
  ∃ wA' msg wB' entry older,
    BoardA.exec (BoardA.RecordActivity example_clock "team_1772366400001_1000" "easy" "talk" 1 "")
      example_worldA = Ok (Some (true, "활동이 반영되었습니다."), wA')
    ∧ BoardB.exec (BoardB.ThrowYut example_clock 70%Q "team_1772366400003_1000") example_race
      = Ok (Some (true, msg), wB')
    ∧ (length (BoardA.logs (BoardA.game wA')) ≤ 120)%nat
    ∧ BoardB.logs (BoardB.game wB')
      = take 150 (entry :: older ++ BoardB.logs (BoardB.game example_race))
    ∧ BoardB.text entry = msg.
Proof.
  assert (HA : ∃ wA',
    BoardA.exec (BoardA.RecordActivity example_clock "team_1772366400001_1000" "easy" "talk" 1 "")
      example_worldA = Ok (Some (true, "활동이 반영되었습니다."), wA')).
  { vm_compute. eexists. reflexivity. }
  assert (HB : ∃ msg wB',
    BoardB.exec (BoardB.ThrowYut example_clock 70%Q "team_1772366400003_1000") example_race
    = Ok (Some (true, msg), wB')).
  { vm_compute. eexists _, _. reflexivity. }
  destruct HA as [wA' HA]. destruct HB as (msg & wB' & HB).
  destruct (log_keeps_newest _ _ _ _ _ _ _ _ HA ltac:(discriminate) HB ltac:(discriminate))
    as [HlA HlB].
  destruct HlA as [Hsame | [_ HlenA]].
  { exfalso. rewrite Hsame in HA. vm_compute in HA. discriminate HA. }
  destruct HlB as [Hsame | [(entry & older & Hlogs & Hmsg) _]].
  { exfalso. rewrite Hsame in HB. vm_compute in HB. discriminate HB. }
  exists wA', msg, wB', entry, older.
  split; [exact HA |]. split; [exact HB |]. split; [exact HlenA |]. split; [exact Hlogs |].
  specialize (Hmsg _ _ _ eq_refl). by injection Hmsg as <-.
Defined.

(** ** The draw *)

(** X4.  [draw_yut] turns the number [r] it draws between 0 and 100, the
    sum of the weights, into an outcome by the running sum of the
    weights, each bound belonging to the outcome below it: do up to 34,
    gae above 34 up to 60, geol up to 77, yut up to 88, mo up to 96,
    backdo up to 100.  The outcome returned after the loop, do, is
    returned only for a number above 100. *)
Theorem draw_yut_intervals (r : Q) :
  ((r <= 34)%Q → BoardB.draw_yut r = BoardB.mkOutcome "do" "도" 1 34 0)
  ∧ ((34 < r)%Q → (r <= 60)%Q → BoardB.draw_yut r = BoardB.mkOutcome "gae" "개" 2 26 0)
  ∧ ((60 < r)%Q → (r <= 77)%Q → BoardB.draw_yut r = BoardB.mkOutcome "geol" "걸" 3 17 0)
  ∧ ((77 < r)%Q → (r <= 88)%Q → BoardB.draw_yut r = BoardB.mkOutcome "yut" "윷" 4 11 1)
  ∧ ((88 < r)%Q → (r <= 96)%Q → BoardB.draw_yut r = BoardB.mkOutcome "mo" "모" 5 8 1)
  ∧ ((96 < r)%Q → (r <= 100)%Q →
       BoardB.draw_yut r = BoardB.mkOutcome "backdo" "빽도" (-1) 4 0)
  ∧ ((100 < r)%Q → BoardB.draw_yut r = BoardB.mkOutcome "do" "도" 1 34 0)
  ∧ BoardB.draw_yut r ∈ BoardB.YUT_OUTCOMES.
Proof.
  assert (Hle : ∀ a : Q, (r <= a)%Q → Qle_bool r a = true).
  { intros a. apply Qle_bool_iff. }
  assert (Hlt : ∀ a : Q, (a < r)%Q → Qle_bool r a = false).
  { intros a. apply Qle_bool_false. }
  assert (H34 : (34 < 60)%Q) by done. assert (H60 : (60 < 77)%Q) by done.
  assert (H77 : (77 < 88)%Q) by done. assert (H88 : (88 < 96)%Q) by done.
  assert (H96 : (96 < 100)%Q) by done.
  rewrite draw_yut_spec.
  repeat split.
  - intros H. by rewrite (Hle _ H).
  - intros H1 H2. by rewrite (Hlt _ H1), (Hle _ H2).
  - intros H1 H2.
    assert ((34 < r)%Q) by (by apply (Qlt_trans _ 60)).
    by rewrite (Hlt 34%Q), (Hlt _ H1), (Hle _ H2).
  - intros H1 H2.
    assert ((60 < r)%Q) by (by apply (Qlt_trans _ 77)).
    assert ((34 < r)%Q) by (by apply (Qlt_trans _ 60)).
    by rewrite (Hlt 34%Q), (Hlt 60%Q), (Hlt _ H1), (Hle _ H2).
  - intros H1 H2.
    assert ((77 < r)%Q) by (by apply (Qlt_trans _ 88)).
    assert ((60 < r)%Q) by (by apply (Qlt_trans _ 77)).
    assert ((34 < r)%Q) by (by apply (Qlt_trans _ 60)).
    by rewrite (Hlt 34%Q), (Hlt 60%Q), (Hlt 77%Q), (Hlt _ H1), (Hle _ H2).
  - intros H1 H2.
    assert ((88 < r)%Q) by (by apply (Qlt_trans _ 96)).
    assert ((77 < r)%Q) by (by apply (Qlt_trans _ 88)).
    assert ((60 < r)%Q) by (by apply (Qlt_trans _ 77)).
    assert ((34 < r)%Q) by (by apply (Qlt_trans _ 60)).
    by rewrite (Hlt 34%Q), (Hlt 60%Q), (Hlt 77%Q), (Hlt 88%Q), (Hlt _ H1), (Hle _ H2).
  - intros H1.
    assert ((96 < r)%Q) by (by apply (Qlt_trans _ 100)).
    assert ((88 < r)%Q) by (by apply (Qlt_trans _ 96)).
    assert ((77 < r)%Q) by (by apply (Qlt_trans _ 88)).
    assert ((60 < r)%Q) by (by apply (Qlt_trans _ 77)).
    assert ((34 < r)%Q) by (by apply (Qlt_trans _ 60)).
    by rewrite (Hlt 34%Q), (Hlt 60%Q), (Hlt 77%Q), (Hlt 88%Q), (Hlt 96%Q), (Hlt _ H1).
  - rewrite <- draw_yut_spec. apply draw_yut_in.
Qed.

(** ** Registering teams *)

(** X5.  [add_team] strips the name it is given and, when it accepts it,
    appends a new team to [teams]: its id is the one [_new_id] makes, its
    name the stripped name, its score, counters and position 0, and both
    its dicts hold 0 for the four categories; the call writes one log
    entry and returns [True].  It makes no difference whether the caller
    strips the name first. *)
Theorem add_team_appends
    (millis rand : Z) (clock : nat -> datetime) (name : string)
    (wA : BoardA.World) (wB : BoardB.World) :
  (BoardA.add_team millis rand clock (strip name) wA = BoardA.add_team millis rand clock name wA
   ∧ ((BoardA.add_team millis rand clock name wA).1.1 = true →
      BoardA.add_team millis rand clock name wA
      = ((true, "팀이 추가되었습니다: " +:+ strip name),
         BoardA.save
           (BoardA.mkGame
              (BoardA.teams (BoardA.game wA)
               ++ [BoardA.mkTeam (BoardA._new_id millis rand) (strip name) 0 0
                     zero_counts 0 zero_counts])
              (take 120 (BoardA.mkLogEntry (isoformat (clock O))
                           ("팀 등록: " +:+ strip name)
                         :: BoardA.logs (BoardA.game wA)))))))
  ∧ (BoardB.add_team millis rand clock (strip name) wB
     = BoardB.add_team millis rand clock name wB
     ∧ ((BoardB.add_team millis rand clock name wB).1.1 = true →
        BoardB.add_team millis rand clock name wB
        = ((true, "팀이 추가되었습니다: " +:+ strip name),
           BoardB.save
             (BoardB.mkGame
                (BoardB.teams (BoardB.game wB)
                 ++ [BoardB.mkTeam (BoardB._new_id millis rand) (strip name) 0 0 0 0 0 None
                       zero_counts 0 zero_counts])
                (take 150 (BoardB.mkLogEntry (isoformat (clock O))
                             ("팀 등록: " +:+ strip name)
                           :: BoardB.logs (BoardB.game wB)))
                (BoardB.finish_order (BoardB.game wB)))))).
Proof.
  split; split.
  - unfold BoardA.add_team. by rewrite strip_idemp.
  - intros Hok.
    destruct (A_add_team_inv millis rand clock name wA) as [[Hf _] | (_ & _ & Hr)];
      [congruence | exact Hr].
  - unfold BoardB.add_team. by rewrite strip_idemp.
  - intros Hok.
    destruct (B_add_team_inv millis rand clock name wB) as [[Hf _] | (_ & _ & Hr)];
      [congruence | exact Hr].
Qed.

(** X6.  In every state a run of calls reaches from a new game, in both
    variants, no team has an empty name, no name has white space at
    either end, and no two teams have the same name. *)
Theorem team_names_ok (wA : BoardA.World) (wB : BoardB.World)
    (HA : BoardA.reachable wA) (HB : BoardB.reachable wB) :
  names_ok (BoardA.name <$> BoardA.teams (BoardA.game wA))
  ∧ names_ok (BoardB.name <$> BoardB.teams (BoardB.game wB)).
Proof. split; [by apply A_names_ok_reachable | by apply B_names_ok_reachable]. Qed.

Lemma team_names_ok_witness :
  names_ok (BoardA.name <$> BoardA.teams (BoardA.game A_example_world))
  ∧ names_ok (BoardB.name <$> BoardB.teams (BoardB.game example_finished)).
Proof.
  apply team_names_ok.
  - apply A_run_reachable, A_fresh_reachable.
  - apply run_reachable, fresh_reachable.
Defined.

(** The first name was given with white space around it. *)
Example A_example_names :
  BoardA.name <$> BoardA.teams (BoardA.game A_example_world) = ["koala"; "wombat"; "emu"]
  ∧ BoardA.score <$> BoardA.teams (BoardA.game A_example_world) = [255; 80; 0].
Proof. split; vm_compute; reflexivity. Qed.

(** ** The books of a team *)

(** X7.  In every state a run reaches from a new game, in both variants,
    the books of every team are in order: both dicts hold the four
    categories and no other key, no count is negative, [mission_count] is
    the sum of the four counts, [line_bonus_taken[c]] is
    [category_count[c] // 3] for every category, and [set_bonus_taken] is
    1 if every category has been played and 0 otherwise.  So the bonuses
    a team holds are those its counts call for, no more and no fewer. *)
Theorem books_in_order (wA : BoardA.World) (wB : BoardB.World)
    (teamA : BoardA.Team) (teamB : BoardB.Team)
    (HA : BoardA.reachable wA) (HB : BoardB.reachable wB)
    (HteamA : teamA ∈ BoardA.teams (BoardA.game wA))
    (HteamB : teamB ∈ BoardB.teams (BoardB.game wB)) :
  books_ok (BoardA.mission_count teamA) (BoardA.category_count teamA)
    (BoardA.set_bonus_taken teamA) (BoardA.line_bonus_taken teamA)
  ∧ books_ok (BoardB.mission_count teamB) (BoardB.category_count teamB)
      (BoardB.set_bonus_taken teamB) (BoardB.line_bonus_taken teamB).
Proof.
  pose proof (A_books_reachable wA HA) as HallA.
  pose proof (B_books_reachable wB HB) as HallB.
  rewrite Forall_forall in HallA. rewrite Forall_forall in HallB.
  split; [by destruct (HallA teamA HteamA) | by destruct (HallB teamB HteamB)].
Qed.

Lemma books_in_order_witness :
  ∃ teamA teamB,
    BoardA.teams (BoardA.game A_example_world) !! O = Some teamA
    ∧ BoardB.teams (BoardB.game example_finished) !! O = Some teamB
    ∧ BoardA.mission_count teamA = counts_total (BoardA.category_count teamA)
    ∧ BoardB.mission_count teamB = counts_total (BoardB.category_count teamB).
Proof.
  assert (HA : ∃ teamA, BoardA.teams (BoardA.game A_example_world) !! O = Some teamA).
  { vm_compute. eexists. reflexivity. }
  assert (HB : ∃ teamB, BoardB.teams (BoardB.game example_finished) !! O = Some teamB).
  { vm_compute. eexists. reflexivity. }
  destruct HA as [teamA HA]. destruct HB as [teamB HB].
  destruct (books_in_order A_example_world example_finished teamA teamB)
    as [(_ & _ & H1 & _) (_ & _ & H2 & _)].
  - apply A_run_reachable, A_fresh_reachable.
  - apply run_reachable, fresh_reachable.
  - by eapply list_elem_of_lookup_2.
  - by eapply list_elem_of_lookup_2.
  - exists teamA, teamB. split; [exact HA |]. split; [exact HB |]. split; [exact H1 | exact H2].
Defined.

(** The books of the first team of the example: six activities, three of
    them in one category, every category played. *)
Example A_example_books :
  (λ t, (BoardA.mission_count t, BoardA.set_bonus_taken t,
         count_of (BoardA.category_count t) "talk",
         count_of (BoardA.line_bonus_taken t) "talk"))
    <$> BoardA.teams (BoardA.game A_example_world) !! O
  = Some (6, 1, 3, 1).
Proof. vm_compute. reflexivity. Qed.

(** X8.  In every state a run reaches from a new game, the score of a
    team is at least 20 for each of its activities, 40 if it holds the
    set bonus and 25 for each tier of line bonus it holds, in both
    variants; in variant B no team has a negative number of throws
    left. *)
Theorem scores_cover_credit (wA : BoardA.World) (wB : BoardB.World)
    (teamA : BoardA.Team) (teamB : BoardB.Team)
    (HA : BoardA.reachable wA) (HB : BoardB.reachable wB)
    (HteamA : teamA ∈ BoardA.teams (BoardA.game wA))
    (HteamB : teamB ∈ BoardB.teams (BoardB.game wB)) :
  (20 * BoardA.mission_count teamA + 40 * BoardA.set_bonus_taken teamA
   + 25 * tiers_total (BoardA.category_count teamA) ≤ BoardA.score teamA)
  ∧ (20 * BoardB.mission_count teamB + 40 * BoardB.set_bonus_taken teamB
     + 25 * tiers_total (BoardB.category_count teamB) ≤ BoardB.score teamB)
  ∧ 0 ≤ BoardB.throw_chance teamB.
Proof.
  pose proof (A_books_reachable wA HA) as HallA.
  pose proof (B_books_reachable wB HB) as HallB.
  rewrite Forall_forall in HallA. rewrite Forall_forall in HallB.
  destruct (HallA teamA HteamA) as [_ H1]. destruct (HallB teamB HteamB) as (_ & H2 & H3).
  done.
Qed.

Lemma scores_cover_credit_witness :
  ∃ teamA teamB,
    BoardA.teams (BoardA.game A_example_world) !! O = Some teamA
    ∧ BoardB.teams (BoardB.game example_finished) !! O = Some teamB
    ∧ 20 * BoardA.mission_count teamA + 40 * BoardA.set_bonus_taken teamA
      + 25 * tiers_total (BoardA.category_count teamA) ≤ BoardA.score teamA
    ∧ 0 ≤ BoardB.throw_chance teamB.
Proof.
  assert (HA : ∃ teamA, BoardA.teams (BoardA.game A_example_world) !! O = Some teamA).
  { vm_compute. eexists. reflexivity. }
  assert (HB : ∃ teamB, BoardB.teams (BoardB.game example_finished) !! O = Some teamB).
  { vm_compute. eexists. reflexivity. }
  destruct HA as [teamA HA]. destruct HB as [teamB HB].
  destruct (scores_cover_credit A_example_world example_finished teamA teamB)
    as (H1 & _ & H3).
  - apply A_run_reachable, A_fresh_reachable.
  - apply run_reachable, fresh_reachable.
  - by eapply list_elem_of_lookup_2.
  - by eapply list_elem_of_lookup_2.
  - exists teamA, teamB. split; [exact HA |]. split; [exact HB |]. split; [exact H1 | exact H3].
Defined.

(** ** Dict subscripts in a run *)

(** X9.  In every state a run of calls reaches from a new game, in both
    variants, every dict subscript of [compute_bonus] and of
    [record_activity] finds its key: [compute_bonus] returns for every
    team of the game, and [record_activity] raises no [KeyError],
    [TypeError] or [AttributeError], whatever its arguments. *)
Theorem runs_raise_no_key_error (wA : BoardA.World) (wB : BoardB.World)
    (HA : BoardA.reachable wA) (HB : BoardB.reachable wB) :
  (∀ team, team ∈ BoardA.teams (BoardA.game wA) → ∃ r, BoardA.compute_bonus team = Ok r)
  ∧ (∀ clock team_id difficulty category participant_count title e,
       BoardA.record_activity clock team_id difficulty category participant_count title wA
       ≠ Raise e)
  ∧ (∀ team, team ∈ BoardB.teams (BoardB.game wB) → ∃ r, BoardB.compute_bonus team = Ok r)
  ∧ (∀ clock team_id difficulty category participant_count title e,
       BoardB.record_activity clock team_id difficulty category participant_count title wB
       ≠ Raise e).
Proof.
  pose proof (A_reachable_counts_ok wA HA) as HcA. rewrite Forall_forall in HcA.
  split; [| split; [| split]].
  - intros team Hteam. destruct (HcA team Hteam) as [Hc Hg].
    destruct (A_compute_bonus_spec team Hc Hg) as (bonus & taken' & granted' & -> & _).
    by eexists.
  - intros clock team_id difficulty category n title e He.
    destruct (A_record_activity_returns clock team_id difficulty category n title wA)
      as (res & w' & Hok); [by apply A_reachable_counts_ok | congruence].
  - intros team Hteam. destruct (B_reachable_counts_ok wB team HB Hteam) as [Hc Hg].
    destruct (B_compute_bonus_spec team Hc Hg) as (bonus & taken' & granted' & -> & _).
    by eexists.
  - intros clock team_id difficulty category n title e He.
    destruct (B_record_activity_returns clock team_id difficulty category n title wB)
      as (res & w' & Hok); [| congruence].
    intros team. by apply B_reachable_counts_ok.
Qed.

Lemma runs_raise_no_key_error_witness :
  BoardA.record_activity example_clock "team_1772366400001_1000" "hard" "help" 5 "x"
    A_example_world ≠ Raise (KeyError "help")
  ∧ BoardB.record_activity example_clock "team_1772366400001_1000" "hard" "help" 5 "x"
      example_finished ≠ Raise (KeyError "help")
  ∧ ∃ r, BoardB.compute_bonus example_finisher = Ok r.
Proof.
  destruct (runs_raise_no_key_error A_example_world example_finished) as (_ & H1 & H2 & H3).
  - apply A_run_reachable, A_fresh_reachable.
  - apply run_reachable, fresh_reachable.
  - split; [apply H1 |]. split; [apply H3 |].
    apply H2. apply (list_elem_of_lookup_2 _ 0%nat). vm_compute. reflexivity.
Defined.

(** Outside such states a call can raise: with a category missing from
    [category_count], bonus evaluation raises [KeyError]. *)
Example record_activity_missing_key :
  BoardB.record_activity example_clock "team_1772366400001_1000" "easy" "talk" 1 ""
    example_incomplete
  = Raise (KeyError "teamplay").
Proof. vm_compute. reflexivity. Qed.

(** ** What a run keeps *)

(** X10.  As long as the game is not reset, nothing a team has earned is
    taken away, in both variants: after any number of calls every team
    is still at its place in [teams] with the id and the name it had,
    and its score, its mission count and each of its category counts are
    no lower than before.  In variant B the throws its score granted are
    no fewer, a team that has finished keeps the time it finished at,
    and [finish_order] has only been added to at its end. *)
Theorem progress_is_kept (wA wA' : BoardA.World) (wB wB' : BoardB.World)
    (HA : rtc A_transition_keeping wA wA')
    (HB : rtc transition_keeping wB wB') :
  A_grows (BoardA.game wA) (BoardA.game wA')
  ∧ B_grows (BoardB.game wB) (BoardB.game wB').
Proof. split; [by apply A_grows_rtc | by apply B_grows_rtc]. Qed.

Lemma progress_is_kept_witness :
  ∃ wA' wB',
    A_grows (BoardA.game example_worldA) (BoardA.game wA')
    ∧ B_grows (BoardB.game example_race) (BoardB.game wB')
    ∧ BoardA.score <$> BoardA.teams (BoardA.game wA') = [85]
    ∧ BoardB.finish_order (BoardB.game wB')
      = ["team_1772366400004_1000"; "team_1772366400001_1000"].
Proof.
  assert (HA : ∃ wA',
    BoardA.exec (BoardA.RecordActivity example_clock "team_1772366400001_1000" "easy" "talk" 1 "")
      example_worldA = Ok (Some (true, "활동이 반영되었습니다."), wA')
    ∧ BoardA.score <$> BoardA.teams (BoardA.game wA') = [85]).
  { vm_compute. eexists. split; reflexivity. }
  assert (HB : ∃ msg wB',
    BoardB.exec (BoardB.ThrowYut example_clock 90%Q "team_1772366400001_1000") example_race
    = Ok (Some (true, msg), wB')
    ∧ BoardB.finish_order (BoardB.game wB')
      = ["team_1772366400004_1000"; "team_1772366400001_1000"]).
  { vm_compute. eexists _, _. split; reflexivity. }
  destruct HA as (wA' & HA & HsA). destruct HB as (msg & wB' & HB & HfB).
  destruct (progress_is_kept example_worldA wA' example_race wB') as [H1 H2].
  - apply rtc_once. eexists _, _. split; [| exact HA]. discriminate.
  - apply rtc_once. eexists _, _. split; [| exact HB]. discriminate.
  - exists wA', wB'. split; [exact H1 |]. split; [exact H2 |]. split; [exact HsA | exact HfB].
Defined.

(** ** Ids *)

(** X11.  [_new_id] gives different ids for different pairs of clock
    value and random draw.  So in a run from a new game in which no two
    calls of [add_team] see the same clock value together with the same
    draw, no two teams share an id, and the race invariant holds at the
    end: every position is between 0 and 50, a team has [finished_at] set
    exactly when it is at cell 50 and exactly when its id is in
    [finish_order], and no id is twice in [finish_order]. *)
Theorem fresh_draws_distinct_ids (calls : list BoardB.call)
    (Hdraws : NoDup (drawn calls)) :
  (∀ millis rand millis' rand',
     BoardB._new_id millis rand = BoardB._new_id millis' rand' →
     millis = millis' ∧ rand = rand')
  ∧ NoDup (ids (BoardB.game (run calls fresh_world)))
  ∧ race_invariant (BoardB.game (run calls fresh_world)).
Proof.
  split; [apply new_id_inj |].
  pose proof (run_ids_NoDup calls Hdraws) as Hids.
  split; [exact Hids |].
  apply game_ok_race_invariant; [| exact Hids].
  apply game_ok_reachable, run_reachable, fresh_reachable.
Qed.

Lemma fresh_draws_distinct_ids_witness :
  NoDup (ids (BoardB.game example_finished))
  ∧ race_invariant (BoardB.game example_finished).
Proof.
  destruct (fresh_draws_distinct_ids (example_calls 1772366400002)) as (_ & H1 & H2).
  - apply (bool_decide_unpack _). vm_compute. exact I.
  - split; [exact H1 | exact H2].
Defined.

(** ** The ranked view of variant A *)

(** X12.  In variant A the ranking does not depend on the order in which
    the teams were registered: two games that hold the same teams, with
    names that are all different, have the same [sorted_teams]. *)
Theorem A_ranking_canonical (g1 g2 : BoardA.Game)
    (Hsame : BoardA.teams g1 ≡ₚ BoardA.teams g2)
    (Hnames : NoDup (BoardA.name <$> BoardA.teams g1)) :
  BoardA.sorted_teams g1 = BoardA.sorted_teams g2.
Proof. by apply A_sorted_teams_unique. Qed.

Lemma A_ranking_canonical_witness :
  BoardA.sorted_teams example_tie = BoardA.sorted_teams example_tie_shuffled.
Proof.
  apply A_ranking_canonical.
  - unfold example_tie, example_tie_shuffled. cbn [BoardA.teams].
    etrans; [apply Permutation_swap |].
    etrans; [apply Permutation_skip, Permutation_swap |].
    apply Permutation_swap.
  - apply (bool_decide_unpack _). vm_compute. exact I.
Defined.

(** ** The two variants side by side *)

(** X13.  Variant B scores as variant A does.  From two games that hold
    the same teams as far as variant A knows them (id, name, score,
    mission count, category counts and bonuses taken), [add_team] and
    [record_activity] with the same arguments return the same result in
    both variants, or raise the same exception, and leave games that
    again hold the same teams.  So a run of such calls from a new game
    ends with the same teams and scores in both. *)
Theorem variants_score_alike (wA : BoardA.World) (wB : BoardB.World)
    (Hsame : same_scores wA wB) :
  (∀ millis rand clock name,
     (BoardA.add_team millis rand clock name wA).1 = (BoardB.add_team millis rand clock name wB).1
     ∧ same_scores (BoardA.add_team millis rand clock name wA).2
         (BoardB.add_team millis rand clock name wB).2)
  ∧ (∀ clock team_id difficulty category participant_count title,
       same_outcome
         (BoardA.record_activity clock team_id difficulty category participant_count title wA)
         (BoardB.record_activity clock team_id difficulty category participant_count title wB))
  ∧ (∀ calls, same_scores (A_run calls wA) (run (B_call <$> calls) wB)).
Proof.
  split; [intros; by apply add_team_same_scores |].
  split; [intros; by apply record_activity_same_scores |].
  intros calls. by apply run_same_scores.
Qed.

Lemma variants_score_alike_witness :
  same_scores A_example_world B_example_world
  ∧ BoardB.score <$> BoardB.teams (BoardB.game B_example_world) = [255; 80; 0].
Proof.
  destruct (variants_score_alike A_fresh_world fresh_world) as (_ & _ & H).
  - reflexivity.
  - split; [apply H | vm_compute; reflexivity].
Defined.

(** ** Validation in variant A *)

(** X15.  In variant A, [add_team] refuses exactly a name that is empty
    once stripped or that a team already has, and [record_activity], when
    it returns, refuses exactly an unknown team id, a difficulty or a
    category that is not one of the known ones, or fewer than one
    participant.  A call that refuses returns [False] with a reason that
    is not empty and leaves the game and the file as they were. *)
Theorem A_validation_failures
    (millis rand : Z) (clock : nat -> datetime)
    (name team_id difficulty category title : string) (participant_count : Z)
    (w : BoardA.World) :
  (A_add_team_invalid (BoardA.game w) name →
     ∃ reason, BoardA.add_team millis rand clock name w = ((false, reason), w)
               ∧ truthy reason = true)
  ∧ (¬ A_add_team_invalid (BoardA.game w) name →
     (BoardA.add_team millis rand clock name w).1.1 = true)
  ∧ (A_record_activity_invalid (BoardA.game w) team_id difficulty category participant_count →
     ∃ reason,
       BoardA.record_activity clock team_id difficulty category participant_count title w
       = Ok ((false, reason), w) ∧ truthy reason = true)
  ∧ (¬ A_record_activity_invalid (BoardA.game w) team_id difficulty category participant_count →
     ∀ reason w',
       BoardA.record_activity clock team_id difficulty category participant_count title w
       ≠ Ok ((false, reason), w')).
Proof.
  split; [apply A_add_team_refuses |].
  split; [apply A_add_team_accepts |].
  split; [apply A_record_activity_refuses |].
  apply A_record_activity_accepts.
Qed.

(** ** Picking a team by its name *)

(** X16.  The window of variant B finds the team the user picks.  In a
    state a run reaches from a new game, in which no two teams share an
    id, looking the name of a team up in the dict [refresh_all] builds
    gives the id of that team, and [find_team] with this id finds that
    very team, at its place in [teams]. *)
Theorem selected_team_is_found (w : BoardB.World) (i : nat) (team : BoardB.Team)
    (Hreach : BoardB.reachable w)
    (Hids : NoDup (ids (BoardB.game w)))
    (Hteam : BoardB.teams (BoardB.game w) !! i = Some team) :
  GuiB._selected_team_id (GuiB.team_name_to_id (BoardB.game w)) (BoardB.name team)
  = Some (BoardB.id team)
  ∧ BoardB.find_team (BoardB.game w) (BoardB.id team) = Some (i, team)
  ∧ GuiB._selected_team_id (GuiB.team_name_to_id (BoardB.game w)) "" = None.
Proof.
  split; [| split; [by apply find_team_distinct | done]].
  apply (selected_team_id_spec _ i); [| done]. by apply B_names_ok_reachable.
Qed.

Lemma selected_team_is_found_witness :
  GuiB._selected_team_id (GuiB.team_name_to_id (BoardB.game example_finished)) "B"
  = Some "team_1772366400002_1000"
  ∧ BoardB.find_team (BoardB.game example_finished) "team_1772366400002_1000"
    = Some (1%nat, BoardB.new_team "team_1772366400002_1000" "B").
Proof.
  destruct (selected_team_is_found example_finished 1%nat
              (BoardB.new_team "team_1772366400002_1000" "B")) as (H1 & H2 & _).
  - apply run_reachable, fresh_reachable.
  - apply (bool_decide_unpack _). vm_compute. exact I.
  - vm_compute. reflexivity.
  - split; [exact H1 | exact H2].
Defined.

(** With twins the window picks the wrong team: the name of the second
    team leads to the first. *)
Example selected_team_twins :
  GuiB._selected_team_id (GuiB.team_name_to_id (BoardB.game example_twins)) "B"
  = Some "team_1772366400001_1000"
  ∧ BoardB.name <$> (snd <$> BoardB.find_team (BoardB.game example_twins)
                               "team_1772366400001_1000")
    = Some "A".
Proof. split; vm_compute; reflexivity. Qed.
(** * The command line *)

Lemma with_out_nil st : with_out st [] = st.
Proof. destruct st. unfold with_out. cbn. by rewrite app_nil_r. Qed.

Lemma with_out_app st a b : with_out (with_out st a) b = with_out st (a ++ b).
Proof. unfold with_out. cbn. by rewrite app_assoc. Qed.

Lemma print_spec s st : Cli.print s st = Cli.Return (tt, with_out st [s +:+ Cli.nl]).
Proof. reflexivity. Qed.

Lemma print_all_spec lines st :
  Cli.print_all lines st = Cli.Return (tt, with_out st ((λ l, l +:+ Cli.nl) <$> lines)).
Proof.
  revert st. induction lines as [| l lines IH]; intros st; cbn.
  - by rewrite with_out_nil.
  - unfold mbind, Cli.M_bind. rewrite print_spec, IH. by rewrite with_out_app.
Qed.

Lemma bind_spec {A B} (m : Cli.M A) (k : A → Cli.M B) st :
  (m ≫= k) st = match m st with
                | Cli.Return (a, st') => k a st'
                | Cli.Throw e => Cli.Throw e
                end.
Proof. reflexivity. Qed.

Lemma enumerate_lookup {A} (l : list A) i x :
  l !! i = Some x → Cli.enumerate l !! i = Some (S i, x).
Proof.
  intros H. unfold Cli.enumerate. apply lookup_zip_with_Some. exists (S i), x.
  split; [done |]. split; [| done].
  apply lookup_seq. split; [done |]. by eapply lookup_lt_Some.
Qed.

(** ** [pick_team] *)

Lemma pick_team_inv isdigit int prompt st :
  let g := BoardB.game (Cli.world st) in
  match Cli.pick_team isdigit int prompt st with
  | Cli.Return (picked, st') =>
      Cli.world st' = Cli.world st ∧ Cli.calls st' = Cli.calls st
      ∧ match picked with
        | Some team_id =>
            ∃ line idx team,
              Cli.stdin st = line :: Cli.stdin st'
              ∧ isdigit (strip line) = true
              ∧ int (strip line) = Some idx ∧ 1 ≤ idx
              ∧ BoardB.teams g !! Z.to_nat (idx - 1) = Some team
              ∧ team_id = BoardB.id team
              ∧ listed (Z.to_nat idx) team ∈ Cli.stdout st'
        | None =>
            (BoardB.teams g = [] ∧ Cli.stdin st' = Cli.stdin st)
            ∨ ∃ line,
                Cli.stdin st = line :: Cli.stdin st'
                ∧ (isdigit (strip line) = false
                   ∨ ∃ idx, int (strip line) = Some idx
                            ∧ (idx < 1 ∨ Z.of_nat (length (BoardB.teams g)) < idx))
        end
  | Cli.Throw e =>
      BoardB.teams g ≠ []
      ∧ ((e = Cli.EOFError ∧ Cli.stdin st = [])
         ∨ (e = Cli.ValueError
            ∧ ∃ line, head (Cli.stdin st) = Some line
                      ∧ isdigit (strip line) = true ∧ int (strip line) = None))
  end.
Proof.
  intros g. unfold Cli.pick_team. rewrite bind_spec. cbn [Cli.get_game].
  fold g. destruct (BoardB.teams g) as [| t0 ts] eqn:Hteams.
  { rewrite bind_spec, print_spec. cbn. auto. }
  rewrite <- Hteams.
  rewrite bind_spec, print_spec, bind_spec, print_all_spec, with_out_app, bind_spec.
  unfold Cli.input at 1. cbn [with_out Cli.stdin Cli.world Cli.calls Cli.stdout].
  assert (Hne : BoardB.teams g ≠ []) by (rewrite Hteams; done).
  destruct (Cli.stdin st) as [| line rest] eqn:Hin; [by auto |].
  destruct (isdigit (strip line)) eqn:Hd; cbn [negb].
  2: { rewrite bind_spec, print_spec. cbn. repeat split; try done. right. exists line. auto. }
  destruct (int (strip line)) as [idx |] eqn:Hint.
  2: { cbn. split; [done |]. right. split; [done |]. by exists line. }
  destruct ((idx <? 1) || (Z.of_nat (length (BoardB.teams g)) <? idx)) eqn:Hrange.
  { rewrite bind_spec, print_spec. cbn. repeat split; try done. right. exists line.
    split; [done |]. right. exists idx. split; [done |].
    apply orb_true_iff in Hrange. lia. }
  apply orb_false_iff in Hrange as [H1 H2].
  destruct (BoardB.teams g !! Z.to_nat (idx - 1)) as [team |] eqn:Hteam.
  2: { apply lookup_ge_None in Hteam. lia. }
  cbn. repeat split; try done.
  exists line, idx, team. repeat split; try done; [lia |].
  apply elem_of_app. left. apply elem_of_app. right. apply elem_of_cons. right.
  apply list_elem_of_fmap. eexists. split; [| apply list_elem_of_fmap; eexists; split; [reflexivity |];
    eapply list_elem_of_lookup_2, enumerate_lookup, Hteam].
  cbn. unfold listed. replace (S (Z.to_nat (idx - 1))) with (Z.to_nat idx) by lia.
  by rewrite !string_app_assoc.
Qed.

Lemma pick_team_reads isdigit int prompt st picked st' :
  Cli.pick_team isdigit int prompt st = Cli.Return (picked, st') →
  Cli.stdin st' `suffix_of` Cli.stdin st.
Proof.
  intros H. pose proof (pick_team_inv isdigit int prompt st) as Hinv.
  rewrite H in Hinv. cbv zeta in Hinv. destruct Hinv as (_ & _ & Hp).
  destruct picked.
  - destruct Hp as (line & _ & _ & -> & _). by apply suffix_cons_r.
  - destruct Hp as [[_ ->] | (line & -> & _)]; [done | by apply suffix_cons_r].
Qed.

(** ** The flows *)

Lemma difficulty_alias_valid k v :
  Cli.difficulty_alias !! k = Some v → truthy v = true ∧ is_Some (DIFFICULTY_POINTS !! v).
Proof.
  unfold Cli.difficulty_alias. intros H. apply elem_of_list_to_map_2 in H.
  repeat (apply elem_of_cons in H as [H | H];
          [injection H as -> ->; split; [done | by eexists] |]).
  by apply elem_of_nil in H.
Qed.

Lemma category_alias_valid k v :
  Cli.category_alias !! k = Some v → truthy v = true ∧ v ∈ CATEGORIES.
Proof.
  unfold Cli.category_alias. intros H. apply elem_of_list_to_map_2 in H.
  repeat (apply elem_of_cons in H as [H | H];
          [injection H as -> ->; split; [done | unfold CATEGORIES; set_solver] |]).
  by apply elem_of_nil in H.
Qed.

Lemma record_activity_flow_inv envs isdigit int st :
  let g := BoardB.game (Cli.world st) in
  match Cli.record_activity_flow envs isdigit int st with
  | Cli.Return (_, st') =>
      Cli.stdin st' `suffix_of` Cli.stdin st
      ∧ ((Cli.world st' = Cli.world st ∧ Cli.calls st' = Cli.calls st)
         ∨ ∃ team difficulty category participant_count title ok msg,
             team ∈ BoardB.teams g
             ∧ is_Some (DIFFICULTY_POINTS !! difficulty)
             ∧ category ∈ CATEGORIES
             ∧ BoardB.record_activity (Cli.clock (envs (Cli.calls st))) (BoardB.id team)
                 difficulty category participant_count title (Cli.world st)
               = Ok ((ok, msg), Cli.world st')
             ∧ Cli.calls st' = S (Cli.calls st)
             ∧ last (Cli.stdout st') = Some (msg +:+ Cli.nl))
  | Cli.Throw e =>
      e = Cli.EOFError
      ∨ (e = Cli.ValueError ∧ ∃ s, isdigit s = true ∧ int s = None)
      ∨ ∃ e0 team_id difficulty category participant_count title,
          e = Cli.Engine e0
          ∧ BoardB.record_activity (Cli.clock (envs (Cli.calls st))) team_id
              difficulty category participant_count title (Cli.world st)
            = Raise e0
  end.
Proof.
  intros g. unfold Cli.record_activity_flow. rewrite bind_spec.
  pose proof (pick_team_inv isdigit int "활동 팀 선택" st) as Hpick.
  destruct (Cli.pick_team isdigit int "활동 팀 선택" st) as [[picked st1] | e] eqn:Epick.
  2: { destruct Hpick as (_ & [[-> _] | (-> & line & _ & Hd & Hi)]); [by left |].
       right. left. split; [done |]. eauto. }
  pose proof (pick_team_reads _ _ _ _ _ _ Epick) as Hsuf1.
  cbv zeta in Hpick. fold g in Hpick. destruct Hpick as (Hw1 & Hc1 & Hp).
  destruct (truthy_opt picked) eqn:Htruthy; cbn [negb].
  2: { cbn. split; [done |]. by left. }
  destruct picked as [team_id |]; [| done].
  destruct Hp as (line0 & idx & team & Hin0 & Hd0 & Hint0 & Hidx & Hteam & -> & _).
  destruct st1 as [w1 in1 out1 c1]. cbn in Hw1, Hc1, Hsuf1. subst w1 c1. clear Hin0.
  rewrite bind_spec. unfold Cli.input at 1. cbn [Cli.stdin Cli.world Cli.stdout Cli.calls].
  destruct in1 as [| l1 in1]; [by left |].
  rewrite bind_spec. unfold Cli.input at 1. cbn [Cli.stdin Cli.world Cli.stdout Cli.calls].
  destruct in1 as [| l2 in1]; [by left |].
  rewrite bind_spec. unfold Cli.input at 1. cbn [Cli.stdin Cli.world Cli.stdout Cli.calls].
  destruct in1 as [| l3 in1]; [by left |].
  rewrite bind_spec. unfold Cli.input at 1. cbn [Cli.stdin Cli.world Cli.stdout Cli.calls].
  destruct in1 as [| l4 in1]; [by left |].
  assert (Hsuf : in1 `suffix_of` Cli.stdin st).
  { etrans; [| exact Hsuf1]. do 4 apply suffix_cons_r. done. }
  set (participant_raw := if truthy (strip l3) then strip l3 else "2").
  destruct (isdigit participant_raw) eqn:Hd; cbn [negb].
  2: { rewrite print_spec. cbn. split; [done |]. by left. }
  set (dkey := if Cli.isascii (strip l1) then _ else _).
  set (ckey := if Cli.isascii (strip l2) then _ else _).
  destruct (Cli.difficulty_alias !! dkey) as [difficulty |] eqn:Hdiff; cbn [truthy_opt negb].
  2: { rewrite print_spec. cbn. split; [done |]. by left. }
  destruct (difficulty_alias_valid _ _ Hdiff) as [-> Hdv]. cbn [negb].
  destruct (Cli.category_alias !! ckey) as [category |] eqn:Hcat; cbn [truthy_opt negb].
  2: { rewrite print_spec. cbn. split; [done |]. by left. }
  destruct (category_alias_valid _ _ Hcat) as [-> Hcv]. cbn [negb].
  destruct (int participant_raw) as [participant_count |] eqn:Hint.
  2: { right. left. split; [done |]. eauto. }
  rewrite bind_spec. unfold Cli.record_activity at 1.
  cbn [Cli.stdin Cli.world Cli.stdout Cli.calls].
  destruct (BoardB.record_activity _ _ _ _ _ _ _) as [[[ok msg] w'] | e0] eqn:Ecall.
  2: { right. right. eauto 10. }
  rewrite print_spec. cbn. split; [done |]. right.
  exists team, difficulty, category, participant_count, (strip l4), ok, msg.
  repeat split; try done.
  - by eapply list_elem_of_lookup_2.
  - by rewrite last_snoc.
Qed.

Lemma throw_yut_flow_inv envs isdigit int st :
  let g := BoardB.game (Cli.world st) in
  match Cli.throw_yut_flow envs isdigit int st with
  | Cli.Return (_, st') =>
      Cli.stdin st' `suffix_of` Cli.stdin st
      ∧ ((Cli.world st' = Cli.world st ∧ Cli.calls st' = Cli.calls st)
         ∨ ∃ team ok msg,
             team ∈ BoardB.teams g
             ∧ BoardB.throw_yut (Cli.clock (envs (Cli.calls st))) (Cli.draw (envs (Cli.calls st)))
                 (BoardB.id team) (Cli.world st)
               = ((ok, msg), Cli.world st')
             ∧ Cli.calls st' = S (Cli.calls st)
             ∧ last (Cli.stdout st') = Some (msg +:+ Cli.nl))
  | Cli.Throw e =>
      e = Cli.EOFError ∨ (e = Cli.ValueError ∧ ∃ s, isdigit s = true ∧ int s = None)
  end.
Proof.
  intros g. unfold Cli.throw_yut_flow. rewrite bind_spec.
  pose proof (pick_team_inv isdigit int "던질 팀 선택" st) as Hpick.
  destruct (Cli.pick_team isdigit int "던질 팀 선택" st) as [[picked st1] | e] eqn:Epick.
  2: { destruct Hpick as (_ & [[-> _] | (-> & line & _ & Hd & Hi)]); [by left |].
       right. split; [done |]. eauto. }
  pose proof (pick_team_reads _ _ _ _ _ _ Epick) as Hsuf1.
  cbv zeta in Hpick. fold g in Hpick. destruct Hpick as (Hw1 & Hc1 & Hp).
  destruct (truthy_opt picked) eqn:Htruthy; cbn [negb].
  2: { cbn. split; [done |]. by left. }
  destruct picked as [team_id |]; [| done].
  destruct Hp as (line0 & idx & team & Hin0 & Hd0 & Hint0 & Hidx & Hteam & -> & _).
  destruct st1 as [w1 in1 out1 c1]. cbn in Hw1, Hc1, Hsuf1. subst w1 c1. clear Hin0.
  rewrite bind_spec. unfold Cli.throw_yut at 1.
  cbn [Cli.stdin Cli.world Cli.stdout Cli.calls].
  destruct (BoardB.throw_yut _ _ _ _) as [[ok msg] w'] eqn:Ecall.
  rewrite print_spec. cbn. split; [done |]. right.
  exists team, ok, msg. repeat split; try done.
  - by eapply list_elem_of_lookup_2.
  - by rewrite last_snoc.
Qed.

(** ** [print_status] and [print_logs] *)

Lemma print_status_spec st :
  ∃ out, Cli.print_status st = Cli.Return (tt, with_out st out).
Proof.
  unfold Cli.print_status. rewrite bind_spec. cbn [Cli.get_game].
  rewrite bind_spec, print_spec.
  destruct (BoardB.teams _); [rewrite print_spec, with_out_app; eauto |].
  repeat first [rewrite bind_spec | rewrite print_spec | rewrite print_all_spec
               | rewrite with_out_app].
  eauto.
Qed.

Lemma print_logs_spec n st :
  ∃ out, Cli.print_logs n st = Cli.Return (tt, with_out st out).
Proof.
  unfold Cli.print_logs. rewrite bind_spec. cbn [Cli.get_game].
  rewrite bind_spec, print_spec.
  destruct (BoardB.logs _); [rewrite print_spec, with_out_app; eauto |].
  repeat first [rewrite bind_spec | rewrite print_spec | rewrite print_all_spec
               | rewrite with_out_app].
  eauto.
Qed.

(** ** A round of [main] *)

Lemma session_keeps_refl w : session_keeps w w.
Proof. split; [done | by left]. Qed.

Lemma session_keeps_trans w1 w2 w3 :
  session_keeps w1 w2 → session_keeps w2 w3 → session_keeps w1 w3.
Proof.
  intros [H1 S1] [H2 S2]. split; [by etrans |].
  destruct S2 as [-> | S2]; [done | by right].
Qed.

Lemma exec_keeps c w res w' : BoardB.exec c w = Ok (res, w') → session_keeps w w'.
Proof.
  intros H. split; [apply rtc_once; by exists c, res |].
  pose proof (B_exec_saved _ _ _ _ H) as Hs.
  destruct res as [[[] ?] |]; auto.
Qed.

Lemma round_inv envs isdigit int lower st :
  match Cli.round envs isdigit int lower st with
  | Cli.Return (again, st') =>
      ∃ line rest,
        Cli.stdin st = line :: rest
        ∧ Cli.stdin st' `suffix_of` rest
        ∧ session_keeps (Cli.world st) (Cli.world st')
        ∧ if again then strip line ≠ "0"
          else strip line = "0" ∧ Cli.world st' = Cli.world st
               ∧ last (Cli.stdout st') = Some ("종료합니다." +:+ Cli.nl)
  | Cli.Throw e =>
      e = Cli.EOFError
      ∨ (e = Cli.ValueError ∧ ∃ s, isdigit s = true ∧ int s = None)
      ∨ ∃ e0 c, e = Cli.Engine e0 ∧ BoardB.exec c (Cli.world st) = Raise e0
  end.
Proof.
  unfold Cli.round. rewrite bind_spec, print_spec, bind_spec.
  unfold Cli.input at 1. cbn [with_out Cli.stdin Cli.world Cli.stdout Cli.calls].
  destruct (Cli.stdin st) as [| line rest] eqn:Hin; [by left |].
  set (st1 := Cli.mkState _ _ _ _).
  assert (Hw1 : Cli.world st1 = Cli.world st) by done.
  assert (Hin1 : Cli.stdin st1 = rest) by done.
  clearbody st1.
  destruct (String.eqb (strip line) "1") eqn:E1.
  { apply String.eqb_eq in E1. rewrite bind_spec.
    destruct (print_status_spec st1) as [out ->]. cbn.
    exists line, rest. split; [done |]. split; [| split].
    - by rewrite Hin1.
    - rewrite Hw1. apply session_keeps_refl.
    - by rewrite E1. }
  destruct (String.eqb (strip line) "2") eqn:E2.
  { apply String.eqb_eq in E2. rewrite bind_spec.
    unfold Cli.input at 1. rewrite Hin1.
    destruct rest as [| name rest']; [by left |].
    cbn [Cli.stdin Cli.world Cli.stdout Cli.calls].
    rewrite bind_spec. unfold Cli.add_team at 1.
    cbn [Cli.stdin Cli.world Cli.stdout Cli.calls].
    destruct (BoardB.add_team _ _ _ _ _) as [[ok msg] w'] eqn:Ecall.
    cbn. exists line, (name :: rest'). split; [done |]. split; [| split].
    - by apply suffix_cons_r.
    - eapply (exec_keeps (BoardB.AddTeam _ _ _ _)). cbn. rewrite Hw1 in Ecall.
      by rewrite Ecall.
    - by rewrite E2. }
  destruct (String.eqb (strip line) "3") eqn:E3.
  { apply String.eqb_eq in E3. rewrite bind_spec.
    pose proof (record_activity_flow_inv envs isdigit int st1) as Hflow.
    destruct (Cli.record_activity_flow envs isdigit int st1) as [[[] st2] | e].
    - cbv zeta in Hflow. destruct Hflow as [Hsuf Hcall]. cbn.
      exists line, rest. rewrite Hin1 in Hsuf. split; [done |]. split; [done | split].
      + destruct Hcall as [[-> _] | Hcall]; [rewrite Hw1; apply session_keeps_refl |].
        destruct Hcall as (team & difficulty & category & n & title & ok & msg
                           & _ & _ & _ & Hcall & _).
        rewrite Hw1 in Hcall.
        eapply (exec_keeps (BoardB.RecordActivity _ _ _ _ _ _)). cbn.
        rewrite Hcall. reflexivity.
      + by rewrite E3.
    - destruct Hflow as [-> | [Hv | Hraise]]; [by left | by right; left |].
      right. right.
      destruct Hraise as (e0 & team_id & difficulty & category & n & title & -> & Hcall).
      rewrite Hw1 in Hcall.
      exists e0, (BoardB.RecordActivity (Cli.clock (envs (Cli.calls st1))) team_id difficulty
                    category n title).
      split; [done |]. cbn. by rewrite Hcall. }
  destruct (String.eqb (strip line) "4") eqn:E4.
  { apply String.eqb_eq in E4. rewrite bind_spec.
    pose proof (throw_yut_flow_inv envs isdigit int st1) as Hflow.
    destruct (Cli.throw_yut_flow envs isdigit int st1) as [[[] st2] | e].
    - cbv zeta in Hflow. destruct Hflow as [Hsuf Hcall]. cbn.
      exists line, rest. rewrite Hin1 in Hsuf. split; [done |]. split; [done | split].
      + destruct Hcall as [[-> _] | Hcall]; [rewrite Hw1; apply session_keeps_refl |].
        destruct Hcall as (team & ok & msg & _ & Hcall & _).
        rewrite Hw1 in Hcall.
        eapply (exec_keeps (BoardB.ThrowYut _ _ _)). cbn.
        rewrite Hcall. reflexivity.
      + by rewrite E4.
    - destruct Hflow as [-> | Hv]; [by left | by right; left]. }
  destruct (String.eqb (strip line) "5") eqn:E5.
  { apply String.eqb_eq in E5. rewrite bind_spec.
    destruct (print_logs_spec 15 st1) as [out ->]. cbn.
    exists line, rest. split; [done |]. split; [| split].
    - by rewrite Hin1.
    - rewrite Hw1. apply session_keeps_refl.
    - by rewrite E5. }
  destruct (String.eqb (strip line) "6") eqn:E6.
  { apply String.eqb_eq in E6. rewrite bind_spec.
    unfold Cli.input at 1. rewrite Hin1.
    destruct rest as [| answer rest']; [by left |].
    cbn [Cli.stdin Cli.world Cli.stdout Cli.calls].
    destruct (String.eqb (lower (strip answer)) "y").
    - cbn. exists line, (answer :: rest'). split; [done |]. split; [| split].
      + by apply suffix_cons_r.
      + rewrite Hw1. by eapply (exec_keeps BoardB.Reset).
      + by rewrite E6.
    - cbn. exists line, (answer :: rest'). split; [done |]. split; [| split].
      + by apply suffix_cons_r.
      + rewrite Hw1. apply session_keeps_refl.
      + by rewrite E6. }
  destruct (String.eqb (strip line) "0") eqn:E0.
  { apply String.eqb_eq in E0. cbn.
    exists line, rest. split; [done |]. split; [| split].
    - by rewrite Hin1.
    - rewrite Hw1. apply session_keeps_refl.
    - split; [done |]. split; [done |]. cbn [Cli.stdout]. by rewrite last_snoc. }
  apply String.eqb_neq in E0. cbn.
  exists line, rest. split; [done |]. split; [| split].
  - by rewrite Hin1.
  - rewrite Hw1. apply session_keeps_refl.
  - done.
Qed.

Lemma loop_inv envs isdigit int lower rounds st :
  (length (Cli.stdin st) < rounds)%nat →
  ∃ r, Cli.loop envs isdigit int lower rounds st = Some r
       ∧ match r with
         | Cli.Return (_, st') =>
             session_keeps (Cli.world st) (Cli.world st')
             ∧ (∃ line, line ∈ Cli.stdin st ∧ strip line = "0")
             ∧ last (Cli.stdout st') = Some ("종료합니다." +:+ Cli.nl)
         | Cli.Throw e =>
             e = Cli.EOFError
             ∨ (e = Cli.ValueError ∧ ∃ s, isdigit s = true ∧ int s = None)
             ∨ ∃ e0 c w, e = Cli.Engine e0 ∧ rtc BoardB.transition (Cli.world st) w
                         ∧ BoardB.exec c w = Raise e0
         end.
Proof.
  revert st. induction rounds as [| rounds IH]; intros st Hlen; [lia |].
  cbn [Cli.loop]. pose proof (round_inv envs isdigit int lower st) as Hround.
  destruct (Cli.round envs isdigit int lower st) as [[again st1] | e].
  2: { eexists. split; [done |]. destruct Hround as [-> | [Hv | (e0 & c & -> & Hc)]];
       [by left | by right; left |]. right. right. by exists e0, c, (Cli.world st). }
  destruct Hround as (line & rest & Hin & Hsuf & Hkeeps & Hagain).
  destruct again.
  - destruct (IH st1) as (r & -> & Hr).
    { apply suffix_length in Hsuf. rewrite Hin in Hlen. cbn in Hlen. lia. }
    exists r. split; [done |]. destruct r as [[[] st2] | e].
    + destruct Hr as (Hkeeps' & (line' & Hin' & Hzero) & Hlast).
      split; [by eapply session_keeps_trans |]. split; [| done].
      exists line'. split; [| done]. rewrite Hin. apply elem_of_cons. right.
      destruct Hsuf as [k ->]. apply elem_of_app. by right.
    + destruct Hr as [-> | [Hv | (e0 & c & w & -> & Hrtc & Hc)]];
        [by left | by right; left |].
      right. right. exists e0, c, w. split; [done |]. split; [| done].
      destruct Hkeeps as [Hk _]. by etrans.
  - destruct Hagain as (Hzero & Hw & Hlast). eexists. split; [done |].
    split; [done |]. split; [| done].
    exists line. split; [| done]. rewrite Hin. by left.
Qed.

Lemma find_team_elem g team :
  team ∈ BoardB.teams g → BoardB.find_team g (BoardB.id team) ≠ None.
Proof.
  intros Hin. unfold BoardB.find_team.
  destruct (list_find_elem_of (λ t, BoardB.id t = BoardB.id team) _ _ Hin eq_refl)
    as [[j t'] ->]. done.
Qed.

(** ** The properties *)

(** X17.  [pick_team] gives the team the user chose from the list it
    printed, and nothing else.  When it returns an id, it has read one
    line, [isdigit] accepts that line once stripped, [int] reads a
    number from it that is at least 1 and at most the number of teams,
    and the id is that of the team it listed under this number; when it
    returns [None], there is no team and nothing was read, or the line
    it read is refused by [isdigit] or gives a number out of this range.
    It leaves the game as it is.  It raises [EOFError] when there is a
    team but no line to read, [ValueError] when [isdigit] accepts a
    line that [int] cannot read, and nothing else: the index it takes
    is within [teams]. *)
Theorem pick_team_picks_listed (isdigit : string -> bool) (int : string -> option Z)
    (prompt : string) (st : Cli.State) :
  let g := BoardB.game (Cli.world st) in
  match Cli.pick_team isdigit int prompt st with
  | Cli.Return (picked, st') =>
      Cli.world st' = Cli.world st ∧ Cli.calls st' = Cli.calls st
      ∧ match picked with
        | Some team_id =>
            ∃ line idx team,
              Cli.stdin st = line :: Cli.stdin st'
              ∧ isdigit (strip line) = true
              ∧ int (strip line) = Some idx ∧ 1 ≤ idx
              ∧ BoardB.teams g !! Z.to_nat (idx - 1) = Some team
              ∧ team_id = BoardB.id team
              ∧ listed (Z.to_nat idx) team ∈ Cli.stdout st'
        | None =>
            (BoardB.teams g = [] ∧ Cli.stdin st' = Cli.stdin st)
            ∨ ∃ line,
                Cli.stdin st = line :: Cli.stdin st'
                ∧ (isdigit (strip line) = false
                   ∨ ∃ idx, int (strip line) = Some idx
                            ∧ (idx < 1 ∨ Z.of_nat (length (BoardB.teams g)) < idx))
        end
  | Cli.Throw e =>
      BoardB.teams g ≠ []
      ∧ ((e = Cli.EOFError ∧ Cli.stdin st = [])
         ∨ (e = Cli.ValueError
            ∧ ∃ line, head (Cli.stdin st) = Some line
                      ∧ isdigit (strip line) = true ∧ int (strip line) = None))
  end.
Proof. apply pick_team_inv. Qed.

Example pick_team_example :
  ∃ st', Cli.pick_team example_isdigit example_int "던질 팀 선택" example_picking
         = Cli.Return (Some "team_1772366400002_1001", st')
         ∧ Cli.stdin st' = ["hard"; "talk"; "0"; ""]
         ∧ last (Cli.stdout st') = Some "던질 팀 선택 (번호): ".
Proof. vm_compute. eexists. split; [reflexivity |]. split; reflexivity. Qed.

(** X18.  The flows hand the engine only what they have checked.  When
    [record_activity_flow] returns it has called [record_activity] once
    or not at all; when it has, then with the id of a team of the game,
    a difficulty that is a key of [DIFFICULTY_POINTS] and a category
    that is one of [CATEGORIES], so that the call is refused exactly
    when the number of participants is below 1, and the flow printed
    the message of the call last.  When [throw_yut_flow] returns it has
    called [throw_yut] once or not at all; when it has, then with the id
    of a team of the game, which [find_team] finds, and it printed the
    message of the call last. *)
Theorem flows_pass_checked_arguments (envs : nat -> Cli.Env)
    (isdigit : string -> bool) (int : string -> option Z) :
  (∀ st st',
     Cli.record_activity_flow envs isdigit int st = Cli.Return (tt, st') →
     activity_flow_checked envs st st')
  ∧ (∀ st st',
       Cli.throw_yut_flow envs isdigit int st = Cli.Return (tt, st') →
       throw_flow_checked envs st st').
Proof.
  split.
  - intros st st' Ha.
    pose proof (record_activity_flow_inv envs isdigit int st) as H. rewrite Ha in H.
    cbv zeta in H. destruct H as [_ [H | H]]; [by left | right].
    destruct H as (team & difficulty & category & n & title & ok & msg
                   & Hteam & Hd & Hc & Hcall & Hcalls & Hlast).
    exists team, difficulty, category, n, title, ok, msg.
    repeat split; try done.
    + intros ->. destruct (decide (n < 1)) as [| Hn]; [done | exfalso].
      eapply (record_activity_accepts _ _ _ _ n); [| exact Hcall].
      unfold record_activity_invalid. intros [Hf | [Hdd | [Hcc | Hnn]]]; try done.
      * by eapply find_team_elem.
      * rewrite Hdd in Hd. by destruct Hd.
    + intros Hn.
      destruct (record_activity_refuses (Cli.clock (envs (Cli.calls st))) (BoardB.id team)
                  difficulty category n title (Cli.world st)) as (reason & Hr & _).
      { right. right. by right. }
      rewrite Hr in Hcall. by injection Hcall as <- _ _.
  - intros st st' Ht.
    pose proof (throw_yut_flow_inv envs isdigit int st) as H. rewrite Ht in H.
    cbv zeta in H. destruct H as [_ [H | H]]; [by left | right].
    destruct H as (team & ok & msg & Hteam & Hcall & Hcalls & Hlast).
    exists team, ok, msg. repeat split; try done. by apply find_team_elem.
Qed.

(** An activity for the second team that the engine refuses, since the
    user gave 0 participants; and a throw asked for with one line, for
    the first team, which has no throw to make. *)
Lemma flows_pass_checked_arguments_witness :
  ∃ st_a' st_t',
    Cli.record_activity_flow example_envs example_isdigit example_int example_picking
    = Cli.Return (tt, st_a')
    ∧ Cli.throw_yut_flow example_envs example_isdigit example_int example_throwing
      = Cli.Return (tt, st_t')
    ∧ Cli.calls st_a' = 1%nat
    ∧ Cli.calls st_t' = 1%nat
    ∧ activity_flow_checked example_envs example_picking st_a'
    ∧ throw_flow_checked example_envs example_throwing st_t'.
Proof.
  assert (Ha : ∃ st_a',
    Cli.record_activity_flow example_envs example_isdigit example_int example_picking
    = Cli.Return (tt, st_a') ∧ Cli.calls st_a' = 1%nat).
  { vm_compute. eexists. split; reflexivity. }
  assert (Ht : ∃ st_t',
    Cli.throw_yut_flow example_envs example_isdigit example_int example_throwing
    = Cli.Return (tt, st_t') ∧ Cli.calls st_t' = 1%nat).
  { vm_compute. eexists. split; reflexivity. }
  destruct Ha as (st_a' & Ha & Hca). destruct Ht as (st_t' & Ht & Hct).
  exists st_a', st_t'. split; [exact Ha |]. split; [exact Ht |].
  split; [exact Hca |]. split; [exact Hct |].
  destruct (flows_pass_checked_arguments example_envs example_isdigit example_int)
    as [HA HT].
  split; [by apply HA | by apply HT].
Defined.

(** The user who answers 0 to the number of participants gets the
    refusal of the engine: [isdigit] lets the 0 through. *)
Example flow_zero_participants :
  ∃ st', Cli.record_activity_flow example_envs example_isdigit example_int example_picking
         = Cli.Return (tt, st')
         ∧ Cli.world st' = Cli.world example_picking
         ∧ last (Cli.stdout st') = Some ("참여 인원은 1명 이상이어야 합니다." +:+ Cli.nl).
Proof. vm_compute. eexists. split; [reflexivity |]. split; reflexivity. Qed.

(** X19.  A session of [main] ends, and a session that ends by the menu
    has saved what it changed.  From a game a run of calls has made,
    whatever lines the input holds: the loop ends within as many rounds
    as there are lines, and one more.  When it ends by the menu entry 0,
    a line of the input is 0 once stripped, the game is again one a run
    of calls makes, it is the game the session began with or the one in
    the file, and the last line written is the farewell.  When it ends
    by an exception, this is no [KeyError], [TypeError] or
    [AttributeError] of the engine and no [IndexError]. *)
Theorem session_ends_saved (envs : nat -> Cli.Env)
    (isdigit : string -> bool) (int : string -> option Z) (lower : string -> string)
    (st : Cli.State)
    (Hreach : BoardB.reachable (Cli.world st)) :
  ∃ r, Cli.loop envs isdigit int lower (S (length (Cli.stdin st))) st = Some r
       ∧ match r with
         | Cli.Return (_, st') =>
             BoardB.reachable (Cli.world st')
             ∧ (Cli.world st' = Cli.world st
                ∨ Cli.world st' = BoardB.save (BoardB.game (Cli.world st')))
             ∧ (∃ line, line ∈ Cli.stdin st ∧ strip line = "0")
             ∧ last (Cli.stdout st') = Some ("종료합니다." +:+ Cli.nl)
         | Cli.Throw e => (∀ e0, e ≠ Cli.Engine e0) ∧ e ≠ Cli.IndexError
         end.
Proof.
  destruct (loop_inv envs isdigit int lower (S (length (Cli.stdin st))) st) as (r & Hr & H);
    [lia |].
  exists r. split; [done |]. destruct r as [[[] st'] | e].
  - destruct H as ([Hrtc Hsaved] & Hline & Hlast). repeat split; try done.
    destruct Hreach as [f Hf]. exists f. by etrans.
  - destruct H as [-> | [[-> _] | (e0 & c & w & -> & Hrtc & Hc)]]; [done | done |].
    exfalso. destruct (B_exec_returns c w) as (res & w' & Hok); [| congruence].
    destruct Hreach as [f Hf]. exists f. by etrans.
Qed.

Lemma session_ends_saved_witness :
  ∃ st',
    Cli.loop example_envs example_isdigit example_int Cli.ascii_lower 12 example_session
    = Some (Cli.Return (tt, st'))
    ∧ BoardB.reachable (Cli.world st')
    ∧ Cli.world st' = BoardB.save (BoardB.game (Cli.world st'))
    ∧ last (Cli.stdout st') = Some ("종료합니다." +:+ Cli.nl).
Proof.
  destruct (session_ends_saved example_envs example_isdigit example_int Cli.ascii_lower
              example_session fresh_reachable) as (r & Hr & H).
  assert (Hrun : ∃ st',
    Cli.loop example_envs example_isdigit example_int Cli.ascii_lower 12 example_session
    = Some (Cli.Return (tt, st'))
    ∧ Cli.world st' = BoardB.save (BoardB.game (Cli.world st'))).
  { vm_compute. eexists. split; reflexivity. }
  destruct Hrun as (st' & Hrun & Hsaved). exists st'.
  change (S (length (Cli.stdin example_session))) with 12%nat in Hr.
  rewrite Hrun in Hr. injection Hr as <-.
  destruct H as (Hreach & _ & _ & Hlast). repeat split; done.
Defined.

Example example_session_result :
  ∃ st',
    Cli.loop example_envs example_isdigit example_int Cli.ascii_lower 12 example_session
    = Some (Cli.Return (tt, st'))
    ∧ (λ t, (BoardB.name t, BoardB.score t, BoardB.category_count t !! "teamplay"))
        <$> BoardB.teams (BoardB.game (Cli.world st'))
      = [("koala", 20, Some 1)]
    ∧ Cli.calls st' = 3%nat.
Proof. vm_compute. eexists. split; [reflexivity |]. split; reflexivity. Qed.
(** * The window *)

Lemma refresh_all_spec w :
  FriendlyRaceGUI.game (FriendlyRaceGUI.refresh_all w) = FriendlyRaceGUI.game w
  ∧ FriendlyRaceGUI.team_name_to_id (FriendlyRaceGUI.refresh_all w)
    = GuiB.team_name_to_id (BoardB.game (FriendlyRaceGUI.game w))
  ∧ FriendlyRaceGUI.shown (FriendlyRaceGUI.refresh_all w) = FriendlyRaceGUI.shown w
  ∧ FriendlyRaceGUI.activity_title_var (FriendlyRaceGUI.refresh_all w)
    = FriendlyRaceGUI.activity_title_var w
  ∧ FriendlyRaceGUI.last_result_var (FriendlyRaceGUI.refresh_all w)
    = FriendlyRaceGUI.last_result_var w.
Proof.
  unfold FriendlyRaceGUI.refresh_all.
  destruct (BoardB.name <$> BoardB.teams (BoardB.game (FriendlyRaceGUI.game w))) as [| n ns];
    [done |].
  cbv zeta. repeat match goal with |- context [if ?b then _ else _] => destruct b end; done.
Qed.

Lemma refresh_all_in_sync w : in_sync (FriendlyRaceGUI.refresh_all w).
Proof.
  unfold in_sync. destruct (refresh_all_spec w) as (-> & -> & _). done.
Qed.

Lemma refused_unchanged c w ok msg w' :
  BoardB.exec c w = Ok (Some (ok, msg), w') → ok = false → w' = w.
Proof. intros H ->. exact (B_exec_saved _ _ _ _ H). Qed.

Lemma team_name_to_id_Some g name team_id :
  GuiB.team_name_to_id g !! name = Some team_id →
  ∃ team, team ∈ BoardB.teams g ∧ BoardB.name team = name ∧ BoardB.id team = team_id.
Proof.
  unfold GuiB.team_name_to_id. rewrite team_name_to_id_lookup.
  destruct (list_find _ _) as [[i team] |] eqn:E; [| done].
  intros [= <-]. apply list_find_Some in E as (Hi & Hname & _).
  exists team. split; [| done].
  apply elem_of_reverse. by eapply list_elem_of_lookup_2.
Qed.

Lemma difficulty_label_valid label key :
  FriendlyRaceGUI.difficulty_label_to_key !! label = Some key →
  truthy key = true ∧ is_Some (DIFFICULTY_POINTS !! key).
Proof.
  unfold FriendlyRaceGUI.difficulty_label_to_key, FriendlyRaceGUI.label_to_key. cbn.
  intros H.
  repeat (apply lookup_insert_Some in H as [[_ <-] | [_ H]]; [split; [done | by eexists] |]).
  done.
Qed.

Lemma category_label_valid label key :
  FriendlyRaceGUI.category_label_to_key !! label = Some key →
  truthy key = true ∧ key ∈ CATEGORIES.
Proof.
  unfold FriendlyRaceGUI.category_label_to_key, FriendlyRaceGUI.label_to_key. cbn.
  intros H.
  repeat (apply lookup_insert_Some in H as [[_ <-] | [_ H]];
          [split; [done | unfold CATEGORIES; set_solver] |]).
  done.
Qed.

(** What [on_record_activity] comes to, in a window whose dict is in
    sync, on a game that holds its categories. *)
Lemma on_record_activity_inv isdigit int clock w :
  in_sync w →
  match FriendlyRaceGUI.on_record_activity isdigit int clock w with
  | Cli.Return w' =>
      (∃ msg, w' = FriendlyRaceGUI.showwarning "활동 기록" msg w ∧ msg ∈ activity_warnings)
      ∨ ∃ team difficulty category participant_count ok msg world,
          team ∈ BoardB.teams (BoardB.game (FriendlyRaceGUI.game w))
          ∧ BoardB.name team = FriendlyRaceGUI.activity_team_var w
          ∧ is_Some (DIFFICULTY_POINTS !! difficulty)
          ∧ category ∈ CATEGORIES
          ∧ 1 ≤ participant_count
          ∧ int (strip (FriendlyRaceGUI.participants_var w)) = Some participant_count
          ∧ BoardB.record_activity clock (BoardB.id team) difficulty category participant_count
              (FriendlyRaceGUI.activity_title_var w) (FriendlyRaceGUI.game w)
            = Ok ((ok, msg), world)
          ∧ w' = (if negb ok
                  then FriendlyRaceGUI.showwarning "활동 기록" msg
                         (FriendlyRaceGUI.set_game w world)
                  else FriendlyRaceGUI.refresh_all
                         (FriendlyRaceGUI.set_activity_title_var
                            (FriendlyRaceGUI.set_game w world) ""))
  | Cli.Throw e =>
      (e = Cli.ValueError
       ∧ isdigit (strip (FriendlyRaceGUI.participants_var w)) = true
       ∧ int (strip (FriendlyRaceGUI.participants_var w)) = None)
      ∨ ∃ e0 team_id difficulty category participant_count title,
          e = Cli.Engine e0
          ∧ BoardB.record_activity clock team_id difficulty category participant_count title
              (FriendlyRaceGUI.game w) = Raise e0
  end.
Proof.
  intros Hsync. unfold FriendlyRaceGUI.on_record_activity.
  destruct (GuiB._selected_team_id _ _) as [team_id |] eqn:Hsel; cbn [truthy_opt].
  2: { cbn. left. eexists. split; [done |]. unfold activity_warnings. set_solver. }
  destruct (truthy team_id) eqn:Htid; cbn [negb].
  2: { left. eexists. split; [done |]. unfold activity_warnings. set_solver. }
  destruct (isdigit _) eqn:Hd; cbn [negb].
  2: { left. eexists. split; [done |]. unfold activity_warnings. set_solver. }
  destruct (int _) as [n |] eqn:Hint; [| by left].
  destruct (n <? 1) eqn:Hn.
  { left. eexists. split; [done |]. unfold activity_warnings. set_solver. }
  destruct (FriendlyRaceGUI.difficulty_label_to_key !! _) as [difficulty |] eqn:Hdiff;
    cbn [truthy_opt].
  2: { cbn. left. eexists. split; [done |]. unfold activity_warnings. set_solver. }
  destruct (difficulty_label_valid _ _ Hdiff) as [-> Hdv]. cbn [negb orb].
  destruct (FriendlyRaceGUI.category_label_to_key !! _) as [category |] eqn:Hcat;
    cbn [truthy_opt].
  2: { cbn. left. eexists. split; [done |]. unfold activity_warnings. set_solver. }
  destruct (category_label_valid _ _ Hcat) as [-> Hcv]. cbn [negb].
  unfold GuiB._selected_team_id in Hsel.
  destruct (negb (truthy (FriendlyRaceGUI.activity_team_var w))); [done |].
  rewrite Hsync in Hsel. apply team_name_to_id_Some in Hsel as (team & Hteam & Hname & <-).
  destruct (BoardB.record_activity _ _ _ _ _ _ _) as [[[ok msg] world] | e0] eqn:Ecall.
  2: { right. eauto 10. }
  cbv zeta. destruct ok; cbn [negb]; right;
    [exists team, difficulty, category, n, true, msg, world
    | exists team, difficulty, category, n, false, msg, world];
    repeat split; try done; lia.
Qed.

Lemma handle_inv isdigit int ev w w' :
  FriendlyRaceGUI.handle isdigit int ev w = Cli.Return w' →
  in_sync w →
  in_sync w' ∧ session_keeps (FriendlyRaceGUI.game w) (FriendlyRaceGUI.game w').
Proof.
  intros Hev Hsync. destruct ev; cbn [FriendlyRaceGUI.handle] in Hev.
  - unfold FriendlyRaceGUI.on_add_team in Hev.
    destruct (BoardB.add_team _ _ _ _ _) as [[ok msg] world] eqn:Ecall.
    assert (Hexec : BoardB.exec (BoardB.AddTeam millis rand clock
                                   (strip (FriendlyRaceGUI.team_add_var w)))
                      (FriendlyRaceGUI.game w) = Ok (Some (ok, msg), world)).
    { cbn. by rewrite Ecall. }
    destruct ok; cbn [negb] in Hev; injection Hev as <-.
    + split; [apply refresh_all_in_sync |].
      destruct (refresh_all_spec (FriendlyRaceGUI.set_team_add_var
                                    (FriendlyRaceGUI.set_game w world) "")) as (-> & _).
      by eapply exec_keeps.
    + rewrite (refused_unchanged _ _ _ _ _ Hexec eq_refl). split; [done |].
      apply session_keeps_refl.
  - pose proof (on_record_activity_inv isdigit int clock w Hsync) as Hinv.
    rewrite Hev in Hinv.
    destruct Hinv as [(msg & -> & _) | Hinv]; [split; [done | apply session_keeps_refl] |].
    destruct Hinv as (team & difficulty & category & n & ok & msg & world
                      & _ & _ & _ & _ & _ & _ & Hcall & ->).
    assert (Hexec : BoardB.exec (BoardB.RecordActivity clock (BoardB.id team) difficulty
                                   category n (FriendlyRaceGUI.activity_title_var w))
                      (FriendlyRaceGUI.game w) = Ok (Some (ok, msg), world)).
    { cbn. by rewrite Hcall. }
    destruct ok; cbn [negb].
    + split; [apply refresh_all_in_sync |].
      destruct (refresh_all_spec (FriendlyRaceGUI.set_activity_title_var
                                    (FriendlyRaceGUI.set_game w world) "")) as (-> & _).
      by eapply exec_keeps.
    + rewrite (refused_unchanged _ _ _ _ _ Hexec eq_refl). split; [done |].
      apply session_keeps_refl.
  - unfold FriendlyRaceGUI.on_throw in Hev.
    destruct (GuiB._selected_team_id _ _) as [team_id |]; cbn [truthy_opt] in Hev.
    2: { injection Hev as <-. split; [done | apply session_keeps_refl]. }
    destruct (truthy team_id); cbn [negb] in Hev.
    2: { injection Hev as <-. split; [done | apply session_keeps_refl]. }
    destruct (BoardB.throw_yut _ _ _ _) as [[ok msg] world] eqn:Ecall.
    assert (Hexec : BoardB.exec (BoardB.ThrowYut clock r team_id) (FriendlyRaceGUI.game w)
                    = Ok (Some (ok, msg), world)).
    { cbn. by rewrite Ecall. }
    destruct ok; cbn [negb] in Hev; injection Hev as <-.
    + split; [apply refresh_all_in_sync |].
      destruct (refresh_all_spec (FriendlyRaceGUI.set_last_result_var
                                    (FriendlyRaceGUI.set_game w world) msg)) as (-> & _).
      by eapply exec_keeps.
    + rewrite (refused_unchanged _ _ _ _ _ Hexec eq_refl). split; [done |].
      apply session_keeps_refl.
  - injection Hev as <-. split; [apply refresh_all_in_sync |].
    destruct (refresh_all_spec w) as (-> & _). apply session_keeps_refl.
  - unfold FriendlyRaceGUI.on_reset in Hev. destruct confirm; cbn [negb] in Hev;
      injection Hev as <-.
    + split; [apply refresh_all_in_sync |].
      match goal with |- context [FriendlyRaceGUI.refresh_all ?x] =>
        destruct (refresh_all_spec x) as (-> & _) end.
      by eapply (exec_keeps BoardB.Reset).
    + split; [done | apply session_keeps_refl].
  - injection Hev as <-. split; [done | apply session_keeps_refl].
Qed.

Lemma opened_inv isdigit int world w :
  FriendlyRaceGUI.opened isdigit int world w →
  in_sync w ∧ session_keeps world (FriendlyRaceGUI.game w).
Proof.
  unfold FriendlyRaceGUI.opened. revert w.
  apply (rtc_ind_r (λ w, in_sync w ∧ session_keeps world (FriendlyRaceGUI.game w))).
  - split; [apply refresh_all_in_sync |].
    unfold FriendlyRaceGUI.init.
    match goal with |- context [FriendlyRaceGUI.refresh_all ?x] =>
      destruct (refresh_all_spec x) as (-> & _) end.
    apply session_keeps_refl.
  - intros w1 w2 _ [ev Hev] [IH1 IH2].
    destruct (handle_inv _ _ _ _ _ Hev IH1) as [Hs Hk].
    split; [done | by eapply session_keeps_trans].
Qed.

Lemma session_keeps_reachable w w' :
  BoardB.reachable w → session_keeps w w' → BoardB.reachable w'.
Proof. intros [f Hf] [Hrtc _]. exists f. by etrans. Qed.

Lemma handle_all_opened world evs w :
  FriendlyRaceGUI.opened example_isdigit example_int world w →
  FriendlyRaceGUI.opened example_isdigit example_int world (handle_all evs w).
Proof.
  revert w. induction evs as [| ev evs IH]; intros w Hw; [done |].
  cbn [handle_all].
  destruct (FriendlyRaceGUI.handle example_isdigit example_int ev w) as [w' | e] eqn:E;
    apply IH; [| done].
  eapply rtc_r; [exact Hw |]. by exists ev.
Qed.

Lemma example_window_opened :
  FriendlyRaceGUI.opened example_isdigit example_int fresh_world example_window.
Proof. apply handle_all_opened, rtc_refl. Qed.

Lemma on_throw_inv clock r w :
  in_sync w →
  ∃ w', FriendlyRaceGUI.on_throw clock r w = Cli.Return w'
        ∧ (w' = FriendlyRaceGUI.showwarning "윷 던지기" "먼저 팀을 선택해주세요." w
           ∨ ∃ team ok msg world,
               team ∈ BoardB.teams (BoardB.game (FriendlyRaceGUI.game w))
               ∧ BoardB.name team = FriendlyRaceGUI.throw_team_var w
               ∧ BoardB.throw_yut clock r (BoardB.id team) (FriendlyRaceGUI.game w)
                 = ((ok, msg), world)
               ∧ w' = (if ok
                       then FriendlyRaceGUI.refresh_all
                              (FriendlyRaceGUI.set_last_result_var
                                 (FriendlyRaceGUI.set_game w world) msg)
                       else FriendlyRaceGUI.showwarning "윷 던지기" msg w)).
Proof.
  intros Hsync. unfold FriendlyRaceGUI.on_throw.
  destruct (GuiB._selected_team_id _ _) as [team_id |] eqn:Hsel; cbn [truthy_opt].
  2: { cbn. eexists. split; [done |]. by left. }
  destruct (truthy team_id) eqn:Htid; cbn [negb].
  2: { eexists. split; [done |]. by left. }
  unfold GuiB._selected_team_id in Hsel.
  destruct (negb (truthy (FriendlyRaceGUI.throw_team_var w))); [done |].
  rewrite Hsync in Hsel. apply team_name_to_id_Some in Hsel as (team & Hteam & Hname & <-).
  destruct (BoardB.throw_yut _ _ _ _) as [[ok msg] world] eqn:Ecall.
  assert (Hexec : BoardB.exec (BoardB.ThrowYut clock r (BoardB.id team)) (FriendlyRaceGUI.game w)
                  = Ok (Some (ok, msg), world)).
  { cbn. by rewrite Ecall. }
  destruct ok; cbn [negb]; eexists; (split; [done |]); right.
  - exists team, true, msg, world. done.
  - exists team, false, msg, world. repeat split; try done.
    rewrite (refused_unchanged _ _ _ _ _ Hexec eq_refl). by destruct w.
Qed.

(** ** The properties *)

(** X20.  As long as its handlers return, the window does not work with
    a stale list of teams.  In every window a run of events leads to
    (buttons pressed, entries and boxes changed) in which every handler
    has returned, begun on a game a run of calls has made: the dict of
    the names is the one [refresh_all] builds from the teams the game
    holds now; the game is again one a run of calls makes, and it is the
    game the window was opened with or the one in the file; and for
    every team of the game, [_selected_team_id] gives its id for its
    name and [find_team] finds a team for this id. *)
Theorem window_dict_in_sync (isdigit : string -> bool) (int : string -> option Z)
    (world : BoardB.World) (w : FriendlyRaceGUI.Window)
    (Hworld : BoardB.reachable world)
    (Hopened : FriendlyRaceGUI.opened isdigit int world w) :
  FriendlyRaceGUI.team_name_to_id w
  = GuiB.team_name_to_id (BoardB.game (FriendlyRaceGUI.game w))
  ∧ BoardB.reachable (FriendlyRaceGUI.game w)
  ∧ (FriendlyRaceGUI.game w = world
     ∨ FriendlyRaceGUI.game w = BoardB.save (BoardB.game (FriendlyRaceGUI.game w)))
  ∧ ∀ team, team ∈ BoardB.teams (BoardB.game (FriendlyRaceGUI.game w)) →
      GuiB._selected_team_id (FriendlyRaceGUI.team_name_to_id w) (BoardB.name team)
      = Some (BoardB.id team)
      ∧ BoardB.find_team (BoardB.game (FriendlyRaceGUI.game w)) (BoardB.id team) ≠ None.
Proof.
  destruct (opened_inv _ _ _ _ Hopened) as [Hsync Hkeeps].
  pose proof (session_keeps_reachable _ _ Hworld Hkeeps) as Hreach.
  split; [exact Hsync |]. split; [exact Hreach |]. split; [by destruct Hkeeps |].
  intros team Hteam. split; [| by apply find_team_elem].
  rewrite Hsync. apply list_elem_of_lookup_1 in Hteam as [i Hi].
  eapply selected_team_id_spec; [| exact Hi]. by apply B_names_ok_reachable.
Qed.

Lemma window_dict_in_sync_witness :
  FriendlyRaceGUI.team_name_to_id example_window
  = GuiB.team_name_to_id (BoardB.game (FriendlyRaceGUI.game example_window))
  ∧ BoardB.reachable (FriendlyRaceGUI.game example_window)
  ∧ GuiB._selected_team_id (FriendlyRaceGUI.team_name_to_id example_window) "emu"
    = Some "team_1772366400002_1001".
Proof.
  destruct (window_dict_in_sync example_isdigit example_int fresh_world example_window
              fresh_reachable example_window_opened) as (H1 & H2 & _ & H4).
  split; [exact H1 |]. split; [exact H2 |].
  apply (H4 (BoardB.new_team "team_1772366400002_1001" "emu")).
  apply (list_elem_of_lookup_2 _ 1%nat). vm_compute. reflexivity.
Defined.

(** X21.  The window asks the engine only for what the engine grants.
    In a window a run of events with returning handlers leads to, begun
    on a game a run of calls has made: when [on_record_activity]
    returns, it has shown one of its own three warnings and changed
    nothing else, or it has called [record_activity] for a team of the
    game that has the name chosen, with a difficulty and a category the
    engine knows and at least one participant, and the engine has
    accepted: no warning is shown, the title is cleared, and the dict is
    built anew.  So the warning for a call the engine refuses is never
    shown.  No [KeyError], [TypeError] or [AttributeError] of the engine
    escapes the handler.  When [on_throw] returns, it has shown its own
    warning, or it has called [throw_yut] for a team of the game that
    has the name chosen, so that the engine finds the team; when the
    engine refuses the throw its reason is shown and nothing else
    changes. *)
Theorem window_calls_are_sound (isdigit : string -> bool) (int : string -> option Z)
    (clock : nat -> datetime) (r : Q)
    (world : BoardB.World) (w : FriendlyRaceGUI.Window)
    (Hworld : BoardB.reachable world)
    (Hopened : FriendlyRaceGUI.opened isdigit int world w) :
  match FriendlyRaceGUI.on_record_activity isdigit int clock w with
  | Cli.Return w' =>
      (∃ msg, msg ∈ activity_warnings
              ∧ w' = FriendlyRaceGUI.showwarning "활동 기록" msg w)
      ∨ ∃ team difficulty category participant_count world',
          team ∈ BoardB.teams (BoardB.game (FriendlyRaceGUI.game w))
          ∧ BoardB.name team = FriendlyRaceGUI.activity_team_var w
          ∧ is_Some (DIFFICULTY_POINTS !! difficulty)
          ∧ category ∈ CATEGORIES
          ∧ 1 ≤ participant_count
          ∧ int (strip (FriendlyRaceGUI.participants_var w)) = Some participant_count
          ∧ BoardB.record_activity clock (BoardB.id team) difficulty category participant_count
              (FriendlyRaceGUI.activity_title_var w) (FriendlyRaceGUI.game w)
            = Ok ((true, "활동이 반영되었습니다."), world')
          ∧ FriendlyRaceGUI.game w' = world'
          ∧ FriendlyRaceGUI.shown w' = FriendlyRaceGUI.shown w
          ∧ FriendlyRaceGUI.activity_title_var w' = ""
          ∧ FriendlyRaceGUI.team_name_to_id w' = GuiB.team_name_to_id (BoardB.game world')
  | Cli.Throw e => ∀ e0, e ≠ Cli.Engine e0
  end
  ∧ ∀ w', FriendlyRaceGUI.on_throw clock r w = Cli.Return w' →
      w' = FriendlyRaceGUI.showwarning "윷 던지기" "먼저 팀을 선택해주세요." w
      ∨ ∃ team ok msg world',
          team ∈ BoardB.teams (BoardB.game (FriendlyRaceGUI.game w))
          ∧ BoardB.name team = FriendlyRaceGUI.throw_team_var w
          ∧ BoardB.find_team (BoardB.game (FriendlyRaceGUI.game w)) (BoardB.id team)
            ≠ None
          ∧ BoardB.throw_yut clock r (BoardB.id team) (FriendlyRaceGUI.game w)
            = ((ok, msg), world')
          ∧ if ok
            then FriendlyRaceGUI.game w' = world'
                 ∧ FriendlyRaceGUI.last_result_var w' = msg
                 ∧ FriendlyRaceGUI.shown w' = FriendlyRaceGUI.shown w
            else w' = FriendlyRaceGUI.showwarning "윷 던지기" msg w.
Proof.
  destruct (opened_inv _ _ _ _ Hopened) as [Hsync Hkeeps].
  pose proof (session_keeps_reachable _ _ Hworld Hkeeps) as Hreach.
  split.
  - pose proof (on_record_activity_inv isdigit int clock w Hsync) as Hinv.
    destruct (FriendlyRaceGUI.on_record_activity isdigit int clock w) as [w' | e].
    2: { destruct Hinv as [[-> _] | (e0 & team_id & d & c & n & title & _ & Hraise)];
           [done |].
         exfalso.
         destruct (B_record_activity_returns clock team_id d c n title (FriendlyRaceGUI.game w))
           as (res & w0 & Hok); [| congruence].
         intros team. by apply B_reachable_counts_ok. }
    destruct Hinv as [(msg & -> & Hmsg) | Hinv]; [left; eauto |]. right.
    destruct Hinv as (team & difficulty & category & n & ok & msg & world'
                      & Hteam & Hname & Hd & Hc & Hn & Hint & Hcall & ->).
    assert (ok = true) as ->.
    { destruct ok; [done | exfalso].
      eapply (record_activity_accepts _ _ _ _ n); [| exact Hcall].
      unfold record_activity_invalid. intros [Hf | [Hdd | [Hcc | Hnn]]]; try done.
      - by eapply find_team_elem.
      - rewrite Hdd in Hd. by destruct Hd.
      - lia. }
    assert (msg = "활동이 반영되었습니다.") as ->.
    { destruct (B_record_activity_inv _ _ _ _ _ _ _ _ _ Hcall) as [[Hf _] | H]; [done |].
      destruct H as (? & ? & ? & ? & ? & ? & ? & _ & _ & _ & Hres & _). congruence. }
    cbn [negb].
    match goal with |- context [FriendlyRaceGUI.refresh_all ?x] =>
      destruct (refresh_all_spec x) as (Hg & Hdict & Hshown & Htitle & _) end.
    exists team, difficulty, category, n, world'. rewrite Hg, Hdict, Hshown, Htitle.
    repeat split; done.
  - intros w0 Hw0.
    destruct (on_throw_inv clock r w Hsync) as (w' & Hret & Hcase).
    rewrite Hret in Hw0. injection Hw0 as <-.
    destruct Hcase as [-> | Hcase]; [by left | right].
    destruct Hcase as (team & ok & msg & world' & Hteam & Hname & Hcall & ->).
    exists team, ok, msg, world'. repeat split; try done; [by apply find_team_elem |].
    destruct ok; [| done].
    match goal with |- context [FriendlyRaceGUI.refresh_all ?x] =>
      destruct (refresh_all_spec x) as (Hg & _ & Hshown & _ & Hlast) end.
    rewrite Hg, Hshown, Hlast. done.
Qed.

Lemma window_calls_are_sound_witness :
  ∃ w', FriendlyRaceGUI.on_record_activity example_isdigit example_int example_clock
          example_window = Cli.Return w'
        ∧ FriendlyRaceGUI.shown w' = FriendlyRaceGUI.shown example_window
        ∧ FriendlyRaceGUI.activity_title_var w' = ""
        ∧ (λ t, (BoardB.name t, BoardB.score t)) <$> BoardB.teams (BoardB.game
                                                              (FriendlyRaceGUI.game w'))
          = [("koala", 0); ("emu", 80)].
Proof.
  pose proof (window_calls_are_sound example_isdigit example_int example_clock 50
                fresh_world example_window fresh_reachable example_window_opened) as [H _].
  assert (Hrun : ∃ w',
    FriendlyRaceGUI.on_record_activity example_isdigit example_int example_clock example_window
    = Cli.Return w'
    ∧ (λ t, (BoardB.name t, BoardB.score t)) <$> BoardB.teams (BoardB.game
                                                          (FriendlyRaceGUI.game w'))
      = [("koala", 0); ("emu", 80)]).
  { vm_compute. eexists. split; reflexivity. }
  destruct Hrun as (w' & Hrun & Hscores). exists w'. rewrite Hrun in H.
  split; [done |].
  destruct H as [(msg & _ & ->) | H].
  - exfalso. revert Hrun. vm_compute. discriminate.
  - destruct H as (? & ? & ? & ? & ? & _ & _ & _ & _ & _ & _ & _ & _ & Hshown & Htitle & _).
    repeat split; done.
Defined.

(** ** The window of variant A *)

Lemma A_session_keeps_refl w : A_session_keeps w w.
Proof. split; [done | by left]. Qed.

Lemma A_session_keeps_trans w1 w2 w3 :
  A_session_keeps w1 w2 → A_session_keeps w2 w3 → A_session_keeps w1 w3.
Proof.
  intros [H1 S1] [H2 S2]. split; [by etrans |].
  destruct S2 as [-> | S2]; [done | by right].
Qed.

Lemma A_exec_keeps c w res w' : BoardA.exec c w = Ok (res, w') → A_session_keeps w w'.
Proof.
  intros H. split; [apply rtc_once; by exists c, res |].
  pose proof (A_exec_saved _ _ _ _ H) as Hs.
  destruct res as [[[] ?] |]; auto.
Qed.

Lemma A_refused_unchanged c w ok msg w' :
  BoardA.exec c w = Ok (Some (ok, msg), w') → ok = false → w' = w.
Proof. intros H ->. exact (A_exec_saved _ _ _ _ H). Qed.

Lemma A_session_keeps_reachable w w' :
  BoardA.reachable w → A_session_keeps w w' → BoardA.reachable w'.
Proof. intros [f Hf] [Hrtc _]. exists f. by etrans. Qed.

Lemma A_names_to_ids_lookup (ts : list BoardA.Team) : ∀ (m : gmap string string) name,
  foldl (λ m t, <[BoardA.name t := BoardA.id t]> m) m ts !! name
  = match list_find (λ t, BoardA.name t = name) (reverse ts) with
    | Some (_, t) => Some (BoardA.id t)
    | None => m !! name
    end.
Proof.
  induction ts as [| t ts IH]; intros m name; [done |].
  cbn [foldl]. rewrite IH, reverse_cons.
  destruct (list_find _ (reverse ts)) as [[i t'] |] eqn:E.
  - by rewrite (list_find_app_l _ _ _ _ _ E).
  - rewrite list_find_app_r by done. cbn.
    destruct (decide (BoardA.name t = name)) as [<- | Hne]; cbn.
    + by rewrite lookup_insert_eq.
    + by rewrite lookup_insert_ne.
Qed.

Lemma A_names_to_ids_Some g name team_id :
  FriendlyScoreRaceGUI.names_to_ids g !! name = Some team_id →
  ∃ team, team ∈ BoardA.teams g ∧ BoardA.name team = name ∧ BoardA.id team = team_id.
Proof.
  unfold FriendlyScoreRaceGUI.names_to_ids. rewrite A_names_to_ids_lookup.
  destruct (list_find _ _) as [[i team] |] eqn:E; [| done].
  intros [= <-]. apply list_find_Some in E as (Hi & Hname & _).
  exists team. split; [| done].
  apply elem_of_reverse. by eapply list_elem_of_lookup_2.
Qed.

Lemma A_names_to_ids_team g team :
  NoDup (BoardA.name <$> BoardA.teams g) → team ∈ BoardA.teams g →
  FriendlyScoreRaceGUI.names_to_ids g !! BoardA.name team = Some (BoardA.id team).
Proof.
  intros Hnd Hteam. unfold FriendlyScoreRaceGUI.names_to_ids. rewrite A_names_to_ids_lookup.
  assert (Hin : team ∈ reverse (BoardA.teams g)) by (by apply elem_of_reverse).
  destruct (list_find_elem_of (λ t, BoardA.name t = BoardA.name team) _ _ Hin eq_refl)
    as [[j t'] Hf].
  rewrite Hf. apply list_find_Some in Hf as (Hj & Hname & _).
  apply list_elem_of_lookup_2, elem_of_reverse, list_elem_of_lookup_1 in Hj as [j' Hj'].
  apply list_elem_of_lookup_1 in Hteam as [i Hi].
  rewrite reverse_involutive in Hj'.
  assert (j' = i) as ->; [| cbn; congruence].
  apply (NoDup_lookup _ j' i (BoardA.name team) Hnd); rewrite list_lookup_fmap.
  - by rewrite Hj', <- Hname.
  - by rewrite Hi.
Qed.

Lemma A_find_team_elem g team :
  team ∈ BoardA.teams g → BoardA.find_team g (BoardA.id team) ≠ None.
Proof.
  intros Hin. unfold BoardA.find_team.
  destruct (list_find_elem_of (λ t, BoardA.id t = BoardA.id team) _ _ Hin eq_refl)
    as [[j t'] ->]. done.
Qed.

Lemma A_refresh_all_spec w :
  FriendlyScoreRaceGUI.game (FriendlyScoreRaceGUI.refresh_all w) = FriendlyScoreRaceGUI.game w
  ∧ FriendlyScoreRaceGUI.team_name_to_id (FriendlyScoreRaceGUI.refresh_all w)
    = FriendlyScoreRaceGUI.names_to_ids (BoardA.game (FriendlyScoreRaceGUI.game w))
  ∧ FriendlyScoreRaceGUI.shown (FriendlyScoreRaceGUI.refresh_all w)
    = FriendlyScoreRaceGUI.shown w
  ∧ FriendlyScoreRaceGUI.activity_title_var (FriendlyScoreRaceGUI.refresh_all w)
    = FriendlyScoreRaceGUI.activity_title_var w.
Proof.
  unfold FriendlyScoreRaceGUI.refresh_all.
  destruct (BoardA.name <$> BoardA.teams (BoardA.game (FriendlyScoreRaceGUI.game w)))
    as [| n ns]; [done |].
  cbv zeta. repeat match goal with |- context [if ?b then _ else _] => destruct b end; done.
Qed.

Lemma A_refresh_all_in_sync w : A_in_sync (FriendlyScoreRaceGUI.refresh_all w).
Proof.
  unfold A_in_sync. destruct (A_refresh_all_spec w) as (-> & -> & _). done.
Qed.

Lemma A_difficulty_label_valid label key :
  FriendlyScoreRaceGUI.difficulty_label_to_key !! label = Some key →
  truthy key = true ∧ is_Some (DIFFICULTY_POINTS !! key).
Proof. apply difficulty_label_valid. Qed.

Lemma A_category_label_valid label key :
  FriendlyScoreRaceGUI.category_label_to_key !! label = Some key →
  truthy key = true ∧ key ∈ CATEGORIES.
Proof. apply category_label_valid. Qed.

Lemma A_on_record_activity_inv isdigit int clock w :
  A_in_sync w →
  match FriendlyScoreRaceGUI.on_record_activity isdigit int clock w with
  | Cli.Return w' =>
      (∃ msg, w' = FriendlyScoreRaceGUI.showwarning "활동 기록" msg w
              ∧ msg ∈ A_activity_warnings)
      ∨ ∃ team difficulty category participant_count ok msg world,
          team ∈ BoardA.teams (BoardA.game (FriendlyScoreRaceGUI.game w))
          ∧ BoardA.name team = strip (FriendlyScoreRaceGUI.activity_team_var w)
          ∧ is_Some (DIFFICULTY_POINTS !! difficulty)
          ∧ category ∈ CATEGORIES
          ∧ 1 ≤ participant_count
          ∧ int (strip (FriendlyScoreRaceGUI.participant_var w)) = Some participant_count
          ∧ BoardA.record_activity clock (BoardA.id team) difficulty category participant_count
              (FriendlyScoreRaceGUI.activity_title_var w) (FriendlyScoreRaceGUI.game w)
            = Ok ((ok, msg), world)
          ∧ w' = (if negb ok
                  then FriendlyScoreRaceGUI.showwarning "활동 기록" msg
                         (FriendlyScoreRaceGUI.set_game w world)
                  else FriendlyScoreRaceGUI.refresh_all
                         (FriendlyScoreRaceGUI.set_activity_title_var
                            (FriendlyScoreRaceGUI.set_game w world) ""))
  | Cli.Throw e =>
      (e = Cli.ValueError
       ∧ isdigit (strip (FriendlyScoreRaceGUI.participant_var w)) = true
       ∧ int (strip (FriendlyScoreRaceGUI.participant_var w)) = None)
      ∨ ∃ e0 team_id difficulty category participant_count title,
          e = Cli.Engine e0
          ∧ BoardA.record_activity clock team_id difficulty category participant_count title
              (FriendlyScoreRaceGUI.game w) = Raise e0
  end.
Proof.
  intros Hsync. unfold FriendlyScoreRaceGUI.on_record_activity. cbv zeta.
  destruct (FriendlyScoreRaceGUI.team_name_to_id w !! _) as [team_id |] eqn:Hsel;
    cbn [truthy_opt].
  2: { cbn. left. eexists. split; [done |]. unfold A_activity_warnings. set_solver. }
  destruct (truthy team_id) eqn:Htid; cbn [negb].
  2: { left. eexists. split; [done |]. unfold A_activity_warnings. set_solver. }
  destruct (isdigit _) eqn:Hd; cbn [negb].
  2: { left. eexists. split; [done |]. unfold A_activity_warnings. set_solver. }
  destruct (int _) as [n |] eqn:Hint; [| by left].
  destruct (n <? 1) eqn:Hn.
  { left. eexists. split; [done |]. unfold A_activity_warnings. set_solver. }
  destruct (FriendlyScoreRaceGUI.difficulty_label_to_key !! _) as [difficulty |] eqn:Hdiff;
    cbn [truthy_opt].
  2: { cbn. left. eexists. split; [done |]. unfold A_activity_warnings. set_solver. }
  destruct (A_difficulty_label_valid _ _ Hdiff) as [-> Hdv]. cbn [negb orb].
  destruct (FriendlyScoreRaceGUI.category_label_to_key !! _) as [category |] eqn:Hcat;
    cbn [truthy_opt].
  2: { cbn. left. eexists. split; [done |]. unfold A_activity_warnings. set_solver. }
  destruct (A_category_label_valid _ _ Hcat) as [-> Hcv]. cbn [negb].
  rewrite Hsync in Hsel. apply A_names_to_ids_Some in Hsel as (team & Hteam & Hname & <-).
  destruct (BoardA.record_activity _ _ _ _ _ _ _) as [[[ok msg] world] | e0] eqn:Ecall.
  2: { right. eauto 10. }
  destruct ok; cbn [negb]; right;
    [exists team, difficulty, category, n, true, msg, world
    | exists team, difficulty, category, n, false, msg, world];
    repeat split; try done; lia.
Qed.

Lemma A_handle_inv isdigit int ev w w' :
  FriendlyScoreRaceGUI.handle isdigit int ev w = Cli.Return w' →
  A_in_sync w →
  A_in_sync w'
  ∧ A_session_keeps (FriendlyScoreRaceGUI.game w) (FriendlyScoreRaceGUI.game w').
Proof.
  intros Hev Hsync. destruct ev; cbn [FriendlyScoreRaceGUI.handle] in Hev.
  - unfold FriendlyScoreRaceGUI.on_add_team in Hev.
    destruct (BoardA.add_team _ _ _ _ _) as [[ok msg] world] eqn:Ecall.
    assert (Hexec : BoardA.exec (BoardA.AddTeam millis rand clock
                                   (FriendlyScoreRaceGUI.team_name_var w))
                      (FriendlyScoreRaceGUI.game w) = Ok (Some (ok, msg), world)).
    { cbn. by rewrite Ecall. }
    destruct ok; cbn [negb] in Hev; injection Hev as <-.
    + split; [apply A_refresh_all_in_sync |].
      match goal with |- context [FriendlyScoreRaceGUI.refresh_all ?x] =>
        destruct (A_refresh_all_spec x) as (-> & _) end.
      by eapply A_exec_keeps.
    + rewrite (A_refused_unchanged _ _ _ _ _ Hexec eq_refl). split; [done |].
      apply A_session_keeps_refl.
  - pose proof (A_on_record_activity_inv isdigit int clock w Hsync) as Hinv.
    rewrite Hev in Hinv.
    destruct Hinv as [(msg & -> & _) | Hinv]; [split; [done | apply A_session_keeps_refl] |].
    destruct Hinv as (team & difficulty & category & n & ok & msg & world
                      & _ & _ & _ & _ & _ & _ & Hcall & ->).
    assert (Hexec : BoardA.exec (BoardA.RecordActivity clock (BoardA.id team) difficulty
                                   category n (FriendlyScoreRaceGUI.activity_title_var w))
                      (FriendlyScoreRaceGUI.game w) = Ok (Some (ok, msg), world)).
    { cbn. by rewrite Hcall. }
    destruct ok; cbn [negb].
    + split; [apply A_refresh_all_in_sync |].
      match goal with |- context [FriendlyScoreRaceGUI.refresh_all ?x] =>
        destruct (A_refresh_all_spec x) as (-> & _) end.
      by eapply A_exec_keeps.
    + rewrite (A_refused_unchanged _ _ _ _ _ Hexec eq_refl). split; [done |].
      apply A_session_keeps_refl.
  - injection Hev as <-. split; [apply A_refresh_all_in_sync |].
    destruct (A_refresh_all_spec w) as (-> & _). apply A_session_keeps_refl.
  - unfold FriendlyScoreRaceGUI.on_reset in Hev. destruct confirm; cbn [negb] in Hev;
      injection Hev as <-.
    + split; [apply A_refresh_all_in_sync |].
      match goal with |- context [FriendlyScoreRaceGUI.refresh_all ?x] =>
        destruct (A_refresh_all_spec x) as (-> & _) end.
      by eapply (A_exec_keeps BoardA.Reset).
    + split; [done | apply A_session_keeps_refl].
  - injection Hev as <-. split; [done | apply A_session_keeps_refl].
Qed.

Lemma A_opened_inv isdigit int world w :
  FriendlyScoreRaceGUI.opened isdigit int world w →
  A_in_sync w ∧ A_session_keeps world (FriendlyScoreRaceGUI.game w).
Proof.
  unfold FriendlyScoreRaceGUI.opened. revert w.
  apply (rtc_ind_r (λ w, A_in_sync w ∧ A_session_keeps world (FriendlyScoreRaceGUI.game w))).
  - split; [apply A_refresh_all_in_sync |].
    unfold FriendlyScoreRaceGUI.init.
    match goal with |- context [FriendlyScoreRaceGUI.refresh_all ?x] =>
      destruct (A_refresh_all_spec x) as (-> & _) end.
    apply A_session_keeps_refl.
  - intros w1 w2 _ [ev Hev] [IH1 IH2].
    destruct (A_handle_inv _ _ _ _ _ Hev IH1) as [Hs Hk].
    split; [done | by eapply A_session_keeps_trans].
Qed.

Lemma A_handle_all_opened world evs w :
  FriendlyScoreRaceGUI.opened example_isdigit example_int world w →
  FriendlyScoreRaceGUI.opened example_isdigit example_int world (A_handle_all evs w).
Proof.
  revert w. induction evs as [| ev evs IH]; intros w Hw; [done |].
  cbn [A_handle_all].
  destruct (FriendlyScoreRaceGUI.handle example_isdigit example_int ev w) as [w' | e] eqn:E;
    apply IH; [| done].
  eapply rtc_r; [exact Hw |]. by exists ev.
Qed.

Lemma A_example_window_opened :
  FriendlyScoreRaceGUI.opened example_isdigit example_int A_fresh_world A_example_window.
Proof. apply A_handle_all_opened, rtc_refl. Qed.

(** X22.  As long as its handlers return, the window of variant A works
    with the teams the game holds and asks the engine only for what it
    grants.  In every window a run of events leads to in which every
    handler has returned, begun on a game a run of calls has made: the
    dict of the names is the one [refresh_all] builds from the teams the
    game holds now, and gives for the name of every team its id; the
    game is again one a run of calls makes, and is the game the window
    was opened with or the one in the file.  When [on_record_activity]
    returns there, it has shown one of its own three warnings and
    changed nothing else, or it has called [record_activity] for a team
    of the game that has the name chosen, stripped, with a difficulty
    and a category the engine knows and at least one participant, and
    the engine has accepted: no warning is shown, the title is cleared
    and the dict built anew.  No [KeyError], [TypeError] or
    [AttributeError] of the engine escapes the handler. *)
Theorem A_window_is_sound (isdigit : string -> bool) (int : string -> option Z)
    (clock : nat -> datetime)
    (world : BoardA.World) (w : FriendlyScoreRaceGUI.Window)
    (Hworld : BoardA.reachable world)
    (Hopened : FriendlyScoreRaceGUI.opened isdigit int world w) :
  FriendlyScoreRaceGUI.team_name_to_id w
  = FriendlyScoreRaceGUI.names_to_ids (BoardA.game (FriendlyScoreRaceGUI.game w))
  ∧ (∀ team, team ∈ BoardA.teams (BoardA.game (FriendlyScoreRaceGUI.game w)) →
       FriendlyScoreRaceGUI.team_name_to_id w !! BoardA.name team = Some (BoardA.id team))
  ∧ BoardA.reachable (FriendlyScoreRaceGUI.game w)
  ∧ (FriendlyScoreRaceGUI.game w = world
     ∨ FriendlyScoreRaceGUI.game w = BoardA.save (BoardA.game (FriendlyScoreRaceGUI.game w)))
  ∧ match FriendlyScoreRaceGUI.on_record_activity isdigit int clock w with
    | Cli.Return w' =>
        (∃ msg, msg ∈ A_activity_warnings
                ∧ w' = FriendlyScoreRaceGUI.showwarning "활동 기록" msg w)
        ∨ ∃ team difficulty category participant_count world',
            team ∈ BoardA.teams (BoardA.game (FriendlyScoreRaceGUI.game w))
            ∧ BoardA.name team = strip (FriendlyScoreRaceGUI.activity_team_var w)
            ∧ is_Some (DIFFICULTY_POINTS !! difficulty)
            ∧ category ∈ CATEGORIES
            ∧ 1 ≤ participant_count
            ∧ int (strip (FriendlyScoreRaceGUI.participant_var w)) = Some participant_count
            ∧ BoardA.record_activity clock (BoardA.id team) difficulty category
                participant_count (FriendlyScoreRaceGUI.activity_title_var w)
                (FriendlyScoreRaceGUI.game w)
              = Ok ((true, "활동이 반영되었습니다."), world')
            ∧ FriendlyScoreRaceGUI.game w' = world'
            ∧ FriendlyScoreRaceGUI.shown w' = FriendlyScoreRaceGUI.shown w
            ∧ FriendlyScoreRaceGUI.activity_title_var w' = ""
            ∧ FriendlyScoreRaceGUI.team_name_to_id w'
              = FriendlyScoreRaceGUI.names_to_ids (BoardA.game world')
    | Cli.Throw e => ∀ e0, e ≠ Cli.Engine e0
    end.
Proof.
  destruct (A_opened_inv _ _ _ _ Hopened) as [Hsync Hkeeps].
  pose proof (A_session_keeps_reachable _ _ Hworld Hkeeps) as Hreach.
  split; [exact Hsync |]. split.
  { intros team Hteam. rewrite Hsync. apply A_names_to_ids_team; [| done].
    by destruct (A_names_ok_reachable _ Hreach). }
  split; [exact Hreach |]. split; [by destruct Hkeeps |].
  pose proof (A_on_record_activity_inv isdigit int clock w Hsync) as Hinv.
  destruct (FriendlyScoreRaceGUI.on_record_activity isdigit int clock w) as [w' | e].
  2: { destruct Hinv as [[-> _] | (e0 & team_id & d & c & n & title & _ & Hraise)];
         [done |].
       exfalso.
       destruct (A_record_activity_returns clock team_id d c n title
                   (FriendlyScoreRaceGUI.game w)) as (res & w0 & Hok); [| congruence].
       by apply A_reachable_counts_ok. }
  destruct Hinv as [(msg & -> & Hmsg) | Hinv]; [left; eauto |]. right.
  destruct Hinv as (team & difficulty & category & n & ok & msg & world'
                    & Hteam & Hname & Hd & Hc & Hn & Hint & Hcall & ->).
  assert (ok = true) as ->.
  { destruct ok; [done | exfalso].
    eapply (A_record_activity_accepts _ _ _ _ n); [| exact Hcall].
    unfold A_record_activity_invalid. intros [Hf | [Hdd | [Hcc | Hnn]]]; try done.
    - by eapply A_find_team_elem.
    - rewrite Hdd in Hd. by destruct Hd.
    - lia. }
  assert (msg = "활동이 반영되었습니다.") as ->.
  { destruct (A_record_activity_inv _ _ _ _ _ _ _ _ _ Hcall) as [[Hf _] | H]; [done |].
    destruct H as (? & ? & ? & ? & ? & ? & ? & _ & _ & _ & Hres & _). congruence. }
  cbn [negb].
  match goal with |- context [FriendlyScoreRaceGUI.refresh_all ?x] =>
    destruct (A_refresh_all_spec x) as (Hg & Hdict & Hshown & Htitle) end.
  exists team, difficulty, category, n, world'. rewrite Hg, Hdict, Hshown, Htitle.
  repeat split; done.
Qed.

Lemma A_window_is_sound_witness :
  FriendlyScoreRaceGUI.team_name_to_id A_example_window !! "emu"
  = Some "team_1772366400002_1001"
  ∧ ∃ w', FriendlyScoreRaceGUI.on_record_activity example_isdigit example_int example_clock
            A_example_window = Cli.Return w'
          ∧ FriendlyScoreRaceGUI.shown w' = FriendlyScoreRaceGUI.shown A_example_window
          ∧ FriendlyScoreRaceGUI.activity_title_var w' = ""
          ∧ (λ t, (BoardA.name t, BoardA.score t)) <$> BoardA.teams (BoardA.game
                                                                (FriendlyScoreRaceGUI.game w'))
            = [("koala", 0); ("emu", 80)].
Proof.
  destruct (A_window_is_sound example_isdigit example_int example_clock
              A_fresh_world A_example_window A_fresh_reachable A_example_window_opened)
    as (_ & Hdict & _ & _ & H).
  split.
  { apply (Hdict (BoardA.new_team "team_1772366400002_1001" "emu")).
    apply (list_elem_of_lookup_2 _ 1%nat). vm_compute. reflexivity. }
  assert (Hrun : ∃ w',
    FriendlyScoreRaceGUI.on_record_activity example_isdigit example_int example_clock
      A_example_window = Cli.Return w'
    ∧ (λ t, (BoardA.name t, BoardA.score t)) <$> BoardA.teams (BoardA.game
                                                          (FriendlyScoreRaceGUI.game w'))
      = [("koala", 0); ("emu", 80)]).
  { vm_compute. eexists. split; reflexivity. }
  destruct Hrun as (w' & Hrun & Hscores). exists w'. rewrite Hrun in H.
  split; [done |].
  destruct H as [(msg & _ & ->) | H].
  - exfalso. revert Hrun. vm_compute. discriminate.
  - destruct H as (? & ? & ? & ? & ? & _ & _ & _ & _ & _ & _ & _ & _ & Hshown & Htitle & _).
    repeat split; done.
Defined.
